(** * TitanLOB: a shallow embedding of the matching-engine core

    The development follows [order_book.cpp] (the out-of-line bodies of
    [OptimizedOrderBook]), the class declaration with its inline helpers
    and public entry points ([order_book.h], stored at the end of
    [gateway.h]), the object pool ([object_pool.h]), the output ring
    ([ring_buffer.h]) and [output_msg.h].

    Conventions.
    - Every C++ integer is a [Z]; the wrap-around of its type is written
      where the code computes ([wrap_u64], [wrap_u32], [wrap_i64]).
    - [std::vector<T>] and the heap arrays are finite maps from index to
      element; an index nobody wrote holds the value-initialised element.
      A vector access outside [0, size) has no defined behaviour in C++:
      it yields [Undefined].
    - A reference [PriceLevel&] is a pair (side, price index); a reference
      [Order&] is a pool index.  Reads through a reference always go to
      the store, so aliasing is the one of the source.
    - Loops that the source does not bound take fuel and yield [OutOfFuel]
      when it is exhausted. *)

From Stdlib Require Import ZArith Lia Bool.
From stdpp Require Import base option list gmap.

Local Open Scope Z_scope.

(** ** Results of fallible code *)

Inductive Result (A : Type) : Type :=
| Ok (a : A)
| OutOfFuel
| Undefined.

Arguments Ok {A} a.
Arguments OutOfFuel {A}.
Arguments Undefined {A}.

Definition bind {A B : Type} (r : Result A) (k : A -> Result B) : Result B :=
  match r with
  | Ok a => k a
  | OutOfFuel => OutOfFuel
  | Undefined => Undefined
  end.

Notation "'let*' x ':=' e 'in' k" := (bind e (fun x => k))
  (at level 10, x pattern, e at level 100, k at level 200).

(** ** Scalar types *)

Definition INT64_MAX : Z := 9223372036854775807.
Definition UINT32_MAX : Z := 4294967295.
Definition NULL_INDEX : Z := UINT32_MAX.

Definition OUTPUT_BUFFER_SIZE : Z := 1048576.
Definition BATCH_SIZE : Z := 64.
Definition PRICE_OFFSET : Z := 0.
Definition MAX_PRICE_LEVELS : Z := 33554432.
Definition BITMAP_WORDS : Z := MAX_PRICE_LEVELS / 64.
Definition INITIAL_ORDER_CAPACITY : Z := 5000000.

Definition wrap_u64 (z : Z) : Z := z mod 18446744073709551616.
Definition wrap_u32 (z : Z) : Z := z mod 4294967296.
Definition wrap_u8 (z : Z) : Z := z mod 256.
Definition wrap_i64 (z : Z) : Z :=
  (z + 9223372036854775808) mod 18446744073709551616 - 9223372036854775808.

Definition int64_range (z : Z) : Prop :=
  -9223372036854775808 <= z <= INT64_MAX.
Definition uint64_range (z : Z) : Prop := 0 <= z < 18446744073709551616.
Definition uint32_range (z : Z) : Prop := 0 <= z <= UINT32_MAX.

Inductive TimeInForce : Type := GTC | IOC | FOK | AON.

Inductive Side : Type := BUY | SELL.

Definition bool_to_side (is_buy : bool) : Side := if is_buy then BUY else SELL.

(** ** [std::vector<T>] *)

Record vec (T : Type) : Type := mk_vec {
  vec_data : gmap Z T;
  vec_size : Z
}.

Arguments mk_vec {T} _ _.
Arguments vec_data {T} _.
Arguments vec_size {T} _.

Definition vec_in_range {T} (v : vec T) (i : Z) : bool :=
  (0 <=? i) && (i <? vec_size v).

Definition vec_get {T} (d : T) (v : vec T) (i : Z) : Result T :=
  if vec_in_range v i then Ok (default d (vec_data v !! i)) else Undefined.

Definition vec_set {T} (v : vec T) (i : Z) (x : T) : Result (vec T) :=
  if vec_in_range v i then Ok (mk_vec (<[i := x]> (vec_data v)) (vec_size v))
  else Undefined.

(** [resize] to a size that is not smaller: the new elements are
    value-initialised, that is, absent from the map. *)
Definition vec_grow {T} (v : vec T) (n : Z) : vec T :=
  mk_vec (vec_data v) n.

(** ** Order records *)

Module Order.
Record t : Type := mk {
  order_id : Z;
  price : Z;
  quantity : Z;
  hidden_quantity : Z;
  peak_size : Z;
  next : Z;
  prev : Z;
  user_id_low : Z;
  flags : Z
}.

(** [T{}] *)
Definition zero : t := mk 0 0 0 0 0 0 0 0 0.

Definition is_iceberg (o : t) : bool := 0 <? peak_size o.
Definition total_quantity (o : t) : Z :=
  wrap_i64 (quantity o + hidden_quantity o).
Definition is_buy (o : t) : bool := negb (Z.land (flags o) 1 =? 0).
Definition is_aon (o : t) : bool := negb (Z.land (flags o) 2 =? 0).

Definition with_flags (f : Z) (o : t) : t :=
  mk (order_id o) (price o) (quantity o) (hidden_quantity o) (peak_size o)
     (next o) (prev o) (user_id_low o) f.
Definition with_quantity (q : Z) (o : t) : t :=
  mk (order_id o) (price o) q (hidden_quantity o) (peak_size o)
     (next o) (prev o) (user_id_low o) (flags o).
Definition with_hidden_quantity (h : Z) (o : t) : t :=
  mk (order_id o) (price o) (quantity o) h (peak_size o)
     (next o) (prev o) (user_id_low o) (flags o).
Definition with_next (n : Z) (o : t) : t :=
  mk (order_id o) (price o) (quantity o) (hidden_quantity o) (peak_size o)
     n (prev o) (user_id_low o) (flags o).
Definition with_prev (p : Z) (o : t) : t :=
  mk (order_id o) (price o) (quantity o) (hidden_quantity o) (peak_size o)
     (next o) p (user_id_low o) (flags o).

(** [flags |= 0x01] or [flags &= ~0x01] on a [uint8_t] *)
Definition set_buy (v : bool) (o : t) : t :=
  with_flags (if v then Z.lor (flags o) 1 else Z.land (flags o) 254) o.
Definition set_aon (v : bool) (o : t) : t :=
  with_flags (if v then Z.lor (flags o) 2 else Z.land (flags o) 253) o.
End Order.

Module PriceLevel.
Record t : Type := mk {
  head : Z;
  tail : Z;
  count : Z;
  total_volume : Z;
  total_visible_volume : Z;
  total_aon_volume : Z;
  total_non_aon_volume : Z
}.

(** the default member initialisers, also what [reset()] stores *)
Definition fresh : t := mk NULL_INDEX NULL_INDEX 0 0 0 0 0.

Definition empty (l : t) : bool := head l =? NULL_INDEX.
Definition reset (l : t) : t := fresh.

Definition with_head (h : Z) (l : t) : t :=
  mk h (tail l) (count l) (total_volume l) (total_visible_volume l)
     (total_aon_volume l) (total_non_aon_volume l).
Definition with_tail (x : Z) (l : t) : t :=
  mk (head l) x (count l) (total_volume l) (total_visible_volume l)
     (total_aon_volume l) (total_non_aon_volume l).
Definition with_count (c : Z) (l : t) : t :=
  mk (head l) (tail l) c (total_volume l) (total_visible_volume l)
     (total_aon_volume l) (total_non_aon_volume l).
Definition with_volumes (tv vv av nv : Z) (l : t) : t :=
  mk (head l) (tail l) (count l) tv vv av nv.
End PriceLevel.

Module OrderLocation.
Record t : Type := mk {
  price : Z;
  pool_idx : Z;
  flags : Z
}.

Definition zero : t := mk 0 0 0.

Definition is_buy (l : t) : bool := negb (Z.land (flags l) 1 =? 0).
Definition is_active (l : t) : bool := negb (Z.land (flags l) 2 =? 0).

Definition with_price (p : Z) (l : t) : t := mk p (pool_idx l) (flags l).
Definition with_pool_idx (i : Z) (l : t) : t := mk (price l) i (flags l).
Definition with_flags (f : Z) (l : t) : t := mk (price l) (pool_idx l) f.

Definition set_buy (v : bool) (l : t) : t :=
  with_flags (if v then Z.lor (flags l) 1 else Z.land (flags l) 254) l.
Definition set_active (v : bool) (l : t) : t :=
  with_flags (if v then Z.lor (flags l) 2 else Z.land (flags l) 253) l.
End OrderLocation.

(** ** The object pool ([object_pool.h]) *)

Module ObjectPool.
(** [free_indices_] is a vector used as a stack: the head of the list
    is [back()]. *)
Record t : Type := mk {
  pool_ : vec Order.t;
  free_indices_ : list Z
}.

(** [for (size_t i = hi; i > lo; --i) free.push_back(uint32_t(i - 1))],
    with [n = hi - lo] rounds *)
Fixpoint push_range (n : nat) (hi : Z) (free : list Z) : list Z :=
  match n with
  | O => free
  | S n' => push_range n' (hi - 1) (wrap_u32 (hi - 1) :: free)
  end.

Definition new (capacity : Z) : t :=
  mk (mk_vec ∅ capacity) (push_range (Z.to_nat capacity) capacity []).

Definition grow (p : t) : t :=
  let old_size := vec_size (pool_ p) in
  let new_size := wrap_u64 (old_size * 2) in
  mk (vec_grow (pool_ p) new_size)
     (push_range (Z.to_nat (new_size - old_size)) new_size (free_indices_ p)).

Definition allocate (p : t) : Result (Z * t) :=
  let p1 := match free_indices_ p with [] => grow p | _ => p end in
  match free_indices_ p1 with
  | [] => Undefined
  | idx :: rest => Ok (idx, mk (pool_ p1) rest)
  end.

Definition free (idx : Z) (p : t) : Result t :=
  let* v := vec_set (pool_ p) idx Order.zero in
  Ok (mk v (idx :: free_indices_ p)).

Definition at_ (p : t) (idx : Z) : Result Order.t :=
  vec_get Order.zero (pool_ p) idx.

Definition store (p : t) (idx : Z) (o : Order.t) : Result t :=
  let* v := vec_set (pool_ p) idx o in
  Ok (mk v (free_indices_ p)).

Definition capacity (p : t) : Z := vec_size (pool_ p).
Definition free_count (p : t) : Z := Z.of_nat (length (free_indices_ p)).
Definition used_count (p : t) : Z :=
  wrap_u64 (vec_size (pool_ p) - Z.of_nat (length (free_indices_ p))).

Definition reset (p : t) : t :=
  mk (pool_ p)
     (push_range (Z.to_nat (vec_size (pool_ p))) (vec_size (pool_ p)) []).
End ObjectPool.

Example ObjectPool_new_4 :
  ObjectPool.free_indices_ (ObjectPool.new 4) = [0; 1; 2; 3].
Proof. reflexivity. Qed.

(** ** Output records ([output_msg.h]) and the output ring ([ring_buffer.h]) *)

Inductive OutputMsg : Type :=
| make_trade (ts buy_id sell_id price qty : Z)
| make_accepted (ts order_id : Z) (side : Side) (price qty : Z)
| make_cancelled (ts order_id qty : Z).

Module RingBuffer.
Definition capacity_value : Z := OUTPUT_BUFFER_SIZE.
Definition mask : Z := capacity_value - 1.

(** Only the producer side runs in the engine; [tail_] is what the
    consumer last published. *)
Record t : Type := mk {
  buffer_ : gmap Z OutputMsg;
  head_ : Z;
  tail_ : Z
}.

Definition new : t := mk ∅ 0 0.

(** the two [memcpy] chunks: record [i] of the batch lands in slot
    [(write_idx + i) & mask] *)
Fixpoint copy_in (buf : gmap Z OutputMsg) (slot : Z) (src : list OutputMsg)
    (n : nat) : gmap Z OutputMsg :=
  match n, src with
  | S n', m :: src' =>
      copy_in (<[Z.land slot mask := m]> buf) (slot + 1) src' n'
  | _, _ => buf
  end.

Definition push_batch (batch_data : list OutputMsg) (count : Z) (r : t)
    : Z * t :=
  if count =? 0 then (0, r)
  else
    let current_head := head_ r in
    let current_tail := tail_ r in
    let used := Z.land (wrap_u64 (current_head - current_tail)) mask in
    let available := (capacity_value - 1) - used in
    let to_write := if count <? available then count else available in
    if to_write =? 0 then (0, r)
    else
      let write_idx := Z.land current_head mask in
      (to_write,
       mk (copy_in (buffer_ r) write_idx batch_data (Z.to_nat to_write))
          (wrap_u64 (current_head + to_write)) current_tail).

(** [try_push(item)] *)
Definition try_push (item : OutputMsg) (r : t) : bool * t :=
  let current_head := head_ r in
  let current_tail := tail_ r in
  if Z.land (wrap_u64 (current_head + 1)) mask =? Z.land current_tail mask
  then (false, r)
  else (true,
        mk (<[Z.land current_head mask := item]> (buffer_ r))
           (wrap_u64 (current_head + 1)) current_tail).

(** [buffer_[slot .. slot + n)]; a slot that was never written holds no
    record ([None]) *)
Fixpoint read_run (buf : gmap Z OutputMsg) (slot : Z) (n : nat)
    : list (option OutputMsg) :=
  match n with
  | O => []
  | S n' => buf !! slot :: read_run buf (slot + 1) n'
  end.

(** [try_pop(item)]: [None] when the call returns [false], else the item *)
Definition try_pop (r : t) : option (option OutputMsg) * t :=
  let current_tail := tail_ r in
  let current_head := head_ r in
  if (Z.land current_tail mask =? Z.land current_head mask)
     && (current_tail =? current_head)
  then (None, r)
  else (Some (buffer_ r !! Z.land current_tail mask),
        mk (buffer_ r) current_head (wrap_u64 (current_tail + 1))).

(** [pop_batch(out, max_count)]: the records copied to [out]; the second
    [memcpy] leaves the array when more than [capacity_value] records are
    left for it *)
Definition pop_batch (max_count : Z) (r : t)
    : Result (list (option OutputMsg) * t) :=
  let current_tail := tail_ r in
  let current_head := head_ r in
  let available := wrap_u64 (current_head - current_tail) in
  let to_read := if max_count <? available then max_count else available in
  if to_read =? 0 then Ok ([], r)
  else
    let read_idx := Z.land current_tail mask in
    let first_chunk := capacity_value - read_idx in
    let r' := mk (buffer_ r) current_head (wrap_u64 (current_tail + to_read)) in
    if to_read <=? first_chunk
    then Ok (read_run (buffer_ r) read_idx (Z.to_nat to_read), r')
    else if capacity_value <? to_read - first_chunk then Undefined
    else Ok (read_run (buffer_ r) read_idx (Z.to_nat first_chunk)
             ++ read_run (buffer_ r) 0 (Z.to_nat (to_read - first_chunk)),
             r').

Definition empty (r : t) : bool := head_ r =? tail_ r.

Definition full (r : t) : bool :=
  Z.land (wrap_u64 (head_ r + 1)) mask =? Z.land (tail_ r) mask.

Definition size_approx (r : t) : Z := wrap_u64 (head_ r - tail_ r).

Definition capacity : Z := capacity_value - 1.
End RingBuffer.

(** ** The book ([OptimizedOrderBook]) *)

(** [batch_buffer_] holds the [batch_count_] staged records, oldest first.
    [cerr_] collects the (bid, ask) pairs of the lines that
    [add_order_internal] writes to [std::cerr]. *)
Record Book : Type := mk_Book {
  bid_levels_ : gmap Z PriceLevel.t;
  ask_levels_ : gmap Z PriceLevel.t;
  bid_bitmap_ : gmap Z Z;
  ask_bitmap_ : gmap Z Z;
  best_bid_ : Z;
  best_ask_ : Z;
  best_bid_word_ : Z;
  best_ask_word_ : Z;
  bid_level_count_ : Z;
  ask_level_count_ : Z;
  order_pool_ : ObjectPool.t;
  order_index_ : vec OrderLocation.t;
  active_order_count_ : Z;
  max_order_id_ : Z;
  output_buffer_ : RingBuffer.t;
  use_ring_buffer_ : bool;
  emit_accepts_ : bool;
  emit_cancels_ : bool;
  batch_buffer_ : list OutputMsg;
  current_timestamp_ : Z;
  messages_processed_ : Z;
  trades_executed_ : Z;
  messages_dropped_ : Z;
  cerr_ : list (Z * Z)
}.

Definition set_bid_levels_ (v : gmap Z PriceLevel.t) (s : Book) : Book :=
  mk_Book v (ask_levels_ s) (bid_bitmap_ s) (ask_bitmap_ s) (best_bid_ s)
    (best_ask_ s) (best_bid_word_ s) (best_ask_word_ s) (bid_level_count_ s)
    (ask_level_count_ s) (order_pool_ s) (order_index_ s) (active_order_count_
    s) (max_order_id_ s) (output_buffer_ s) (use_ring_buffer_ s)
    (emit_accepts_ s) (emit_cancels_ s) (batch_buffer_ s) (current_timestamp_
    s) (messages_processed_ s) (trades_executed_ s) (messages_dropped_ s)
    (cerr_ s).
Definition set_ask_levels_ (v : gmap Z PriceLevel.t) (s : Book) : Book :=
  mk_Book (bid_levels_ s) v (bid_bitmap_ s) (ask_bitmap_ s) (best_bid_ s)
    (best_ask_ s) (best_bid_word_ s) (best_ask_word_ s) (bid_level_count_ s)
    (ask_level_count_ s) (order_pool_ s) (order_index_ s) (active_order_count_
    s) (max_order_id_ s) (output_buffer_ s) (use_ring_buffer_ s)
    (emit_accepts_ s) (emit_cancels_ s) (batch_buffer_ s) (current_timestamp_
    s) (messages_processed_ s) (trades_executed_ s) (messages_dropped_ s)
    (cerr_ s).
Definition set_bid_bitmap_ (v : gmap Z Z) (s : Book) : Book :=
  mk_Book (bid_levels_ s) (ask_levels_ s) v (ask_bitmap_ s) (best_bid_ s)
    (best_ask_ s) (best_bid_word_ s) (best_ask_word_ s) (bid_level_count_ s)
    (ask_level_count_ s) (order_pool_ s) (order_index_ s) (active_order_count_
    s) (max_order_id_ s) (output_buffer_ s) (use_ring_buffer_ s)
    (emit_accepts_ s) (emit_cancels_ s) (batch_buffer_ s) (current_timestamp_
    s) (messages_processed_ s) (trades_executed_ s) (messages_dropped_ s)
    (cerr_ s).
Definition set_ask_bitmap_ (v : gmap Z Z) (s : Book) : Book :=
  mk_Book (bid_levels_ s) (ask_levels_ s) (bid_bitmap_ s) v (best_bid_ s)
    (best_ask_ s) (best_bid_word_ s) (best_ask_word_ s) (bid_level_count_ s)
    (ask_level_count_ s) (order_pool_ s) (order_index_ s) (active_order_count_
    s) (max_order_id_ s) (output_buffer_ s) (use_ring_buffer_ s)
    (emit_accepts_ s) (emit_cancels_ s) (batch_buffer_ s) (current_timestamp_
    s) (messages_processed_ s) (trades_executed_ s) (messages_dropped_ s)
    (cerr_ s).
Definition set_best_bid_ (v : Z) (s : Book) : Book :=
  mk_Book (bid_levels_ s) (ask_levels_ s) (bid_bitmap_ s) (ask_bitmap_ s) v
    (best_ask_ s) (best_bid_word_ s) (best_ask_word_ s) (bid_level_count_ s)
    (ask_level_count_ s) (order_pool_ s) (order_index_ s) (active_order_count_
    s) (max_order_id_ s) (output_buffer_ s) (use_ring_buffer_ s)
    (emit_accepts_ s) (emit_cancels_ s) (batch_buffer_ s) (current_timestamp_
    s) (messages_processed_ s) (trades_executed_ s) (messages_dropped_ s)
    (cerr_ s).
Definition set_best_ask_ (v : Z) (s : Book) : Book :=
  mk_Book (bid_levels_ s) (ask_levels_ s) (bid_bitmap_ s) (ask_bitmap_ s)
    (best_bid_ s) v (best_bid_word_ s) (best_ask_word_ s) (bid_level_count_ s)
    (ask_level_count_ s) (order_pool_ s) (order_index_ s) (active_order_count_
    s) (max_order_id_ s) (output_buffer_ s) (use_ring_buffer_ s)
    (emit_accepts_ s) (emit_cancels_ s) (batch_buffer_ s) (current_timestamp_
    s) (messages_processed_ s) (trades_executed_ s) (messages_dropped_ s)
    (cerr_ s).
Definition set_best_bid_word_ (v : Z) (s : Book) : Book :=
  mk_Book (bid_levels_ s) (ask_levels_ s) (bid_bitmap_ s) (ask_bitmap_ s)
    (best_bid_ s) (best_ask_ s) v (best_ask_word_ s) (bid_level_count_ s)
    (ask_level_count_ s) (order_pool_ s) (order_index_ s) (active_order_count_
    s) (max_order_id_ s) (output_buffer_ s) (use_ring_buffer_ s)
    (emit_accepts_ s) (emit_cancels_ s) (batch_buffer_ s) (current_timestamp_
    s) (messages_processed_ s) (trades_executed_ s) (messages_dropped_ s)
    (cerr_ s).
Definition set_best_ask_word_ (v : Z) (s : Book) : Book :=
  mk_Book (bid_levels_ s) (ask_levels_ s) (bid_bitmap_ s) (ask_bitmap_ s)
    (best_bid_ s) (best_ask_ s) (best_bid_word_ s) v (bid_level_count_ s)
    (ask_level_count_ s) (order_pool_ s) (order_index_ s) (active_order_count_
    s) (max_order_id_ s) (output_buffer_ s) (use_ring_buffer_ s)
    (emit_accepts_ s) (emit_cancels_ s) (batch_buffer_ s) (current_timestamp_
    s) (messages_processed_ s) (trades_executed_ s) (messages_dropped_ s)
    (cerr_ s).
Definition set_bid_level_count_ (v : Z) (s : Book) : Book :=
  mk_Book (bid_levels_ s) (ask_levels_ s) (bid_bitmap_ s) (ask_bitmap_ s)
    (best_bid_ s) (best_ask_ s) (best_bid_word_ s) (best_ask_word_ s) v
    (ask_level_count_ s) (order_pool_ s) (order_index_ s) (active_order_count_
    s) (max_order_id_ s) (output_buffer_ s) (use_ring_buffer_ s)
    (emit_accepts_ s) (emit_cancels_ s) (batch_buffer_ s) (current_timestamp_
    s) (messages_processed_ s) (trades_executed_ s) (messages_dropped_ s)
    (cerr_ s).
Definition set_ask_level_count_ (v : Z) (s : Book) : Book :=
  mk_Book (bid_levels_ s) (ask_levels_ s) (bid_bitmap_ s) (ask_bitmap_ s)
    (best_bid_ s) (best_ask_ s) (best_bid_word_ s) (best_ask_word_ s)
    (bid_level_count_ s) v (order_pool_ s) (order_index_ s)
    (active_order_count_ s) (max_order_id_ s) (output_buffer_ s)
    (use_ring_buffer_ s) (emit_accepts_ s) (emit_cancels_ s) (batch_buffer_ s)
    (current_timestamp_ s) (messages_processed_ s) (trades_executed_ s)
    (messages_dropped_ s) (cerr_ s).
Definition set_order_pool_ (v : ObjectPool.t) (s : Book) : Book :=
  mk_Book (bid_levels_ s) (ask_levels_ s) (bid_bitmap_ s) (ask_bitmap_ s)
    (best_bid_ s) (best_ask_ s) (best_bid_word_ s) (best_ask_word_ s)
    (bid_level_count_ s) (ask_level_count_ s) v (order_index_ s)
    (active_order_count_ s) (max_order_id_ s) (output_buffer_ s)
    (use_ring_buffer_ s) (emit_accepts_ s) (emit_cancels_ s) (batch_buffer_ s)
    (current_timestamp_ s) (messages_processed_ s) (trades_executed_ s)
    (messages_dropped_ s) (cerr_ s).
Definition set_order_index_ (v : vec OrderLocation.t) (s : Book) : Book :=
  mk_Book (bid_levels_ s) (ask_levels_ s) (bid_bitmap_ s) (ask_bitmap_ s)
    (best_bid_ s) (best_ask_ s) (best_bid_word_ s) (best_ask_word_ s)
    (bid_level_count_ s) (ask_level_count_ s) (order_pool_ s) v
    (active_order_count_ s) (max_order_id_ s) (output_buffer_ s)
    (use_ring_buffer_ s) (emit_accepts_ s) (emit_cancels_ s) (batch_buffer_ s)
    (current_timestamp_ s) (messages_processed_ s) (trades_executed_ s)
    (messages_dropped_ s) (cerr_ s).
Definition set_active_order_count_ (v : Z) (s : Book) : Book :=
  mk_Book (bid_levels_ s) (ask_levels_ s) (bid_bitmap_ s) (ask_bitmap_ s)
    (best_bid_ s) (best_ask_ s) (best_bid_word_ s) (best_ask_word_ s)
    (bid_level_count_ s) (ask_level_count_ s) (order_pool_ s) (order_index_ s)
    v (max_order_id_ s) (output_buffer_ s) (use_ring_buffer_ s) (emit_accepts_
    s) (emit_cancels_ s) (batch_buffer_ s) (current_timestamp_ s)
    (messages_processed_ s) (trades_executed_ s) (messages_dropped_ s) 
    (cerr_ s).
Definition set_max_order_id_ (v : Z) (s : Book) : Book :=
  mk_Book (bid_levels_ s) (ask_levels_ s) (bid_bitmap_ s) (ask_bitmap_ s)
    (best_bid_ s) (best_ask_ s) (best_bid_word_ s) (best_ask_word_ s)
    (bid_level_count_ s) (ask_level_count_ s) (order_pool_ s) (order_index_ s)
    (active_order_count_ s) v (output_buffer_ s) (use_ring_buffer_ s)
    (emit_accepts_ s) (emit_cancels_ s) (batch_buffer_ s) (current_timestamp_
    s) (messages_processed_ s) (trades_executed_ s) (messages_dropped_ s)
    (cerr_ s).
Definition set_output_buffer_ (v : RingBuffer.t) (s : Book) : Book :=
  mk_Book (bid_levels_ s) (ask_levels_ s) (bid_bitmap_ s) (ask_bitmap_ s)
    (best_bid_ s) (best_ask_ s) (best_bid_word_ s) (best_ask_word_ s)
    (bid_level_count_ s) (ask_level_count_ s) (order_pool_ s) (order_index_ s)
    (active_order_count_ s) (max_order_id_ s) v (use_ring_buffer_ s)
    (emit_accepts_ s) (emit_cancels_ s) (batch_buffer_ s) (current_timestamp_
    s) (messages_processed_ s) (trades_executed_ s) (messages_dropped_ s)
    (cerr_ s).
Definition set_use_ring_buffer_ (v : bool) (s : Book) : Book :=
  mk_Book (bid_levels_ s) (ask_levels_ s) (bid_bitmap_ s) (ask_bitmap_ s)
    (best_bid_ s) (best_ask_ s) (best_bid_word_ s) (best_ask_word_ s)
    (bid_level_count_ s) (ask_level_count_ s) (order_pool_ s) (order_index_ s)
    (active_order_count_ s) (max_order_id_ s) (output_buffer_ s) v
    (emit_accepts_ s) (emit_cancels_ s) (batch_buffer_ s) (current_timestamp_
    s) (messages_processed_ s) (trades_executed_ s) (messages_dropped_ s)
    (cerr_ s).
Definition set_emit_accepts_ (v : bool) (s : Book) : Book :=
  mk_Book (bid_levels_ s) (ask_levels_ s) (bid_bitmap_ s) (ask_bitmap_ s)
    (best_bid_ s) (best_ask_ s) (best_bid_word_ s) (best_ask_word_ s)
    (bid_level_count_ s) (ask_level_count_ s) (order_pool_ s) (order_index_ s)
    (active_order_count_ s) (max_order_id_ s) (output_buffer_ s)
    (use_ring_buffer_ s) v (emit_cancels_ s) (batch_buffer_ s)
    (current_timestamp_ s) (messages_processed_ s) (trades_executed_ s)
    (messages_dropped_ s) (cerr_ s).
Definition set_emit_cancels_ (v : bool) (s : Book) : Book :=
  mk_Book (bid_levels_ s) (ask_levels_ s) (bid_bitmap_ s) (ask_bitmap_ s)
    (best_bid_ s) (best_ask_ s) (best_bid_word_ s) (best_ask_word_ s)
    (bid_level_count_ s) (ask_level_count_ s) (order_pool_ s) (order_index_ s)
    (active_order_count_ s) (max_order_id_ s) (output_buffer_ s)
    (use_ring_buffer_ s) (emit_accepts_ s) v (batch_buffer_ s)
    (current_timestamp_ s) (messages_processed_ s) (trades_executed_ s)
    (messages_dropped_ s) (cerr_ s).
Definition set_batch_buffer_ (v : list OutputMsg) (s : Book) : Book :=
  mk_Book (bid_levels_ s) (ask_levels_ s) (bid_bitmap_ s) (ask_bitmap_ s)
    (best_bid_ s) (best_ask_ s) (best_bid_word_ s) (best_ask_word_ s)
    (bid_level_count_ s) (ask_level_count_ s) (order_pool_ s) (order_index_ s)
    (active_order_count_ s) (max_order_id_ s) (output_buffer_ s)
    (use_ring_buffer_ s) (emit_accepts_ s) (emit_cancels_ s) v
    (current_timestamp_ s) (messages_processed_ s) (trades_executed_ s)
    (messages_dropped_ s) (cerr_ s).
Definition set_current_timestamp_ (v : Z) (s : Book) : Book :=
  mk_Book (bid_levels_ s) (ask_levels_ s) (bid_bitmap_ s) (ask_bitmap_ s)
    (best_bid_ s) (best_ask_ s) (best_bid_word_ s) (best_ask_word_ s)
    (bid_level_count_ s) (ask_level_count_ s) (order_pool_ s) (order_index_ s)
    (active_order_count_ s) (max_order_id_ s) (output_buffer_ s)
    (use_ring_buffer_ s) (emit_accepts_ s) (emit_cancels_ s) (batch_buffer_ s)
    v (messages_processed_ s) (trades_executed_ s) (messages_dropped_ s)
    (cerr_ s).
Definition set_messages_processed_ (v : Z) (s : Book) : Book :=
  mk_Book (bid_levels_ s) (ask_levels_ s) (bid_bitmap_ s) (ask_bitmap_ s)
    (best_bid_ s) (best_ask_ s) (best_bid_word_ s) (best_ask_word_ s)
    (bid_level_count_ s) (ask_level_count_ s) (order_pool_ s) (order_index_ s)
    (active_order_count_ s) (max_order_id_ s) (output_buffer_ s)
    (use_ring_buffer_ s) (emit_accepts_ s) (emit_cancels_ s) (batch_buffer_ s)
    (current_timestamp_ s) v (trades_executed_ s) (messages_dropped_ s) 
    (cerr_ s).
Definition set_trades_executed_ (v : Z) (s : Book) : Book :=
  mk_Book (bid_levels_ s) (ask_levels_ s) (bid_bitmap_ s) (ask_bitmap_ s)
    (best_bid_ s) (best_ask_ s) (best_bid_word_ s) (best_ask_word_ s)
    (bid_level_count_ s) (ask_level_count_ s) (order_pool_ s) (order_index_ s)
    (active_order_count_ s) (max_order_id_ s) (output_buffer_ s)
    (use_ring_buffer_ s) (emit_accepts_ s) (emit_cancels_ s) (batch_buffer_ s)
    (current_timestamp_ s) (messages_processed_ s) v (messages_dropped_ s)
    (cerr_ s).
Definition set_messages_dropped_ (v : Z) (s : Book) : Book :=
  mk_Book (bid_levels_ s) (ask_levels_ s) (bid_bitmap_ s) (ask_bitmap_ s)
    (best_bid_ s) (best_ask_ s) (best_bid_word_ s) (best_ask_word_ s)
    (bid_level_count_ s) (ask_level_count_ s) (order_pool_ s) (order_index_ s)
    (active_order_count_ s) (max_order_id_ s) (output_buffer_ s)
    (use_ring_buffer_ s) (emit_accepts_ s) (emit_cancels_ s) (batch_buffer_ s)
    (current_timestamp_ s) (messages_processed_ s) (trades_executed_ s) v
    (cerr_ s).
Definition set_cerr_ (v : list (Z * Z)) (s : Book) : Book :=
  mk_Book (bid_levels_ s) (ask_levels_ s) (bid_bitmap_ s) (ask_bitmap_ s)
    (best_bid_ s) (best_ask_ s) (best_bid_word_ s) (best_ask_word_ s)
    (bid_level_count_ s) (ask_level_count_ s) (order_pool_ s) (order_index_ s)
    (active_order_count_ s) (max_order_id_ s) (output_buffer_ s)
    (use_ring_buffer_ s) (emit_accepts_ s) (emit_cancels_ s) (batch_buffer_ s)
    (current_timestamp_ s) (messages_processed_ s) (trades_executed_ s)
    (messages_dropped_ s) v.

(** ** Bitmaps over price slots *)

Definition bitmap_word (bitmap : gmap Z Z) (w : Z) : Z :=
  default 0 (bitmap !! w).

(** [63 - __builtin_clzll(x)] is the position of the highest set bit. *)
Definition clzll (x : Z) : Z := 63 - Z.log2 x.

Fixpoint ctz_pos (p : positive) : Z :=
  match p with
  | xO p' => 1 + ctz_pos p'
  | _ => 0
  end.

(** [__builtin_ctzll(x)], called on non-zero words only *)
Definition ctzll (x : Z) : Z :=
  match x with
  | Zpos p => ctz_pos p
  | _ => 64
  end.

(** [for (int64_t w = start_word; w >= 0; --w)], [n] rounds left *)
Fixpoint find_highest_from (n : nat) (bitmap : gmap Z Z) (w : Z) : Z :=
  match n with
  | O => -1
  | S n' =>
      if negb (bitmap_word bitmap w =? 0)
      then w * 64 + (63 - clzll (bitmap_word bitmap w))
      else find_highest_from n' bitmap (w - 1)
  end.

Definition bitmap_find_highest (bitmap : gmap Z Z) (num_words start_word : Z)
    : Z :=
  find_highest_from (Z.to_nat (start_word + 1)) bitmap start_word.

(** [for (size_t w = start_word; w < num_words; ++w)], [n] rounds left *)
Fixpoint find_lowest_from (n : nat) (bitmap : gmap Z Z) (w : Z) : Z :=
  match n with
  | O => -1
  | S n' =>
      if negb (bitmap_word bitmap w =? 0)
      then w * 64 + ctzll (bitmap_word bitmap w)
      else find_lowest_from n' bitmap (w + 1)
  end.

Definition bitmap_find_lowest (bitmap : gmap Z Z) (num_words start_word : Z)
    : Z :=
  find_lowest_from (Z.to_nat (num_words - wrap_u64 start_word)) bitmap
    (wrap_u64 start_word).

(** [bitmap[idx / 64] |= (1ULL << (idx % 64))] *)
Definition bitmap_set (bitmap : gmap Z Z) (idx : Z) : gmap Z Z :=
  <[idx / 64 := Z.lor (bitmap_word bitmap (idx / 64))
                      (Z.shiftl 1 (idx mod 64))]> bitmap.

(** [bitmap[idx / 64] &= ~(1ULL << (idx % 64))] *)
Definition bitmap_clear (bitmap : gmap Z Z) (idx : Z) : gmap Z Z :=
  <[idx / 64 := Z.ldiff (bitmap_word bitmap (idx / 64))
                        (Z.shiftl 1 (idx mod 64))]> bitmap.

Definition bitmap_test (bitmap : gmap Z Z) (idx : Z) : bool :=
  negb (Z.land (bitmap_word bitmap (idx / 64)) (Z.shiftl 1 (idx mod 64)) =? 0).

(** ** Private helpers of the book *)

Definition price_to_index (price : Z) : Z := wrap_u64 (price - PRICE_OFFSET).
Definition index_to_price (idx : Z) : Z := wrap_i64 (wrap_i64 idx + PRICE_OFFSET).

Definition level_at (levels : gmap Z PriceLevel.t) (idx : Z) : PriceLevel.t :=
  default PriceLevel.fresh (levels !! idx).

(** A [PriceLevel&] into [bid_levels_] ([bid = true]) or [ask_levels_]. *)
Definition levels_of (bid : bool) (s : Book) : gmap Z PriceLevel.t :=
  if bid then bid_levels_ s else ask_levels_ s.

Definition get_level (bid : bool) (lidx : Z) (s : Book) : PriceLevel.t :=
  level_at (levels_of bid s) lidx.

Definition put_level (bid : bool) (lidx : Z) (l : PriceLevel.t) (s : Book)
    : Book :=
  if bid then set_bid_levels_ (<[lidx := l]> (bid_levels_ s)) s
  else set_ask_levels_ (<[lidx := l]> (ask_levels_ s)) s.

Definition pool_at (s : Book) (idx : Z) : Result Order.t :=
  ObjectPool.at_ (order_pool_ s) idx.

Definition pool_store (idx : Z) (o : Order.t) (s : Book) : Result Book :=
  let* p := ObjectPool.store (order_pool_ s) idx o in
  Ok (set_order_pool_ p s).

Definition ensure_capacity (order_id : Z) (s : Book) : Book :=
  let index := order_index_ s in
  let s1 :=
    if vec_size index <=? order_id
    then set_order_index_
           (vec_grow index (Z.max (wrap_u64 (order_id + 1))
                                  (wrap_u64 (vec_size index * 2)))) s
    else s in
  if max_order_id_ s1 <? order_id then set_max_order_id_ order_id s1 else s1.

Definition list_push_back (bid : bool) (lidx : Z) (idx : Z) (s : Book)
    : Result Book :=
  let* node := pool_at s idx in
  let* s1 := pool_store idx (Order.with_next NULL_INDEX node) s in
  let* node := pool_at s1 idx in
  let* s2 := pool_store idx (Order.with_prev (PriceLevel.tail (get_level bid lidx s1)) node) s1 in
  let level := get_level bid lidx s2 in
  let* s3 :=
    if negb (PriceLevel.tail level =? NULL_INDEX) then
      let* t := pool_at s2 (PriceLevel.tail level) in
      pool_store (PriceLevel.tail level) (Order.with_next idx t) s2
    else
      Ok (put_level bid lidx (PriceLevel.with_head idx level) s2) in
  let s4 := put_level bid lidx (PriceLevel.with_tail idx (get_level bid lidx s3)) s3 in
  let level := get_level bid lidx s4 in
  Ok (put_level bid lidx
        (PriceLevel.with_count (wrap_u32 (PriceLevel.count level + 1)) level) s4).

Definition list_remove (bid : bool) (lidx : Z) (idx : Z) (s : Book)
    : Result Book :=
  let* node := pool_at s idx in
  let* s1 :=
    if negb (Order.prev node =? NULL_INDEX) then
      let* p := pool_at s (Order.prev node) in
      pool_store (Order.prev node) (Order.with_next (Order.next node) p) s
    else
      Ok (put_level bid lidx
            (PriceLevel.with_head (Order.next node) (get_level bid lidx s)) s) in
  let* node := pool_at s1 idx in
  let* s2 :=
    if negb (Order.next node =? NULL_INDEX) then
      let* n := pool_at s1 (Order.next node) in
      pool_store (Order.next node) (Order.with_prev (Order.prev node) n) s1
    else
      Ok (put_level bid lidx
            (PriceLevel.with_tail (Order.prev node) (get_level bid lidx s1)) s1) in
  let* node := pool_at s2 idx in
  let* s3 :=
    pool_store idx (Order.with_prev NULL_INDEX (Order.with_next NULL_INDEX node))
      s2 in
  let level := get_level bid lidx s3 in
  Ok (put_level bid lidx
        (PriceLevel.with_count (wrap_u32 (PriceLevel.count level - 1)) level) s3).

Definition add_to_level_volume (bid : bool) (lidx : Z) (idx : Z) (s : Book)
    : Result Book :=
  let* order := pool_at s idx in
  let level := get_level bid lidx s in
  let total := wrap_i64 (Order.quantity order + Order.hidden_quantity order) in
  Ok (put_level bid lidx
        (PriceLevel.with_volumes
           (wrap_i64 (PriceLevel.total_volume level + total))
           (wrap_i64 (PriceLevel.total_visible_volume level + Order.quantity order))
           (if Order.is_aon order
            then wrap_i64 (PriceLevel.total_aon_volume level + total)
            else PriceLevel.total_aon_volume level)
           (if Order.is_aon order
            then PriceLevel.total_non_aon_volume level
            else wrap_i64 (PriceLevel.total_non_aon_volume level + total))
           level) s).

Definition remove_from_level_volume (bid : bool) (lidx : Z) (idx : Z)
    (s : Book) : Result Book :=
  let* order := pool_at s idx in
  let level := get_level bid lidx s in
  let total := wrap_i64 (Order.quantity order + Order.hidden_quantity order) in
  Ok (put_level bid lidx
        (PriceLevel.with_volumes
           (wrap_i64 (PriceLevel.total_volume level - total))
           (wrap_i64 (PriceLevel.total_visible_volume level - Order.quantity order))
           (if Order.is_aon order
            then wrap_i64 (PriceLevel.total_aon_volume level - total)
            else PriceLevel.total_aon_volume level)
           (if Order.is_aon order
            then PriceLevel.total_non_aon_volume level
            else wrap_i64 (PriceLevel.total_non_aon_volume level - total))
           level) s).

Definition adjust_level_volume (bid : bool) (lidx : Z)
    (visible_delta hidden_delta : Z) (is_aon : bool) (s : Book) : Book :=
  let level := get_level bid lidx s in
  let delta := wrap_i64 (visible_delta + hidden_delta) in
  put_level bid lidx
    (PriceLevel.with_volumes
       (wrap_i64 (PriceLevel.total_volume level + delta))
       (wrap_i64 (PriceLevel.total_visible_volume level + visible_delta))
       (if is_aon
        then wrap_i64 (PriceLevel.total_aon_volume level + delta)
        else PriceLevel.total_aon_volume level)
       (if is_aon
        then PriceLevel.total_non_aon_volume level
        else wrap_i64 (PriceLevel.total_non_aon_volume level + delta))
       level) s.

Definition update_best_bid_after_add (price : Z) (s : Book) : Book :=
  let idx := price_to_index price in
  let s1 := set_bid_bitmap_ (bitmap_set (bid_bitmap_ s) idx) s in
  if (best_bid_ s1 <? 0) || (best_bid_ s1 <? price)
  then set_best_bid_word_ (idx / 64) (set_best_bid_ price s1)
  else s1.

Definition update_best_ask_after_add (price : Z) (s : Book) : Book :=
  let idx := price_to_index price in
  let s1 := set_ask_bitmap_ (bitmap_set (ask_bitmap_ s) idx) s in
  if (best_ask_ s1 =? INT64_MAX) || (price <? best_ask_ s1)
  then set_best_ask_word_ (idx / 64) (set_best_ask_ price s1)
  else s1.

Definition update_best_bid_after_remove (removed_price : Z) (s : Book) : Book :=
  let idx := price_to_index removed_price in
  let s1 :=
    if PriceLevel.empty (get_level true idx s)
    then set_bid_bitmap_ (bitmap_clear (bid_bitmap_ s) idx) s
    else s in
  if removed_price =? best_bid_ s1 then
    let new_best :=
      bitmap_find_highest (bid_bitmap_ s1) BITMAP_WORDS (best_bid_word_ s1) in
    if 0 <=? new_best
    then set_best_bid_word_ (new_best / 64)
           (set_best_bid_ (index_to_price new_best) s1)
    else set_best_bid_word_ (-1) (set_best_bid_ (-1) s1)
  else s1.

Definition update_best_ask_after_remove (removed_price : Z) (s : Book) : Book :=
  let idx := price_to_index removed_price in
  let s1 :=
    if PriceLevel.empty (get_level false idx s)
    then set_ask_bitmap_ (bitmap_clear (ask_bitmap_ s) idx) s
    else s in
  if removed_price =? best_ask_ s1 then
    let new_best :=
      bitmap_find_lowest (ask_bitmap_ s1) BITMAP_WORDS (best_ask_word_ s1) in
    if 0 <=? new_best
    then set_best_ask_word_ (new_best / 64)
           (set_best_ask_ (index_to_price new_best) s1)
    else set_best_ask_word_ 0 (set_best_ask_ INT64_MAX s1)
  else s1.

(** ** Event emission *)

Definition flush_batch (s : Book) : Book :=
  let batch_count := Z.of_nat (length (batch_buffer_ s)) in
  if 0 <? batch_count then
    let '(pushed, ring) :=
      RingBuffer.push_batch (batch_buffer_ s) batch_count (output_buffer_ s) in
    let s1 := set_output_buffer_ ring s in
    let s2 :=
      if pushed <? batch_count
      then set_messages_dropped_
             (wrap_u64 (messages_dropped_ s1 + (batch_count - pushed))) s1
      else s1 in
    set_batch_buffer_ [] s2
  else s.

(** [batch_buffer_[batch_count_++] = msg; if (batch_count_ >= BATCH_SIZE)
    flush_batch();] *)
Definition stage (msg : OutputMsg) (s : Book) : Book :=
  let s1 := set_batch_buffer_ (batch_buffer_ s ++ [msg]) s in
  if BATCH_SIZE <=? Z.of_nat (length (batch_buffer_ s1))
  then flush_batch s1 else s1.

Definition emit_trade (buy_id sell_id price qty : Z) (s : Book) : Book :=
  let s1 := set_trades_executed_ (wrap_u64 (trades_executed_ s + 1)) s in
  if use_ring_buffer_ s1
  then stage (make_trade (current_timestamp_ s1) buy_id sell_id price qty) s1
  else s1.

Definition emit_order_accepted (order_id : Z) (side : Side) (price qty : Z)
    (s : Book) : Book :=
  if negb (emit_accepts_ s) then s
  else if use_ring_buffer_ s
  then stage (make_accepted (current_timestamp_ s) order_id side price qty) s
  else s.

Definition emit_order_cancelled (order_id cancelled_qty : Z) (s : Book)
    : Book :=
  if negb (emit_cancels_ s) then s
  else if use_ring_buffer_ s
  then stage (make_cancelled (current_timestamp_ s) order_id cancelled_qty) s
  else s.

(** ** Resting an order ([order_book.cpp]) *)

(** the location record written after [ensure_capacity] *)
Definition index_entry (order_id : Z) (is_buy : bool) (price idx : Z)
    (s : Book) : Result Book :=
  let s1 := ensure_capacity order_id s in
  let* loc := vec_get OrderLocation.zero (order_index_ s1) order_id in
  let loc :=
    OrderLocation.set_active true
      (OrderLocation.set_buy is_buy
         (OrderLocation.with_flags 0
            (OrderLocation.with_pool_idx idx
               (OrderLocation.with_price price loc)))) in
  let* index := vec_set (order_index_ s1) order_id loc in
  let s2 := set_order_index_ index s1 in
  Ok (set_active_order_count_ (wrap_u64 (active_order_count_ s2 + 1)) s2).

(** [if (was_empty) { ..._level_count_++; update_best_..._after_add(price); }] *)
Definition level_opened (is_buy : bool) (price : Z) (s : Book) : Book :=
  if is_buy
  then update_best_bid_after_add price
         (set_bid_level_count_ (wrap_u32 (bid_level_count_ s + 1)) s)
  else update_best_ask_after_add price
         (set_ask_level_count_ (wrap_u32 (ask_level_count_ s + 1)) s).

(** the diagnostic that closes [add_order_internal] in [order_book.cpp] *)
Definition cross_check (s : Book) : Book :=
  if (0 <=? best_bid_ s) && negb (best_ask_ s =? INT64_MAX)
     && (best_ask_ s <=? best_bid_ s)
  then set_cerr_ (cerr_ s ++ [(best_bid_ s, best_ask_ s)]) s
  else s.

Definition add_order_internal (order_id : Z) (is_buy : bool)
    (price quantity user_id : Z) (s : Book) : Result Book :=
  let price_idx := price_to_index price in
  if MAX_PRICE_LEVELS <=? price_idx then Ok s
  else
    let was_empty := PriceLevel.empty (get_level is_buy price_idx s) in
    let* (idx, pool) := ObjectPool.allocate (order_pool_ s) in
    let s := set_order_pool_ pool s in
    let* _ := pool_at s idx in
    let order :=
      Order.set_aon false
        (Order.set_buy is_buy
           (Order.mk order_id price quantity 0 0 NULL_INDEX NULL_INDEX
              user_id 0)) in
    let* s := pool_store idx order s in
    let* s := list_push_back is_buy price_idx idx s in
    let* s := add_to_level_volume is_buy price_idx idx s in
    let s := if was_empty then level_opened is_buy price s else s in
    let* s := index_entry order_id is_buy price idx s in
    let s := emit_order_accepted order_id (bool_to_side is_buy) price quantity s in
    Ok (cross_check s).

Definition add_iceberg_internal (order_id : Z) (is_buy : bool)
    (price total_quantity visible_quantity user_id : Z) (s : Book)
    : Result Book :=
  let price_idx := price_to_index price in
  if MAX_PRICE_LEVELS <=? price_idx then Ok s
  else
    let was_empty := PriceLevel.empty (get_level is_buy price_idx s) in
    let display_qty := Z.min visible_quantity total_quantity in
    let hidden_qty := wrap_i64 (total_quantity - display_qty) in
    let* (idx, pool) := ObjectPool.allocate (order_pool_ s) in
    let s := set_order_pool_ pool s in
    let* _ := pool_at s idx in
    let order :=
      Order.set_aon false
        (Order.set_buy is_buy
           (Order.mk order_id price display_qty hidden_qty visible_quantity
              NULL_INDEX NULL_INDEX user_id 0)) in
    let* s := pool_store idx order s in
    let* s := list_push_back is_buy price_idx idx s in
    let* s := add_to_level_volume is_buy price_idx idx s in
    let s := if was_empty then level_opened is_buy price s else s in
    let* s := index_entry order_id is_buy price idx s in
    Ok (emit_order_accepted order_id (bool_to_side is_buy) price display_qty s).

Definition add_aon_internal (order_id : Z) (is_buy : bool)
    (price quantity user_id : Z) (s : Book) : Result Book :=
  let price_idx := price_to_index price in
  if MAX_PRICE_LEVELS <=? price_idx then Ok s
  else
    let was_empty := PriceLevel.empty (get_level is_buy price_idx s) in
    let* (idx, pool) := ObjectPool.allocate (order_pool_ s) in
    let s := set_order_pool_ pool s in
    let* _ := pool_at s idx in
    let order :=
      Order.set_aon true
        (Order.set_buy is_buy
           (Order.mk order_id price quantity 0 0 NULL_INDEX NULL_INDEX
              user_id 0)) in
    let* s := pool_store idx order s in
    let* s := list_push_back is_buy price_idx idx s in
    let* s := add_to_level_volume is_buy price_idx idx s in
    let s := if was_empty then level_opened is_buy price s else s in
    let* s := index_entry order_id is_buy price idx s in
    Ok (emit_order_accepted order_id (bool_to_side is_buy) price quantity s).

(** ** Cancel and modify *)

(** [order_id >= order_index_.size() || !order_index_[order_id].is_active()] *)
Definition unknown_or_inactive (order_id : Z) (s : Book) : Result bool :=
  if vec_size (order_index_ s) <=? order_id then Ok true
  else
    let* loc := vec_get OrderLocation.zero (order_index_ s) order_id in
    Ok (negb (OrderLocation.is_active loc)).

(** [if (level.empty()) { ..._level_count_--; update_best_..._after_remove(p); }] *)
Definition level_closed (is_buy : bool) (price : Z) (s : Book) : Book :=
  if is_buy
  then update_best_bid_after_remove price
         (set_bid_level_count_ (wrap_u32 (bid_level_count_ s - 1)) s)
  else update_best_ask_after_remove price
         (set_ask_level_count_ (wrap_u32 (ask_level_count_ s - 1)) s).

Definition cancel_order_internal (order_id : Z) (s : Book) : Result Book :=
  let* skip := unknown_or_inactive order_id s in
  if skip then Ok s
  else
    let* loc := vec_get OrderLocation.zero (order_index_ s) order_id in
    let price_idx := price_to_index (OrderLocation.price loc) in
    if MAX_PRICE_LEVELS <=? price_idx then Ok s
    else
      let is_buy := OrderLocation.is_buy loc in
      let pool_idx := OrderLocation.pool_idx loc in
      let* order := pool_at s pool_idx in
      let cancelled_qty :=
        wrap_i64 (Order.quantity order + Order.hidden_quantity order) in
      let* s := remove_from_level_volume is_buy price_idx pool_idx s in
      let* s := list_remove is_buy price_idx pool_idx s in
      let* pool := ObjectPool.free pool_idx (order_pool_ s) in
      let s := set_order_pool_ pool s in
      let s :=
        if PriceLevel.empty (get_level is_buy price_idx s)
        then level_closed is_buy (OrderLocation.price loc) s
        else s in
      let* loc := vec_get OrderLocation.zero (order_index_ s) order_id in
      let* index :=
        vec_set (order_index_ s) order_id (OrderLocation.set_active false loc) in
      let s := set_order_index_ index s in
      let s := set_active_order_count_ (wrap_u64 (active_order_count_ s - 1)) s in
      Ok (emit_order_cancelled order_id cancelled_qty s).

Definition modify_order_internal (order_id new_price new_quantity : Z)
    (s : Book) : Result Book :=
  let* skip := unknown_or_inactive order_id s in
  if skip then Ok s
  else
    let* loc := vec_get OrderLocation.zero (order_index_ s) order_id in
    let price_idx := price_to_index (OrderLocation.price loc) in
    if MAX_PRICE_LEVELS <=? price_idx then Ok s
    else
      let is_buy := OrderLocation.is_buy loc in
      let pool_idx := OrderLocation.pool_idx loc in
      let* order := pool_at s pool_idx in
      if (new_price =? OrderLocation.price loc)
         && (new_quantity <=? Order.quantity order)
      then
        let delta := wrap_i64 (new_quantity - Order.quantity order) in
        let s := adjust_level_volume is_buy price_idx delta 0
                   (Order.is_aon order) s in
        let* order := pool_at s pool_idx in
        pool_store pool_idx (Order.with_quantity new_quantity order) s
      else
        let* s := cancel_order_internal order_id s in
        add_order_internal order_id is_buy new_price new_quantity 0 s.

(** ** The feasibility probe *)

(** the [while (curr != NULL_INDEX && remaining > 0)] walk of one FIFO *)
Fixpoint available_in_fifo (fuel : nat) (s : Book)
    (curr available remaining : Z) : Result (Z * Z) :=
  match fuel with
  | O => OutOfFuel
  | S fuel' =>
      if negb (curr =? NULL_INDEX) && (0 <? remaining) then
        let* order := pool_at s curr in
        let order_total :=
          wrap_i64 (Order.quantity order + Order.hidden_quantity order) in
        let '(available, remaining) :=
          if Order.is_aon order then
            if order_total <=? remaining
            then (wrap_i64 (available + order_total),
                  wrap_i64 (remaining - order_total))
            else (available, remaining)
          else
            let fillable := Z.min remaining order_total in
            (wrap_i64 (available + fillable), wrap_i64 (remaining - fillable)) in
        available_in_fifo fuel' s (Order.next order) available remaining
      else Ok (available, remaining)
  end.

(** the body of the price loop once [idx] is known to be in range *)
Definition available_at_level (fuel : nat) (s : Book) (bid : bool) (idx : Z)
    (available remaining : Z) : Result (Z * Z) :=
  let level := get_level bid idx s in
  if PriceLevel.empty level then Ok (available, remaining)
  else if PriceLevel.total_aon_volume level =? 0 then
    let fillable := Z.min remaining (PriceLevel.total_volume level) in
    Ok (wrap_i64 (available + fillable), wrap_i64 (remaining - fillable))
  else available_in_fifo fuel s (PriceLevel.head level) available remaining.

(** [for (int64_t p = best; p <= limit_price && remaining > 0; ++p)] with
    [break] on an index out of range, as in [order_book.cpp] *)
Fixpoint available_buy_loop (n fuel : nat) (s : Book)
    (p limit_price available remaining : Z) : Result Z :=
  match n with
  | O => OutOfFuel
  | S n' =>
      if (p <=? limit_price) && (0 <? remaining) then
        let idx := price_to_index p in
        if MAX_PRICE_LEVELS <=? idx then Ok available
        else
          let* (available, remaining) :=
            available_at_level fuel s false idx available remaining in
          available_buy_loop n' fuel s (wrap_i64 (p + 1)) limit_price
            available remaining
      else Ok available
  end.

(** [for (int64_t p = best; p >= limit_price && remaining > 0; --p)] with
    [continue] on an index out of range *)
Fixpoint available_sell_loop (n fuel : nat) (s : Book)
    (p limit_price available remaining : Z) : Result Z :=
  match n with
  | O => OutOfFuel
  | S n' =>
      if (limit_price <=? p) && (0 <? remaining) then
        let idx := price_to_index p in
        if MAX_PRICE_LEVELS <=? idx then
          available_sell_loop n' fuel s (wrap_i64 (p - 1)) limit_price
            available remaining
        else
          let* (available, remaining) :=
            available_at_level fuel s true idx available remaining in
          available_sell_loop n' fuel s (wrap_i64 (p - 1)) limit_price
            available remaining
      else Ok available
  end.

Definition calculate_available_quantity (fuel : nat) (s : Book)
    (is_buy : bool) (limit_price incoming_qty : Z) : Result Z :=
  let best := if is_buy then best_ask_ s else best_bid_ s in
  if is_buy && (best =? INT64_MAX) then Ok 0
  else if negb is_buy && (best <? 0) then Ok 0
  else if is_buy
  then available_buy_loop fuel fuel s best limit_price 0 incoming_qty
  else available_sell_loop fuel fuel s best limit_price 0 incoming_qty.

(** ** Matching *)

Definition opposite_best (is_buy : bool) (s : Book) : Z :=
  if is_buy then best_ask_ s else best_bid_ s.

Definition opposite_side_empty (is_buy : bool) (s : Book) : bool :=
  if is_buy then best_ask_ s =? INT64_MAX else best_bid_ s <? 0.

(** [if (book_order.order_id < order_index_.size())
      order_index_[book_order.order_id].pool_idx = curr;] *)
Definition reassert_pool_idx (id curr : Z) (s : Book) : Result Book :=
  if id <? vec_size (order_index_ s) then
    let* loc := vec_get OrderLocation.zero (order_index_ s) id in
    let* index :=
      vec_set (order_index_ s) id (OrderLocation.with_pool_idx curr loc) in
    Ok (set_order_index_ index s)
  else Ok s.

(** [if (book_order.order_id < order_index_.size()) {
      order_index_[book_order.order_id].set_active(false);
      active_order_count_--; }] *)
Definition deactivate (id : Z) (s : Book) : Result Book :=
  if id <? vec_size (order_index_ s) then
    let* loc := vec_get OrderLocation.zero (order_index_ s) id in
    let* index :=
      vec_set (order_index_ s) id (OrderLocation.set_active false loc) in
    let s := set_order_index_ index s in
    Ok (set_active_order_count_ (wrap_u64 (active_order_count_ s - 1)) s)
  else Ok s.

(** the iceberg branch: [book_order.hidden_quantity > 0] *)
Definition refresh (bid : bool) (lidx curr : Z) (s : Book) : Result Book :=
  let* book_order := pool_at s curr in
  let replenish :=
    Z.min (if 0 <? Order.peak_size book_order
           then Order.peak_size book_order
           else Order.hidden_quantity book_order)
          (Order.hidden_quantity book_order) in
  let* s := remove_from_level_volume bid lidx curr s in
  let* s := list_remove bid lidx curr s in
  let* book_order := pool_at s curr in
  let* s := pool_store curr (Order.with_quantity replenish book_order) s in
  let* book_order := pool_at s curr in
  let* s :=
    pool_store curr
      (Order.with_hidden_quantity
         (wrap_i64 (Order.hidden_quantity book_order - replenish)) book_order)
      s in
  let* s := list_push_back bid lidx curr s in
  let* s := add_to_level_volume bid lidx curr s in
  let* book_order := pool_at s curr in
  reassert_pool_idx (Order.order_id book_order) curr s.

(** the branch of a fully consumed order *)
Definition consume (bid : bool) (lidx curr : Z) (s : Book) : Result Book :=
  let* s := list_remove bid lidx curr s in
  let* book_order := pool_at s curr in
  let* s := deactivate (Order.order_id book_order) s in
  let* pool := ObjectPool.free curr (order_pool_ s) in
  Ok (set_order_pool_ pool s).

(** one trade against [book_order = order_pool_[curr]], from [emit_trade]
    to the end of the [if (book_order.quantity == 0)] block *)
Definition fill (order_id : Z) (is_buy : bool) (lidx current_best curr : Z)
    (remaining_qty : Z) (s : Book) : Result (Book * Z) :=
  let bid := negb is_buy in
  let* book_order := pool_at s curr in
  let trade_qty := Z.min remaining_qty (Order.quantity book_order) in
  let buy_id := if is_buy then order_id else Order.order_id book_order in
  let sell_id := if is_buy then Order.order_id book_order else order_id in
  let s := emit_trade buy_id sell_id current_best trade_qty s in
  let remaining_qty := wrap_i64 (remaining_qty - trade_qty) in
  let s := adjust_level_volume bid lidx (wrap_i64 (- trade_qty)) 0
             (Order.is_aon book_order) s in
  let* book_order := pool_at s curr in
  let* s :=
    pool_store curr
      (Order.with_quantity (wrap_i64 (Order.quantity book_order - trade_qty))
         book_order) s in
  let* book_order := pool_at s curr in
  let* s :=
    if Order.quantity book_order =? 0 then
      if 0 <? Order.hidden_quantity book_order
      then refresh bid lidx curr s
      else consume bid lidx curr s
    else Ok s in
  Ok (s, remaining_qty).

(** [while (curr != NULL_INDEX && remaining_qty > 0)] over one level *)
Fixpoint match_level (fuel : nat) (order_id : Z) (is_buy : bool)
    (lidx current_best : Z) (curr remaining_qty trade_count : Z) (s : Book)
    : Result (Book * Z * Z) :=
  match fuel with
  | O => OutOfFuel
  | S fuel' =>
      if negb (curr =? NULL_INDEX) && (0 <? remaining_qty) then
        let* book_order := pool_at s curr in
        let next_idx := Order.next book_order in
        if Order.is_aon book_order
           && (remaining_qty <?
               wrap_i64 (Order.quantity book_order
                         + Order.hidden_quantity book_order))
        then
          match_level fuel' order_id is_buy lidx current_best next_idx
            remaining_qty trade_count s
        else
          let* (s, remaining_qty) :=
            fill order_id is_buy lidx current_best curr remaining_qty s in
          match_level fuel' order_id is_buy lidx current_best next_idx
            remaining_qty (wrap_u64 (trade_count + 1)) s
      else Ok (s, remaining_qty, trade_count)
  end.

(** [while (remaining_qty > 0 && !opposite_side_empty)]; the flag is
    recomputed at the end of a round only, not on [continue] *)
Fixpoint match_loop (n fuel : nat) (order_id : Z) (is_buy : bool) (price : Z)
    (remaining_qty trade_count : Z) (side_empty : bool) (s : Book)
    : Result (Book * Z * Z) :=
  match n with
  | O => OutOfFuel
  | S n' =>
      if (0 <? remaining_qty) && negb side_empty then
        let best_price := opposite_best is_buy s in
        if is_buy && (price <? best_price) then Ok (s, remaining_qty, trade_count)
        else if negb is_buy && (best_price <? price)
        then Ok (s, remaining_qty, trade_count)
        else
          let level_idx := price_to_index best_price in
          if MAX_PRICE_LEVELS <=? level_idx
          then Ok (s, remaining_qty, trade_count)
          else if PriceLevel.empty (get_level (negb is_buy) level_idx s) then
            let s :=
              if is_buy then update_best_ask_after_remove best_price s
              else update_best_bid_after_remove best_price s in
            match_loop n' fuel order_id is_buy price remaining_qty trade_count
              side_empty s
          else
            let current_best := best_price in
            let curr := PriceLevel.head (get_level (negb is_buy) level_idx s) in
            let* (s, remaining_qty, trade_count) :=
              match_level fuel order_id is_buy level_idx current_best curr
                remaining_qty trade_count s in
            let s :=
              if PriceLevel.empty (get_level (negb is_buy) level_idx s)
              then level_closed (negb is_buy) current_best s
              else s in
            match_loop n' fuel order_id is_buy price remaining_qty trade_count
              (opposite_side_empty is_buy s) s
      else Ok (s, remaining_qty, trade_count)
  end.

(** the [switch (tif)] on a positive residual *)
Definition rest_residual (order_id : Z) (is_buy : bool) (price : Z)
    (remaining_qty : Z) (tif : TimeInForce) (s : Book) : Result Book :=
  if 0 <? remaining_qty then
    match tif with
    | GTC => add_order_internal order_id is_buy price remaining_qty 0 s
    | AON => add_aon_internal order_id is_buy price remaining_qty 0 s
    | IOC | FOK => Ok s
    end
  else Ok s.

Definition match_walk (fuel : nat) (order_id : Z) (is_buy : bool)
    (price quantity : Z) (tif : TimeInForce) (s : Book) : Result (Z * Book) :=
  let* (s, remaining_qty, trade_count) :=
    match_loop fuel fuel order_id is_buy price quantity 0
      (opposite_side_empty is_buy s) s in
  let* s := rest_residual order_id is_buy price remaining_qty tif s in
  Ok (trade_count, s).

Definition match_internal (fuel : nat) (order_id : Z) (is_buy : bool)
    (price quantity : Z) (tif : TimeInForce) (s : Book) : Result (Z * Book) :=
  match tif with
  | FOK =>
      let* available :=
        calculate_available_quantity fuel s is_buy price quantity in
      if available <? quantity then Ok (0, s)
      else match_walk fuel order_id is_buy price quantity tif s
  | AON =>
      let* available :=
        calculate_available_quantity fuel s is_buy price quantity in
      if available <? quantity then
        let* s := add_aon_internal order_id is_buy price quantity 0 s in
        Ok (0, s)
      else match_walk fuel order_id is_buy price quantity tif s
  | GTC | IOC => match_walk fuel order_id is_buy price quantity tif s
  end.

Definition reset_internal (s : Book) : Book :=
  let s := set_bid_levels_ ∅ s in
  let s := set_ask_levels_ ∅ s in
  let s := set_bid_bitmap_ ∅ s in
  let s := set_ask_bitmap_ ∅ s in
  let s := set_best_bid_ (-1) s in
  let s := set_best_ask_ INT64_MAX s in
  let s := set_best_bid_word_ (-1) s in
  let s := set_best_ask_word_ 0 s in
  let s := set_bid_level_count_ 0 s in
  let s := set_ask_level_count_ 0 s in
  let s := set_active_order_count_ 0 s in
  let s := set_order_pool_ (ObjectPool.reset (order_pool_ s)) s in
  let index := order_index_ s in
  set_order_index_
    (mk_vec
       (map_imap
          (fun i loc =>
             Some (if (i <=? max_order_id_ s) && (i <? vec_size index)
                   then OrderLocation.set_active false loc else loc))
          (vec_data index))
       (vec_size index)) s.

(** ** Public surface *)

(** [OptimizedOrderBook(size_t order_capacity)] *)
Definition new_book (order_capacity : Z) : Book :=
  mk_Book ∅ ∅ ∅ ∅ (-1) INT64_MAX (-1) 0 0 0
    (ObjectPool.new order_capacity) (mk_vec ∅ INITIAL_ORDER_CAPACITY) 0 0
    RingBuffer.new true true true [] 0 0 0 0 [].

Definition is_aggressive (is_buy : bool) (price : Z) (s : Book) : bool :=
  if is_buy
  then negb (best_ask_ s =? INT64_MAX) && (best_ask_ s <=? price)
  else (0 <=? best_bid_ s) && (price <=? best_bid_ s).

Definition add_order (fuel : nat) (order_id : Z) (is_buy : bool)
    (price quantity user_id : Z) (s : Book) : Result Book :=
  if is_aggressive is_buy price s then
    let* (_, s) := match_internal fuel order_id is_buy price quantity GTC s in
    Ok s
  else add_order_internal order_id is_buy price quantity user_id s.

Definition match_order (fuel : nat) (order_id : Z) (is_buy : bool)
    (price quantity : Z) (tif : TimeInForce) (s : Book) : Result Book :=
  let* (_, s) := match_internal fuel order_id is_buy price quantity tif s in
  Ok s.

Definition cancel_order (order_id : Z) (s : Book) : Result Book :=
  cancel_order_internal order_id s.

Definition get_best_bid (s : Book) : Z :=
  if 0 <=? best_bid_ s then best_bid_ s else 0.

Definition get_best_ask (s : Book) : Z := best_ask_ s.

Definition get_best_bid_volume (s : Book) : Z :=
  if best_bid_ s <? 0 then 0
  else PriceLevel.total_visible_volume
         (get_level true (price_to_index (best_bid_ s)) s).

Definition get_best_ask_volume (s : Book) : Z :=
  if best_ask_ s =? INT64_MAX then 0
  else PriceLevel.total_visible_volume
         (get_level false (price_to_index (best_ask_ s)) s).

(** [get_bids_snapshot] and [get_asks_snapshot]: the loop over the slots,
    [n] rounds left; a [std::map] is its set of entries *)
Fixpoint snapshot_loop (n : nat) (bid : bool) (s : Book) (i : Z)
    (result : gmap Z Z) : gmap Z Z :=
  match n with
  | O => result
  | S n' =>
      let v := PriceLevel.total_visible_volume (get_level bid i s) in
      snapshot_loop n' bid s (i + 1)
        (if 0 <? v then <[index_to_price i := v]> result else result)
  end.

Definition get_bids_snapshot (s : Book) : gmap Z Z :=
  snapshot_loop (Z.to_nat MAX_PRICE_LEVELS) true s 0 ∅.

Definition get_asks_snapshot (s : Book) : gmap Z Z :=
  snapshot_loop (Z.to_nat MAX_PRICE_LEVELS) false s 0 ∅.

Definition use_ring_buffer_output (enable : bool) (s : Book) : Book :=
  set_use_ring_buffer_ enable s.

Definition set_benchmark_mode (trades_only : bool) (s : Book) : Book :=
  set_emit_cancels_ (negb trades_only) (set_emit_accepts_ (negb trades_only) s).

Definition flush_output_buffer (s : Book) : Book := flush_batch s.

Definition pool_capacity (s : Book) : Z := ObjectPool.capacity (order_pool_ s).
Definition pool_used (s : Book) : Z := ObjectPool.used_count (order_pool_ s).
Definition output_buffer_size (s : Book) : Z :=
  RingBuffer.size_approx (output_buffer_ s).

Definition order_count (s : Book) : Z := active_order_count_ s.
Definition bid_levels (s : Book) : Z := bid_level_count_ s.
Definition ask_levels (s : Book) : Z := ask_level_count_ s.

(** ** The operations of the engine *)

(** The seven operations, each bound to the member function that
    implements it.  [add_iceberg_internal], [add_aon_internal],
    [modify_order_internal] and [reset_internal] have no public wrapper in
    the class; they are run directly. *)
Inductive Request : Type :=
| Add (order_id : Z) (is_buy : bool) (price quantity user_id : Z)
| AddIceberg (order_id : Z) (is_buy : bool)
    (price total_quantity visible_quantity user_id : Z)
| AddAon (order_id : Z) (is_buy : bool) (price quantity user_id : Z)
| Cancel (order_id : Z)
| Modify (order_id new_price new_quantity : Z)
| Match (order_id : Z) (is_buy : bool) (price quantity : Z)
    (tif : TimeInForce)
| Reset.

Definition execute (fuel : nat) (r : Request) (s : Book) : Result Book :=
  match r with
  | Add order_id is_buy price quantity user_id =>
      add_order fuel order_id is_buy price quantity user_id s
  | AddIceberg order_id is_buy price total_quantity visible_quantity user_id =>
      add_iceberg_internal order_id is_buy price total_quantity
        visible_quantity user_id s
  | AddAon order_id is_buy price quantity user_id =>
      add_aon_internal order_id is_buy price quantity user_id s
  | Cancel order_id => cancel_order order_id s
  | Modify order_id new_price new_quantity =>
      modify_order_internal order_id new_price new_quantity s
  | Match order_id is_buy price quantity tif =>
      match_order fuel order_id is_buy price quantity tif s
  | Reset => Ok (reset_internal s)
  end.

(** ** The dispatch of the TCP gateway ([TcpGateway::process_message]) *)

(** [side_to_bool]: [s == Side::BUY], on the byte of the message
    (['B'] is 66) *)
Definition side_to_bool (s : Z) : bool := s =? 66.

(** [tif_from_protocol], on the byte of the message *)
Definition tif_from_protocol (t : Z) : TimeInForce :=
  if t =? 0 then GTC
  else if t =? 1 then IOC
  else if t =? 2 then FOK
  else if t =? 3 then AON
  else GTC.

(** An input message after [msg_cast]: the fields that the packed struct
    of its [header->type] holds.  [MsgOther] stands for every other type
    byte (['S'], ['T'], ['Q'] and the unassigned ones). *)
Inductive Message : Type :=
| MsgAddOrder (order_id user_id side price quantity : Z)
| MsgAddIceberg (order_id user_id side price total_quantity
    visible_quantity : Z)
| MsgAddAON (order_id user_id side price quantity : Z)
| MsgCancel (order_id : Z)
| MsgModify (order_id new_price new_quantity : Z)
| MsgExecute (order_id user_id side price quantity time_in_force : Z)
| MsgHeartbeat
| MsgReset
| MsgOther (type : Z).

(** the book after the message, and the type bytes that the gateway
    reports as unknown on [std::cerr] *)
Definition process_message (fuel : nat) (m : Message) (s : Book)
    : Result (Book * list Z) :=
  match m with
  | MsgAddOrder order_id user_id side price quantity =>
      let* s :=
        add_order fuel order_id (side_to_bool side) price quantity
          (wrap_u32 user_id) s in
      Ok (s, [])
  | MsgAddIceberg order_id user_id side price _ visible_quantity =>
      let* s :=
        add_order fuel order_id (side_to_bool side) price visible_quantity
          (wrap_u32 user_id) s in
      Ok (s, [])
  | MsgAddAON order_id user_id side price quantity =>
      let* s :=
        add_order fuel order_id (side_to_bool side) price quantity
          (wrap_u32 user_id) s in
      Ok (s, [])
  | MsgCancel order_id =>
      let* s := cancel_order order_id s in Ok (s, [])
  | MsgModify order_id _ _ =>
      let* s := cancel_order order_id s in Ok (s, [])
  | MsgExecute order_id _ side price quantity time_in_force =>
      let* s :=
        match_order fuel order_id (side_to_bool side) price quantity
          (tif_from_protocol time_in_force) s in
      Ok (s, [])
  | MsgHeartbeat => Ok (s, [])
  | MsgReset => Ok (s, [])
  | MsgOther type => Ok (s, [type])
  end.

(** a request sequence, stopping at the first failure *)
Fixpoint execute_all (fuel : nat) (rs : list Request) (s : Book)
    : Result Book :=
  match rs with
  | [] => Ok s
  | r :: rs' => let* s := execute fuel r s in execute_all fuel rs' s
  end.

(** the entry of [order_index_] for an id inside the vector *)
Definition location (s : Book) (order_id : Z) : OrderLocation.t :=
  default OrderLocation.zero (vec_data (order_index_ s) !! order_id).

(** the record in pool slot [idx] *)
Definition slot (p : ObjectPool.t) (idx : Z) : Order.t :=
  default Order.zero (vec_data (ObjectPool.pool_ p) !! idx).


Definition unknown_or_inactive_id (s : Book) (order_id : Z) : Prop :=
  0 <= order_id /\
  (vec_size (order_index_ s) <= order_id \/
   OrderLocation.is_active (location s order_id) = false).

(** ** Books used as concrete inputs *)

Definition book_of (rs : list Request) : Book :=
  match execute_all 16 rs (new_book 8) with
  | Ok s => s
  | _ => new_book 8
  end.

(** one resting sell: id 1, price 100, quantity 4 *)
Definition book_ask_100 : Book := book_of [Add 1 false 100 4 0].

(** a resting sell at 100 and a resting buy at 90 *)
Definition book_spread : Book :=
  book_of [Add 1 false 100 10 0; Add 2 true 90 5 0].

(** one resting all-or-none sell: id 1, price 100, quantity 20 *)
Definition book_aon_ask : Book := book_of [Match 1 false 100 20 AON].

(** an iceberg buy at 100: total 50, peak 10 *)
Definition book_iceberg : Book := book_of [AddIceberg 1 true 100 50 10 7].

(** * Properties *)

(** ** Basic facts *)

Lemma bind_Ok {A B} (r : Result A) (k : A -> Result B) (b : B) :
  bind r k = Ok b -> exists a, r = Ok a /\ k a = Ok b.
Proof. destruct r; simpl; intros H; try discriminate. eauto. Qed.

Lemma vec_get_Ok {T} (d : T) (v : vec T) (i : Z) (x : T) :
  vec_get d v i = Ok x ->
  0 <= i < vec_size v /\ x = default d (vec_data v !! i).
Proof.
  unfold vec_get, vec_in_range. intros H.
  destruct (0 <=? i) eqn:E1, (i <? vec_size v) eqn:E2; simpl in H;
    try discriminate.
  inversion H. split; [lia | reflexivity].
Qed.

Lemma vec_get_in_range {T} (d : T) (v : vec T) (i : Z) :
  0 <= i < vec_size v -> vec_get d v i = Ok (default d (vec_data v !! i)).
Proof.
  intros H. unfold vec_get, vec_in_range.
  destruct (0 <=? i) eqn:E1, (i <? vec_size v) eqn:E2; simpl; auto; lia.
Qed.

(** ** C4: an infeasible fill-or-kill changes nothing *)

(** C4. When the feasibility probe of a FOK match yields
    [available < quantity], [match_internal] returns zero trades and the
    very book it was given: levels, bitmaps, pool, order index, counters,
    staged events and ring are all untouched, and nothing rests. *)
Theorem fok_infeasible_is_noop :
  forall fuel s order_id is_buy price quantity available,
    calculate_available_quantity fuel s is_buy price quantity = Ok available ->
    available < quantity ->
    match_internal fuel order_id is_buy price quantity FOK s = Ok (0, s) /\
    match_order fuel order_id is_buy price quantity FOK s = Ok s.
Proof.
  intros fuel s order_id is_buy price quantity available Hprobe Hlt.
  assert (Hm : match_internal fuel order_id is_buy price quantity FOK s
               = Ok (0, s)).
  { unfold match_internal. rewrite Hprobe. simpl.
    destruct (available <? quantity) eqn:E; [reflexivity | lia]. }
  split; [exact Hm |].
  unfold match_order. rewrite Hm. reflexivity.
Qed.

Lemma fok_infeasible_is_noop_witness :
  calculate_available_quantity 16 book_ask_100 true 100 5 = Ok 4 /\
  4 < 5 /\
  match_internal 16 9 true 100 5 FOK book_ask_100 = Ok (0, book_ask_100).
Proof.
  assert (Hp : calculate_available_quantity 16 book_ask_100 true 100 5 = Ok 4)
    by (vm_compute; reflexivity).
  assert (Hl : 4 < 5) by lia.
  split; [exact Hp |]. split; [exact Hl |].
  exact (proj1 (fok_infeasible_is_noop 16 book_ask_100 9 true 100 5 4 Hp Hl)).
Defined.

(** ** C6: what the best-price observers return on an empty side *)




(** ** C8: silent no-ops on client error *)


Lemma unknown_or_inactive_true s order_id :
  unknown_or_inactive_id s order_id ->
  unknown_or_inactive order_id s = Ok true.
Proof.
  intros [Hid H]. unfold unknown_or_inactive.
  destruct (vec_size (order_index_ s) <=? order_id) eqn:E; [reflexivity |].
  apply Z.leb_gt in E.
  rewrite vec_get_in_range by lia. simpl.
  destruct H as [H | H]; [lia |].
  unfold location in H. rewrite H. reflexivity.
Qed.




(** ** C3: termination of the price-time walk *)

(** A level walk over a single all-or-none order that is larger than the
    remaining quantity skips it and hands back the book untouched (or runs
    out of fuel). *)
Lemma match_level_skips_aon :
  forall fuel order_id is_buy lidx current_best curr remaining_qty
         trade_count s o,
    pool_at s curr = Ok o ->
    Order.is_aon o = true ->
    remaining_qty < wrap_i64 (Order.quantity o + Order.hidden_quantity o) ->
    Order.next o = NULL_INDEX ->
    curr <> NULL_INDEX ->
    0 < remaining_qty ->
    match_level fuel order_id is_buy lidx current_best curr remaining_qty
      trade_count s = OutOfFuel \/
    match_level fuel order_id is_buy lidx current_best curr remaining_qty
      trade_count s = Ok (s, remaining_qty, trade_count).
Proof.
  intros fuel order_id is_buy lidx current_best curr remaining_qty
         trade_count s o Hpool Haon Hlt Hnext Hcurr Hrem.
  assert (Hc : negb (curr =? NULL_INDEX) && (0 <? remaining_qty) = true).
  { apply andb_true_iff. split.
    - apply negb_true_iff. apply Z.eqb_neq. exact Hcurr.
    - apply Z.ltb_lt. exact Hrem. }
  assert (Hs : Order.is_aon o
               && (remaining_qty <?
                   wrap_i64 (Order.quantity o + Order.hidden_quantity o))
               = true).
  { rewrite Haon. simpl. apply Z.ltb_lt. exact Hlt. }
  destruct fuel as [| [| fuel]].
  - left. reflexivity.
  - left. cbn [match_level]. rewrite Hc, Hpool. cbn [bind]. rewrite Hs.
    reflexivity.
  - right. cbn [match_level]. rewrite Hc, Hpool. cbn [bind]. rewrite Hs.
    rewrite Hnext. rewrite Z.eqb_refl. reflexivity.
Qed.

(** While the best opposite level consists of one all-or-none order that
    the remaining quantity cannot cover, every round of the outer loop of
    [match_internal] ends in the state it started from: no amount of fuel
    lets the loop return. *)
Lemma match_loop_blocked :
  forall n fuel order_id is_buy price remaining_qty trade_count s o,
    0 < remaining_qty ->
    opposite_side_empty is_buy s = false ->
    (if is_buy then opposite_best is_buy s <= price
     else price <= opposite_best is_buy s) ->
    price_to_index (opposite_best is_buy s) < MAX_PRICE_LEVELS ->
    PriceLevel.head
      (get_level (negb is_buy) (price_to_index (opposite_best is_buy s)) s)
      <> NULL_INDEX ->
    pool_at s
      (PriceLevel.head
         (get_level (negb is_buy) (price_to_index (opposite_best is_buy s)) s))
      = Ok o ->
    Order.is_aon o = true ->
    remaining_qty < wrap_i64 (Order.quantity o + Order.hidden_quantity o) ->
    Order.next o = NULL_INDEX ->
    match_loop n fuel order_id is_buy price remaining_qty trade_count false s
      = OutOfFuel.
Proof.
  intros n fuel order_id is_buy price remaining_qty trade_count s o
         Hrem Hside Hprice Hidx Hhead Hpool Haon Hlt Hnext.
  induction n as [| n IH]; [reflexivity |].
  cbn [match_loop].
  assert (E1 : (0 <? remaining_qty) && negb false = true).
  { rewrite andb_true_r. apply Z.ltb_lt. exact Hrem. }
  rewrite E1.
  assert (E2 : is_buy && (price <? opposite_best is_buy s) = false).
  { destruct is_buy; [| reflexivity]. simpl. apply Z.ltb_ge. exact Hprice. }
  rewrite E2.
  assert (E3 : negb is_buy && (opposite_best is_buy s <? price) = false).
  { destruct is_buy; [reflexivity |]. simpl. apply Z.ltb_ge. exact Hprice. }
  rewrite E3.
  assert (E4 : (MAX_PRICE_LEVELS <=? price_to_index (opposite_best is_buy s))
               = false) by (apply Z.leb_gt; exact Hidx).
  rewrite E4.
  assert (E5 : PriceLevel.empty
                 (get_level (negb is_buy)
                    (price_to_index (opposite_best is_buy s)) s) = false).
  { unfold PriceLevel.empty. apply Z.eqb_neq. exact Hhead. }
  rewrite E5.
  destruct (match_level_skips_aon fuel order_id is_buy
              (price_to_index (opposite_best is_buy s))
              (opposite_best is_buy s) _ remaining_qty trade_count s o
              Hpool Haon Hlt Hnext Hhead Hrem) as [Hl | Hl];
    rewrite Hl; cbn [bind]; [reflexivity |].
  rewrite E5, Hside. exact IH.
Qed.

(** C3 (evaluation of the code at the failing input).  On the book that
    holds one all-or-none sell of 20 at price 100 (left there by the
    public [match_order] on an empty book), the public add of a buy of 5
    at 100 is dispatched to [match_internal], whose outer loop never
    ends: whatever the fuel, the run is cut off. *)
Theorem aon_blocked_add_never_returns :
  forall fuel, execute fuel (Add 2 true 100 5 0) book_aon_ask = OutOfFuel.
Proof.
  intros fuel. unfold execute, add_order.
  replace (is_aggressive true 100 book_aon_ask) with true
    by (vm_compute; reflexivity).
  unfold match_internal, match_walk.
  replace (opposite_side_empty true book_aon_ask) with false
    by (vm_compute; reflexivity).
  rewrite (match_loop_blocked fuel fuel 2 true 100 5 0 book_aon_ask
             (Order.mk 1 100 20 0 0 NULL_INDEX NULL_INDEX 0 2)).
  - reflexivity.
  - lia.
  - vm_compute; reflexivity.
  - vm_compute; discriminate.
  - vm_compute; reflexivity.
  - vm_compute; discriminate.
  - vm_compute; reflexivity.
  - vm_compute; reflexivity.
  - vm_compute; reflexivity.
  - vm_compute; reflexivity.
Qed.

(** ** C1 and C2: a modify that crosses the opposite best *)

(** C1 (evaluation of the code at the failing input).  With a sell resting
    at 100 and buy 2 resting at 90, [modify(2, 100, 5)] leaves the book
    crossed, best bid 100 against best ask 100, and the diagnostic of
    [add_order_internal] reports it.  The public [match_order] with an
    infeasible all-or-none sell at the best bid crosses the book as well. *)
Theorem modify_leaves_book_crossed :
  match execute 16 (Modify 2 100 5) book_spread with
  | Ok s' =>
      best_bid_ book_spread = 90 /\ best_ask_ book_spread = 100 /\
      best_bid_ s' = 100 /\ best_ask_ s' = 100 /\
      (~ best_bid_ s' < best_ask_ s') /\
      cerr_ s' = [(100, 100)]
  | _ => False
  end /\
  match execute 16 (Match 3 false 90 20 AON) book_spread with
  | Ok s' => best_bid_ s' = 90 /\ best_ask_ s' = 90
  | _ => False
  end.
Proof.
  split; vm_compute; repeat split; try reflexivity.
  intros H; discriminate H.
Qed.

(** C2 (evaluation of the code at the failing input).  On the same book,
    [modify(2, 100, 5)] takes the cancel-then-add path; the new buy at 100
    would cross the resting sell at 100, yet it is not dispatched to
    matching: no trade is executed, the sell keeps its 10 and buy 2 rests
    at 100.  The public add on the book left by the cancel does match. *)
Theorem modify_readd_is_not_matched :
  is_aggressive true 100 book_spread = true /\
  match execute 16 (Modify 2 100 5) book_spread with
  | Ok s' =>
      trades_executed_ s' = 0 /\
      get_best_ask_volume s' = 10 /\
      OrderLocation.is_active (location s' 2) = true /\
      OrderLocation.price (location s' 2) = 100 /\
      get_best_bid_volume s' = 5 /\
      batch_buffer_ s' =
        batch_buffer_ book_spread
          ++ [make_cancelled 0 2 5; make_accepted 0 2 BUY 100 5]
  | _ => False
  end /\
  match execute_all 16 [Cancel 2; Add 2 true 100 5 0] book_spread with
  | Ok s' =>
      trades_executed_ s' = 1 /\
      get_best_ask_volume s' = 5 /\
      OrderLocation.is_active (location s' 2) = false
  | _ => False
  end.
Proof.
  split; [vm_compute; reflexivity |].
  split; vm_compute; repeat split; reflexivity.
Qed.

(** ** Reading and writing pool slots *)

(** the pool after [pool_[idx] = o] *)
Definition pool_write (idx : Z) (o : Order.t) (p : ObjectPool.t)
    : ObjectPool.t :=
  ObjectPool.mk
    (mk_vec (<[idx := o]> (vec_data (ObjectPool.pool_ p)))
            (vec_size (ObjectPool.pool_ p)))
    (ObjectPool.free_indices_ p).

Definition pool_size (p : ObjectPool.t) : Z := vec_size (ObjectPool.pool_ p).

Lemma pool_at_Ok s idx o :
  pool_at s idx = Ok o ->
  0 <= idx < pool_size (order_pool_ s) /\ o = slot (order_pool_ s) idx.
Proof.
  unfold pool_at, ObjectPool.at_. intros H. apply vec_get_Ok in H. exact H.
Qed.

Lemma pool_at_in_range s idx :
  0 <= idx < pool_size (order_pool_ s) ->
  pool_at s idx = Ok (slot (order_pool_ s) idx).
Proof.
  intros H. unfold pool_at, ObjectPool.at_. apply vec_get_in_range. exact H.
Qed.

Lemma pool_store_Ok idx o s s' :
  pool_store idx o s = Ok s' ->
  0 <= idx < pool_size (order_pool_ s) /\
  s' = set_order_pool_ (pool_write idx o (order_pool_ s)) s.
Proof.
  unfold pool_store, ObjectPool.store, vec_set, vec_in_range, pool_size.
  intros H.
  destruct (0 <=? idx) eqn:E1;
    destruct (idx <? vec_size (ObjectPool.pool_ (order_pool_ s))) eqn:E2;
    simpl in H; try discriminate.
  inversion H. split; [lia | reflexivity].
Qed.

Lemma pool_store_in_range idx o s :
  0 <= idx < pool_size (order_pool_ s) ->
  pool_store idx o s = Ok (set_order_pool_ (pool_write idx o (order_pool_ s)) s).
Proof.
  intros H.
  unfold pool_store, ObjectPool.store, vec_set, vec_in_range, pool_size in *.
  destruct (0 <=? idx) eqn:E1;
    destruct (idx <? vec_size (ObjectPool.pool_ (order_pool_ s))) eqn:E2;
    simpl; try reflexivity; lia.
Qed.

Lemma slot_pool_write_eq idx o p : slot (pool_write idx o p) idx = o.
Proof. unfold slot, pool_write. simpl. rewrite lookup_insert_eq. reflexivity. Qed.

Lemma slot_pool_write_ne idx o p i :
  i <> idx -> slot (pool_write idx o p) i = slot p i.
Proof.
  intros H. unfold slot, pool_write. simpl.
  rewrite lookup_insert_ne by congruence. reflexivity.
Qed.

Lemma pool_size_pool_write idx o p :
  pool_size (pool_write idx o p) = pool_size p.
Proof. reflexivity. Qed.

Lemma order_pool_put_level bid lidx l s :
  order_pool_ (put_level bid lidx l s) = order_pool_ s.
Proof. destruct bid; reflexivity. Qed.

(** inversion of a successful [let*] *)
Ltac inv_bind H :=
  let a := fresh "a" in
  let E := fresh "E" in
  apply bind_Ok in H; destruct H as (a & E & H); cbv beta in H.

Ltac inv_Ok H := injection H as H; try subst.

(** ** C7: no pool-resident record with both quantities zero *)

(** what an order record that rests must satisfy *)
Definition live_quantities (o : Order.t) : Prop :=
  0 <= Order.quantity o <= INT64_MAX /\
  0 <= Order.hidden_quantity o <= INT64_MAX /\
  0 < Order.quantity o + Order.hidden_quantity o.

(** A slot is pool-resident when it is inside the slab and not on the free
    list.  The invariant: every resident record has non-negative visible and
    hidden quantities, not both zero. *)
Definition no_empty_resident (p : ObjectPool.t) : Prop :=
  forall i,
    0 <= i < pool_size p ->
    i ∉ ObjectPool.free_indices_ p ->
    live_quantities (slot p i).



Lemma wrap_i64_small z :
  -9223372036854775808 <= z <= INT64_MAX -> wrap_i64 z = z.
Proof.
  unfold wrap_i64, INT64_MAX. intros H.
  rewrite Z.mod_small by lia. lia.
Qed.


Lemma wrap_u32_small z : 0 <= z < 4294967296 -> wrap_u32 z = z.
Proof. unfold wrap_u32. intros H. apply Z.mod_small. exact H. Qed.

Lemma wrap_u64_small z : 0 <= z < 18446744073709551616 -> wrap_u64 z = z.
Proof. unfold wrap_u64. intros H. apply Z.mod_small. exact H. Qed.

(** a write keeps the invariant when the record written is live, or the
    slot is on the free list *)
Lemma no_empty_resident_write idx o p :
  no_empty_resident p ->
  (idx ∉ ObjectPool.free_indices_ p -> live_quantities o) ->
  no_empty_resident (pool_write idx o p).
Proof.
  intros Hinv Ho i Hi Hfree.
  destruct (decide (i = idx)) as [-> | Hne].
  - rewrite slot_pool_write_eq. apply Ho. exact Hfree.
  - rewrite slot_pool_write_ne by exact Hne. apply Hinv; assumption.
Qed.

(** a write that keeps both quantities keeps the invariant *)
Lemma no_empty_resident_relink idx o p :
  no_empty_resident p ->
  0 <= idx < pool_size p ->
  Order.quantity o = Order.quantity (slot p idx) ->
  Order.hidden_quantity o = Order.hidden_quantity (slot p idx) ->
  no_empty_resident (pool_write idx o p).
Proof.
  intros Hinv Hidx Hq Hh. apply no_empty_resident_write; [exact Hinv |].
  intros Hfree. specialize (Hinv idx Hidx Hfree).
  unfold live_quantities in *. rewrite Hq, Hh. exact Hinv.
Qed.


(** everything in an order record except its FIFO links *)
Definition payload (o : Order.t) : Z * Z * Z * Z * Z * Z * Z :=
  (Order.order_id o, Order.price o, Order.quantity o,
   Order.hidden_quantity o, Order.peak_size o, Order.user_id_low o,
   Order.flags o).

(** two pools that differ in [next]/[prev] fields only *)
Definition links_only (p p' : ObjectPool.t) : Prop :=
  pool_size p' = pool_size p /\
  ObjectPool.free_indices_ p' = ObjectPool.free_indices_ p /\
  forall i, payload (slot p' i) = payload (slot p i).

Lemma links_only_refl p : links_only p p.
Proof. repeat split. Qed.

Lemma links_only_trans p1 p2 p3 :
  links_only p1 p2 -> links_only p2 p3 -> links_only p1 p3.
Proof.
  intros (H1 & H2 & H3) (G1 & G2 & G3).
  split; [congruence |]. split; [congruence |].
  intros i. rewrite G3. apply H3.
Qed.

Lemma links_only_write idx o p :
  payload o = payload (slot p idx) ->
  links_only p (pool_write idx o p).
Proof.
  intros H. repeat split. intros i.
  destruct (decide (i = idx)) as [-> | Hne].
  - rewrite slot_pool_write_eq. exact H.
  - rewrite slot_pool_write_ne by exact Hne. reflexivity.
Qed.


Lemma payload_fields o o' :
  payload o = payload o' ->
  Order.order_id o = Order.order_id o' /\
  Order.price o = Order.price o' /\
  Order.quantity o = Order.quantity o' /\
  Order.hidden_quantity o = Order.hidden_quantity o' /\
  Order.peak_size o = Order.peak_size o' /\
  Order.user_id_low o = Order.user_id_low o' /\
  Order.flags o = Order.flags o'.
Proof. unfold payload. intros H. injection H. intros. repeat split; assumption. Qed.









(** *** The free list after growth *)





(** ** The net effect of the FIFO operations *)

Lemma get_level_put_level_eq bid lidx l s :
  get_level bid lidx (put_level bid lidx l s) = l.
Proof.
  unfold get_level, put_level, level_at, levels_of.
  destruct bid; simpl; rewrite lookup_insert_eq; reflexivity.
Qed.

Lemma get_level_put_level_ne bid lidx l s bid' lidx' :
  (bid', lidx') <> (bid, lidx) ->
  get_level bid' lidx' (put_level bid lidx l s) = get_level bid' lidx' s.
Proof.
  intros H. unfold get_level, put_level, level_at, levels_of.
  destruct bid, bid'; simpl; try reflexivity;
    rewrite lookup_insert_ne by congruence; reflexivity.
Qed.

Lemma get_level_set_order_pool bid lidx p s :
  get_level bid lidx (set_order_pool_ p s) = get_level bid lidx s.
Proof. destruct bid; reflexivity. Qed.

Lemma put_level_put_level bid lidx l1 l2 s :
  put_level bid lidx l2 (put_level bid lidx l1 s) = put_level bid lidx l2 s.
Proof.
  unfold put_level. destruct bid; simpl;
    unfold set_bid_levels_, set_ask_levels_; simpl;
    rewrite insert_insert_eq; reflexivity.
Qed.

Lemma set_order_pool_put_level p bid lidx l s :
  set_order_pool_ p (put_level bid lidx l s)
  = put_level bid lidx l (set_order_pool_ p s).
Proof. destruct bid; reflexivity. Qed.

Lemma set_order_pool_twice p1 p2 s :
  set_order_pool_ p2 (set_order_pool_ p1 s) = set_order_pool_ p2 s.
Proof. reflexivity. Qed.

Lemma order_pool_set_order_pool p s : order_pool_ (set_order_pool_ p s) = p.
Proof. reflexivity. Qed.

Lemma pool_write_twice idx o1 o2 p :
  pool_write idx o2 (pool_write idx o1 p) = pool_write idx o2 p.
Proof. unfold pool_write. simpl. rewrite insert_insert_eq. reflexivity. Qed.

Create Rewrite HintDb book.

#[local] Hint Rewrite order_pool_put_level get_level_put_level_eq
  put_level_put_level set_order_pool_put_level get_level_set_order_pool
  set_order_pool_twice order_pool_set_order_pool slot_pool_write_eq
  pool_write_twice : book.

(** the pool after [list_push_back(level, idx)] *)
Definition pushed_pool (tail idx : Z) (p : ObjectPool.t) : ObjectPool.t :=
  let p1 :=
    pool_write idx
      (Order.with_prev tail (Order.with_next NULL_INDEX (slot p idx))) p in
  if tail =? NULL_INDEX then p1
  else pool_write tail (Order.with_next idx (slot p1 tail)) p1.

(** the level after [list_push_back(level, idx)] *)
Definition pushed_level (idx : Z) (l : PriceLevel.t) : PriceLevel.t :=
  PriceLevel.with_count (wrap_u32 (PriceLevel.count l + 1))
    (PriceLevel.with_tail idx
       (if PriceLevel.tail l =? NULL_INDEX then PriceLevel.with_head idx l
        else l)).

Definition pushed_back (bid : bool) (lidx idx : Z) (s : Book) : Book :=
  put_level bid lidx (pushed_level idx (get_level bid lidx s))
    (set_order_pool_
       (pushed_pool (PriceLevel.tail (get_level bid lidx s)) idx
          (order_pool_ s)) s).

Definition valid_link (p : ObjectPool.t) (i : Z) : Prop :=
  i = NULL_INDEX \/ 0 <= i < pool_size p.

Lemma list_push_back_Ok bid lidx idx s s' :
  list_push_back bid lidx idx s = Ok s' ->
  0 <= idx < pool_size (order_pool_ s) /\
  valid_link (order_pool_ s) (PriceLevel.tail (get_level bid lidx s)) /\
  s' = pushed_back bid lidx idx s.
Proof.
  unfold list_push_back. intros H.
  inv_bind H. apply pool_at_Ok in E as [Hidx ->].
  inv_bind H. apply pool_store_Ok in E as [_ ->].
  inv_bind H. apply pool_at_Ok in E as [_ ->].
  inv_bind H. apply pool_store_Ok in E as [_ ->].
  rewrite ?order_pool_set_order_pool in *.
  rewrite ?get_level_set_order_pool in *.
  rewrite slot_pool_write_eq in *. rewrite pool_write_twice in *.
  rewrite set_order_pool_twice in *.
  inv_bind H. inv_Ok H.
  unfold pushed_back, pushed_level, pushed_pool, valid_link.
  destruct (PriceLevel.tail (get_level bid lidx s) =? NULL_INDEX) eqn:Et;
    simpl in E.
  - inv_Ok E. apply Z.eqb_eq in Et.
    split; [exact Hidx |]. split; [left; exact Et |].
    rewrite ?get_level_put_level_eq, ?put_level_put_level.
    rewrite ?get_level_set_order_pool. reflexivity.
  - inv_bind E. apply pool_at_Ok in E0 as [Ht ->].
    apply pool_store_Ok in E as [_ ->].
    rewrite ?order_pool_set_order_pool in *. rewrite set_order_pool_twice.
    split; [exact Hidx |]. split; [right; exact Ht |].
    rewrite ?get_level_put_level_eq, ?put_level_put_level.
    rewrite ?get_level_set_order_pool. reflexivity.
Qed.

Lemma list_push_back_run bid lidx idx s :
  0 <= idx < pool_size (order_pool_ s) ->
  valid_link (order_pool_ s) (PriceLevel.tail (get_level bid lidx s)) ->
  list_push_back bid lidx idx s = Ok (pushed_back bid lidx idx s).
Proof.
  intros Hidx Ht. unfold list_push_back.
  rewrite pool_at_in_range by exact Hidx. cbn [bind].
  rewrite pool_store_in_range by exact Hidx. cbn [bind].
  rewrite pool_at_in_range by exact Hidx. cbn [bind].
  rewrite pool_store_in_range by exact Hidx. cbn [bind].
  rewrite ?order_pool_set_order_pool.
  rewrite ?get_level_set_order_pool.
  rewrite slot_pool_write_eq. rewrite pool_write_twice.
  rewrite set_order_pool_twice.
  unfold pushed_back, pushed_level, pushed_pool.
  destruct (PriceLevel.tail (get_level bid lidx s) =? NULL_INDEX) eqn:Et;
    cbn [negb bind].
  - rewrite ?get_level_put_level_eq, !put_level_put_level.
    rewrite ?get_level_set_order_pool. reflexivity.
  - destruct Ht as [Ht | Ht]; [apply Z.eqb_neq in Et; contradiction |].
    rewrite pool_at_in_range by exact Ht. cbn [bind].
    rewrite pool_store_in_range by exact Ht. cbn [bind].
    rewrite ?order_pool_set_order_pool. rewrite set_order_pool_twice.
    rewrite ?get_level_put_level_eq, ?put_level_put_level.
    rewrite ?get_level_set_order_pool. reflexivity.
Qed.

Lemma payload_with_next n o : payload (Order.with_next n o) = payload o.
Proof. reflexivity. Qed.

Lemma payload_with_prev n o : payload (Order.with_prev n o) = payload o.
Proof. reflexivity. Qed.

Lemma links_only_pushed_pool tail idx p :
  links_only p (pushed_pool tail idx p).
Proof.
  unfold pushed_pool.
  assert (H1 : links_only p
                 (pool_write idx
                    (Order.with_prev tail
                       (Order.with_next NULL_INDEX (slot p idx))) p))
    by (apply links_only_write; reflexivity).
  destruct (tail =? NULL_INDEX); [exact H1 |].
  eapply links_only_trans; [exact H1 |].
  apply links_only_write. reflexivity.
Qed.

(** the pool after [list_remove(level, idx)] *)
Definition removed_pool (idx : Z) (p : ObjectPool.t) : ObjectPool.t :=
  let o := slot p idx in
  let p1 :=
    if Order.prev o =? NULL_INDEX then p
    else pool_write (Order.prev o)
           (Order.with_next (Order.next o) (slot p (Order.prev o))) p in
  let p2 :=
    if Order.next o =? NULL_INDEX then p1
    else pool_write (Order.next o)
           (Order.with_prev (Order.prev o) (slot p1 (Order.next o))) p1 in
  pool_write idx
    (Order.with_prev NULL_INDEX (Order.with_next NULL_INDEX (slot p2 idx))) p2.

(** the level after [list_remove(level, idx)], [o] being the node *)
Definition removed_level (o : Order.t) (l : PriceLevel.t) : PriceLevel.t :=
  let l1 :=
    if Order.prev o =? NULL_INDEX then PriceLevel.with_head (Order.next o) l
    else l in
  let l2 :=
    if Order.next o =? NULL_INDEX then PriceLevel.with_tail (Order.prev o) l1
    else l1 in
  PriceLevel.with_count (wrap_u32 (PriceLevel.count l2 - 1)) l2.

Definition removed (bid : bool) (lidx idx : Z) (s : Book) : Book :=
  put_level bid lidx
    (removed_level (slot (order_pool_ s) idx) (get_level bid lidx s))
    (set_order_pool_ (removed_pool idx (order_pool_ s)) s).

Lemma slot_relinked_next j n p idx :
  n = Order.next (slot p idx) ->
  Order.next (slot (pool_write j (Order.with_next n (slot p j)) p) idx)
    = Order.next (slot p idx) /\
  Order.prev (slot (pool_write j (Order.with_next n (slot p j)) p) idx)
    = Order.prev (slot p idx).
Proof.
  intros ->. destruct (decide (idx = j)) as [-> | Hne].
  - rewrite slot_pool_write_eq. split; reflexivity.
  - rewrite slot_pool_write_ne by exact Hne. split; reflexivity.
Qed.

Lemma slot_relinked_prev j n p idx :
  n = Order.prev (slot p idx) ->
  Order.next (slot (pool_write j (Order.with_prev n (slot p j)) p) idx)
    = Order.next (slot p idx) /\
  Order.prev (slot (pool_write j (Order.with_prev n (slot p j)) p) idx)
    = Order.prev (slot p idx).
Proof.
  intros ->. destruct (decide (idx = j)) as [-> | Hne].
  - rewrite slot_pool_write_eq. split; reflexivity.
  - rewrite slot_pool_write_ne by exact Hne. split; reflexivity.
Qed.

Lemma list_remove_Ok bid lidx idx s s' :
  list_remove bid lidx idx s = Ok s' ->
  0 <= idx < pool_size (order_pool_ s) /\
  valid_link (order_pool_ s) (Order.prev (slot (order_pool_ s) idx)) /\
  valid_link (order_pool_ s) (Order.next (slot (order_pool_ s) idx)) /\
  s' = removed bid lidx idx s.
Proof.
  unfold list_remove, removed, removed_level, removed_pool, valid_link.
  intros H.
  inv_bind H. apply pool_at_Ok in E as [Hidx ->].
  remember (order_pool_ s) as P eqn:HP.
  remember (slot P idx) as o eqn:Ho.
  inv_bind H. rename a into s1. rename E into E1.
  inv_bind H. apply pool_at_Ok in E as [_ ->].
  inv_bind H. rename a into s2. rename E into E2.
  inv_bind H. apply pool_at_Ok in E as [_ ->].
  inv_bind H. apply pool_store_Ok in E as [_ ->].
  injection H as <-.
  destruct (Order.prev o =? NULL_INDEX) eqn:Ep; simpl in E1.
  - injection E1 as <-. apply Z.eqb_eq in Ep.
    rewrite order_pool_put_level in E2. rewrite <- HP, <- Ho in E2.
    destruct (Order.next o =? NULL_INDEX) eqn:En; simpl in E2.
    + injection E2 as <-. apply Z.eqb_eq in En.
      split; [exact Hidx |]. split; [left; exact Ep |].
      split; [left; exact En |].
      autorewrite with book. rewrite <- HP. reflexivity.
    + inv_bind E2. apply pool_at_Ok in E as [Hn ->].
      apply pool_store_Ok in E2 as [_ ->].
      rewrite order_pool_put_level in *. rewrite <- HP in *.
      split; [exact Hidx |]. split; [left; exact Ep |].
      split; [right; exact Hn |].
      autorewrite with book.
      reflexivity.
  - inv_bind E1. apply pool_at_Ok in E as [Hp ->].
    apply pool_store_Ok in E1 as [_ ->]. rewrite <- HP in *.
    rewrite order_pool_set_order_pool in *.
    destruct (slot_relinked_next (Order.prev o) (Order.next o) P idx)
      as [Hnx Hpv]; [rewrite Ho; reflexivity |].
    rewrite <- Ho in Hnx, Hpv. rewrite Hnx, Hpv in E2.
    destruct (Order.next o =? NULL_INDEX) eqn:En; simpl in E2.
    + injection E2 as <-. apply Z.eqb_eq in En.
      split; [exact Hidx |]. split; [right; exact Hp |].
      split; [left; exact En |].
      autorewrite with book.
      reflexivity.
    + inv_bind E2. apply pool_at_Ok in E as [Hn ->].
      apply pool_store_Ok in E2 as [_ ->].
      rewrite order_pool_set_order_pool in *.
      split; [exact Hidx |]. split; [right; exact Hp |].
      split; [right; exact Hn |].
      autorewrite with book.
      reflexivity.
Qed.

Lemma links_only_removed_pool idx p : links_only p (removed_pool idx p).
Proof.
  unfold removed_pool.
  set (o := slot p idx).
  set (p1 := if Order.prev o =? NULL_INDEX then p
             else pool_write (Order.prev o)
                    (Order.with_next (Order.next o) (slot p (Order.prev o)))
                    p).
  assert (H1 : links_only p p1).
  { subst p1. destruct (Order.prev o =? NULL_INDEX);
      [apply links_only_refl | apply links_only_write; reflexivity]. }
  set (p2 := if Order.next o =? NULL_INDEX then p1
             else pool_write (Order.next o)
                    (Order.with_prev (Order.prev o) (slot p1 (Order.next o)))
                    p1).
  assert (H2 : links_only p1 p2).
  { subst p2. destruct (Order.next o =? NULL_INDEX);
      [apply links_only_refl | apply links_only_write; reflexivity]. }
  eapply links_only_trans; [exact H1 |].
  eapply links_only_trans; [exact H2 |].
  apply links_only_write. reflexivity.
Qed.

(** ** Which helpers leave the pool alone *)

Ltac case_ifs :=
  repeat match goal with
         | |- context [if ?c then _ else _] => destruct c
         | |- context [match ?e with pair _ _ => _ end] => destruct e
         end.

Lemma order_pool_adjust_level_volume bid lidx vd hd aon s :
  order_pool_ (adjust_level_volume bid lidx vd hd aon s) = order_pool_ s.
Proof. unfold adjust_level_volume. apply order_pool_put_level. Qed.

Lemma order_pool_level_opened is_buy price s :
  order_pool_ (level_opened is_buy price s) = order_pool_ s.
Proof.
  unfold level_opened, update_best_bid_after_add, update_best_ask_after_add.
  case_ifs; reflexivity.
Qed.

Lemma order_pool_level_closed is_buy price s :
  order_pool_ (level_closed is_buy price s) = order_pool_ s.
Proof.
  unfold level_closed, update_best_bid_after_remove,
    update_best_ask_after_remove.
  case_ifs; reflexivity.
Qed.

Lemma order_pool_update_best_ask_after_remove price s :
  order_pool_ (update_best_ask_after_remove price s) = order_pool_ s.
Proof. unfold update_best_ask_after_remove. case_ifs; reflexivity. Qed.

Lemma order_pool_update_best_bid_after_remove price s :
  order_pool_ (update_best_bid_after_remove price s) = order_pool_ s.
Proof. unfold update_best_bid_after_remove. case_ifs; reflexivity. Qed.

Lemma order_pool_ensure_capacity order_id s :
  order_pool_ (ensure_capacity order_id s) = order_pool_ s.
Proof. unfold ensure_capacity. case_ifs; reflexivity. Qed.

Lemma order_pool_flush_batch s : order_pool_ (flush_batch s) = order_pool_ s.
Proof. unfold flush_batch. case_ifs; reflexivity. Qed.

Lemma order_pool_stage m s : order_pool_ (stage m s) = order_pool_ s.
Proof.
  unfold stage. case_ifs; [rewrite order_pool_flush_batch |]; reflexivity.
Qed.

Lemma order_pool_emit_trade b sl p q s :
  order_pool_ (emit_trade b sl p q s) = order_pool_ s.
Proof.
  unfold emit_trade. case_ifs; [rewrite order_pool_stage |]; reflexivity.
Qed.

Lemma order_pool_emit_order_accepted id sd p q s :
  order_pool_ (emit_order_accepted id sd p q s) = order_pool_ s.
Proof.
  unfold emit_order_accepted.
  case_ifs; [| rewrite order_pool_stage |]; reflexivity.
Qed.

Lemma order_pool_emit_order_cancelled id q s :
  order_pool_ (emit_order_cancelled id q s) = order_pool_ s.
Proof.
  unfold emit_order_cancelled.
  case_ifs; [| rewrite order_pool_stage |]; reflexivity.
Qed.

Lemma order_pool_cross_check s : order_pool_ (cross_check s) = order_pool_ s.
Proof. unfold cross_check. case_ifs; reflexivity. Qed.

#[local] Hint Rewrite order_pool_adjust_level_volume order_pool_level_opened
  order_pool_level_closed order_pool_update_best_ask_after_remove
  order_pool_update_best_bid_after_remove order_pool_ensure_capacity
  order_pool_emit_trade order_pool_emit_order_accepted
  order_pool_emit_order_cancelled order_pool_cross_check : book.





Lemma reassert_pool_idx_pool id curr s s' :
  reassert_pool_idx id curr s = Ok s' -> order_pool_ s' = order_pool_ s.
Proof.
  unfold reassert_pool_idx. intros H.
  destruct (id <? vec_size (order_index_ s)); [| inv_Ok H; reflexivity].
  inv_bind H. inv_bind H. inv_Ok H. reflexivity.
Qed.



(** *** Resting keeps the invariant *)

Ltac inv_bind_z H :=
  cbv beta iota zeta in H; inv_bind H; cbv beta iota zeta in H.






(** *** Cancel keeps the invariant *)


Lemma links_only_size p p' : links_only p p' -> pool_size p' = pool_size p.
Proof. intros (H & _). exact H. Qed.


(** *** Modify keeps the invariant *)


(** *** Matching keeps the invariant *)












(** *** Reset and construction *)




(** *** The claim *)





(** ** What emission and the diagnostic leave alone *)

(** the part of the book that the matching logic reads and writes; staged
    events, ring, statistics and diagnostics are outside *)
Definition view (s : Book) :=
  (bid_levels_ s, ask_levels_ s, bid_bitmap_ s, ask_bitmap_ s,
   (best_bid_ s, best_ask_ s, best_bid_word_ s, best_ask_word_ s),
   (bid_level_count_ s, ask_level_count_ s, active_order_count_ s),
   order_pool_ s, order_index_ s, max_order_id_ s).

Lemma view_flush_batch s : view (flush_batch s) = view s.
Proof. unfold flush_batch. case_ifs; reflexivity. Qed.

Lemma view_stage m s : view (stage m s) = view s.
Proof. unfold stage. case_ifs; [rewrite view_flush_batch |]; reflexivity. Qed.

Lemma view_emit_trade b sl p q s : view (emit_trade b sl p q s) = view s.
Proof. unfold emit_trade. case_ifs; [rewrite view_stage |]; reflexivity. Qed.

Lemma view_emit_order_accepted id sd p q s :
  view (emit_order_accepted id sd p q s) = view s.
Proof.
  unfold emit_order_accepted. case_ifs; [| rewrite view_stage |]; reflexivity.
Qed.

Lemma view_emit_order_cancelled id q s :
  view (emit_order_cancelled id q s) = view s.
Proof.
  unfold emit_order_cancelled. case_ifs; [| rewrite view_stage |]; reflexivity.
Qed.

Lemma view_cross_check s : view (cross_check s) = view s.
Proof. unfold cross_check. case_ifs; reflexivity. Qed.

Lemma view_get_level s s' :
  view s' = view s -> forall bid lidx, get_level bid lidx s' = get_level bid lidx s.
Proof.
  unfold view. intros H bid lidx. injection H. intros.
  unfold get_level, levels_of. destruct bid; congruence.
Qed.

Lemma view_location s s' :
  view s' = view s -> forall id, location s' id = location s id.
Proof. unfold view, location. intros H id. injection H. intros. congruence. Qed.

Lemma view_order_index s s' : view s' = view s -> order_index_ s' = order_index_ s.
Proof. unfold view. intros H. injection H. intros. congruence. Qed.

Lemma view_order_pool s s' : view s' = view s -> order_pool_ s' = order_pool_ s.
Proof. unfold view. intros H. injection H. intros. congruence. Qed.

Lemma view_bitmaps s s' :
  view s' = view s ->
  bid_bitmap_ s' = bid_bitmap_ s /\ ask_bitmap_ s' = ask_bitmap_ s.
Proof. unfold view. intros H. injection H. intros. split; congruence. Qed.

Lemma view_counts s s' :
  view s' = view s ->
  bid_level_count_ s' = bid_level_count_ s /\
  ask_level_count_ s' = ask_level_count_ s /\
  active_order_count_ s' = active_order_count_ s.
Proof. unfold view. intros H. injection H. intros. repeat split; congruence. Qed.

(** ** The net effect of resting an order *)

(** the level after [add_to_level_volume(level, order)] *)
Definition volume_added (o : Order.t) (l : PriceLevel.t) : PriceLevel.t :=
  let total := wrap_i64 (Order.quantity o + Order.hidden_quantity o) in
  PriceLevel.with_volumes
    (wrap_i64 (PriceLevel.total_volume l + total))
    (wrap_i64 (PriceLevel.total_visible_volume l + Order.quantity o))
    (if Order.is_aon o then wrap_i64 (PriceLevel.total_aon_volume l + total)
     else PriceLevel.total_aon_volume l)
    (if Order.is_aon o then PriceLevel.total_non_aon_volume l
     else wrap_i64 (PriceLevel.total_non_aon_volume l + total))
    l.

(** the level after [remove_from_level_volume(level, order)] *)
Definition volume_removed (o : Order.t) (l : PriceLevel.t) : PriceLevel.t :=
  let total := wrap_i64 (Order.quantity o + Order.hidden_quantity o) in
  PriceLevel.with_volumes
    (wrap_i64 (PriceLevel.total_volume l - total))
    (wrap_i64 (PriceLevel.total_visible_volume l - Order.quantity o))
    (if Order.is_aon o then wrap_i64 (PriceLevel.total_aon_volume l - total)
     else PriceLevel.total_aon_volume l)
    (if Order.is_aon o then PriceLevel.total_non_aon_volume l
     else wrap_i64 (PriceLevel.total_non_aon_volume l - total))
    l.

Lemma add_to_level_volume_Ok bid lidx idx s s' :
  add_to_level_volume bid lidx idx s = Ok s' ->
  0 <= idx < pool_size (order_pool_ s) /\
  s' = put_level bid lidx
         (volume_added (slot (order_pool_ s) idx) (get_level bid lidx s)) s.
Proof.
  unfold add_to_level_volume. intros H. inv_bind H.
  apply pool_at_Ok in E as [Hidx ->]. inv_Ok H. split; [exact Hidx | reflexivity].
Qed.

Lemma remove_from_level_volume_Ok bid lidx idx s s' :
  remove_from_level_volume bid lidx idx s = Ok s' ->
  0 <= idx < pool_size (order_pool_ s) /\
  s' = put_level bid lidx
         (volume_removed (slot (order_pool_ s) idx) (get_level bid lidx s)) s.
Proof.
  unfold remove_from_level_volume. intros H. inv_bind H.
  apply pool_at_Ok in E as [Hidx ->]. inv_Ok H. split; [exact Hidx | reflexivity].
Qed.

(** the location record that the three resting functions write *)
Definition new_location (is_buy : bool) (price idx : Z) : OrderLocation.t :=
  OrderLocation.set_active true
    (OrderLocation.set_buy is_buy (OrderLocation.mk price idx 0)).

Lemma new_location_fields is_buy price idx :
  OrderLocation.is_active (new_location is_buy price idx) = true /\
  OrderLocation.is_buy (new_location is_buy price idx) = is_buy /\
  OrderLocation.price (new_location is_buy price idx) = price /\
  OrderLocation.pool_idx (new_location is_buy price idx) = idx.
Proof. destruct is_buy; repeat split; reflexivity. Qed.

(** the book after [ensure_capacity] and the write of the location *)
Definition indexed (order_id : Z) (is_buy : bool) (price idx : Z) (s : Book)
    : Book :=
  let s1 := ensure_capacity order_id s in
  let s2 :=
    set_order_index_
      (mk_vec (<[order_id := new_location is_buy price idx]>
                 (vec_data (order_index_ s1)))
              (vec_size (order_index_ s1))) s1 in
  set_active_order_count_ (wrap_u64 (active_order_count_ s2 + 1)) s2.

Lemma index_entry_Ok order_id is_buy price idx s s' :
  index_entry order_id is_buy price idx s = Ok s' ->
  0 <= order_id < vec_size (order_index_ s') /\
  s' = indexed order_id is_buy price idx s.
Proof.
  unfold index_entry, indexed. intros H.
  inv_bind_z H. apply vec_get_Ok in E as [Hid ->].
  inv_bind_z H. unfold vec_set in E.
  destruct (vec_in_range (order_index_ (ensure_capacity order_id s)) order_id);
    [| discriminate].
  inv_Ok E. inv_Ok H. split; [exact Hid | reflexivity].
Qed.

Lemma ensure_capacity_frame order_id s :
  bid_levels_ (ensure_capacity order_id s) = bid_levels_ s /\
  ask_levels_ (ensure_capacity order_id s) = ask_levels_ s /\
  bid_bitmap_ (ensure_capacity order_id s) = bid_bitmap_ s /\
  ask_bitmap_ (ensure_capacity order_id s) = ask_bitmap_ s /\
  bid_level_count_ (ensure_capacity order_id s) = bid_level_count_ s /\
  ask_level_count_ (ensure_capacity order_id s) = ask_level_count_ s /\
  active_order_count_ (ensure_capacity order_id s) = active_order_count_ s.
Proof. unfold ensure_capacity. case_ifs; repeat split; reflexivity. Qed.

Lemma get_level_ensure_capacity bid lidx order_id s :
  get_level bid lidx (ensure_capacity order_id s) = get_level bid lidx s.
Proof.
  destruct (ensure_capacity_frame order_id s) as (H1 & H2 & _).
  unfold get_level, levels_of. destruct bid; congruence.
Qed.

Lemma level_opened_frame is_buy price s :
  bid_levels_ (level_opened is_buy price s) = bid_levels_ s /\
  ask_levels_ (level_opened is_buy price s) = ask_levels_ s /\
  bid_bitmap_ (level_opened is_buy price s)
    = (if is_buy then bitmap_set (bid_bitmap_ s) (price_to_index price)
       else bid_bitmap_ s) /\
  ask_bitmap_ (level_opened is_buy price s)
    = (if is_buy then ask_bitmap_ s
       else bitmap_set (ask_bitmap_ s) (price_to_index price)) /\
  bid_level_count_ (level_opened is_buy price s)
    = (if is_buy then wrap_u32 (bid_level_count_ s + 1)
       else bid_level_count_ s) /\
  ask_level_count_ (level_opened is_buy price s)
    = (if is_buy then ask_level_count_ s
       else wrap_u32 (ask_level_count_ s + 1)) /\
  active_order_count_ (level_opened is_buy price s) = active_order_count_ s /\
  order_index_ (level_opened is_buy price s) = order_index_ s.
Proof.
  unfold level_opened, update_best_bid_after_add, update_best_ask_after_add.
  destruct is_buy; case_ifs; repeat split; reflexivity.
Qed.

Lemma get_level_level_opened bid lidx is_buy price s :
  get_level bid lidx (level_opened is_buy price s) = get_level bid lidx s.
Proof.
  destruct (level_opened_frame is_buy price s) as (H1 & H2 & _).
  unfold get_level, levels_of. destruct bid; congruence.
Qed.

Lemma level_closed_frame is_buy price s :
  bid_levels_ (level_closed is_buy price s) = bid_levels_ s /\
  ask_levels_ (level_closed is_buy price s) = ask_levels_ s /\
  bid_bitmap_ (level_closed is_buy price s)
    = (if is_buy && PriceLevel.empty (get_level true (price_to_index price) s)
       then bitmap_clear (bid_bitmap_ s) (price_to_index price)
       else bid_bitmap_ s) /\
  ask_bitmap_ (level_closed is_buy price s)
    = (if negb is_buy
          && PriceLevel.empty (get_level false (price_to_index price) s)
       then bitmap_clear (ask_bitmap_ s) (price_to_index price)
       else ask_bitmap_ s) /\
  bid_level_count_ (level_closed is_buy price s)
    = (if is_buy then wrap_u32 (bid_level_count_ s - 1)
       else bid_level_count_ s) /\
  ask_level_count_ (level_closed is_buy price s)
    = (if is_buy then ask_level_count_ s
       else wrap_u32 (ask_level_count_ s - 1)) /\
  active_order_count_ (level_closed is_buy price s) = active_order_count_ s /\
  order_index_ (level_closed is_buy price s) = order_index_ s.
Proof.
  unfold level_closed, update_best_bid_after_remove,
    update_best_ask_after_remove.
  destruct is_buy; cbn [andb negb].
  - change (get_level true (price_to_index price)
              (set_bid_level_count_ (wrap_u32 (bid_level_count_ s - 1)) s))
      with (get_level true (price_to_index price) s).
    destruct (PriceLevel.empty (get_level true (price_to_index price) s));
      case_ifs; repeat split; reflexivity.
  - change (get_level false (price_to_index price)
              (set_ask_level_count_ (wrap_u32 (ask_level_count_ s - 1)) s))
      with (get_level false (price_to_index price) s).
    destruct (PriceLevel.empty (get_level false (price_to_index price) s));
      case_ifs; repeat split; reflexivity.
Qed.

Lemma get_level_level_closed bid lidx is_buy price s :
  get_level bid lidx (level_closed is_buy price s) = get_level bid lidx s.
Proof.
  destruct (level_closed_frame is_buy price s) as (H1 & H2 & _).
  unfold get_level, levels_of. destruct bid; congruence.
Qed.

Lemma volume_added_payload o1 o2 l :
  payload o1 = payload o2 -> volume_added o1 l = volume_added o2 l.
Proof.
  unfold payload. intros H. injection H. intros Hf _ _ Hh Hq _ _.
  unfold volume_added, Order.is_aon. rewrite Hf, Hh, Hq. reflexivity.
Qed.

Lemma volume_removed_payload o1 o2 l :
  payload o1 = payload o2 -> volume_removed o1 l = volume_removed o2 l.
Proof.
  unfold payload. intros H. injection H. intros Hf _ _ Hh Hq _ _.
  unfold volume_removed, Order.is_aon. rewrite Hf, Hh, Hq. reflexivity.
Qed.

(** the core of the book after an order record [order] was written to the
    freshly allocated slot [idx] and rested; [pool] is the pool after the
    allocation *)
Definition rested (order : Order.t) (order_id : Z) (is_buy : bool)
    (price idx : Z) (pool : ObjectPool.t) (s : Book) : Book :=
  let lidx := price_to_index price in
  let s1 := set_order_pool_ (pool_write idx order pool) s in
  let s2 := pushed_back is_buy lidx idx s1 in
  let s3 :=
    put_level is_buy lidx
      (volume_added (slot (order_pool_ s2) idx) (get_level is_buy lidx s2))
      s2 in
  let s4 :=
    if PriceLevel.empty (get_level is_buy lidx s)
    then level_opened is_buy price s3 else s3 in
  indexed order_id is_buy price idx s4.

(** the tail shared by the three resting functions, from the write of the
    record to the write of the index entry *)
Lemma rested_Ok order order_id is_buy price idx pool s sa sb sc sd :
  pool_store idx order (set_order_pool_ pool s) = Ok sa ->
  list_push_back is_buy (price_to_index price) idx sa = Ok sb ->
  add_to_level_volume is_buy (price_to_index price) idx sb = Ok sc ->
  index_entry order_id is_buy price idx
    (if PriceLevel.empty (get_level is_buy (price_to_index price) s)
     then level_opened is_buy price sc else sc) = Ok sd ->
  0 <= idx < pool_size pool /\
  valid_link pool
    (PriceLevel.tail (get_level is_buy (price_to_index price) s)) /\
  0 <= order_id < vec_size (order_index_ sd) /\
  sd = rested order order_id is_buy price idx pool s.
Proof.
  intros Ha Hb Hc Hd.
  apply pool_store_Ok in Ha as [Hidx ->].
  apply list_push_back_Ok in Hb as (_ & Ht & ->).
  apply add_to_level_volume_Ok in Hc as (_ & ->).
  apply index_entry_Ok in Hd as (Hid & ->).
  autorewrite with book in *.
  split; [exact Hidx |]. split; [exact Ht |]. split; [exact Hid |].
  unfold rested. autorewrite with book. reflexivity.
Qed.

Lemma indexed_frame order_id is_buy price idx s :
  bid_levels_ (indexed order_id is_buy price idx s) = bid_levels_ s /\
  ask_levels_ (indexed order_id is_buy price idx s) = ask_levels_ s /\
  bid_bitmap_ (indexed order_id is_buy price idx s) = bid_bitmap_ s /\
  ask_bitmap_ (indexed order_id is_buy price idx s) = ask_bitmap_ s /\
  bid_level_count_ (indexed order_id is_buy price idx s) = bid_level_count_ s /\
  ask_level_count_ (indexed order_id is_buy price idx s) = ask_level_count_ s /\
  active_order_count_ (indexed order_id is_buy price idx s)
    = wrap_u64 (active_order_count_ s + 1) /\
  order_pool_ (indexed order_id is_buy price idx s) = order_pool_ s /\
  location (indexed order_id is_buy price idx s) order_id
    = new_location is_buy price idx.
Proof.
  destruct (ensure_capacity_frame order_id s)
    as (H1 & H2 & H3 & H4 & H5 & H6 & H7).
  unfold indexed, location. cbn.
  rewrite lookup_insert_eq, order_pool_ensure_capacity, H7.
  repeat split; try assumption; reflexivity.
Qed.

Lemma get_level_indexed bid lidx order_id is_buy price idx s :
  get_level bid lidx (indexed order_id is_buy price idx s) = get_level bid lidx s.
Proof.
  destruct (indexed_frame order_id is_buy price idx s) as (H1 & H2 & _).
  unfold get_level, levels_of. destruct bid; congruence.
Qed.

Section Rested.
Variables (order : Order.t) (order_id : Z) (is_buy : bool) (price idx : Z)
  (pool : ObjectPool.t) (s : Book).

Local Abbreviation lidx := (price_to_index price).
Local Abbreviation level := (get_level is_buy (price_to_index price) s).
Local Abbreviation r := (rested order order_id is_buy price idx pool s).

Ltac open_rested :=
  unfold rested; cbv zeta;
  match goal with
  | |- context [indexed ?a ?b ?c ?d ?t] =>
      destruct (indexed_frame a b c d t)
        as (Hbl & Hal & Hbb & Hab & Hbc & Hac & Hact & Hpool & Hloc);
      pose proof (fun bid l => get_level_indexed bid l a b c d t) as Hlev
  end.

Lemma rested_location : location r order_id = new_location is_buy price idx.
Proof. open_rested. exact Hloc. Qed.

Lemma rested_order_pool :
  order_pool_ r
  = pushed_pool (PriceLevel.tail level) idx (pool_write idx order pool).
Proof.
  open_rested. rewrite Hpool.
  destruct (PriceLevel.empty (get_level is_buy (price_to_index price) s));
    unfold pushed_back; autorewrite with book; reflexivity.
Qed.

Lemma rested_slot_payload : payload (slot (order_pool_ r) idx) = payload order.
Proof.
  rewrite rested_order_pool.
  destruct (links_only_pushed_pool (PriceLevel.tail level) idx
              (pool_write idx order pool)) as (_ & _ & H).
  rewrite H, slot_pool_write_eq. reflexivity.
Qed.

Lemma rested_level :
  get_level is_buy lidx r = volume_added order (pushed_level idx level).
Proof.
  open_rested. rewrite Hlev.
  assert (Hp : payload
                 (slot
                    (order_pool_
                       (pushed_back is_buy (price_to_index price) idx
                          (set_order_pool_ (pool_write idx order pool) s)))
                    idx) = payload order).
  { unfold pushed_back. autorewrite with book.
    destruct (links_only_pushed_pool
                (PriceLevel.tail (get_level is_buy (price_to_index price) s))
                idx (pool_write idx order pool)) as (_ & _ & H).
    rewrite H, slot_pool_write_eq. reflexivity. }
  rewrite (volume_added_payload _ _ _ Hp).
  destruct (PriceLevel.empty (get_level is_buy (price_to_index price) s));
    rewrite ?get_level_level_opened; unfold pushed_back;
    autorewrite with book; reflexivity.
Qed.

Lemma rested_other_level bid l :
  (bid, l) <> (is_buy, lidx) -> get_level bid l r = get_level bid l s.
Proof.
  intros Hne. open_rested. rewrite Hlev.
  destruct (PriceLevel.empty (get_level is_buy (price_to_index price) s));
    rewrite ?get_level_level_opened;
    rewrite (get_level_put_level_ne is_buy (price_to_index price) _ _ bid l
               Hne);
    unfold pushed_back;
    rewrite (get_level_put_level_ne is_buy (price_to_index price) _ _ bid l
               Hne);
    rewrite !get_level_set_order_pool; reflexivity.
Qed.

Lemma rested_bitmaps :
  bid_bitmap_ r
    = (if is_buy && PriceLevel.empty level
       then bitmap_set (bid_bitmap_ s) lidx else bid_bitmap_ s) /\
  ask_bitmap_ r
    = (if negb is_buy && PriceLevel.empty level
       then bitmap_set (ask_bitmap_ s) lidx else ask_bitmap_ s).
Proof.
  open_rested. rewrite Hbb, Hab.
  destruct (PriceLevel.empty (get_level is_buy (price_to_index price) s)).
  - match goal with
    | |- context [level_opened ?b ?p ?t] =>
        destruct (level_opened_frame b p t) as (_ & _ & H3 & H4 & _)
    end.
    rewrite H3, H4. unfold pushed_back.
    destruct is_buy; split; reflexivity.
  - unfold pushed_back. destruct is_buy; split; reflexivity.
Qed.

Lemma rested_counts :
  bid_level_count_ r
    = (if is_buy && PriceLevel.empty level
       then wrap_u32 (bid_level_count_ s + 1) else bid_level_count_ s) /\
  ask_level_count_ r
    = (if negb is_buy && PriceLevel.empty level
       then wrap_u32 (ask_level_count_ s + 1) else ask_level_count_ s) /\
  active_order_count_ r = wrap_u64 (active_order_count_ s + 1).
Proof.
  open_rested. rewrite Hbc, Hac, Hact.
  destruct (PriceLevel.empty (get_level is_buy (price_to_index price) s)).
  - match goal with
    | |- context [level_opened ?b ?p ?t] =>
        destruct (level_opened_frame b p t)
          as (_ & _ & _ & _ & H5 & H6 & H7 & _)
    end.
    rewrite H5, H6, H7. unfold pushed_back.
    destruct is_buy; repeat split; reflexivity.
  - unfold pushed_back. destruct is_buy; repeat split; reflexivity.
Qed.
End Rested.

(** the records that the three resting functions write *)
Definition plain_order (order_id : Z) (is_buy : bool)
    (price quantity user_id : Z) : Order.t :=
  Order.set_aon false
    (Order.set_buy is_buy
       (Order.mk order_id price quantity 0 0 NULL_INDEX NULL_INDEX user_id 0)).

Definition aon_order (order_id : Z) (is_buy : bool)
    (price quantity user_id : Z) : Order.t :=
  Order.set_aon true
    (Order.set_buy is_buy
       (Order.mk order_id price quantity 0 0 NULL_INDEX NULL_INDEX user_id 0)).

Definition iceberg_order (order_id : Z) (is_buy : bool)
    (price total_quantity visible_quantity user_id : Z) : Order.t :=
  Order.set_aon false
    (Order.set_buy is_buy
       (Order.mk order_id price (Z.min visible_quantity total_quantity)
          (wrap_i64 (total_quantity - Z.min visible_quantity total_quantity))
          visible_quantity NULL_INDEX NULL_INDEX user_id 0)).

(** what a successful rest of [order] in slot [idx] means for the book *)
Definition rests_as (order : Order.t) (order_id : Z) (is_buy : bool)
    (price : Z) (s s' : Book) : Prop :=
  exists idx pool,
    ObjectPool.allocate (order_pool_ s) = Ok (idx, pool) /\
    0 <= idx < pool_size pool /\
    valid_link pool
      (PriceLevel.tail (get_level is_buy (price_to_index price) s)) /\
    0 <= order_id < vec_size (order_index_ s') /\
    view s' = view (rested order order_id is_buy price idx pool s).

Lemma add_order_internal_Ok order_id is_buy price quantity user_id s s' :
  add_order_internal order_id is_buy price quantity user_id s = Ok s' ->
  price_to_index price < MAX_PRICE_LEVELS ->
  rests_as (plain_order order_id is_buy price quantity user_id) order_id
    is_buy price s s'.
Proof.
  intros H Hr. unfold add_order_internal in H.
  destruct (MAX_PRICE_LEVELS <=? price_to_index price) eqn:E0;
    [apply Z.leb_le in E0; lia |].
  inv_bind_z H. destruct a as [idx pool]. inv_bind_z H.
  inv_bind_z H. inv_bind_z H. inv_bind_z H. inv_bind_z H. inv_Ok H.
  destruct (rested_Ok _ _ _ _ _ _ _ _ _ _ _ E2 E3 E4 E5)
    as (Hidx & Ht & Hid & ->).
  exists idx, pool.
  rewrite view_cross_check, view_emit_order_accepted.
  rewrite (view_order_index _ _ (view_cross_check _)),
    (view_order_index _ _ (view_emit_order_accepted _ _ _ _ _)).
  repeat split; try assumption; lia.
Qed.

Lemma add_aon_internal_Ok order_id is_buy price quantity user_id s s' :
  add_aon_internal order_id is_buy price quantity user_id s = Ok s' ->
  price_to_index price < MAX_PRICE_LEVELS ->
  rests_as (aon_order order_id is_buy price quantity user_id) order_id
    is_buy price s s'.
Proof.
  intros H Hr. unfold add_aon_internal in H.
  destruct (MAX_PRICE_LEVELS <=? price_to_index price) eqn:E0;
    [apply Z.leb_le in E0; lia |].
  inv_bind_z H. destruct a as [idx pool]. inv_bind_z H.
  inv_bind_z H. inv_bind_z H. inv_bind_z H. inv_bind_z H. inv_Ok H.
  destruct (rested_Ok _ _ _ _ _ _ _ _ _ _ _ E2 E3 E4 E5)
    as (Hidx & Ht & Hid & ->).
  exists idx, pool.
  rewrite view_emit_order_accepted.
  rewrite (view_order_index _ _ (view_emit_order_accepted _ _ _ _ _)).
  repeat split; try assumption; lia.
Qed.

Lemma add_iceberg_internal_Ok order_id is_buy price total_quantity
    visible_quantity user_id s s' :
  add_iceberg_internal order_id is_buy price total_quantity visible_quantity
    user_id s = Ok s' ->
  price_to_index price < MAX_PRICE_LEVELS ->
  rests_as
    (iceberg_order order_id is_buy price total_quantity visible_quantity
       user_id) order_id is_buy price s s'.
Proof.
  intros H Hr. unfold add_iceberg_internal in H.
  destruct (MAX_PRICE_LEVELS <=? price_to_index price) eqn:E0;
    [apply Z.leb_le in E0; lia |].
  inv_bind_z H. destruct a as [idx pool]. inv_bind_z H.
  inv_bind_z H. inv_bind_z H. inv_bind_z H. inv_bind_z H. inv_Ok H.
  destruct (rested_Ok _ _ _ _ _ _ _ _ _ _ _ E2 E3 E4 E5)
    as (Hidx & Ht & Hid & ->).
  exists idx, pool.
  rewrite view_emit_order_accepted.
  rewrite (view_order_index _ _ (view_emit_order_accepted _ _ _ _ _)).
  repeat split; try assumption; lia.
Qed.

(** ** C10: what modify re-adds *)




(** ** Arithmetic of [int64_t] wrap-around *)

Lemma wrap_i64_mod z :
  wrap_i64 z mod 18446744073709551616 = z mod 18446744073709551616.
Proof.
  unfold wrap_i64.
  rewrite Zminus_mod, Zmod_mod, <- Zminus_mod.
  f_equal. lia.
Qed.

Lemma wrap_i64_congr x y :
  x mod 18446744073709551616 = y mod 18446744073709551616 ->
  wrap_i64 x = wrap_i64 y.
Proof.
  intros H. unfold wrap_i64.
  rewrite (Zplus_mod x), (Zplus_mod y), H. reflexivity.
Qed.

Lemma wrap_i64_idem z : wrap_i64 (wrap_i64 z) = wrap_i64 z.
Proof. apply wrap_i64_congr, wrap_i64_mod. Qed.

Lemma wrap_i64_add_l a b : wrap_i64 (wrap_i64 a + b) = wrap_i64 (a + b).
Proof.
  apply wrap_i64_congr.
  rewrite Zplus_mod, wrap_i64_mod, <- Zplus_mod. reflexivity.
Qed.

Lemma wrap_i64_add_r a b : wrap_i64 (a + wrap_i64 b) = wrap_i64 (a + b).
Proof.
  apply wrap_i64_congr.
  rewrite Zplus_mod, wrap_i64_mod, <- Zplus_mod. reflexivity.
Qed.

Lemma wrap_i64_sub_l a b : wrap_i64 (wrap_i64 a - b) = wrap_i64 (a - b).
Proof.
  apply wrap_i64_congr.
  rewrite Zminus_mod, wrap_i64_mod, <- Zminus_mod. reflexivity.
Qed.

Lemma wrap_i64_sub_r a b : wrap_i64 (a - wrap_i64 b) = wrap_i64 (a - b).
Proof.
  apply wrap_i64_congr.
  rewrite Zminus_mod, wrap_i64_mod, <- Zminus_mod. reflexivity.
Qed.

Lemma wrap_i64_opp a : wrap_i64 (- wrap_i64 a) = wrap_i64 (- a).
Proof.
  replace (- wrap_i64 a) with (0 - wrap_i64 a) by lia.
  replace (- a) with (0 - a) by lia. apply wrap_i64_sub_r.
Qed.

Create Rewrite HintDb wrap.

#[local] Hint Rewrite wrap_i64_idem wrap_i64_add_l wrap_i64_add_r
  wrap_i64_sub_l wrap_i64_sub_r wrap_i64_opp : wrap.

Lemma wrap_i64_decomp z :
  exists k, wrap_i64 z = z + k * 18446744073709551616.
Proof.
  exists (- ((z + 9223372036854775808) / 18446744073709551616)).
  unfold wrap_i64. rewrite Z.mod_eq by lia. lia.
Qed.

(** two [int64_t] sums are equal when they agree before wrapping *)
Ltac wrap_eq :=
  apply wrap_i64_congr;
  repeat match goal with
         | |- context [wrap_i64 ?t] =>
             let k := fresh "k" in
             let Hk := fresh "Hk" in
             destruct (wrap_i64_decomp t) as [k Hk]; rewrite Hk; clear Hk
         end;
  Z.to_euclidean_division_equations; lia.

Lemma wrap_u32_mod_idem a b : wrap_u32 (wrap_u32 a + b) = wrap_u32 (a + b).
Proof. unfold wrap_u32. rewrite Zplus_mod_idemp_l. reflexivity. Qed.

(** ** The net effect of an iceberg refresh *)

Lemma slot_pushed_pool_links tail idx p :
  Order.prev (slot (pushed_pool tail idx p) idx) = tail /\
  (tail <> idx -> Order.next (slot (pushed_pool tail idx p) idx) = NULL_INDEX).
Proof.
  unfold pushed_pool.
  destruct (tail =? NULL_INDEX) eqn:Et.
  - rewrite slot_pool_write_eq. split; [reflexivity | intros _; reflexivity].
  - destruct (decide (tail = idx)) as [-> | Hne].
    + rewrite !slot_pool_write_eq. split; [reflexivity | congruence].
    + rewrite slot_pool_write_ne by congruence. rewrite slot_pool_write_eq.
      split; [reflexivity | intros _; reflexivity].
Qed.

Lemma slot_pushed_pool_other tail idx p j :
  j <> idx -> j <> tail -> slot (pushed_pool tail idx p) j = slot p j.
Proof.
  intros H1 H2. unfold pushed_pool.
  destruct (tail =? NULL_INDEX).
  - apply slot_pool_write_ne. exact H1.
  - rewrite slot_pool_write_ne by exact H2.
    apply slot_pool_write_ne. exact H1.
Qed.

Lemma slot_pushed_pool_new tail idx p :
  idx <> tail ->
  slot (pushed_pool tail idx p) idx
  = Order.with_prev tail (Order.with_next NULL_INDEX (slot p idx)).
Proof.
  intros H. unfold pushed_pool.
  destruct (tail =? NULL_INDEX).
  - apply slot_pool_write_eq.
  - rewrite slot_pool_write_ne by exact H. apply slot_pool_write_eq.
Qed.

Lemma slot_pushed_pool_tail tail idx p :
  idx <> tail -> tail <> NULL_INDEX ->
  slot (pushed_pool tail idx p) tail = Order.with_next idx (slot p tail).
Proof.
  intros H Hn. unfold pushed_pool.
  apply Z.eqb_neq in Hn. rewrite Hn.
  rewrite slot_pool_write_eq.
  rewrite slot_pool_write_ne by (intros E; apply H; symmetry; exact E).
  reflexivity.
Qed.

Lemma removed_pool_other idx p j :
  j <> idx -> j <> Order.prev (slot p idx) -> j <> Order.next (slot p idx) ->
  slot (removed_pool idx p) j = slot p j.
Proof.
  intros H1 H2 H3. unfold removed_pool. cbv zeta.
  rewrite slot_pool_write_ne by exact H1.
  destruct (Order.next (slot p idx) =? NULL_INDEX);
    destruct (Order.prev (slot p idx) =? NULL_INDEX);
    rewrite ?slot_pool_write_ne by assumption; reflexivity.
Qed.

Lemma removed_pool_next_of_prev idx p :
  Order.prev (slot p idx) <> NULL_INDEX ->
  Order.prev (slot p idx) <> idx ->
  Order.next (slot (removed_pool idx p) (Order.prev (slot p idx)))
  = Order.next (slot p idx).
Proof.
  intros Hn Hne. unfold removed_pool. cbv zeta.
  rewrite slot_pool_write_ne by exact Hne.
  apply Z.eqb_neq in Hn. rewrite Hn.
  destruct (Order.next (slot p idx) =? NULL_INDEX).
  - rewrite slot_pool_write_eq. reflexivity.
  - remember (Order.prev (slot p idx)) as pr eqn:Hpr.
    remember (Order.next (slot p idx)) as nx eqn:Hnx.
    clear Hpr Hnx.
    destruct (decide (pr = nx)) as [<- | E].
    + rewrite slot_pool_write_eq. cbn [Order.next Order.with_prev].
      rewrite slot_pool_write_eq. reflexivity.
    + rewrite slot_pool_write_ne by exact E.
      rewrite slot_pool_write_eq. reflexivity.
Qed.

Lemma removed_pool_prev_of_next idx p :
  Order.next (slot p idx) <> NULL_INDEX ->
  Order.next (slot p idx) <> idx ->
  Order.prev (slot (removed_pool idx p) (Order.next (slot p idx)))
  = Order.prev (slot p idx).
Proof.
  intros Hn Hne. unfold removed_pool. cbv zeta.
  rewrite slot_pool_write_ne by exact Hne.
  apply Z.eqb_neq in Hn. rewrite Hn.
  rewrite slot_pool_write_eq. reflexivity.
Qed.

Lemma pushed_pool_prev_other tail idx p j :
  j <> idx ->
  Order.prev (slot (pushed_pool tail idx p) j) = Order.prev (slot p j).
Proof.
  intros H. unfold pushed_pool.
  destruct (tail =? NULL_INDEX).
  - rewrite slot_pool_write_ne by exact H. reflexivity.
  - destruct (decide (j = tail)) as [-> | Hne].
    + rewrite slot_pool_write_eq. cbn [Order.prev Order.with_next].
      rewrite slot_pool_write_ne by exact H. reflexivity.
    + rewrite !slot_pool_write_ne by assumption. reflexivity.
Qed.

Lemma reassert_pool_idx_levels id curr s s' :
  reassert_pool_idx id curr s = Ok s' ->
  forall bid lidx, get_level bid lidx s' = get_level bid lidx s.
Proof.
  unfold reassert_pool_idx. intros H bid lidx.
  destruct (id <? vec_size (order_index_ s)); [| inv_Ok H; reflexivity].
  inv_bind H. inv_bind H. inv_Ok H. destruct bid; reflexivity.
Qed.

(** the value that [refresh] computes for the new visible quantity *)
Definition replenish_of (o : Order.t) : Z :=
  Z.min (if 0 <? Order.peak_size o then Order.peak_size o
         else Order.hidden_quantity o)
        (Order.hidden_quantity o).

Lemma refresh_Ok bid lidx curr s s' :
  refresh bid lidx curr s = Ok s' ->
  let o := slot (order_pool_ s) curr in
  let l3 := removed_level o (volume_removed o (get_level bid lidx s)) in
  let p2 := removed_pool curr (order_pool_ s) in
  let o7 :=
    Order.with_hidden_quantity
      (wrap_i64 (Order.hidden_quantity (slot p2 curr) - replenish_of o))
      (Order.with_quantity (replenish_of o) (slot p2 curr)) in
  order_pool_ s' = pushed_pool (PriceLevel.tail l3) curr (pool_write curr o7 p2)
  /\ get_level bid lidx s' = volume_added o7 (pushed_level curr l3).
Proof.
  intros H. unfold refresh in H.
  inv_bind_z H. apply pool_at_Ok in E as [_ ->].
  inv_bind_z H. apply remove_from_level_volume_Ok in E as [_ ->].
  inv_bind_z H. apply list_remove_Ok in E as (_ & _ & _ & ->).
  inv_bind_z H. apply pool_at_Ok in E as [_ ->].
  inv_bind_z H. apply pool_store_Ok in E as [_ ->].
  inv_bind_z H. apply pool_at_Ok in E as [_ ->].
  inv_bind_z H. apply pool_store_Ok in E as [_ ->].
  inv_bind_z H. apply list_push_back_Ok in E as (_ & _ & ->).
  inv_bind_z H. apply add_to_level_volume_Ok in E as (_ & ->).
  inv_bind_z H.
  pose proof (reassert_pool_idx_pool _ _ _ _ H) as Hp.
  pose proof (reassert_pool_idx_levels _ _ _ _ H bid lidx) as Hl.
  cbv zeta. rewrite Hp, Hl. clear H Hp Hl E.
  unfold removed, pushed_back. autorewrite with book.
  fold (replenish_of (slot (order_pool_ s) curr)).
  split; [reflexivity |].
  apply volume_added_payload.
  destruct (links_only_pushed_pool
              (PriceLevel.tail
                 (removed_level (slot (order_pool_ s) curr)
                    (volume_removed (slot (order_pool_ s) curr)
                       (get_level bid lidx s))))
              curr
              (pool_write curr
                 (Order.with_hidden_quantity
                    (wrap_i64
                       (Order.hidden_quantity
                          (slot (removed_pool curr (order_pool_ s)) curr)
                        - replenish_of (slot (order_pool_ s) curr)))
                    (Order.with_quantity
                       (replenish_of (slot (order_pool_ s) curr))
                       (slot (removed_pool curr (order_pool_ s)) curr)))
                 (removed_pool curr (order_pool_ s)))) as (_ & _ & Hpay).
  rewrite Hpay, slot_pool_write_eq. reflexivity.
Qed.

Lemma get_level_adjust_level_volume bid lidx vd hd aon s :
  get_level bid lidx (adjust_level_volume bid lidx vd hd aon s)
  = PriceLevel.with_volumes
      (wrap_i64 (PriceLevel.total_volume (get_level bid lidx s)
                 + wrap_i64 (vd + hd)))
      (wrap_i64 (PriceLevel.total_visible_volume (get_level bid lidx s) + vd))
      (if aon
       then wrap_i64 (PriceLevel.total_aon_volume (get_level bid lidx s)
                      + wrap_i64 (vd + hd))
       else PriceLevel.total_aon_volume (get_level bid lidx s))
      (if aon
       then PriceLevel.total_non_aon_volume (get_level bid lidx s)
       else wrap_i64 (PriceLevel.total_non_aon_volume (get_level bid lidx s)
                      + wrap_i64 (vd + hd)))
      (get_level bid lidx s).
Proof. unfold adjust_level_volume. apply get_level_put_level_eq. Qed.

Lemma pushed_level_fields idx l :
  PriceLevel.head (pushed_level idx l)
    = (if PriceLevel.tail l =? NULL_INDEX then idx else PriceLevel.head l) /\
  PriceLevel.tail (pushed_level idx l) = idx /\
  PriceLevel.count (pushed_level idx l) = wrap_u32 (PriceLevel.count l + 1) /\
  PriceLevel.total_volume (pushed_level idx l) = PriceLevel.total_volume l /\
  PriceLevel.total_visible_volume (pushed_level idx l)
    = PriceLevel.total_visible_volume l /\
  PriceLevel.total_aon_volume (pushed_level idx l)
    = PriceLevel.total_aon_volume l /\
  PriceLevel.total_non_aon_volume (pushed_level idx l)
    = PriceLevel.total_non_aon_volume l.
Proof.
  unfold pushed_level.
  destruct (PriceLevel.tail l =? NULL_INDEX); repeat split; reflexivity.
Qed.

Lemma removed_level_fields o l :
  PriceLevel.head (removed_level o l)
    = (if Order.prev o =? NULL_INDEX then Order.next o
       else PriceLevel.head l) /\
  PriceLevel.tail (removed_level o l)
    = (if Order.next o =? NULL_INDEX then Order.prev o
       else PriceLevel.tail l) /\
  PriceLevel.count (removed_level o l) = wrap_u32 (PriceLevel.count l - 1) /\
  PriceLevel.total_volume (removed_level o l) = PriceLevel.total_volume l /\
  PriceLevel.total_visible_volume (removed_level o l)
    = PriceLevel.total_visible_volume l /\
  PriceLevel.total_aon_volume (removed_level o l)
    = PriceLevel.total_aon_volume l /\
  PriceLevel.total_non_aon_volume (removed_level o l)
    = PriceLevel.total_non_aon_volume l.
Proof.
  unfold removed_level.
  destruct (Order.prev o =? NULL_INDEX), (Order.next o =? NULL_INDEX);
    repeat split; reflexivity.
Qed.

(** ** C5: iceberg refresh *)

(** C5.  When a trade in the matching walk takes the whole visible quantity
    of a resting order whose hidden quantity is strictly positive, the
    order is refreshed: its visible quantity becomes min(peak, hidden), or
    all of hidden when peak is 0; its hidden quantity drops by exactly that
    amount and its other fields stay.  The node is unlinked and re-appended
    at the tail of the FIFO of the same level: its old neighbours are
    linked to each other, the level's tail becomes the node, the node that
    was the tail after the unlink gets the node as its [next], the node has
    that one as its [prev] and no [next], and the head of the level is the
    head after the unlink, or the node itself when it was alone.  No other
    record changes but in these links.  The level keeps its order count;
    its total volume, and its all-or-none or its other sum, drop by the
    traded quantity only, and its visible volume by the traded quantity
    less the replenishment. *)
Theorem iceberg_refresh_on_exhaustion :
  forall order_id is_buy lidx current_best curr remaining_qty s s' r',
    let o := slot (order_pool_ s) curr in
    let level := get_level (negb is_buy) lidx s in
    0 <= Order.quantity o <= remaining_qty ->
    0 < Order.hidden_quantity o <= INT64_MAX ->
    0 <= Order.peak_size o ->
    fill order_id is_buy lidx current_best curr remaining_qty s = Ok (s', r') ->
    let o' := slot (order_pool_ s') curr in
    let level' := get_level (negb is_buy) lidx s' in
    let replenish :=
      if Order.peak_size o =? 0 then Order.hidden_quantity o
      else Z.min (Order.peak_size o) (Order.hidden_quantity o) in
    let head_after_unlink :=
      if Order.prev o =? NULL_INDEX then Order.next o
      else PriceLevel.head level in
    let tail_after_unlink :=
      if Order.next o =? NULL_INDEX then Order.prev o
      else PriceLevel.tail level in
    Order.quantity o' = replenish /\
    Order.hidden_quantity o' = Order.hidden_quantity o - replenish /\
    Order.peak_size o' = Order.peak_size o /\
    Order.order_id o' = Order.order_id o /\
    PriceLevel.tail level' = curr /\
    Order.prev o' = tail_after_unlink /\
    (tail_after_unlink <> curr -> Order.next o' = NULL_INDEX) /\
    PriceLevel.count level' = wrap_u32 (PriceLevel.count level) /\
    PriceLevel.total_volume level'
      = wrap_i64 (PriceLevel.total_volume level - Order.quantity o) /\
    PriceLevel.total_visible_volume level'
      = wrap_i64 (PriceLevel.total_visible_volume level - Order.quantity o
                  + replenish) /\
    r' = wrap_i64 (remaining_qty - Order.quantity o) /\
    PriceLevel.head level'
      = (if tail_after_unlink =? NULL_INDEX then curr
         else head_after_unlink) /\
    (tail_after_unlink <> NULL_INDEX -> tail_after_unlink <> curr ->
     Order.next (slot (order_pool_ s') tail_after_unlink) = curr) /\
    (Order.prev o <> NULL_INDEX -> Order.prev o <> curr ->
     Order.prev o <> tail_after_unlink ->
     Order.next (slot (order_pool_ s') (Order.prev o)) = Order.next o) /\
    (Order.next o <> NULL_INDEX -> Order.next o <> curr ->
     Order.prev (slot (order_pool_ s') (Order.next o)) = Order.prev o) /\
    (forall j, j <> curr ->
       payload (slot (order_pool_ s') j) = payload (slot (order_pool_ s) j)) /\
    (forall j, j <> curr -> j <> Order.prev o -> j <> Order.next o ->
       j <> tail_after_unlink ->
       slot (order_pool_ s') j = slot (order_pool_ s) j) /\
    Order.price o' = Order.price o /\
    Order.user_id_low o' = Order.user_id_low o /\
    Order.flags o' = Order.flags o /\
    PriceLevel.total_aon_volume level'
      = (if Order.is_aon o
         then wrap_i64 (PriceLevel.total_aon_volume level - Order.quantity o)
         else PriceLevel.total_aon_volume level) /\
    PriceLevel.total_non_aon_volume level'
      = (if Order.is_aon o
         then PriceLevel.total_non_aon_volume level
         else wrap_i64 (PriceLevel.total_non_aon_volume level
                        - Order.quantity o)).
Proof.
  intros order_id is_buy lidx current_best curr remaining_qty s s' r'
         o level Hq Hh Hpk H.
  unfold fill in H.
  inv_bind_z H. apply pool_at_Ok in E as [_ ->].
  inv_bind_z H. apply pool_at_Ok in E as [_ ->].
  inv_bind_z H. apply pool_store_Ok in E as [_ ->].
  inv_bind_z H. apply pool_at_Ok in E as [_ ->].
  autorewrite with book in *. fold o in H.
  rewrite Z.min_r in * by lia.
  replace (Order.quantity o - Order.quantity o) with 0 in * by lia.
  change (wrap_i64 0) with 0 in *.
  change (Order.quantity (Order.with_quantity 0 o) =? 0) with true in H.
  change (Order.hidden_quantity (Order.with_quantity 0 o))
    with (Order.hidden_quantity o) in H.
  assert (Ehid : (0 <? Order.hidden_quantity o) = true)
    by (apply Z.ltb_lt; lia).
  rewrite Ehid in H.
  inv_bind_z H. injection H as <- <-.
  match type of E with
  | refresh _ _ _ ?t = _ => set (s3 := t) in *
  end.
  assert (Hp3 : order_pool_ s3
                = pool_write curr (Order.with_quantity 0 o) (order_pool_ s))
    by reflexivity.
  assert (Hl3 : get_level (negb is_buy) lidx s3
                = PriceLevel.with_volumes
                    (wrap_i64 (PriceLevel.total_volume level
                               + wrap_i64 (wrap_i64 (- Order.quantity o) + 0)))
                    (wrap_i64 (PriceLevel.total_visible_volume level
                               + wrap_i64 (- Order.quantity o)))
                    (if Order.is_aon o
                     then wrap_i64 (PriceLevel.total_aon_volume level
                                    + wrap_i64 (wrap_i64 (- Order.quantity o)
                                                + 0))
                     else PriceLevel.total_aon_volume level)
                    (if Order.is_aon o
                     then PriceLevel.total_non_aon_volume level
                     else wrap_i64 (PriceLevel.total_non_aon_volume level
                                    + wrap_i64 (wrap_i64 (- Order.quantity o)
                                                + 0)))
                    level).
  { subst s3. rewrite get_level_set_order_pool, get_level_adjust_level_volume.
    rewrite (view_get_level _ _ (view_emit_trade _ _ _ _ _)). reflexivity. }
  apply refresh_Ok in E. cbv zeta in E. rewrite Hp3, Hl3 in E.
  rewrite slot_pool_write_eq in E. clearbody s3. clear Hp3 Hl3.
  set (o0 := Order.with_quantity 0 o) in *.
  set (p1 := pool_write curr o0 (order_pool_ s)) in *.
  assert (Hpay2 : payload (slot (removed_pool curr p1) curr) = payload o0).
  { destruct (links_only_removed_pool curr p1) as (_ & _ & Hp).
    rewrite Hp. subst p1. rewrite slot_pool_write_eq. reflexivity. }
  apply payload_fields in Hpay2 as (Hid2 & Hpr2 & _ & Hh2 & Hpk2 & Hu2 & Hf2).
  change (Order.hidden_quantity o0) with (Order.hidden_quantity o) in Hh2.
  change (Order.peak_size o0) with (Order.peak_size o) in Hpk2.
  change (Order.order_id o0) with (Order.order_id o) in Hid2.
  change (Order.price o0) with (Order.price o) in Hpr2.
  change (Order.user_id_low o0) with (Order.user_id_low o) in Hu2.
  change (Order.flags o0) with (Order.flags o) in Hf2.
  rewrite Hh2 in E.
  assert (Hr : replenish_of o0
               = (if Order.peak_size o =? 0 then Order.hidden_quantity o
                  else Z.min (Order.peak_size o) (Order.hidden_quantity o))).
  { unfold replenish_of.
    change (Order.peak_size o0) with (Order.peak_size o).
    change (Order.hidden_quantity o0) with (Order.hidden_quantity o).
    destruct (Order.peak_size o =? 0) eqn:E0.
    - apply Z.eqb_eq in E0. rewrite E0. simpl. lia.
    - apply Z.eqb_neq in E0.
      assert (E1 : (0 <? Order.peak_size o) = true) by (apply Z.ltb_lt; lia).
      rewrite E1. reflexivity. }
  rewrite Hr in E.
  set (r := if Order.peak_size o =? 0 then Order.hidden_quantity o
            else Z.min (Order.peak_size o) (Order.hidden_quantity o)) in *.
  assert (Hrr : 0 < r <= Order.hidden_quantity o)
    by (subst r; destruct (Order.peak_size o =? 0) eqn:E0;
        [lia | apply Z.eqb_neq in E0; lia]).
  destruct E as [Ep El].
  cbv zeta. rewrite Ep, El. clear Ep El.
  match goal with
  | |- context [volume_removed o0 ?l] => set (l0 := l) in *
  end.
  set (l3 := removed_level o0 (volume_removed o0 l0)) in *.
  set (p2 := removed_pool curr p1) in *.
  match goal with
  | |- context [pool_write curr ?x p2] => set (o7 := x) in *
  end.
  set (p3 := pool_write curr o7 p2) in *.
  destruct (removed_level_fields o0 (volume_removed o0 l0))
    as (Rhead & Rtail & Rcount & Rtv & Rvv & Rav & Rnv).
  fold l3 in Rhead, Rtail, Rcount, Rtv, Rvv, Rav, Rnv.
  change (Order.next o0) with (Order.next o) in Rhead, Rtail.
  change (Order.prev o0) with (Order.prev o) in Rhead, Rtail.
  change (PriceLevel.head (volume_removed o0 l0))
    with (PriceLevel.head level) in Rhead.
  change (PriceLevel.tail (volume_removed o0 l0))
    with (PriceLevel.tail level) in Rtail.
  set (hu := if Order.prev o =? NULL_INDEX then Order.next o
             else PriceLevel.head level) in *.
  set (tu := if Order.next o =? NULL_INDEX then Order.prev o
             else PriceLevel.tail level) in *.
  rewrite Rtail.
  destruct (pushed_level_fields curr l3)
    as (Phead & Ptail & Pcount & Ptv & Pvv & Pav & Pnv).
  rewrite Rtail, Rhead in Phead.
  destruct (slot_pushed_pool_links tu curr p3) as [Hprev Hnext].
  destruct (links_only_pushed_pool tu curr p3) as (_ & _ & Hpay).
  pose proof (Hpay curr) as Hpayc. unfold p3 in Hpayc at 2.
  rewrite slot_pool_write_eq in Hpayc.
  apply payload_fields in Hpayc as (Hid & Hpr & Hq' & Hh' & Hpk' & Hu & Hf).
  assert (Haon7 : Order.is_aon o7 = Order.is_aon o).
  { unfold Order.is_aon. subst o7. cbn [Order.flags Order.with_hidden_quantity
                                         Order.with_quantity].
    rewrite Hf2. reflexivity. }
  assert (Hp1 : forall j, j <> curr -> slot p1 j = slot (order_pool_ s) j)
    by (intros j Hj; subst p1; apply slot_pool_write_ne; exact Hj).
  assert (Hprev1 : Order.prev (slot p1 curr) = Order.prev o)
    by (subst p1; rewrite slot_pool_write_eq; reflexivity).
  assert (Hnext1 : Order.next (slot p1 curr) = Order.next o)
    by (subst p1; rewrite slot_pool_write_eq; reflexivity).
  (* the record of the node *)
  split; [rewrite Hq'; reflexivity |].
  split; [rewrite Hh'; cbn; apply wrap_i64_small; unfold INT64_MAX in *; lia |].
  split; [rewrite Hpk'; exact Hpk2 |].
  split; [rewrite Hid; exact Hid2 |].
  (* tail, prev, next *)
  split; [exact Ptail |]. split; [exact Hprev |]. split; [exact Hnext |].
  (* count, total and visible volume *)
  unfold volume_added.
  cbn [PriceLevel.head PriceLevel.tail PriceLevel.count
       PriceLevel.total_volume PriceLevel.total_visible_volume
       PriceLevel.total_aon_volume PriceLevel.total_non_aon_volume
       PriceLevel.with_volumes].
  rewrite Haon7, Pcount, Ptv, Pvv, Pav, Pnv, Rcount, Rtv, Rvv, Rav, Rnv.
  unfold volume_removed.
  cbn [PriceLevel.head PriceLevel.tail PriceLevel.count
       PriceLevel.total_volume PriceLevel.total_visible_volume
       PriceLevel.total_aon_volume PriceLevel.total_non_aon_volume
       PriceLevel.with_volumes].
  change (Order.is_aon o0) with (Order.is_aon o).
  change (Order.hidden_quantity o0) with (Order.hidden_quantity o).
  change (Order.quantity o0) with 0.
  subst l0.
  cbn [PriceLevel.head PriceLevel.tail PriceLevel.count
       PriceLevel.total_volume PriceLevel.total_visible_volume
       PriceLevel.total_aon_volume PriceLevel.total_non_aon_volume
       PriceLevel.with_volumes].
  assert (Hq7 : Order.quantity o7 = r) by reflexivity.
  assert (Hh7 : Order.hidden_quantity o7
                = wrap_i64 (Order.hidden_quantity o - r)) by reflexivity.
  rewrite Hq7, Hh7.
  split; [rewrite wrap_u32_mod_idem; f_equal; lia |].
  split; [wrap_eq |]. split; [wrap_eq |]. split; [reflexivity |].
  (* head *)
  split; [exact Phead |].
  (* the old tail *)
  split.
  { intros Hn Hne. rewrite slot_pushed_pool_tail by congruence.
    reflexivity. }
  (* the old neighbours *)
  split.
  { intros Hn Hne Hnt.
    rewrite slot_pushed_pool_other by assumption.
    unfold p3. rewrite slot_pool_write_ne by exact Hne.
    unfold p2. rewrite <- Hprev1.
    rewrite removed_pool_next_of_prev by (rewrite Hprev1; assumption).
    exact Hnext1. }
  split.
  { intros Hn Hne.
    rewrite pushed_pool_prev_other by exact Hne.
    unfold p3. rewrite slot_pool_write_ne by exact Hne.
    unfold p2. rewrite <- Hnext1.
    rewrite removed_pool_prev_of_next by (rewrite Hnext1; assumption).
    exact Hprev1. }
  (* the other records *)
  split.
  { intros j Hj. rewrite Hpay. unfold p3.
    rewrite slot_pool_write_ne by exact Hj.
    destruct (links_only_removed_pool curr p1) as (_ & _ & Hp).
    unfold p2. rewrite Hp, Hp1 by exact Hj. reflexivity. }
  split.
  { intros j Hj Hjp Hjn Hjt.
    rewrite slot_pushed_pool_other by assumption.
    unfold p3. rewrite slot_pool_write_ne by exact Hj.
    unfold p2.
    rewrite removed_pool_other
      by (rewrite ?Hprev1, ?Hnext1; assumption).
    apply Hp1. exact Hj. }
  split; [rewrite Hpr; exact Hpr2 |].
  split; [rewrite Hu; exact Hu2 |].
  split; [rewrite Hf; exact Hf2 |].
  destruct (Order.is_aon o); split; try reflexivity; wrap_eq.
Qed.

(** an iceberg buy at 100 (total 50, peak 10) with a plain buy of 5 queued
    behind it *)
Definition book_iceberg_queue : Book :=
  book_of [AddIceberg 1 true 100 50 10 7; Add 2 true 100 5 0].

Definition book_iceberg_queue_hit : Book :=
  match fill 3 false 100 100 0 10 book_iceberg_queue with
  | Ok (s, _) => s
  | _ => book_iceberg_queue
  end.

Lemma iceberg_refresh_on_exhaustion_witness :
  Order.quantity (slot (order_pool_ book_iceberg_queue) 0) = 10 /\
  Order.hidden_quantity (slot (order_pool_ book_iceberg_queue) 0) = 40 /\
  Order.peak_size (slot (order_pool_ book_iceberg_queue) 0) = 10 /\
  PriceLevel.head (get_level true 100 book_iceberg_queue) = 0 /\
  PriceLevel.tail (get_level true 100 book_iceberg_queue) = 1 /\
  fill 3 false 100 100 0 10 book_iceberg_queue
  = Ok (book_iceberg_queue_hit, 0) /\
  Order.quantity (slot (order_pool_ book_iceberg_queue_hit) 0) = 10 /\
  Order.hidden_quantity (slot (order_pool_ book_iceberg_queue_hit) 0) = 30 /\
  PriceLevel.head (get_level true 100 book_iceberg_queue_hit) = 1 /\
  PriceLevel.tail (get_level true 100 book_iceberg_queue_hit) = 0 /\
  Order.next (slot (order_pool_ book_iceberg_queue_hit) 1) = 0 /\
  Order.prev (slot (order_pool_ book_iceberg_queue_hit) 1) = NULL_INDEX /\
  Order.prev (slot (order_pool_ book_iceberg_queue_hit) 0) = 1 /\
  Order.next (slot (order_pool_ book_iceberg_queue_hit) 0) = NULL_INDEX /\
  PriceLevel.total_volume (get_level true 100 book_iceberg_queue_hit) = 45 /\
  PriceLevel.total_visible_volume (get_level true 100 book_iceberg_queue_hit)
  = 15 /\
  PriceLevel.total_non_aon_volume (get_level true 100 book_iceberg_queue_hit)
  = 45.
Proof.
  assert (E1 : Order.quantity (slot (order_pool_ book_iceberg_queue) 0) = 10)
    by (vm_compute; reflexivity).
  assert (E2 : Order.hidden_quantity (slot (order_pool_ book_iceberg_queue) 0)
               = 40) by (vm_compute; reflexivity).
  assert (E3 : Order.peak_size (slot (order_pool_ book_iceberg_queue) 0) = 10)
    by (vm_compute; reflexivity).
  assert (E4 : PriceLevel.total_volume (get_level true 100 book_iceberg_queue)
               = 55) by (vm_compute; reflexivity).
  assert (E5 : PriceLevel.total_visible_volume
                 (get_level true 100 book_iceberg_queue) = 15)
    by (vm_compute; reflexivity).
  assert (E6 : PriceLevel.total_non_aon_volume
                 (get_level true 100 book_iceberg_queue) = 55)
    by (vm_compute; reflexivity).
  assert (E7 : Order.next (slot (order_pool_ book_iceberg_queue) 0) = 1)
    by (vm_compute; reflexivity).
  assert (E8 : Order.prev (slot (order_pool_ book_iceberg_queue) 0)
               = NULL_INDEX) by (vm_compute; reflexivity).
  assert (E9 : PriceLevel.head (get_level true 100 book_iceberg_queue) = 0)
    by (vm_compute; reflexivity).
  assert (E10 : PriceLevel.tail (get_level true 100 book_iceberg_queue) = 1)
    by (vm_compute; reflexivity).
  assert (E11 : Order.is_aon (slot (order_pool_ book_iceberg_queue) 0) = false)
    by (vm_compute; reflexivity).
  assert (H1 : 0 <= Order.quantity (slot (order_pool_ book_iceberg_queue) 0)
               <= 10) by (rewrite E1; lia).
  assert (H2 : 0 < Order.hidden_quantity
                     (slot (order_pool_ book_iceberg_queue) 0) <= INT64_MAX)
    by (rewrite E2; unfold INT64_MAX; lia).
  assert (H3 : 0 <= Order.peak_size (slot (order_pool_ book_iceberg_queue) 0))
    by (rewrite E3; lia).
  assert (H4 : fill 3 false 100 100 0 10 book_iceberg_queue
               = Ok (book_iceberg_queue_hit, 0)) by (vm_compute; reflexivity).
  pose proof (iceberg_refresh_on_exhaustion 3 false 100 100 0 10
                book_iceberg_queue book_iceberg_queue_hit 0 H1 H2 H3 H4) as H.
  cbv zeta in H. change (negb false) with true in H.
  rewrite E1, E2, E3, E4, E5, E6, E7, E8, E9, E10, E11 in H.
  destruct H as (Hq & Hh & _ & _ & Ht & Hpv & Hnx & _ & Htv & Hvv & _ & Hhd
                 & Hot & _ & Hon & _ & _ & _ & _ & _ & _ & Hnv).
  split; [exact E1 |]. split; [exact E2 |]. split; [exact E3 |].
  split; [exact E9 |]. split; [exact E10 |]. split; [exact H4 |].
  split; [exact Hq |]. split; [exact Hh |]. split; [exact Hhd |].
  split; [exact Ht |].
  split; [apply Hot; vm_compute; discriminate |].
  split; [apply Hon; vm_compute; discriminate |].
  split; [exact Hpv |].
  split; [apply Hnx; vm_compute; discriminate |].
  split; [exact Htv |]. split; [exact Hvv | exact Hnv].
Defined.

(** ** The net effect of a cancel *)

Lemma cancel_order_internal_effect order_id s s' :
  0 <= order_id < vec_size (order_index_ s) ->
  OrderLocation.is_active (location s order_id) = true ->
  price_to_index (OrderLocation.price (location s order_id))
    < MAX_PRICE_LEVELS ->
  cancel_order_internal order_id s = Ok s' ->
  let loc := location s order_id in
  let b := OrderLocation.is_buy loc in
  let i := price_to_index (OrderLocation.price loc) in
  let o := slot (order_pool_ s) (OrderLocation.pool_idx loc) in
  let l' := removed_level o (volume_removed o (get_level b i s)) in
  get_level b i s' = l' /\
  (forall bid l, (bid, l) <> (b, i) -> get_level bid l s' = get_level bid l s) /\
  bid_bitmap_ s'
    = (if b && PriceLevel.empty l' then bitmap_clear (bid_bitmap_ s) i
       else bid_bitmap_ s) /\
  ask_bitmap_ s'
    = (if negb b && PriceLevel.empty l' then bitmap_clear (ask_bitmap_ s) i
       else ask_bitmap_ s) /\
  bid_level_count_ s'
    = (if b && PriceLevel.empty l' then wrap_u32 (bid_level_count_ s - 1)
       else bid_level_count_ s) /\
  ask_level_count_ s'
    = (if negb b && PriceLevel.empty l' then wrap_u32 (ask_level_count_ s - 1)
       else ask_level_count_ s) /\
  active_order_count_ s' = wrap_u64 (active_order_count_ s - 1).
Proof.
  intros Hid Hact Hrange H. unfold cancel_order_internal in H.
  assert (Hskip : unknown_or_inactive order_id s = Ok false).
  { unfold unknown_or_inactive.
    destruct (vec_size (order_index_ s) <=? order_id) eqn:E;
      [apply Z.leb_le in E; lia |].
    rewrite vec_get_in_range by exact Hid. cbn [bind].
    fold (location s order_id). rewrite Hact. reflexivity. }
  rewrite Hskip in H. cbn [bind] in H.
  rewrite vec_get_in_range in H by exact Hid. cbn [bind] in H.
  fold (location s order_id) in H.
  set (loc := location s order_id) in *.
  destruct (MAX_PRICE_LEVELS <=? price_to_index (OrderLocation.price loc))
    eqn:E; [apply Z.leb_le in E; lia |].
  clear E Hskip.
  inv_bind_z H. apply pool_at_Ok in E as [_ ->].
  inv_bind_z H. apply remove_from_level_volume_Ok in E as [_ ->].
  inv_bind_z H. apply list_remove_Ok in E as (_ & _ & _ & ->).
  inv_bind_z H. rename a into pool.
  inv_bind_z H. inv_bind_z H. inv_Ok H.
  cbv zeta.
  set (b := OrderLocation.is_buy loc) in *.
  set (i := price_to_index (OrderLocation.price loc)) in *.
  set (o := slot (order_pool_ s) (OrderLocation.pool_idx loc)) in *.
  set (l' := removed_level o (volume_removed o (get_level b i s))).
  match goal with
  | |- context [emit_order_cancelled ?x ?q ?t] =>
      pose proof (view_emit_order_cancelled x q t) as Hv
  end.
  rewrite (view_get_level _ _ Hv).
  destruct (view_bitmaps _ _ Hv) as [-> ->].
  destruct (view_counts _ _ Hv) as (-> & -> & ->).
  assert (Hsc : forall bid l,
             get_level bid l
               (set_order_pool_ pool
                  (removed b i (OrderLocation.pool_idx loc)
                     (put_level b i (volume_removed o (get_level b i s)) s)))
             = if decide ((bid, l) = (b, i)) then l' else get_level bid l s).
  { intros bid l. rewrite get_level_set_order_pool. unfold removed.
    autorewrite with book. fold o. fold l'.
    destruct (decide ((bid, l) = (b, i))) as [Heq | Hne].
    - injection Heq as -> ->. apply get_level_put_level_eq.
    - rewrite ?get_level_put_level_ne by exact Hne.
      rewrite ?get_level_set_order_pool.
      rewrite ?get_level_put_level_ne by exact Hne. reflexivity. }
  match type of Hsc with
  | forall bid l, get_level bid l ?t = _ => set (sc := t) in *
  end.
  assert (Hfr : bid_bitmap_ sc = bid_bitmap_ s /\
                ask_bitmap_ sc = ask_bitmap_ s /\
                bid_level_count_ sc = bid_level_count_ s /\
                ask_level_count_ sc = ask_level_count_ s /\
                active_order_count_ sc = active_order_count_ s).
  { subst sc. unfold removed. destruct b; repeat split; reflexivity. }
  destruct Hfr as (Fbb & Fab & Fbc & Fac & Fact).
  clearbody sc. clear Hv E E0 E1.
  pose proof (Hsc b i) as Hbi.
  rewrite decide_True in Hbi by reflexivity. rewrite Hbi.
  assert (Hg : forall bid l v ix t,
             get_level bid l (set_active_order_count_ v (set_order_index_ ix t))
             = get_level bid l t)
    by (intros bid l v ix t; destruct bid; reflexivity).
  rewrite !Hg. cbn [bid_bitmap_ ask_bitmap_ bid_level_count_ ask_level_count_
                    active_order_count_ set_active_order_count_
                    set_order_index_].
  destruct (PriceLevel.empty l') eqn:El.
  - destruct (level_closed_frame b (OrderLocation.price loc) sc)
      as (_ & _ & Cbb & Cab & Cbc & Cac & Cact & _).
    fold i in Cbb, Cab.
    rewrite !get_level_level_closed, Cbb, Cab, Cbc, Cac, Cact.
    rewrite Fbb, Fab, Fbc, Fac, Fact.
    split; [exact Hbi |].
    split.
    { intros bid l Hne.
      rewrite (view_get_level _ _ (view_emit_order_cancelled _ _ _)), Hg.
      rewrite get_level_level_closed, Hsc, decide_False by exact Hne.
      reflexivity. }
    destruct b; cbn [andb negb]; rewrite ?Hbi, ?El; repeat split; reflexivity.
  - rewrite Fbb, Fab, Fbc, Fac, Fact.
    split; [exact Hbi |].
    split.
    { intros bid l Hne.
      rewrite (view_get_level _ _ (view_emit_order_cancelled _ _ _)), Hg.
      rewrite Hsc, decide_False by exact Hne. reflexivity. }
    rewrite !andb_false_r. repeat split; reflexivity.
Qed.

(** ** C9: add, then cancel *)

Lemma bitmap_word_insert bitmap k v w :
  bitmap_word (<[k := v]> bitmap) w = if decide (w = k) then v else bitmap_word bitmap w.
Proof.
  unfold bitmap_word. destruct (decide (w = k)) as [-> | Hne].
  - rewrite lookup_insert_eq. reflexivity.
  - rewrite lookup_insert_ne by congruence. reflexivity.
Qed.

Lemma ldiff_lor_disjoint w m : Z.land w m = 0 -> Z.ldiff (Z.lor w m) m = w.
Proof.
  intros H. apply Z.bits_inj'. intros n Hn.
  rewrite Z.ldiff_spec, Z.lor_spec.
  assert (Hb : Z.testbit w n && Z.testbit m n = false)
    by (rewrite <- Z.land_spec, H; apply Z.bits_0).
  destruct (Z.testbit w n), (Z.testbit m n); simpl in *; congruence.
Qed.

Lemma bitmap_clear_set bitmap idx :
  bitmap_test bitmap idx = false ->
  forall w,
    bitmap_word (bitmap_clear (bitmap_set bitmap idx) idx) w
    = bitmap_word bitmap w.
Proof.
  unfold bitmap_test, bitmap_clear, bitmap_set. intros H w.
  apply negb_false_iff, Z.eqb_eq in H.
  rewrite !bitmap_word_insert.
  destruct (decide (w = idx / 64)) as [-> | Hne]; [| reflexivity].
  rewrite decide_True by reflexivity.
  apply ldiff_lor_disjoint. exact H.
Qed.

Definition same_aggregates (l l' : PriceLevel.t) : Prop :=
  PriceLevel.count l = PriceLevel.count l' /\
  PriceLevel.total_volume l = PriceLevel.total_volume l' /\
  PriceLevel.total_visible_volume l = PriceLevel.total_visible_volume l' /\
  PriceLevel.total_aon_volume l = PriceLevel.total_aon_volume l' /\
  PriceLevel.total_non_aon_volume l = PriceLevel.total_non_aon_volume l'.

(** what the claim needs of the level that the add touches: head and tail
    agree on emptiness, an empty level has its bit clear, and the
    aggregates are values of their C++ types *)
Definition level_well_formed (bid : bool) (lidx : Z) (s : Book) : Prop :=
  let l := get_level bid lidx s in
  (PriceLevel.head l = NULL_INDEX <-> PriceLevel.tail l = NULL_INDEX) /\
  (PriceLevel.empty l = true ->
   bitmap_test (if bid then bid_bitmap_ s else ask_bitmap_ s) lidx = false) /\
  uint32_range (PriceLevel.count l) /\
  int64_range (PriceLevel.total_volume l) /\
  int64_range (PriceLevel.total_visible_volume l) /\
  int64_range (PriceLevel.total_aon_volume l) /\
  int64_range (PriceLevel.total_non_aon_volume l).

Definition counters_in_range (s : Book) : Prop :=
  uint32_range (bid_level_count_ s) /\
  uint32_range (ask_level_count_ s) /\
  uint64_range (active_order_count_ s).

Lemma wrap_i64_add_sub x t : int64_range x -> wrap_i64 (wrap_i64 (x + t) - t) = x.
Proof.
  intros H. transitivity (wrap_i64 x); [wrap_eq |].
  apply wrap_i64_small. exact H.
Qed.

Lemma wrap_u32_add_sub x : uint32_range x -> wrap_u32 (wrap_u32 (x + 1) - 1) = x.
Proof.
  unfold uint32_range, UINT32_MAX, wrap_u32. intros H.
  rewrite Zminus_mod_idemp_l.
  replace (x + 1 - 1) with x by lia. apply Z.mod_small. lia.
Qed.

Lemma wrap_u64_add_sub x : uint64_range x -> wrap_u64 (wrap_u64 (x + 1) - 1) = x.
Proof.
  unfold uint64_range, wrap_u64. intros H.
  rewrite Zminus_mod_idemp_l.
  replace (x + 1 - 1) with x by lia. apply Z.mod_small. lia.
Qed.

Lemma volume_removed_added o l :
  int64_range (PriceLevel.total_volume l) ->
  int64_range (PriceLevel.total_visible_volume l) ->
  int64_range (PriceLevel.total_aon_volume l) ->
  int64_range (PriceLevel.total_non_aon_volume l) ->
  PriceLevel.total_volume (volume_removed o (volume_added o l))
    = PriceLevel.total_volume l /\
  PriceLevel.total_visible_volume (volume_removed o (volume_added o l))
    = PriceLevel.total_visible_volume l /\
  PriceLevel.total_aon_volume (volume_removed o (volume_added o l))
    = PriceLevel.total_aon_volume l /\
  PriceLevel.total_non_aon_volume (volume_removed o (volume_added o l))
    = PriceLevel.total_non_aon_volume l.
Proof.
  intros H1 H2 H3 H4. unfold volume_removed, volume_added. cbn.
  destruct (Order.is_aon o); repeat split;
    try reflexivity; apply wrap_i64_add_sub; assumption.
Qed.

Lemma allocate_pool_size p idx p' :
  ObjectPool.allocate p = Ok (idx, p') ->
  pool_size p' = pool_size p \/ pool_size p' = wrap_u64 (pool_size p * 2).
Proof.
  unfold ObjectPool.allocate. intros H.
  destruct (ObjectPool.free_indices_ p) as [| j rest] eqn:Ef.
  - destruct (ObjectPool.free_indices_ (ObjectPool.grow p)); [discriminate |].
    injection H as _ <-. right. reflexivity.
  - rewrite Ef in H. injection H as _ <-. left. reflexivity.
Qed.

Lemma vec_set_in_range {T} (v : vec T) (i : Z) (x : T) :
  0 <= i < vec_size v ->
  vec_set v i x = Ok (mk_vec (<[i := x]> (vec_data v)) (vec_size v)).
Proof.
  intros H. unfold vec_set, vec_in_range.
  destruct (0 <=? i) eqn:E1, (i <? vec_size v) eqn:E2; simpl; auto; lia.
Qed.

(** [list_remove] returns when the node and its two neighbours are slots of
    the slab *)
Lemma list_remove_returns bid lidx idx s :
  0 <= idx < pool_size (order_pool_ s) ->
  valid_link (order_pool_ s) (Order.prev (slot (order_pool_ s) idx)) ->
  valid_link (order_pool_ s) (Order.next (slot (order_pool_ s) idx)) ->
  exists s', list_remove bid lidx idx s = Ok s'.
Proof.
  intros Hidx Hp Hn. unfold list_remove.
  rewrite pool_at_in_range by exact Hidx. cbn [bind].
  set (o := slot (order_pool_ s) idx) in *.
  match goal with
  | |- exists s', bind ?e _ = _ =>
      assert (H1 : exists s1, e = Ok s1 /\
                pool_size (order_pool_ s1) = pool_size (order_pool_ s) /\
                Order.next (slot (order_pool_ s1) idx) = Order.next o /\
                Order.prev (slot (order_pool_ s1) idx) = Order.prev o)
  end.
  { destruct (Order.prev o =? NULL_INDEX) eqn:Ep; cbn [negb].
    - eexists. split; [reflexivity |]. rewrite order_pool_put_level.
      repeat split; reflexivity.
    - destruct Hp as [Hp | Hp]; [apply Z.eqb_neq in Ep; contradiction |].
      rewrite pool_at_in_range by exact Hp. cbn [bind].
      rewrite pool_store_in_range by exact Hp.
      eexists. split; [reflexivity |].
      rewrite order_pool_set_order_pool, pool_size_pool_write.
      split; [reflexivity |]. apply slot_relinked_next. reflexivity. }
  destruct H1 as (s1 & -> & Hs1 & Hn1 & Hp1). cbn [bind].
  rewrite pool_at_in_range by (rewrite Hs1; exact Hidx). cbn [bind].
  rewrite Hn1, Hp1.
  match goal with
  | |- exists s', bind ?e _ = _ =>
      assert (H2 : exists s2, e = Ok s2 /\
                pool_size (order_pool_ s2) = pool_size (order_pool_ s))
  end.
  { destruct (Order.next o =? NULL_INDEX) eqn:En; cbn [negb].
    - eexists. split; [reflexivity |]. rewrite order_pool_put_level.
      exact Hs1.
    - destruct Hn as [Hn | Hn]; [apply Z.eqb_neq in En; contradiction |].
      rewrite pool_at_in_range by (rewrite Hs1; exact Hn). cbn [bind].
      rewrite pool_store_in_range by (rewrite Hs1; exact Hn).
      eexists. split; [reflexivity |].
      rewrite order_pool_set_order_pool, pool_size_pool_write. exact Hs1. }
  destruct H2 as (s2 & -> & Hs2). cbn [bind].
  rewrite pool_at_in_range by (rewrite Hs2; exact Hidx). cbn [bind].
  rewrite pool_store_in_range by (rewrite Hs2; exact Hidx). cbn [bind].
  eexists. reflexivity.
Qed.

(** [cancel_order_internal] returns for an active id whose record and the
    record's two neighbours are slots of the slab *)
Lemma cancel_order_internal_returns order_id s :
  0 <= order_id < vec_size (order_index_ s) ->
  OrderLocation.is_active (location s order_id) = true ->
  0 <= OrderLocation.pool_idx (location s order_id)
    < pool_size (order_pool_ s) ->
  valid_link (order_pool_ s)
    (Order.prev
       (slot (order_pool_ s) (OrderLocation.pool_idx (location s order_id)))) ->
  valid_link (order_pool_ s)
    (Order.next
       (slot (order_pool_ s) (OrderLocation.pool_idx (location s order_id)))) ->
  exists s', cancel_order_internal order_id s = Ok s'.
Proof.
  intros Hid Hact Hidx Hp Hn. unfold cancel_order_internal.
  assert (Hskip : unknown_or_inactive order_id s = Ok false).
  { unfold unknown_or_inactive.
    destruct (vec_size (order_index_ s) <=? order_id) eqn:E;
      [apply Z.leb_le in E; lia |].
    rewrite vec_get_in_range by exact Hid. cbn [bind].
    fold (location s order_id). rewrite Hact. reflexivity. }
  rewrite Hskip. cbn [bind].
  rewrite vec_get_in_range by exact Hid. cbn [bind].
  fold (location s order_id).
  set (loc := location s order_id) in *.
  destruct (MAX_PRICE_LEVELS <=? price_to_index (OrderLocation.price loc));
    [eexists; reflexivity |].
  rewrite pool_at_in_range by exact Hidx. cbn [bind].
  unfold remove_from_level_volume.
  rewrite pool_at_in_range by exact Hidx. cbn [bind].
  match goal with
  | |- context [list_remove ?b ?i ?x ?t] =>
      destruct (list_remove_returns b i x t) as [s3 H3];
        [rewrite order_pool_put_level; assumption .. |]
  end.
  rewrite H3. cbn [bind].
  apply list_remove_Ok in H3 as (_ & _ & _ & Hs3).
  assert (Hsz : pool_size (order_pool_ s3) = pool_size (order_pool_ s)).
  { rewrite Hs3. unfold removed. autorewrite with book.
    apply links_only_size, links_only_removed_pool. }
  assert (Hix : order_index_ s3 = order_index_ s).
  { rewrite Hs3. unfold removed.
    destruct (OrderLocation.is_buy loc); reflexivity. }
  unfold ObjectPool.free.
  rewrite vec_set_in_range
    by (fold (pool_size (order_pool_ s3)); rewrite Hsz; exact Hidx).
  cbn [bind].
  match goal with
  | |- context [vec_get _ (order_index_ ?t) _] =>
      assert (Hix' : order_index_ t = order_index_ s)
  end.
  { match goal with
    | |- context [if ?c then _ else _] => destruct c
    end.
    - match goal with
      | |- context [level_closed ?b ?p ?t] =>
          destruct (level_closed_frame b p t) as (_ & _ & _ & _ & _ & _ & _ & ->)
      end.
      exact Hix.
    - exact Hix. }
  rewrite Hix'.
  rewrite vec_get_in_range by exact Hid. cbn [bind].
  rewrite vec_set_in_range by exact Hid. cbn [bind].
  eexists. reflexivity.
Qed.

Lemma slot_pushed_pool_next tail idx p :
  Order.next (slot (pushed_pool tail idx p) idx) = NULL_INDEX \/
  Order.next (slot (pushed_pool tail idx p) idx) = idx.
Proof.
  destruct (decide (tail = idx)) as [-> | Hne].
  - unfold pushed_pool. destruct (idx =? NULL_INDEX).
    + rewrite slot_pool_write_eq. left. reflexivity.
    + rewrite !slot_pool_write_eq. right. reflexivity.
  - left. apply slot_pushed_pool_links. exact Hne.
Qed.

Lemma same_aggregates_refl l : same_aggregates l l.
Proof. repeat split. Qed.

(** the observables that the add-then-cancel round trip is about *)
Definition aggregates_restored (s s' : Book) : Prop :=
  (forall bid l, same_aggregates (get_level bid l s') (get_level bid l s)) /\
  bid_level_count_ s' = bid_level_count_ s /\
  ask_level_count_ s' = ask_level_count_ s /\
  active_order_count_ s' = active_order_count_ s /\
  (forall w, bitmap_word (bid_bitmap_ s') w = bitmap_word (bid_bitmap_ s) w) /\
  (forall w, bitmap_word (ask_bitmap_ s') w = bitmap_word (ask_bitmap_ s) w).

(** C9. A non-aggressive, in-range [add_order] of [order_id] followed at
    once by [cancel_order] of the same id: the cancel returns, and the book
    it leaves has, at every level of both sides, the count and the four
    volume sums of the book before the add, the same bid and ask level
    counts, the same active order count, and the same words in both side
    bitmaps.  The level that the add touches is assumed well formed (head
    and tail agree on emptiness, an empty level has its bit clear, its
    aggregates are in the range of their types), the three counters are in
    the range of their types, and the pool has fewer than 2^31 slots, so
    that the slot handed out is not [NULL_INDEX]. *)
Theorem add_then_cancel_restores
    fuel order_id is_buy price quantity user_id s s1 :
  is_aggressive is_buy price s = false ->
  price_to_index price < MAX_PRICE_LEVELS ->
  level_well_formed is_buy (price_to_index price) s ->
  counters_in_range s ->
  0 <= pool_size (order_pool_ s) < 2147483648 ->
  execute fuel (Add order_id is_buy price quantity user_id) s = Ok s1 ->
  exists s2,
    execute fuel (Cancel order_id) s1 = Ok s2 /\ aggregates_restored s s2.
Proof.
  intros Hna Hr Hwf Hcnt Hps Hadd.
  cbn [execute] in *. unfold add_order in Hadd. rewrite Hna in Hadd.
  unfold cancel_order.
  destruct (add_order_internal_Ok _ _ _ _ _ _ _ Hadd Hr)
    as (idx & pool & Hal & Hidx & Ht & Hid & Hv).
  set (order := plain_order order_id is_buy price quantity user_id) in *.
  destruct Hwf as (Wht & Wbit & Wc & Wv1 & Wv2 & Wv3 & Wv4).
  destruct Hcnt as (Cb & Ca & Cact).
  set (L := get_level is_buy (price_to_index price) s) in *.
  (* the slot handed out is not the null index *)
  assert (Hnull : idx <> NULL_INDEX).
  { unfold NULL_INDEX, UINT32_MAX.
    destruct (allocate_pool_size _ _ _ Hal) as [E | E].
    - lia.
    - rewrite wrap_u64_small in E by lia. lia. }
  (* the book after the add *)
  pose proof (view_location _ _ Hv order_id) as Hloc.
  rewrite rested_location in Hloc.
  pose proof (view_order_pool _ _ Hv) as Hpool.
  rewrite rested_order_pool in Hpool. fold L in Hpool.
  pose proof (view_get_level _ _ Hv is_buy (price_to_index price)) as Hlev.
  rewrite rested_level in Hlev. fold L in Hlev.
  assert (Hoth : forall bid l,
             (bid, l) <> (is_buy, price_to_index price) ->
             get_level bid l s1 = get_level bid l s).
  { intros bid l Hne. rewrite (view_get_level _ _ Hv).
    apply rested_other_level. exact Hne. }
  destruct (view_bitmaps _ _ Hv) as [Hbb Hab].
  destruct (rested_bitmaps order order_id is_buy price idx pool s)
    as [Rbb Rab].
  rewrite Rbb in Hbb. rewrite Rab in Hab. fold L in Hbb, Hab.
  destruct (view_counts _ _ Hv) as (Hbc & Hac & Hact).
  destruct (rested_counts order order_id is_buy price idx pool s)
    as (Rbc & Rac & Ract).
  rewrite Rbc in Hbc. rewrite Rac in Hac. rewrite Ract in Hact.
  fold L in Hbc, Hac.
  clear Rbb Rab Rbc Rac Ract.
  destruct (new_location_fields is_buy price idx) as (Fa & Fb & Fp & Fi).
  set (o1 := slot (order_pool_ s1) idx).
  assert (Hpay : payload o1 = payload order).
  { subst o1. rewrite (view_order_pool _ _ Hv). apply rested_slot_payload. }
  assert (Hprev : Order.prev o1 = PriceLevel.tail L).
  { subst o1. rewrite Hpool. apply slot_pushed_pool_links. }
  assert (Hsz : pool_size (order_pool_ s1) = pool_size pool).
  { rewrite Hpool.
    rewrite (links_only_size _ _ (links_only_pushed_pool _ _ _)).
    apply pool_size_pool_write. }
  (* the cancel returns *)
  destruct (cancel_order_internal_returns order_id s1) as [s2 Hc2].
  { exact Hid. }
  { rewrite Hloc. exact Fa. }
  { rewrite Hloc, Fi, Hsz. exact Hidx. }
  { rewrite Hloc, Fi. fold o1. rewrite Hprev.
    destruct Ht as [Ht | Ht]; [left; exact Ht | right; rewrite Hsz; exact Ht]. }
  { rewrite Hloc, Fi. rewrite Hpool.
    destruct (slot_pushed_pool_next (PriceLevel.tail L) idx
                (pool_write idx order pool)) as [-> | ->].
    - left. reflexivity.
    - right. rewrite <- Hpool, Hsz. exact Hidx. }
  exists s2. split; [exact Hc2 |].
  (* the book after the cancel *)
  assert (Hact1 : OrderLocation.is_active (location s1 order_id) = true)
    by (rewrite Hloc; exact Fa).
  assert (Hr1 : price_to_index (OrderLocation.price (location s1 order_id))
                < MAX_PRICE_LEVELS)
    by (rewrite Hloc, Fp; exact Hr).
  pose proof (cancel_order_internal_effect order_id s1 s2 Hid Hact1 Hr1 Hc2)
    as He.
  cbv zeta in He. rewrite Hloc, Fb, Fp, Fi in He. fold o1 in He.
  rewrite Hlev in He. rewrite (volume_removed_payload _ _ _ Hpay) in He.
  set (l' := removed_level o1
               (volume_removed order
                  (volume_added order (pushed_level idx L)))) in *.
  destruct He as (E1 & E2 & E3 & E4 & E5 & E6 & E7).
  destruct (pushed_level_fields idx L)
    as (Ph & _ & Pc & Pv1 & Pv2 & Pv3 & Pv4).
  destruct (removed_level_fields o1
              (volume_removed order
                 (volume_added order (pushed_level idx L))))
    as (Qh & _ & Qc & Qv1 & Qv2 & Qv3 & Qv4).
  fold l' in Qh, Qc, Qv1, Qv2, Qv3, Qv4.
  assert (Hempty : PriceLevel.empty l' = PriceLevel.empty L).
  { unfold PriceLevel.empty. rewrite Qh, Hprev.
    destruct (PriceLevel.tail L =? NULL_INDEX) eqn:Et.
    - apply Z.eqb_eq in Et.
      assert (Hne : PriceLevel.tail L <> idx) by congruence.
      subst o1. rewrite Hpool.
      destruct (slot_pushed_pool_links (PriceLevel.tail L) idx
                  (pool_write idx order pool)) as [_ Hnx].
      rewrite (Hnx Hne).
      apply Wht in Et. rewrite Et. reflexivity.
    - change (PriceLevel.head
                (volume_removed order
                   (volume_added order (pushed_level idx L))))
        with (PriceLevel.head (pushed_level idx L)).
      rewrite Ph. reflexivity. }
  rewrite Hempty in E3, E4, E5, E6.
  rewrite Hbb in E3. rewrite Hab in E4.
  rewrite Hbc in E5. rewrite Hac in E6. rewrite Hact in E7.
  unfold aggregates_restored.
  split; [| split; [| split; [| split; [| split]]]].
  - intros bid l.
    destruct (decide ((bid, l) = (is_buy, price_to_index price)))
      as [Heq | Hne].
    + injection Heq as -> ->. rewrite E1. fold L.
      destruct (volume_removed_added order (pushed_level idx L))
        as (V1 & V2 & V3 & V4);
        [rewrite Pv1 | rewrite Pv2 | rewrite Pv3 | rewrite Pv4 |];
        try assumption.
      unfold same_aggregates.
      rewrite Qc, Qv1, Qv2, Qv3, Qv4, V1, V2, V3, V4, Pv1, Pv2, Pv3, Pv4.
      change (PriceLevel.count
                (volume_removed order
                   (volume_added order (pushed_level idx L))))
        with (PriceLevel.count (pushed_level idx L)).
      rewrite Pc, wrap_u32_add_sub by exact Wc.
      repeat split; reflexivity.
    + rewrite (E2 bid l Hne), (Hoth bid l Hne). apply same_aggregates_refl.
  - rewrite E5. destruct (is_buy && PriceLevel.empty L); [| reflexivity].
    apply wrap_u32_add_sub. exact Cb.
  - rewrite E6. destruct (negb is_buy && PriceLevel.empty L); [| reflexivity].
    apply wrap_u32_add_sub. exact Ca.
  - rewrite E7. apply wrap_u64_add_sub. exact Cact.
  - intros w. rewrite E3.
    destruct (is_buy && PriceLevel.empty L) eqn:Eb; [| reflexivity].
    apply andb_prop in Eb as [-> Hem].
    apply bitmap_clear_set. apply Wbit. exact Hem.
  - intros w. rewrite E4.
    destruct (negb is_buy && PriceLevel.empty L) eqn:Eb; [| reflexivity].
    apply andb_prop in Eb as [Hb Hem].
    apply negb_true_iff in Hb. subst is_buy.
    apply bitmap_clear_set. apply Wbit. exact Hem.
Qed.

(** the spread book with one more buy, id 3 at 95, which opens a level *)
Definition book_spread_bid_95 : Book :=
  book_of [Add 1 false 100 10 0; Add 2 true 90 5 0; Add 3 true 95 7 0].

Lemma add_then_cancel_restores_witness :
  execute 16 (Add 3 true 95 7 0) book_spread = Ok book_spread_bid_95 /\
  PriceLevel.total_volume (get_level true (price_to_index 95) book_spread_bid_95)
    = 7 /\
  exists s2,
    execute 16 (Cancel 3) book_spread_bid_95 = Ok s2 /\
    aggregates_restored book_spread s2.
Proof.
  assert (H1 : is_aggressive true 95 book_spread = false)
    by (vm_compute; reflexivity).
  assert (H2 : price_to_index 95 < MAX_PRICE_LEVELS)
    by (vm_compute; reflexivity).
  assert (H3 : level_well_formed true (price_to_index 95) book_spread).
  { unfold level_well_formed, uint32_range, int64_range. cbv zeta.
    split; [vm_compute; split; reflexivity |].
    split; [intros _; vm_compute; reflexivity |].
    repeat split; vm_compute; discriminate. }
  assert (H4 : counters_in_range book_spread).
  { unfold counters_in_range, uint32_range, uint64_range.
    repeat split; vm_compute; solve [discriminate | reflexivity]. }
  assert (H5 : 0 <= pool_size (order_pool_ book_spread) < 2147483648)
    by (vm_compute; split; [discriminate | reflexivity]).
  assert (H6 : execute 16 (Add 3 true 95 7 0) book_spread
               = Ok book_spread_bid_95) by (vm_compute; reflexivity).
  split; [exact H6 |].
  split; [vm_compute; reflexivity |].
  exact (add_then_cancel_restores 16 3 true 95 7 0 book_spread
           book_spread_bid_95 H1 H2 H3 H4 H5 H6).
Defined.

(** * Further properties of the code *)

(** ** The price bitmaps *)

Lemma land_bit_eqb w k :
  0 <= k -> (Z.land w (Z.shiftl 1 k) =? 0) = negb (Z.testbit w k).
Proof.
  intros Hk. rewrite Z.shiftl_1_l.
  destruct (Z.testbit w k) eqn:Eb; cbn [negb].
  - apply Z.eqb_neq. intros H0.
    assert (Hc : Z.testbit (Z.land w (2 ^ k)) k = true).
    { rewrite Z.land_spec, Eb, Z.pow2_bits_eqb, Z.eqb_refl by exact Hk.
      reflexivity. }
    rewrite H0, Z.bits_0 in Hc. discriminate.
  - apply Z.eqb_eq. apply Z.bits_inj'. intros n Hn.
    rewrite Z.land_spec, Z.bits_0, Z.pow2_bits_eqb by exact Hk.
    destruct (k =? n) eqn:E; [| apply andb_false_r].
    apply Z.eqb_eq in E. subst n. rewrite Eb. reflexivity.
Qed.

(** [bitmap_test] reads bit [idx % 64] of word [idx / 64] *)
Lemma bitmap_test_testbit bitmap idx :
  bitmap_test bitmap idx
  = Z.testbit (bitmap_word bitmap (idx / 64)) (idx mod 64).
Proof.
  unfold bitmap_test. rewrite land_bit_eqb.
  - apply negb_involutive.
  - apply Z.mod_pos_bound. lia.
Qed.

Lemma same_word_same_bit i j :
  i / 64 = j / 64 -> i mod 64 = j mod 64 -> i = j.
Proof.
  intros Hd Hm.
  rewrite (Z.div_mod i 64), (Z.div_mod j 64) by lia. congruence.
Qed.

Lemma bitmap_test_set_aux bitmap i j :
  bitmap_test (bitmap_set bitmap i) j = (j =? i) || bitmap_test bitmap j.
Proof.
  rewrite !bitmap_test_testbit. unfold bitmap_set.
  rewrite bitmap_word_insert.
  assert (Hi : 0 <= i mod 64) by (apply Z.mod_pos_bound; lia).
  destruct (decide (j / 64 = i / 64)) as [Hw | Hw].
  - rewrite Hw, Z.lor_spec, Z.shiftl_1_l, Z.pow2_bits_eqb by exact Hi.
    destruct (j =? i) eqn:E.
    + apply Z.eqb_eq in E. subst j. rewrite Z.eqb_refl. apply orb_true_r.
    + assert (Hb : (i mod 64 =? j mod 64) = false).
      { apply Z.eqb_neq. intros Hm. apply Z.eqb_neq in E. apply E.
        apply same_word_same_bit; congruence. }
      rewrite Hb, orb_false_r. reflexivity.
  - destruct (j =? i) eqn:E; [| reflexivity].
    apply Z.eqb_eq in E. subst j. contradiction.
Qed.

Lemma bitmap_test_clear_aux bitmap i j :
  bitmap_test (bitmap_clear bitmap i) j = negb (j =? i) && bitmap_test bitmap j.
Proof.
  rewrite !bitmap_test_testbit. unfold bitmap_clear.
  rewrite bitmap_word_insert.
  assert (Hi : 0 <= i mod 64) by (apply Z.mod_pos_bound; lia).
  destruct (decide (j / 64 = i / 64)) as [Hw | Hw].
  - rewrite Hw, Z.ldiff_spec, Z.shiftl_1_l, Z.pow2_bits_eqb by exact Hi.
    destruct (j =? i) eqn:E.
    + apply Z.eqb_eq in E. subst j. rewrite Z.eqb_refl. apply andb_false_r.
    + assert (Hb : (i mod 64 =? j mod 64) = false).
      { apply Z.eqb_neq. intros Hm. apply Z.eqb_neq in E. apply E.
        apply same_word_same_bit; congruence. }
      rewrite Hb. cbn [negb]. rewrite andb_true_r. reflexivity.
  - destruct (j =? i) eqn:E; [| reflexivity].
    apply Z.eqb_eq in E. subst j. contradiction.
Qed.

(** X1. [bitmap_set] and [bitmap_clear] against [bitmap_test]: after
    [bitmap_set(bitmap, i)] the test of [i] is true, after
    [bitmap_clear(bitmap, i)] it is false, and either call leaves the test
    of every other index as it was. *)
Theorem bitmap_set_clear_test :
  forall bitmap i j,
    bitmap_test (bitmap_set bitmap i) j = (j =? i) || bitmap_test bitmap j /\
    bitmap_test (bitmap_clear bitmap i) j
    = negb (j =? i) && bitmap_test bitmap j.
Proof.
  intros bitmap i j. split;
    [apply bitmap_test_set_aux | apply bitmap_test_clear_aux].
Qed.

(** the words of a bitmap are values of [uint64_t] *)
Definition bitmap_words_ok (bitmap : gmap Z Z) : Prop :=
  forall w, 0 <= bitmap_word bitmap w < 18446744073709551616.

Lemma bitmap_words_ok_empty : bitmap_words_ok ∅.
Proof. intros w. unfold bitmap_word. rewrite lookup_empty. simpl. lia. Qed.

Lemma lt_pow2_log2 a n : 0 <= a -> 0 < n -> (a < 2 ^ n <-> Z.log2 a < n).
Proof.
  intros Ha Hn. destruct (Z.eq_dec a 0) as [-> | Hne].
  - simpl. split; intros _; [exact Hn | apply Z.pow_pos_nonneg; lia].
  - apply Z.log2_lt_pow2. lia.
Qed.

Lemma bitmap_words_ok_set bitmap idx :
  bitmap_words_ok bitmap -> bitmap_words_ok (bitmap_set bitmap idx).
Proof.
  intros H w. unfold bitmap_set. rewrite bitmap_word_insert.
  destruct (decide (w = idx / 64)) as [-> | _]; [| apply H].
  pose proof (H (idx / 64)) as [H0 H1].
  pose proof (Z.mod_pos_bound idx 64 ltac:(lia)) as Hm.
  assert (Hp : 0 <= Z.shiftl 1 (idx mod 64))
    by (rewrite Z.shiftl_1_l; apply Z.pow_nonneg; lia).
  split; [apply Z.lor_nonneg; split; assumption |].
  change 18446744073709551616 with (2 ^ 64) in *.
  apply lt_pow2_log2; [apply Z.lor_nonneg; split; assumption | lia |].
  rewrite Z.log2_lor by assumption.
  apply Z.max_lub_lt.
  - apply lt_pow2_log2; [assumption | lia | assumption].
  - rewrite Z.shiftl_1_l, Z.log2_pow2 by lia. lia.
Qed.

Lemma bitmap_words_ok_clear bitmap idx :
  bitmap_words_ok bitmap -> bitmap_words_ok (bitmap_clear bitmap idx).
Proof.
  intros H w. unfold bitmap_clear. rewrite bitmap_word_insert.
  destruct (decide (w = idx / 64)) as [-> | _]; [| apply H].
  pose proof (H (idx / 64)) as [H0 H1].
  assert (Hn : 0 <= Z.ldiff (bitmap_word bitmap (idx / 64))
                      (Z.shiftl 1 (idx mod 64)))
    by (apply Z.ldiff_nonneg; left; exact H0).
  split; [exact Hn |].
  change 18446744073709551616 with (2 ^ 64) in *.
  apply lt_pow2_log2; [exact Hn | lia |].
  destruct (Z.eq_dec (Z.ldiff (bitmap_word bitmap (idx / 64))
                        (Z.shiftl 1 (idx mod 64))) 0) as [-> | Hne];
    [simpl; lia |].
  apply Z.lt_le_trans with (Z.succ (Z.log2 (bitmap_word bitmap (idx / 64))));
    [| apply Z.le_succ_l; apply lt_pow2_log2; [assumption | lia | assumption]].
  apply Z.lt_succ_r.
  destruct (Z_le_gt_dec
              (Z.log2 (Z.ldiff (bitmap_word bitmap (idx / 64))
                         (Z.shiftl 1 (idx mod 64))))
              (Z.log2 (bitmap_word bitmap (idx / 64)))) as [Hle | Hgt];
    [exact Hle | exfalso].
  assert (Hb : Z.testbit (Z.ldiff (bitmap_word bitmap (idx / 64))
                            (Z.shiftl 1 (idx mod 64)))
                 (Z.log2 (Z.ldiff (bitmap_word bitmap (idx / 64))
                            (Z.shiftl 1 (idx mod 64)))) = true)
    by (apply Z.bit_log2; lia).
  rewrite Z.ldiff_spec in Hb.
  rewrite (Z.bits_above_log2 (bitmap_word bitmap (idx / 64))) in Hb
    by (try assumption; lia).
  discriminate.
Qed.

Lemma slot_of_word w k :
  0 <= k < 64 -> (w * 64 + k) / 64 = w /\ (w * 64 + k) mod 64 = k.
Proof.
  intros Hk. split.
  - symmetry. apply Z.div_unique with k; lia.
  - symmetry. apply Z.mod_unique with w; lia.
Qed.

Lemma word_of_slot j w :
  64 * w <= j < 64 * (w + 1) -> j / 64 = w /\ j mod 64 = j - 64 * w.
Proof.
  intros Hj. split.
  - symmetry. apply Z.div_unique with (j - 64 * w); lia.
  - symmetry. apply Z.mod_unique with w; lia.
Qed.

Lemma bitmap_test_zero_word bitmap w j :
  bitmap_word bitmap w = 0 -> 64 * w <= j < 64 * (w + 1) ->
  bitmap_test bitmap j = false.
Proof.
  intros H0 Hj. rewrite bitmap_test_testbit.
  destruct (word_of_slot j w Hj) as [-> _]. rewrite H0. apply Z.bits_0.
Qed.

Lemma find_highest_from_spec bitmap :
  bitmap_words_ok bitmap ->
  forall n w,
    Z.of_nat n = w + 1 ->
    (find_highest_from n bitmap w = -1 /\
     forall j, 0 <= j < 64 * (w + 1) -> bitmap_test bitmap j = false) \/
    (0 <= find_highest_from n bitmap w < 64 * (w + 1) /\
     bitmap_test bitmap (find_highest_from n bitmap w) = true /\
     forall j, find_highest_from n bitmap w < j < 64 * (w + 1) ->
               bitmap_test bitmap j = false).
Proof.
  intros Hok. induction n as [| n IH]; intros w Hw.
  - left. split; [reflexivity | intros j Hj; lia].
  - cbn [find_highest_from].
    destruct (bitmap_word bitmap w =? 0) eqn:E0; cbn [negb].
    + apply Z.eqb_eq in E0.
      assert (Hz : forall j, 64 * w <= j < 64 * (w + 1) ->
                             bitmap_test bitmap j = false)
        by (intros j Hj; exact (bitmap_test_zero_word _ _ _ E0 Hj)).
      destruct (IH (w - 1) ltac:(lia)) as [[Hr Hn] | (Hr & Ht & Hn)].
      * left. split; [exact Hr |]. intros j Hj.
        destruct (Z_lt_le_dec j (64 * w)) as [Hlt | Hge].
        -- apply Hn. lia.
        -- apply Hz. lia.
      * right. split; [lia |]. split; [exact Ht |]. intros j Hj.
        destruct (Z_lt_le_dec j (64 * w)) as [Hlt | Hge].
        -- apply Hn. lia.
        -- apply Hz. lia.
    + apply Z.eqb_neq in E0. right.
      pose proof (Hok w) as [H0 H1].
      set (x := bitmap_word bitmap w) in *.
      assert (Hk : 0 <= Z.log2 x < 64).
      { split; [apply Z.log2_nonneg |].
        change 18446744073709551616 with (2 ^ 64) in H1.
        apply Z.log2_lt_pow2; lia. }
      unfold clzll. replace (63 - (63 - Z.log2 x)) with (Z.log2 x) by lia.
      destruct (slot_of_word w (Z.log2 x) Hk) as [Hd Hm].
      split; [lia |]. split.
      * rewrite bitmap_test_testbit, Hd, Hm. fold x. apply Z.bit_log2. lia.
      * intros j Hj. rewrite bitmap_test_testbit.
        destruct (word_of_slot j w ltac:(lia)) as [-> ->]. fold x.
        apply Z.bits_above_log2; lia.
Qed.

(** X2. [bitmap_find_highest(bitmap, n, start_word)] over words that are
    [uint64_t] values, with [start_word >= -1]: it returns either [-1], and
    then no index below [64 * (start_word + 1)] tests as set, or an index
    below that bound that tests as set and above which, up to the bound, no
    index does.  [num_words] is not read. *)
Theorem bitmap_find_highest_is_highest :
  forall bitmap num_words start_word,
    bitmap_words_ok bitmap ->
    -1 <= start_word ->
    (bitmap_find_highest bitmap num_words start_word = -1 /\
     forall j, 0 <= j < 64 * (start_word + 1) ->
               bitmap_test bitmap j = false) \/
    (0 <= bitmap_find_highest bitmap num_words start_word
       < 64 * (start_word + 1) /\
     bitmap_test bitmap (bitmap_find_highest bitmap num_words start_word)
       = true /\
     forall j,
       bitmap_find_highest bitmap num_words start_word < j
         < 64 * (start_word + 1) ->
       bitmap_test bitmap j = false).
Proof.
  intros bitmap num_words start_word Hok Hs. unfold bitmap_find_highest.
  apply find_highest_from_spec; [exact Hok | lia].
Qed.

Lemma bitmap_find_highest_is_highest_witness :
  (bitmap_find_highest (bitmap_set (bitmap_set ∅ 5) 130) BITMAP_WORDS 2 = -1 /\
   forall j, 0 <= j < 64 * (2 + 1) ->
             bitmap_test (bitmap_set (bitmap_set ∅ 5) 130) j = false) \/
  (0 <= bitmap_find_highest (bitmap_set (bitmap_set ∅ 5) 130) BITMAP_WORDS 2
     < 64 * (2 + 1) /\
   bitmap_test (bitmap_set (bitmap_set ∅ 5) 130)
     (bitmap_find_highest (bitmap_set (bitmap_set ∅ 5) 130) BITMAP_WORDS 2)
     = true /\
   forall j,
     bitmap_find_highest (bitmap_set (bitmap_set ∅ 5) 130) BITMAP_WORDS 2 < j
       < 64 * (2 + 1) ->
     bitmap_test (bitmap_set (bitmap_set ∅ 5) 130) j = false).
Proof.
  apply bitmap_find_highest_is_highest.
  - apply bitmap_words_ok_set, bitmap_words_ok_set, bitmap_words_ok_empty.
  - lia.
Defined.

Lemma ctz_pos_spec p :
  0 <= ctz_pos p /\
  Z.testbit (Zpos p) (ctz_pos p) = true /\
  forall k, 0 <= k < ctz_pos p -> Z.testbit (Zpos p) k = false.
Proof.
  induction p as [p IH | p IH |].
  - cbn [ctz_pos]. rewrite Pos2Z.inj_xI.
    split; [lia |]. split; [apply Z.testbit_odd_0 | intros k Hk; lia].
  - cbn [ctz_pos]. rewrite Pos2Z.inj_xO.
    destruct IH as (H0 & Ht & Hl).
    split; [lia |]. split.
    + replace (1 + ctz_pos p) with (Z.succ (ctz_pos p)) by lia.
      rewrite Z.testbit_even_succ by exact H0. exact Ht.
    + intros k Hk. destruct (Z.eq_dec k 0) as [-> | Hne].
      * apply Z.testbit_even_0.
      * replace k with (Z.succ (k - 1)) by lia.
        rewrite Z.testbit_even_succ by lia. apply Hl. lia.
  - cbn [ctz_pos]. split; [lia |]. split; [reflexivity | intros k Hk; lia].
Qed.

Lemma ctzll_spec x :
  0 < x < 18446744073709551616 ->
  0 <= ctzll x < 64 /\
  Z.testbit x (ctzll x) = true /\
  forall k, 0 <= k < ctzll x -> Z.testbit x k = false.
Proof.
  intros [H0 H1]. destruct x as [| p | p]; try lia.
  cbn [ctzll]. destruct (ctz_pos_spec p) as (Hc & Ht & Hl).
  split; [| split; assumption].
  split; [exact Hc |].
  destruct (Z_lt_le_dec (ctz_pos p) 64) as [Hlt | Hge]; [exact Hlt |].
  change 18446744073709551616 with (2 ^ 64) in H1.
  apply Z.log2_lt_pow2 in H1; [| lia].
  rewrite Z.bits_above_log2 in Ht by lia. discriminate.
Qed.

Lemma find_lowest_from_spec bitmap :
  bitmap_words_ok bitmap ->
  forall n w,
    (find_lowest_from n bitmap w = -1 /\
     forall j, 64 * w <= j < 64 * (w + Z.of_nat n) ->
               bitmap_test bitmap j = false) \/
    (64 * w <= find_lowest_from n bitmap w < 64 * (w + Z.of_nat n) /\
     bitmap_test bitmap (find_lowest_from n bitmap w) = true /\
     forall j, 64 * w <= j < find_lowest_from n bitmap w ->
               bitmap_test bitmap j = false).
Proof.
  intros Hok. induction n as [| n IH]; intros w.
  - left. split; [reflexivity | intros j Hj; lia].
  - cbn [find_lowest_from].
    destruct (bitmap_word bitmap w =? 0) eqn:E0; cbn [negb].
    + apply Z.eqb_eq in E0.
      assert (Hz : forall j, 64 * w <= j < 64 * (w + 1) ->
                             bitmap_test bitmap j = false)
        by (intros j Hj; exact (bitmap_test_zero_word _ _ _ E0 Hj)).
      destruct (IH (w + 1)) as [[Hr Hn] | (Hr & Ht & Hn)].
      * left. split; [exact Hr |]. intros j Hj.
        destruct (Z_lt_le_dec j (64 * (w + 1))) as [Hlt | Hge].
        -- apply Hz. lia.
        -- apply Hn. lia.
      * right. split; [lia |]. split; [exact Ht |]. intros j Hj.
        destruct (Z_lt_le_dec j (64 * (w + 1))) as [Hlt | Hge].
        -- apply Hz. lia.
        -- apply Hn. lia.
    + apply Z.eqb_neq in E0. right.
      pose proof (Hok w) as [H0 H1].
      set (x := bitmap_word bitmap w) in *.
      destruct (ctzll_spec x ltac:(lia)) as (Hk & Hb & Hl).
      destruct (slot_of_word w (ctzll x) Hk) as [Hd Hm].
      split; [lia |]. split.
      * rewrite bitmap_test_testbit, Hd, Hm. exact Hb.
      * intros j Hj. rewrite bitmap_test_testbit.
        destruct (word_of_slot j w ltac:(lia)) as [-> ->]. fold x.
        apply Hl. lia.
Qed.

(** X3. [bitmap_find_lowest(bitmap, num_words, start_word)] over words that
    are [uint64_t] values, with [0 <= start_word <= num_words]: it returns
    either [-1], and then no index from [64 * start_word] up to
    [64 * num_words] tests as set, or an index in that range that tests as
    set and below which, down to [64 * start_word], no index does. *)
Theorem bitmap_find_lowest_is_lowest :
  forall bitmap num_words start_word,
    bitmap_words_ok bitmap ->
    0 <= start_word <= num_words ->
    num_words < 18446744073709551616 ->
    (bitmap_find_lowest bitmap num_words start_word = -1 /\
     forall j, 64 * start_word <= j < 64 * num_words ->
               bitmap_test bitmap j = false) \/
    (64 * start_word <= bitmap_find_lowest bitmap num_words start_word
       < 64 * num_words /\
     bitmap_test bitmap (bitmap_find_lowest bitmap num_words start_word)
       = true /\
     forall j,
       64 * start_word <= j
         < bitmap_find_lowest bitmap num_words start_word ->
       bitmap_test bitmap j = false).
Proof.
  intros bitmap num_words start_word Hok Hs Hn. unfold bitmap_find_lowest.
  rewrite wrap_u64_small by lia.
  pose proof (find_lowest_from_spec bitmap Hok
                (Z.to_nat (num_words - start_word)) start_word) as H.
  rewrite Z2Nat.id in H by lia.
  replace (start_word + (num_words - start_word)) with num_words in H by lia.
  exact H.
Qed.

Lemma bitmap_find_lowest_is_lowest_witness :
  (bitmap_find_lowest (bitmap_set (bitmap_set ∅ 70) 130) 4 1 = -1 /\
   forall j, 64 * 1 <= j < 64 * 4 ->
             bitmap_test (bitmap_set (bitmap_set ∅ 70) 130) j = false) \/
  (64 * 1 <= bitmap_find_lowest (bitmap_set (bitmap_set ∅ 70) 130) 4 1
     < 64 * 4 /\
   bitmap_test (bitmap_set (bitmap_set ∅ 70) 130)
     (bitmap_find_lowest (bitmap_set (bitmap_set ∅ 70) 130) 4 1) = true /\
   forall j,
     64 * 1 <= j < bitmap_find_lowest (bitmap_set (bitmap_set ∅ 70) 130) 4 1 ->
     bitmap_test (bitmap_set (bitmap_set ∅ 70) 130) j = false).
Proof.
  apply bitmap_find_lowest_is_lowest.
  - apply bitmap_words_ok_set, bitmap_words_ok_set, bitmap_words_ok_empty.
  - lia.
  - lia.
Defined.

(** ** Prices and level slots *)

Lemma price_to_index_nonneg price :
  0 <= price < 18446744073709551616 -> price_to_index price = price.
Proof.
  intros H. unfold price_to_index, PRICE_OFFSET.
  rewrite Z.sub_0_r. apply wrap_u64_small. exact H.
Qed.

Lemma price_to_index_in_range price :
  int64_range price ->
  (price_to_index price < MAX_PRICE_LEVELS <-> 0 <= price < MAX_PRICE_LEVELS).
Proof.
  unfold int64_range, INT64_MAX, MAX_PRICE_LEVELS. intros H.
  destruct (Z_lt_le_dec price 0) as [Hneg | Hpos].
  - unfold price_to_index, PRICE_OFFSET, wrap_u64. rewrite Z.sub_0_r.
    replace (price mod 18446744073709551616)
      with (price + 18446744073709551616)
      by (apply Z.mod_unique with (-1); lia).
    lia.
  - rewrite price_to_index_nonneg by lia. lia.
Qed.

Lemma index_to_price_small idx :
  0 <= idx <= INT64_MAX -> index_to_price idx = idx.
Proof.
  intros H. unfold index_to_price, PRICE_OFFSET.
  rewrite Z.add_0_r, wrap_i64_idem. apply wrap_i64_small.
  unfold INT64_MAX in *. lia.
Qed.

(** X4. For a price that is an [int64_t]: its slot [price_to_index(price)]
    is below [MAX_PRICE_LEVELS] exactly when
    [0 <= price < MAX_PRICE_LEVELS] (a negative price wraps to a slot far
    above the array, so the range check rejects it), and
    [index_to_price] undoes [price_to_index]. *)
Theorem price_slot_round_trip :
  forall price,
    int64_range price ->
    (price_to_index price < MAX_PRICE_LEVELS
     <-> 0 <= price < MAX_PRICE_LEVELS) /\
    index_to_price (price_to_index price) = price.
Proof.
  intros price H. split; [apply price_to_index_in_range; exact H |].
  unfold index_to_price, price_to_index, PRICE_OFFSET.
  rewrite Z.add_0_r, Z.sub_0_r, wrap_i64_idem.
  unfold wrap_u64. transitivity (wrap_i64 price).
  - apply wrap_i64_congr. apply Z.mod_mod. lia.
  - apply wrap_i64_small. exact H.
Qed.

Lemma price_slot_round_trip_witness :
  (price_to_index (-5) < MAX_PRICE_LEVELS <-> 0 <= -5 < MAX_PRICE_LEVELS) /\
  index_to_price (price_to_index (-5)) = -5.
Proof.
  apply price_slot_round_trip.
  unfold int64_range, INT64_MAX. lia.
Defined.

(** ** The object pool *)

Lemma push_range_length n : forall hi free,
  length (ObjectPool.push_range n hi free) = (n + length free)%nat.
Proof.
  induction n as [| n IH]; intros hi free; [reflexivity |].
  cbn [ObjectPool.push_range]. rewrite IH. simpl. lia.
Qed.

Lemma push_range_elem n : forall hi free i,
  hi <= 4294967296 ->
  0 <= hi - Z.of_nat n ->
  (i ∈ ObjectPool.push_range n hi free
   <-> i ∈ free \/ hi - Z.of_nat n <= i < hi).
Proof.
  induction n as [| n IH]; intros hi free i Hhi Hlo.
  - cbn [ObjectPool.push_range]. split; [auto | intros [H | H]; [exact H | lia]].
  - cbn [ObjectPool.push_range]. rewrite IH by lia.
    rewrite wrap_u32_small by lia. rewrite elem_of_cons.
    split; intros [H | H]; try (right; lia); auto.
    + destruct H as [-> | H]; [right; lia | left; exact H].
    + destruct (Z.eq_dec i (hi - 1)) as [-> | Hne];
        [left; left; reflexivity | right; lia].
Qed.

Lemma push_range_NoDup n : forall hi free,
  hi <= 4294967296 ->
  0 <= hi - Z.of_nat n ->
  NoDup free ->
  (forall i, i ∈ free -> ~ (hi - Z.of_nat n <= i < hi)) ->
  NoDup (ObjectPool.push_range n hi free).
Proof.
  induction n as [| n IH]; intros hi free Hhi Hlo Hnd Hout; [exact Hnd |].
  cbn [ObjectPool.push_range]. rewrite wrap_u32_small by lia.
  apply IH; try lia.
  - apply NoDup_cons. split; [| exact Hnd].
    intros Hin. apply (Hout _ Hin). lia.
  - intros i Hin Hr. apply elem_of_cons in Hin as [-> | Hin]; [lia |].
    apply (Hout _ Hin). lia.
Qed.

(** the free list names each free slot once, and only slots of the slab *)
Definition pool_well_formed (p : ObjectPool.t) : Prop :=
  0 <= pool_size p /\
  NoDup (ObjectPool.free_indices_ p) /\
  forall i, i ∈ ObjectPool.free_indices_ p -> 0 <= i < pool_size p.

Lemma pool_well_formed_all_free pool_ :
  0 <= vec_size pool_ <= 4294967296 ->
  let p :=
    ObjectPool.mk pool_
      (ObjectPool.push_range (Z.to_nat (vec_size pool_)) (vec_size pool_) []) in
  pool_well_formed p /\
  (forall i, 0 <= i < pool_size p -> i ∈ ObjectPool.free_indices_ p) /\
  ObjectPool.used_count p = 0.
Proof.
  intros H p. subst p. unfold pool_well_formed, pool_size. cbn.
  assert (Hz : Z.of_nat (Z.to_nat (vec_size pool_)) = vec_size pool_)
    by (apply Z2Nat.id; lia).
  repeat split; try lia.
  - apply push_range_NoDup; try lia; [apply NoDup_nil; exact I |].
    intros i Hin. apply elem_of_nil in Hin. contradiction.
  - apply push_range_elem in H0; try lia.
    destruct H0 as [H0 | H0]; [apply elem_of_nil in H0; contradiction | lia].
  - apply push_range_elem in H0; try lia.
    destruct H0 as [H0 | H0]; [apply elem_of_nil in H0; contradiction | lia].
  - intros i Hi. apply push_range_elem; try lia.
  - unfold ObjectPool.used_count. cbn. rewrite push_range_length. simpl.
    rewrite Nat.add_0_r, Hz, Z.sub_diag. reflexivity.
Qed.

(** X5. Construction and [reset()] of the pool, for a capacity of at most
    2^32 slots: every slot of the slab is on the free list, once, and
    [used_count()] is 0.  [reset()] does not touch the records: a slot
    keeps what it held. *)
Theorem pool_new_and_reset_free_every_slot :
  forall capacity p,
    0 <= capacity <= 4294967296 ->
    0 <= pool_size p <= 4294967296 ->
    (pool_well_formed (ObjectPool.new capacity) /\
     (forall i, 0 <= i < capacity ->
                i ∈ ObjectPool.free_indices_ (ObjectPool.new capacity)) /\
     ObjectPool.used_count (ObjectPool.new capacity) = 0) /\
    (pool_well_formed (ObjectPool.reset p) /\
     (forall i, 0 <= i < pool_size p ->
                i ∈ ObjectPool.free_indices_ (ObjectPool.reset p)) /\
     ObjectPool.used_count (ObjectPool.reset p) = 0 /\
     ObjectPool.capacity (ObjectPool.reset p) = ObjectPool.capacity p /\
     forall i, slot (ObjectPool.reset p) i = slot p i).
Proof.
  intros capacity p Hc Hp. split.
  - exact (pool_well_formed_all_free (mk_vec ∅ capacity) Hc).
  - destruct (pool_well_formed_all_free (ObjectPool.pool_ p) Hp)
      as (H1 & H2 & H3).
    split; [exact H1 |]. split; [exact H2 |]. split; [exact H3 |].
    split; [reflexivity | intros i; reflexivity].
Qed.

Lemma pool_new_and_reset_free_every_slot_witness :
  (pool_well_formed (ObjectPool.new 4) /\
   (forall i, 0 <= i < 4 -> i ∈ ObjectPool.free_indices_ (ObjectPool.new 4)) /\
   ObjectPool.used_count (ObjectPool.new 4) = 0) /\
  (pool_well_formed (ObjectPool.reset (order_pool_ book_spread)) /\
   (forall i, 0 <= i < pool_size (order_pool_ book_spread) ->
              i ∈ ObjectPool.free_indices_
                    (ObjectPool.reset (order_pool_ book_spread))) /\
   ObjectPool.used_count (ObjectPool.reset (order_pool_ book_spread)) = 0 /\
   ObjectPool.capacity (ObjectPool.reset (order_pool_ book_spread))
     = ObjectPool.capacity (order_pool_ book_spread) /\
   forall i, slot (ObjectPool.reset (order_pool_ book_spread)) i
             = slot (order_pool_ book_spread) i).
Proof.
  apply pool_new_and_reset_free_every_slot.
  - lia.
  - vm_compute. split; discriminate.
Defined.

Lemma used_count_step size len :
  wrap_u64 (size - (len - 1)) = wrap_u64 (wrap_u64 (size - len) + 1).
Proof.
  unfold wrap_u64. rewrite Zplus_mod_idemp_l. f_equal. lia.
Qed.

(** X6. [allocate()] on a pool whose free list names each free slot once
    and only slots of the slab, with at most 2^31 slots: it returns, the
    slot it hands out lies in the slab and is no longer on the free list,
    the free list stays duplicate-free and inside the slab, no record is
    touched, and [used_count()] grows by one.  Either the slot was the back
    of the free list, or the list was empty, the slab doubled and the slot
    is the first of the new half. *)
Theorem allocate_hands_out_a_fresh_slot p :
  pool_well_formed p ->
  0 < pool_size p <= 2147483648 ->
  exists idx p',
    ObjectPool.allocate p = Ok (idx, p') /\
    0 <= idx < pool_size p' /\
    (idx ∉ ObjectPool.free_indices_ p') /\
    pool_well_formed p' /\
    (forall i, slot p' i = slot p i) /\
    ObjectPool.used_count p' = wrap_u64 (ObjectPool.used_count p + 1) /\
    ((ObjectPool.free_indices_ p = idx :: ObjectPool.free_indices_ p' /\
      pool_size p' = pool_size p) \/
     (ObjectPool.free_indices_ p = [] /\ idx = pool_size p /\
      pool_size p' = 2 * pool_size p)).
Proof.
  intros (H0 & Hnd & Hin) Hsz. unfold ObjectPool.allocate.
  destruct (ObjectPool.free_indices_ p) as [| j rest] eqn:Ef.
  - (* the slab doubles *)
    unfold ObjectPool.grow. rewrite Ef. cbn [ObjectPool.free_indices_
      ObjectPool.pool_].
    fold (pool_size p).
    rewrite wrap_u64_small by lia.
    replace (pool_size p * 2 - pool_size p) with (pool_size p) by lia.
    destruct (Z.to_nat (pool_size p)) as [| n] eqn:En; [lia |].
    assert (Hn : Z.of_nat n = pool_size p - 1) by lia.
    cbn [ObjectPool.push_range].
    rewrite wrap_u32_small by lia.
    pose proof (push_range_length n (pool_size p * 2 - 1)
                  [pool_size p * 2 - 1]) as Hlen.
    pose proof (fun i => push_range_elem n (pool_size p * 2 - 1)
                           [pool_size p * 2 - 1] i ltac:(lia) ltac:(lia))
      as Hel.
    pose proof (push_range_NoDup n (pool_size p * 2 - 1)
                  [pool_size p * 2 - 1] ltac:(lia) ltac:(lia)) as Hnd2.
    destruct (ObjectPool.push_range n (pool_size p * 2 - 1)
                [pool_size p * 2 - 1]) as [| idx rest] eqn:Ep.
    { simpl in Hlen. lia. }
    assert (Hnd3 : NoDup (idx :: rest)).
    { apply Hnd2.
      - apply NoDup_singleton.
      - intros i Hi. apply list_elem_of_singleton in Hi. lia. }
    apply NoDup_cons in Hnd3 as [Hnotin Hnd3].
    assert (Hrange : forall i, i ∈ idx :: rest ->
                               pool_size p <= i < pool_size p * 2).
    { intros i Hi. apply Hel in Hi as [Hi | Hi].
      - apply list_elem_of_singleton in Hi. lia.
      - lia. }
    (* the slot on top is the first of the new half *)
    assert (Hidx : idx = pool_size p).
    { destruct n as [| n'].
      - cbn in Ep. injection Ep as <- _. lia.
      - clear -Ep Hn Hsz.
        assert (G : forall m hi free,
                   exists tl,
                     ObjectPool.push_range (S m) hi free
                     = wrap_u32 (hi - Z.of_nat (S m)) :: tl).
        { induction m as [| m IH]; intros hi free.
          - eexists. cbn [ObjectPool.push_range]. reflexivity.
          - destruct (IH (hi - 1) (wrap_u32 (hi - 1) :: free)) as [tl Htl].
            exists tl. change (ObjectPool.push_range (S (S m)) hi free)
              with (ObjectPool.push_range (S m) (hi - 1)
                      (wrap_u32 (hi - 1) :: free)).
            rewrite Htl. f_equal. f_equal. lia. }
        destruct (G n' (pool_size p * 2 - 1) [pool_size p * 2 - 1])
          as [tl Htl].
        rewrite Htl in Ep. injection Ep as <- _.
        rewrite wrap_u32_small; lia. }
    exists idx, (ObjectPool.mk
                   (vec_grow (ObjectPool.pool_ p) (pool_size p * 2)) rest).
    split; [reflexivity |].
    unfold pool_well_formed, pool_size. cbn.
    fold (pool_size p).
    split; [specialize (Hrange idx ltac:(left)); lia |].
    split; [exact Hnotin |].
    split.
    { split; [lia |]. split; [exact Hnd3 |].
      intros i Hi. specialize (Hrange i ltac:(right; exact Hi)). lia. }
    split; [intros i; reflexivity |].
    split.
    { unfold ObjectPool.used_count. cbn. rewrite Ef. cbn.
      fold (pool_size p). rewrite Z.sub_0_r.
      simpl in Hlen.
      assert (Hl : Z.of_nat (length rest) = pool_size p - 1) by lia.
      rewrite Hl. rewrite (wrap_u64_small (pool_size p)) by lia.
      f_equal. lia. }
    right. split; [reflexivity |]. split; [exact Hidx | lia].
  - exists j, (ObjectPool.mk (ObjectPool.pool_ p) rest).
    rewrite Ef. split; [reflexivity |].
    apply NoDup_cons in Hnd as [Hnotin Hnd].
    unfold pool_well_formed, pool_size. cbn. fold (pool_size p).
    split; [apply Hin; left |].
    split; [exact Hnotin |].
    split.
    { split; [lia |]. split; [exact Hnd |].
      intros i Hi. apply Hin. right. exact Hi. }
    split; [intros i; reflexivity |].
    split.
    { unfold ObjectPool.used_count. cbn. rewrite Ef. cbn [length].
      fold (pool_size p).
      rewrite <- used_count_step. f_equal. lia. }
    left. split; reflexivity.
Qed.

Lemma allocate_hands_out_a_fresh_slot_witness :
  exists idx p',
    ObjectPool.allocate (ObjectPool.new 4) = Ok (idx, p') /\
    0 <= idx < pool_size p' /\
    (idx ∉ ObjectPool.free_indices_ p') /\
    pool_well_formed p' /\
    (forall i, slot p' i = slot (ObjectPool.new 4) i) /\
    ObjectPool.used_count p'
      = wrap_u64 (ObjectPool.used_count (ObjectPool.new 4) + 1) /\
    ((ObjectPool.free_indices_ (ObjectPool.new 4)
        = idx :: ObjectPool.free_indices_ p' /\
      pool_size p' = pool_size (ObjectPool.new 4)) \/
     (ObjectPool.free_indices_ (ObjectPool.new 4) = [] /\
      idx = pool_size (ObjectPool.new 4) /\
      pool_size p' = 2 * pool_size (ObjectPool.new 4))).
Proof.
  apply allocate_hands_out_a_fresh_slot.
  - exact (proj1 (pool_well_formed_all_free (mk_vec ∅ 4) ltac:(simpl; lia))).
  - unfold pool_size. simpl. lia.
Defined.

(** X7. [free(idx)] for a slot of the slab, then [allocate()]: the free
    returns, the record of the slot is value-initialised and no other
    record changes, and the next [allocate()] hands out that same slot
    and leaves the free list as it was before the [free]. *)
Theorem free_then_allocate_reuses_the_slot :
  forall idx p,
    0 <= idx < pool_size p ->
    exists p1,
      ObjectPool.free idx p = Ok p1 /\
      slot p1 idx = Order.zero /\
      (forall i, i <> idx -> slot p1 i = slot p i) /\
      ObjectPool.allocate p1
      = Ok (idx, ObjectPool.mk (ObjectPool.pool_ p1)
                   (ObjectPool.free_indices_ p)).
Proof.
  intros idx p Hidx. unfold ObjectPool.free.
  rewrite vec_set_in_range by exact Hidx. cbn [bind].
  eexists. split; [reflexivity |].
  split; [unfold slot; cbn; rewrite lookup_insert_eq; reflexivity |].
  split.
  - intros i Hne. unfold slot. cbn.
    rewrite lookup_insert_ne by congruence. reflexivity.
  - reflexivity.
Qed.

Lemma free_then_allocate_reuses_the_slot_witness :
  exists p1,
    ObjectPool.free 0 (order_pool_ book_spread) = Ok p1 /\
    slot p1 0 = Order.zero /\
    (forall i, i <> 0 -> slot p1 i = slot (order_pool_ book_spread) i) /\
    ObjectPool.allocate p1
    = Ok (0, ObjectPool.mk (ObjectPool.pool_ p1)
               (ObjectPool.free_indices_ (order_pool_ book_spread))).
Proof.
  apply free_then_allocate_reuses_the_slot.
  vm_compute. split; [discriminate | reflexivity].
Defined.

(** ** The output ring *)

Lemma land_mask x : Z.land x RingBuffer.mask = x mod 1048576.
Proof.
  change RingBuffer.mask with (Z.ones 20).
  rewrite Z.land_ones by lia. reflexivity.
Qed.

Lemma wrap_u64_mod_capacity x : wrap_u64 x mod 1048576 = x mod 1048576.
Proof.
  unfold wrap_u64. Z.to_euclidean_division_equations. lia.
Qed.

Lemma mod_capacity_inj s a b :
  0 <= a < 1048576 -> 0 <= b < 1048576 ->
  (s + a) mod 1048576 = (s + b) mod 1048576 -> a = b.
Proof.
  intros Ha Hb H. Z.to_euclidean_division_equations. lia.
Qed.

(** the records in the slots [start & mask], [(start + 1) & mask], ... *)
Fixpoint window (buf : gmap Z OutputMsg) (start : Z) (n : nat)
    : list (option OutputMsg) :=
  match n with
  | O => []
  | S n' => buf !! Z.land start RingBuffer.mask :: window buf (start + 1) n'
  end.

Lemma window_length buf n : forall start, length (window buf start n) = n.
Proof. induction n as [| n IH]; intros start; simpl; [| rewrite IH]; reflexivity. Qed.

Lemma window_app buf n m : forall start,
  window buf start (n + m)
  = window buf start n ++ window buf (start + Z.of_nat n) m.
Proof.
  induction n as [| n IH]; intros start.
  - simpl. rewrite Z.add_0_r. reflexivity.
  - cbn [Nat.add window app]. rewrite IH. do 3 f_equal. lia.
Qed.

Lemma window_congr buf n : forall s1 s2,
  s1 mod 1048576 = s2 mod 1048576 -> window buf s1 n = window buf s2 n.
Proof.
  induction n as [| n IH]; intros s1 s2 H; [reflexivity |].
  cbn [window]. rewrite !land_mask, H. f_equal. apply IH.
  rewrite (Zplus_mod s1), (Zplus_mod s2), H. reflexivity.
Qed.

Lemma window_ext buf1 buf2 n : forall start,
  (forall i, 0 <= i < Z.of_nat n ->
             buf1 !! ((start + i) mod 1048576)
             = buf2 !! ((start + i) mod 1048576)) ->
  window buf1 start n = window buf2 start n.
Proof.
  induction n as [| n IH]; intros start H; [reflexivity |].
  cbn [window]. rewrite land_mask.
  pose proof (H 0 ltac:(lia)) as H0. rewrite Z.add_0_r in H0. rewrite H0.
  f_equal. apply IH. intros i Hi.
  replace (start + 1 + i) with (start + (1 + i)) by lia. apply H. lia.
Qed.

Lemma copy_in_miss n : forall buf slot src k,
  (forall i, 0 <= i < Z.of_nat n -> k <> (slot + i) mod 1048576) ->
  RingBuffer.copy_in buf slot src n !! k = buf !! k.
Proof.
  induction n as [| n IH]; intros buf slot src k H;
    [destruct src; reflexivity |].
  destruct src as [| m src']; [reflexivity |].
  cbn [RingBuffer.copy_in]. rewrite IH.
  - rewrite land_mask. apply lookup_insert_ne.
    specialize (H 0 ltac:(lia)). rewrite Z.add_0_r in H. congruence.
  - intros i Hi. replace (slot + 1 + i) with (slot + (1 + i)) by lia.
    apply H. lia.
Qed.

Lemma copy_in_hit n : forall buf slot src i m,
  Z.of_nat n <= 1048576 ->
  (i < n)%nat ->
  src !! i = Some m ->
  RingBuffer.copy_in buf slot src n !! ((slot + Z.of_nat i) mod 1048576)
  = Some m.
Proof.
  induction n as [| n IH]; intros buf slot src i m Hn Hi Hm; [lia |].
  destruct src as [| m0 src']; [discriminate |].
  cbn [RingBuffer.copy_in]. destruct i as [| i'].
  - injection Hm as ->. rewrite copy_in_miss.
    + rewrite land_mask. simpl. rewrite Z.add_0_r. apply lookup_insert_eq.
    + intros j Hj Heq.
      replace (slot + 1 + j) with (slot + (1 + j)) in Heq by lia.
      apply mod_capacity_inj in Heq; lia.
  - replace (slot + Z.of_nat (S i')) with (slot + 1 + Z.of_nat i') by lia.
    apply IH; [lia | lia | exact Hm].
Qed.

Lemma window_lookup buf k : forall start i,
  (i < k)%nat ->
  window buf start k !! i = Some (buf !! ((start + Z.of_nat i) mod 1048576)).
Proof.
  induction k as [| k IHk]; intros start i Hi; [lia |].
  cbn [window]. destruct i as [| i'].
  - simpl. rewrite land_mask, Z.add_0_r. reflexivity.
  - rewrite lookup_cons. rewrite IHk by lia. do 3 f_equal. lia.
Qed.

Lemma window_copy_in n buf slot src :
  Z.of_nat n <= 1048576 ->
  (n <= length src)%nat ->
  window (RingBuffer.copy_in buf slot src n) slot n = map Some (take n src).
Proof.
  intros Hn Hlen.
  apply list_eq. intros i.
  destruct (decide (i < n)%nat) as [Hi | Hi].
  - destruct (lookup_lt_is_Some_2 src i ltac:(lia)) as [m Hm].
    rewrite list_lookup_fmap, lookup_take_lt, Hm by exact Hi. cbn.
    rewrite window_lookup by exact Hi.
    rewrite (copy_in_hit n buf slot src i m Hn Hi Hm). reflexivity.
  - rewrite !lookup_ge_None_2; [reflexivity | |].
    + rewrite length_fmap, length_take. lia.
    + rewrite window_length. lia.
Qed.

(** the counters are [size_t] values and the consumer is at most
    [capacity_value - 1] records behind the producer *)
Definition ring_ok (r : RingBuffer.t) : Prop :=
  0 <= RingBuffer.tail_ r < 18446744073709551616 /\
  0 <= RingBuffer.head_ r < 18446744073709551616 /\
  wrap_u64 (RingBuffer.head_ r - RingBuffer.tail_ r) <= RingBuffer.mask.

(** the records that were pushed and not yet popped, oldest first *)
Definition ring_contents (r : RingBuffer.t) : list (option OutputMsg) :=
  window (RingBuffer.buffer_ r) (RingBuffer.tail_ r)
    (Z.to_nat (wrap_u64 (RingBuffer.head_ r - RingBuffer.tail_ r))).

Lemma wrap_u64_nonneg x : 0 <= wrap_u64 x < 18446744073709551616.
Proof. unfold wrap_u64. apply Z.mod_pos_bound. lia. Qed.

Lemma land_mask_small x :
  0 <= x <= RingBuffer.mask -> Z.land x RingBuffer.mask = x.
Proof.
  intros H. rewrite land_mask. apply Z.mod_small.
  unfold RingBuffer.mask, RingBuffer.capacity_value, OUTPUT_BUFFER_SIZE in H.
  lia.
Qed.

Lemma wrap_u64_advance h t n :
  0 <= n ->
  wrap_u64 (h - t) + n < 18446744073709551616 ->
  wrap_u64 (wrap_u64 (h + n) - t) = wrap_u64 (h - t) + n.
Proof.
  intros Hn Hlt. unfold wrap_u64 in *.
  rewrite Zminus_mod_idemp_l.
  replace (h + n - t) with ((h - t) + n) by lia.
  rewrite <- Zplus_mod_idemp_l. apply Z.mod_small.
  pose proof (Z.mod_pos_bound (h - t) 18446744073709551616 ltac:(lia)). lia.
Qed.

Lemma wrap_u64_retreat h t n :
  0 <= n <= wrap_u64 (h - t) ->
  wrap_u64 (h - wrap_u64 (t + n)) = wrap_u64 (h - t) - n.
Proof.
  intros Hn. unfold wrap_u64 in *.
  rewrite Zminus_mod_idemp_r.
  replace (h - (t + n)) with ((h - t) - n) by lia.
  rewrite <- Zminus_mod_idemp_l. apply Z.mod_small.
  pose proof (Z.mod_pos_bound (h - t) 18446744073709551616 ltac:(lia)). lia.
Qed.

Lemma head_mod_capacity h t :
  (t + wrap_u64 (h - t)) mod 1048576 = h mod 1048576.
Proof.
  rewrite Zplus_mod, wrap_u64_mod_capacity, <- Zplus_mod. f_equal. lia.
Qed.

Lemma push_batch_spec batch_data count r :
  ring_ok r ->
  0 <= count <= Z.of_nat (length batch_data) ->
  (RingBuffer.push_batch batch_data count r).1
  = Z.min count (RingBuffer.capacity - RingBuffer.size_approx r) /\
  ring_ok (RingBuffer.push_batch batch_data count r).2 /\
  ring_contents (RingBuffer.push_batch batch_data count r).2
  = ring_contents r
    ++ map Some
         (take (Z.to_nat (RingBuffer.push_batch batch_data count r).1)
            batch_data).
Proof.
  intros Hok Hc. pose proof Hok as (Ht & Hh & Hu).
  unfold RingBuffer.push_batch, RingBuffer.capacity, RingBuffer.size_approx.
  set (u := wrap_u64 (RingBuffer.head_ r - RingBuffer.tail_ r)) in *.
  pose proof (wrap_u64_nonneg (RingBuffer.head_ r - RingBuffer.tail_ r))
    as Hu0. fold u in Hu0.
  assert (Hm : RingBuffer.mask = 1048575) by reflexivity.
  assert (Hcap : RingBuffer.capacity_value = 1048576) by reflexivity.
  destruct (count =? 0) eqn:E0.
  { apply Z.eqb_eq in E0. subst count. cbn [fst snd].
    split; [lia |]. split; [exact Hok |].
    simpl. rewrite app_nil_r. reflexivity. }
  apply Z.eqb_neq in E0.
  rewrite land_mask_small by lia. rewrite Hcap.
  set (to_write := if count <? 1048576 - 1 - u then count
                   else 1048576 - 1 - u).
  assert (Hw : to_write = Z.min count (1048576 - 1 - u)).
  { subst to_write. destruct (count <? 1048576 - 1 - u) eqn:E.
    - apply Z.ltb_lt in E. lia.
    - apply Z.ltb_ge in E. lia. }
  destruct (to_write =? 0) eqn:E1.
  { apply Z.eqb_eq in E1. cbn [fst snd].
    split; [lia |]. split; [exact Hok |].
    simpl. rewrite app_nil_r. reflexivity. }
  apply Z.eqb_neq in E1. cbn [fst snd].
  split; [exact Hw |].
  assert (Hadv : wrap_u64 (wrap_u64 (RingBuffer.head_ r + to_write)
                           - RingBuffer.tail_ r) = u + to_write)
    by (apply wrap_u64_advance; fold u; lia).
  split.
  - unfold ring_ok. cbn. split; [exact Ht |].
    split; [apply wrap_u64_nonneg |]. rewrite Hadv. lia.
  - unfold ring_contents. cbn. rewrite Hadv. fold u.
    rewrite Z2Nat.inj_add by lia. rewrite window_app.
    rewrite Z2Nat.id by lia. f_equal.
    + apply window_ext. intros i Hi. apply copy_in_miss.
      intros j Hj Heq.
      rewrite land_mask, Zplus_mod_idemp_l in Heq.
      assert (Hhj : (RingBuffer.head_ r + j) mod 1048576
                    = (RingBuffer.tail_ r + (u + j)) mod 1048576).
      { rewrite <- (Zplus_mod_idemp_l (RingBuffer.head_ r)).
        rewrite <- (head_mod_capacity (RingBuffer.head_ r)
                      (RingBuffer.tail_ r)).
        fold u. rewrite Zplus_mod_idemp_l. f_equal. lia. }
      rewrite Hhj in Heq.
      apply mod_capacity_inj in Heq; lia.
    + rewrite (window_congr _ _ (RingBuffer.tail_ r + u)
                 (Z.land (RingBuffer.head_ r) RingBuffer.mask)).
      * apply window_copy_in; lia.
      * rewrite land_mask, Z.mod_mod by lia. apply head_mod_capacity.
Qed.

(** X8. [push_batch(batch_data, count)] on a ring whose consumer is at most
    [capacity_value - 1] records behind, with [count] at most the length of
    the batch: it returns [min(count, capacity() - size_approx())], the ring
    stays within its capacity, and the records not yet popped are the old
    ones followed by the first records of the batch, as many as were
    accepted, in order.  No unread record is overwritten. *)
Theorem push_batch_appends :
  forall batch_data count r,
    ring_ok r ->
    0 <= count <= Z.of_nat (length batch_data) ->
    (RingBuffer.push_batch batch_data count r).1
    = Z.min count (RingBuffer.capacity - RingBuffer.size_approx r) /\
    ring_ok (RingBuffer.push_batch batch_data count r).2 /\
    ring_contents (RingBuffer.push_batch batch_data count r).2
    = ring_contents r
      ++ map Some
           (take (Z.to_nat (RingBuffer.push_batch batch_data count r).1)
              batch_data).
Proof. exact push_batch_spec. Qed.

Lemma ring_ok_new : ring_ok RingBuffer.new.
Proof. unfold ring_ok. vm_compute. repeat split; discriminate. Qed.

Lemma push_batch_appends_witness :
  (RingBuffer.push_batch [make_cancelled 0 7 3; make_cancelled 0 8 4] 2
     RingBuffer.new).1
  = Z.min 2 (RingBuffer.capacity - RingBuffer.size_approx RingBuffer.new) /\
  ring_ok
    (RingBuffer.push_batch [make_cancelled 0 7 3; make_cancelled 0 8 4] 2
       RingBuffer.new).2 /\
  ring_contents
    (RingBuffer.push_batch [make_cancelled 0 7 3; make_cancelled 0 8 4] 2
       RingBuffer.new).2
  = ring_contents RingBuffer.new
    ++ map Some
         (take
            (Z.to_nat
               (RingBuffer.push_batch
                  [make_cancelled 0 7 3; make_cancelled 0 8 4] 2
                  RingBuffer.new).1)
            [make_cancelled 0 7 3; make_cancelled 0 8 4]).
Proof.
  apply push_batch_appends.
  - exact ring_ok_new.
  - simpl. lia.
Defined.

Lemma read_run_window buf n : forall a s,
  0 <= a ->
  a + Z.of_nat n <= 1048576 ->
  a = s mod 1048576 ->
  RingBuffer.read_run buf a n = window buf s n.
Proof.
  induction n as [| n IH]; intros a s Ha Hn Hs; [reflexivity |].
  cbn [RingBuffer.read_run window]. rewrite land_mask, <- Hs. f_equal.
  destruct n as [| n']; [reflexivity |].
  apply IH; [lia | lia |].
  rewrite <- Zplus_mod_idemp_l, <- Hs. symmetry. apply Z.mod_small. lia.
Qed.

(** X9. [pop_batch(out, max_count)] on a ring whose consumer is at most
    [capacity_value - 1] records behind: it returns, it copies
    [min(max_count, size_approx())] records, these are the oldest records
    not yet popped, in the order in which they were pushed, and the rest
    stays in the ring; the producer counter and the slots are not
    written. *)
Theorem pop_batch_takes_the_oldest max_count r :
  ring_ok r ->
  0 <= max_count ->
  exists out r',
    RingBuffer.pop_batch max_count r = Ok (out, r') /\
    Z.of_nat (length out) = Z.min max_count (RingBuffer.size_approx r) /\
    ring_contents r = out ++ ring_contents r' /\
    ring_ok r' /\
    RingBuffer.buffer_ r' = RingBuffer.buffer_ r /\
    RingBuffer.head_ r' = RingBuffer.head_ r.
Proof.
  intros Hok Hmax. pose proof Hok as (Ht & Hh & Hu).
  unfold RingBuffer.pop_batch, RingBuffer.size_approx.
  set (u := wrap_u64 (RingBuffer.head_ r - RingBuffer.tail_ r)) in *.
  pose proof (wrap_u64_nonneg (RingBuffer.head_ r - RingBuffer.tail_ r))
    as Hu0. fold u in Hu0.
  assert (Hm : RingBuffer.mask = 1048575) by reflexivity.
  assert (Hcap : RingBuffer.capacity_value = 1048576) by reflexivity.
  set (k := if max_count <? u then max_count else u).
  assert (Hk : k = Z.min max_count u).
  { subst k. destruct (max_count <? u) eqn:E.
    - apply Z.ltb_lt in E. lia.
    - apply Z.ltb_ge in E. lia. }
  destruct (k =? 0) eqn:E0.
  { apply Z.eqb_eq in E0. exists [], r.
    split; [reflexivity |]. split; [simpl; lia |].
    split; [reflexivity |]. split; [exact Hok |]. split; reflexivity. }
  apply Z.eqb_neq in E0.
  rewrite land_mask, Hcap.
  pose proof (Z.mod_pos_bound (RingBuffer.tail_ r) 1048576 ltac:(lia)) as Hr.
  set (ri := RingBuffer.tail_ r mod 1048576) in *.
  set (r' := RingBuffer.mk (RingBuffer.buffer_ r) (RingBuffer.head_ r)
               (wrap_u64 (RingBuffer.tail_ r + k))).
  assert (Hret : wrap_u64 (RingBuffer.head_ r
                           - wrap_u64 (RingBuffer.tail_ r + k)) = u - k)
    by (apply wrap_u64_retreat; fold u; lia).
  assert (Hok' : ring_ok r').
  { unfold ring_ok. cbn. split; [apply wrap_u64_nonneg |].
    split; [exact Hh |]. rewrite Hret. lia. }
  assert (Hsplit : ring_contents r
                   = window (RingBuffer.buffer_ r) (RingBuffer.tail_ r)
                       (Z.to_nat k) ++ ring_contents r').
  { unfold ring_contents. cbn. fold u. rewrite Hret.
    replace (Z.to_nat u) with (Z.to_nat k + Z.to_nat (u - k))%nat by lia.
    rewrite window_app. f_equal. rewrite Z2Nat.id by lia.
    apply window_congr. symmetry. apply wrap_u64_mod_capacity. }
  destruct (k <=? 1048576 - ri) eqn:E1.
  - apply Z.leb_le in E1.
    exists (RingBuffer.read_run (RingBuffer.buffer_ r) ri (Z.to_nat k)), r'.
    split; [reflexivity |].
    rewrite (read_run_window _ _ ri (RingBuffer.tail_ r))
      by (try reflexivity; lia).
    split; [rewrite window_length; lia |].
    split; [exact Hsplit |]. split; [exact Hok' |]. split; reflexivity.
  - apply Z.leb_gt in E1.
    destruct (1048576 <? k - (1048576 - ri)) eqn:E2;
      [apply Z.ltb_lt in E2; lia |].
    exists (RingBuffer.read_run (RingBuffer.buffer_ r) ri
              (Z.to_nat (1048576 - ri))
            ++ RingBuffer.read_run (RingBuffer.buffer_ r) 0
                 (Z.to_nat (k - (1048576 - ri)))), r'.
    split; [reflexivity |].
    assert (Hout : RingBuffer.read_run (RingBuffer.buffer_ r) ri
                     (Z.to_nat (1048576 - ri))
                   ++ RingBuffer.read_run (RingBuffer.buffer_ r) 0
                        (Z.to_nat (k - (1048576 - ri)))
                   = window (RingBuffer.buffer_ r) (RingBuffer.tail_ r)
                       (Z.to_nat k)).
    { replace (Z.to_nat k)
        with (Z.to_nat (1048576 - ri)
              + Z.to_nat (k - (1048576 - ri)))%nat by lia.
      rewrite window_app. f_equal.
      - apply read_run_window; [lia | lia | reflexivity].
      - apply read_run_window; [lia | lia |].
        rewrite Z2Nat.id by lia. subst ri.
        apply Z.mod_unique with (RingBuffer.tail_ r / 1048576 + 1);
          [lia |].
        pose proof (Z.div_mod (RingBuffer.tail_ r) 1048576 ltac:(lia)). lia. }
    rewrite Hout.
    split; [rewrite window_length; lia |].
    split; [exact Hsplit |]. split; [exact Hok' |]. split; reflexivity.
Qed.

Lemma pop_batch_takes_the_oldest_witness :
  exists out r',
    RingBuffer.pop_batch 1 (output_buffer_ (flush_batch book_spread))
    = Ok (out, r') /\
    Z.of_nat (length out)
    = Z.min 1
        (RingBuffer.size_approx (output_buffer_ (flush_batch book_spread))) /\
    ring_contents (output_buffer_ (flush_batch book_spread))
    = out ++ ring_contents r' /\
    ring_ok r' /\
    RingBuffer.buffer_ r'
    = RingBuffer.buffer_ (output_buffer_ (flush_batch book_spread)) /\
    RingBuffer.head_ r'
    = RingBuffer.head_ (output_buffer_ (flush_batch book_spread)).
Proof.
  apply pop_batch_takes_the_oldest.
  - unfold ring_ok. vm_compute. repeat split; discriminate.
  - lia.
Defined.

Lemma try_push_spec item r :
  ring_ok r ->
  (RingBuffer.try_push item r).1
  = negb (RingBuffer.size_approx r =? RingBuffer.capacity) /\
  ring_ok (RingBuffer.try_push item r).2 /\
  ring_contents (RingBuffer.try_push item r).2
  = ring_contents r
    ++ (if (RingBuffer.try_push item r).1 then [Some item] else []).
Proof.
  intros Hok. pose proof Hok as (Ht & Hh & Hu).
  unfold RingBuffer.try_push, RingBuffer.size_approx, RingBuffer.capacity.
  set (u := wrap_u64 (RingBuffer.head_ r - RingBuffer.tail_ r)) in *.
  pose proof (wrap_u64_nonneg (RingBuffer.head_ r - RingBuffer.tail_ r))
    as Hu0. fold u in Hu0.
  assert (Hm : RingBuffer.mask = 1048575) by reflexivity.
  assert (Hcap : RingBuffer.capacity_value = 1048576) by reflexivity.
  rewrite !land_mask, wrap_u64_mod_capacity, Hcap.
  assert (Hh1 : (RingBuffer.head_ r + 1) mod 1048576
                = (RingBuffer.tail_ r + (u + 1)) mod 1048576).
  { rewrite <- (Zplus_mod_idemp_l (RingBuffer.head_ r)).
    rewrite <- (head_mod_capacity (RingBuffer.head_ r) (RingBuffer.tail_ r)).
    fold u. rewrite Zplus_mod_idemp_l. f_equal. lia. }
  rewrite Hh1.
  destruct (u =? 1048576 - 1) eqn:Eu.
  - apply Z.eqb_eq in Eu. cbn [negb].
    assert (Hfull : ((RingBuffer.tail_ r + (u + 1)) mod 1048576
                     =? RingBuffer.tail_ r mod 1048576) = true).
    { apply Z.eqb_eq. rewrite Eu.
      replace (RingBuffer.tail_ r + (1048576 - 1 + 1))
        with (RingBuffer.tail_ r + 1 * 1048576) by lia.
      apply Z.mod_add. lia. }
    rewrite Hfull. cbn [fst snd].
    split; [reflexivity |]. split; [exact Hok |].
    rewrite app_nil_r. reflexivity.
  - apply Z.eqb_neq in Eu. cbn [negb].
    assert (Hfree : ((RingBuffer.tail_ r + (u + 1)) mod 1048576
                     =? RingBuffer.tail_ r mod 1048576) = false).
    { apply Z.eqb_neq. intros Heq.
      rewrite <- (Z.add_0_r (RingBuffer.tail_ r)) in Heq at 2.
      apply mod_capacity_inj in Heq; lia. }
    rewrite Hfree. cbn [fst snd].
    split; [reflexivity |].
    assert (Hadv : wrap_u64 (wrap_u64 (RingBuffer.head_ r + 1)
                             - RingBuffer.tail_ r) = u + 1)
      by (apply wrap_u64_advance; fold u; lia).
    split.
    + unfold ring_ok. cbn. split; [exact Ht |].
      split; [apply wrap_u64_nonneg |]. rewrite Hadv. lia.
    + unfold ring_contents. cbn. rewrite Hadv. fold u.
      replace (Z.to_nat (u + 1)) with (Z.to_nat u + 1)%nat by lia.
      rewrite window_app. rewrite Z2Nat.id by lia. f_equal.
      * apply window_ext. intros i Hi. apply lookup_insert_ne.
        intros Heq.
        rewrite <- (head_mod_capacity (RingBuffer.head_ r)
                      (RingBuffer.tail_ r)) in Heq.
        fold u in Heq. apply mod_capacity_inj in Heq; lia.
      * cbn [window]. rewrite land_mask. unfold u.
        rewrite (head_mod_capacity (RingBuffer.head_ r) (RingBuffer.tail_ r)).
        rewrite lookup_insert_eq. reflexivity.
Qed.

Lemma try_pop_spec r :
  ring_ok r ->
  (RingBuffer.size_approx r = 0 /\ RingBuffer.try_pop r = (None, r)) \/
  (0 < RingBuffer.size_approx r /\
   exists item r',
     RingBuffer.try_pop r = (Some item, r') /\
     ring_contents r = item :: ring_contents r' /\
     ring_ok r').
Proof.
  intros Hok. pose proof Hok as (Ht & Hh & Hu).
  unfold RingBuffer.try_pop, RingBuffer.size_approx.
  set (u := wrap_u64 (RingBuffer.head_ r - RingBuffer.tail_ r)) in *.
  pose proof (wrap_u64_nonneg (RingBuffer.head_ r - RingBuffer.tail_ r))
    as Hu0. fold u in Hu0.
  destruct (RingBuffer.tail_ r =? RingBuffer.head_ r) eqn:Eth.
  - apply Z.eqb_eq in Eth. left. rewrite Eth, Z.eqb_refl. cbn [andb].
    split; [| reflexivity].
    subst u. rewrite Eth, Z.sub_diag. reflexivity.
  - apply Z.eqb_neq in Eth. right. rewrite andb_false_r.
    assert (Hpos : 0 < u).
    { destruct (Z.eq_dec u 0) as [E | E]; [| lia]. exfalso. apply Eth.
      subst u. unfold wrap_u64 in E.
      apply Z.mod_divide in E; [| lia]. destruct E as [q Hq]. lia. }
    split; [exact Hpos |].
    eexists _, _. split; [reflexivity |].
    assert (Hret : wrap_u64 (RingBuffer.head_ r
                             - wrap_u64 (RingBuffer.tail_ r + 1)) = u - 1)
      by (apply wrap_u64_retreat; fold u; lia).
    split.
    + unfold ring_contents. cbn. fold u. rewrite Hret.
      replace (Z.to_nat u) with (S (Z.to_nat (u - 1))) by lia.
      cbn [window]. f_equal.
      apply window_congr. symmetry. apply wrap_u64_mod_capacity.
    + unfold ring_ok. cbn. split; [apply wrap_u64_nonneg |].
      split; [exact Hh |]. rewrite Hret. lia.
Qed.

(** X10. [try_push] and [try_pop] on a ring whose consumer is at most
    [capacity_value - 1] records behind.  [try_push(item)] returns false
    and changes nothing exactly when [size_approx()] is [capacity()];
    otherwise [item] becomes the newest unread record.  [try_pop] returns
    false and changes nothing when [size_approx()] is 0; otherwise it hands
    out the oldest unread record and the others stay, in order. *)
Theorem try_push_and_try_pop_are_fifo :
  forall item r,
    ring_ok r ->
    ((RingBuffer.try_push item r).1
     = negb (RingBuffer.size_approx r =? RingBuffer.capacity) /\
     ring_ok (RingBuffer.try_push item r).2 /\
     ring_contents (RingBuffer.try_push item r).2
     = ring_contents r
       ++ (if (RingBuffer.try_push item r).1 then [Some item] else [])) /\
    ((RingBuffer.size_approx r = 0 /\ RingBuffer.try_pop r = (None, r)) \/
     (0 < RingBuffer.size_approx r /\
      exists popped r',
        RingBuffer.try_pop r = (Some popped, r') /\
        ring_contents r = popped :: ring_contents r' /\
        ring_ok r')).
Proof.
  intros item r Hok. split; [apply try_push_spec | apply try_pop_spec];
    exact Hok.
Qed.

Lemma try_push_and_try_pop_are_fifo_witness :
  ((RingBuffer.try_push (make_cancelled 0 7 3)
      (output_buffer_ (flush_batch book_spread))).1
   = negb (RingBuffer.size_approx (output_buffer_ (flush_batch book_spread))
           =? RingBuffer.capacity) /\
   ring_ok
     (RingBuffer.try_push (make_cancelled 0 7 3)
        (output_buffer_ (flush_batch book_spread))).2 /\
   ring_contents
     (RingBuffer.try_push (make_cancelled 0 7 3)
        (output_buffer_ (flush_batch book_spread))).2
   = ring_contents (output_buffer_ (flush_batch book_spread))
     ++ (if (RingBuffer.try_push (make_cancelled 0 7 3)
               (output_buffer_ (flush_batch book_spread))).1
         then [Some (make_cancelled 0 7 3)] else [])) /\
  ((RingBuffer.size_approx (output_buffer_ (flush_batch book_spread)) = 0 /\
    RingBuffer.try_pop (output_buffer_ (flush_batch book_spread))
    = (None, output_buffer_ (flush_batch book_spread))) \/
   (0 < RingBuffer.size_approx (output_buffer_ (flush_batch book_spread)) /\
    exists popped r',
      RingBuffer.try_pop (output_buffer_ (flush_batch book_spread))
      = (Some popped, r') /\
      ring_contents (output_buffer_ (flush_batch book_spread))
      = popped :: ring_contents r' /\
      ring_ok r')).
Proof.
  apply try_push_and_try_pop_are_fifo.
  unfold ring_ok. vm_compute. repeat split; discriminate.
Defined.

(** ** What the helpers of the book leave alone *)

(** the price bitmaps and the cached best prices *)
Definition best_view (s : Book) :=
  (bid_bitmap_ s, ask_bitmap_ s, best_bid_ s, best_ask_ s,
   best_bid_word_ s, best_ask_word_ s).

(** the output side: ring, staging array, counters and switches *)
Definition output_view (s : Book) :=
  (output_buffer_ s, batch_buffer_ s, messages_dropped_ s,
   trades_executed_ s,
   (use_ring_buffer_ s, emit_accepts_ s, emit_cancels_ s,
    current_timestamp_ s)).

Definition same_prices (s s' : Book) : Prop :=
  forall id,
    OrderLocation.price (location s' id) = OrderLocation.price (location s id).

Definition framed (s s' : Book) : Prop :=
  best_view s' = best_view s /\
  output_view s' = output_view s /\
  same_prices s s'.

Lemma framed_refl s : framed s s.
Proof. repeat split. Qed.

Lemma framed_trans s1 s2 s3 : framed s1 s2 -> framed s2 s3 -> framed s1 s3.
Proof.
  intros (A1 & B1 & C1) (A2 & B2 & C2).
  split; [congruence |]. split; [congruence |].
  intros id. rewrite C2. apply C1.
Qed.

Lemma framed_put_level bid lidx l s : framed s (put_level bid lidx l s).
Proof. destruct bid; repeat split. Qed.

Lemma framed_set_order_pool p s : framed s (set_order_pool_ p s).
Proof. repeat split. Qed.

Lemma framed_pool_store idx o s s' : pool_store idx o s = Ok s' -> framed s s'.
Proof.
  intros H. apply pool_store_Ok in H as [_ ->]. apply framed_set_order_pool.
Qed.

Lemma framed_list_push_back bid lidx idx s s' :
  list_push_back bid lidx idx s = Ok s' -> framed s s'.
Proof.
  intros H. apply list_push_back_Ok in H as (_ & _ & ->).
  unfold pushed_back.
  eapply framed_trans; [apply framed_set_order_pool | apply framed_put_level].
Qed.

Lemma framed_list_remove bid lidx idx s s' :
  list_remove bid lidx idx s = Ok s' -> framed s s'.
Proof.
  intros H. apply list_remove_Ok in H as (_ & _ & _ & ->).
  unfold removed.
  eapply framed_trans; [apply framed_set_order_pool | apply framed_put_level].
Qed.

Lemma framed_add_to_level_volume bid lidx idx s s' :
  add_to_level_volume bid lidx idx s = Ok s' -> framed s s'.
Proof.
  intros H. apply add_to_level_volume_Ok in H as [_ ->].
  apply framed_put_level.
Qed.

Lemma framed_remove_from_level_volume bid lidx idx s s' :
  remove_from_level_volume bid lidx idx s = Ok s' -> framed s s'.
Proof.
  intros H. apply remove_from_level_volume_Ok in H as [_ ->].
  apply framed_put_level.
Qed.

Lemma framed_adjust_level_volume bid lidx vd hd aon s :
  framed s (adjust_level_volume bid lidx vd hd aon s).
Proof. unfold adjust_level_volume. apply framed_put_level. Qed.

Lemma location_set_order_index data size id loc s :
  forall id',
    location (set_order_index_ (mk_vec (<[id := loc]> data) size) s) id'
    = if decide (id' = id) then loc
      else default OrderLocation.zero (data !! id').
Proof.
  intros id'. unfold location. cbn.
  destruct (decide (id' = id)) as [-> | Hne].
  - rewrite lookup_insert_eq. reflexivity.
  - rewrite lookup_insert_ne by congruence. reflexivity.
Qed.

Lemma framed_reassert_pool_idx id curr s s' :
  reassert_pool_idx id curr s = Ok s' -> framed s s'.
Proof.
  unfold reassert_pool_idx. intros H.
  destruct (id <? vec_size (order_index_ s)); [| inv_Ok H; apply framed_refl].
  inv_bind_z H. apply vec_get_Ok in E as [_ ->].
  inv_bind_z H. unfold vec_set in E.
  destruct (vec_in_range (order_index_ s) id); [| discriminate].
  inv_Ok E. inv_Ok H.
  split; [reflexivity |]. split; [reflexivity |].
  intros id'. rewrite location_set_order_index.
  destruct (decide (id' = id)) as [-> | _]; reflexivity.
Qed.

Lemma framed_deactivate id s s' : deactivate id s = Ok s' -> framed s s'.
Proof.
  unfold deactivate. intros H.
  destruct (id <? vec_size (order_index_ s)); [| inv_Ok H; apply framed_refl].
  inv_bind_z H. apply vec_get_Ok in E as [_ ->].
  inv_bind_z H. unfold vec_set in E.
  destruct (vec_in_range (order_index_ s) id); [| discriminate].
  inv_Ok E. inv_Ok H.
  split; [reflexivity |]. split; [reflexivity |].
  intros id'.
  change (location (set_active_order_count_ ?v ?t) id') with (location t id').
  rewrite location_set_order_index.
  destruct (decide (id' = id)) as [-> | _]; reflexivity.
Qed.

Lemma framed_refresh bid lidx curr s s' :
  refresh bid lidx curr s = Ok s' -> framed s s'.
Proof.
  unfold refresh. intros H.
  inv_bind_z H. inv_bind_z H. apply framed_remove_from_level_volume in E0.
  inv_bind_z H. apply framed_list_remove in E1.
  inv_bind_z H. inv_bind_z H. apply framed_pool_store in E3.
  inv_bind_z H. inv_bind_z H. apply framed_pool_store in E5.
  inv_bind_z H. apply framed_list_push_back in E6.
  inv_bind_z H. apply framed_add_to_level_volume in E7.
  inv_bind_z H. apply framed_reassert_pool_idx in H.
  repeat (eapply framed_trans; [eassumption |]). apply framed_refl.
Qed.

Lemma framed_consume bid lidx curr s s' :
  consume bid lidx curr s = Ok s' -> framed s s'.
Proof.
  unfold consume. intros H.
  inv_bind_z H. apply framed_list_remove in E.
  inv_bind_z H. inv_bind_z H. apply framed_deactivate in E1.
  inv_bind_z H. inv_Ok H.
  repeat (eapply framed_trans; [eassumption |]). apply framed_set_order_pool.
Qed.

Lemma view_best_view s s' :
  view s' = view s -> best_view s' = best_view s /\ same_prices s s'.
Proof.
  intros H. pose proof (view_location _ _ H) as Hl.
  unfold view in H. injection H. intros. unfold best_view.
  split; [congruence |]. intros id. rewrite Hl. reflexivity.
Qed.

Lemma framed_cross_check s : framed s (cross_check s).
Proof.
  destruct (view_best_view _ _ (view_cross_check s)) as [H1 H2].
  split; [exact H1 |]. split; [| exact H2].
  unfold cross_check. case_ifs; reflexivity.
Qed.

Lemma framed_ensure_capacity order_id s : framed s (ensure_capacity order_id s).
Proof. unfold ensure_capacity. case_ifs; repeat split. Qed.

Lemma index_entry_frame order_id is_buy price idx s s' :
  index_entry order_id is_buy price idx s = Ok s' ->
  best_view s' = best_view s /\
  output_view s' = output_view s /\
  forall id,
    OrderLocation.price (location s' id)
    = if decide (id = order_id) then price
      else OrderLocation.price (location s id).
Proof.
  intros H. apply index_entry_Ok in H as [_ ->]. unfold indexed.
  destruct (framed_ensure_capacity order_id s) as (A & B & C).
  split; [exact A |]. split; [exact B |].
  intros id.
  change (location (set_active_order_count_ ?v ?t) id) with (location t id).
  rewrite location_set_order_index.
  destruct (decide (id = order_id)) as [-> | _].
  - destruct is_buy; reflexivity.
  - apply C.
Qed.

Lemma output_view_level_opened is_buy price s :
  output_view (level_opened is_buy price s) = output_view s /\
  same_prices s (level_opened is_buy price s).
Proof.
  unfold level_opened, update_best_bid_after_add, update_best_ask_after_add.
  case_ifs; (split; [reflexivity | intros id; reflexivity]).
Qed.

Lemma output_view_update_best_bid_after_remove price s :
  output_view (update_best_bid_after_remove price s) = output_view s /\
  same_prices s (update_best_bid_after_remove price s).
Proof.
  unfold update_best_bid_after_remove. cbv zeta.
  case_ifs; (split; [reflexivity | intros id; reflexivity]).
Qed.

Lemma output_view_update_best_ask_after_remove price s :
  output_view (update_best_ask_after_remove price s) = output_view s /\
  same_prices s (update_best_ask_after_remove price s).
Proof.
  unfold update_best_ask_after_remove. cbv zeta.
  case_ifs; (split; [reflexivity | intros id; reflexivity]).
Qed.

Lemma output_view_level_closed is_buy price s :
  output_view (level_closed is_buy price s) = output_view s /\
  same_prices s (level_closed is_buy price s).
Proof.
  unfold level_closed. destruct is_buy.
  - destruct (output_view_update_best_bid_after_remove price
                (set_bid_level_count_ (wrap_u32 (bid_level_count_ s - 1)) s))
      as [H1 H2].
    split; [rewrite H1; reflexivity | intros id; rewrite H2; reflexivity].
  - destruct (output_view_update_best_ask_after_remove price
                (set_ask_level_count_ (wrap_u32 (ask_level_count_ s - 1)) s))
      as [H1 H2].
    split; [rewrite H1; reflexivity | intros id; rewrite H2; reflexivity].
Qed.

(** ** The cached best prices against the bitmaps *)

(** [best_bid_] is the highest index that tests as set in the bid bitmap,
    or [-1] when none does, and [best_bid_word_] is its word *)
Definition bid_side_coherent (bitmap : gmap Z Z) (best word : Z) : Prop :=
  (best = -1 /\ word = -1 /\
   forall j, 0 <= j -> bitmap_test bitmap j = false) \/
  (0 <= best < MAX_PRICE_LEVELS /\ word = best / 64 /\
   bitmap_test bitmap best = true /\
   forall j, best < j -> bitmap_test bitmap j = false).

(** [best_ask_] is the lowest index that tests as set in the ask bitmap,
    or [INT64_MAX] when none does; no index from [MAX_PRICE_LEVELS] on is
    set *)
Definition ask_side_coherent (bitmap : gmap Z Z) (best word : Z) : Prop :=
  (best = INT64_MAX /\ word = 0 /\
   forall j, 0 <= j -> bitmap_test bitmap j = false) \/
  (0 <= best < MAX_PRICE_LEVELS /\ word = best / 64 /\
   bitmap_test bitmap best = true /\
   (forall j, 0 <= j < best -> bitmap_test bitmap j = false) /\
   (forall j, MAX_PRICE_LEVELS <= j -> bitmap_test bitmap j = false)).

Definition best_prices_coherent (s : Book) : Prop :=
  bitmap_words_ok (bid_bitmap_ s) /\
  bitmap_words_ok (ask_bitmap_ s) /\
  bid_side_coherent (bid_bitmap_ s) (best_bid_ s) (best_bid_word_ s) /\
  ask_side_coherent (ask_bitmap_ s) (best_ask_ s) (best_ask_word_ s).

Lemma best_prices_coherent_view s s' :
  best_view s' = best_view s ->
  best_prices_coherent s -> best_prices_coherent s'.
Proof.
  unfold best_view, best_prices_coherent. intros H. injection H.
  intros -> -> -> -> -> ->. auto.
Qed.

Lemma bitmap_find_highest_spec bitmap num_words start_word :
  bitmap_words_ok bitmap ->
  -1 <= start_word ->
  (bitmap_find_highest bitmap num_words start_word = -1 /\
   forall j, 0 <= j < 64 * (start_word + 1) ->
             bitmap_test bitmap j = false) \/
  (0 <= bitmap_find_highest bitmap num_words start_word
     < 64 * (start_word + 1) /\
   bitmap_test bitmap (bitmap_find_highest bitmap num_words start_word)
     = true /\
   forall j,
     bitmap_find_highest bitmap num_words start_word < j
       < 64 * (start_word + 1) ->
     bitmap_test bitmap j = false).
Proof.
  intros Hok Hs. unfold bitmap_find_highest.
  apply find_highest_from_spec; [exact Hok | lia].
Qed.

Lemma bitmap_find_lowest_spec bitmap num_words start_word :
  bitmap_words_ok bitmap ->
  0 <= start_word <= num_words ->
  num_words < 18446744073709551616 ->
  (bitmap_find_lowest bitmap num_words start_word = -1 /\
   forall j, 64 * start_word <= j < 64 * num_words ->
             bitmap_test bitmap j = false) \/
  (64 * start_word <= bitmap_find_lowest bitmap num_words start_word
     < 64 * num_words /\
   bitmap_test bitmap (bitmap_find_lowest bitmap num_words start_word)
     = true /\
   forall j,
     64 * start_word <= j
       < bitmap_find_lowest bitmap num_words start_word ->
     bitmap_test bitmap j = false).
Proof.
  intros Hok Hs Hn. unfold bitmap_find_lowest.
  rewrite wrap_u64_small by lia.
  pose proof (find_lowest_from_spec bitmap Hok
                (Z.to_nat (num_words - start_word)) start_word) as H.
  rewrite Z2Nat.id in H by lia.
  replace (start_word + (num_words - start_word)) with num_words in H by lia.
  exact H.
Qed.

Lemma bid_side_add bitmap best word price :
  0 <= price < MAX_PRICE_LEVELS ->
  bid_side_coherent bitmap best word ->
  bid_side_coherent (bitmap_set bitmap price)
    (if (best <? 0) || (best <? price) then price else best)
    (if (best <? 0) || (best <? price) then price / 64 else word).
Proof.
  intros Hp [(-> & -> & Hn) | (Hb & -> & Ht & Hn)].
  - cbn [Z.ltb Z.compare orb]. right.
    split; [exact Hp |]. split; [reflexivity |]. split.
    + rewrite bitmap_test_set_aux, Z.eqb_refl. reflexivity.
    + intros j Hj. rewrite bitmap_test_set_aux.
      rewrite (proj2 (Z.eqb_neq j price)) by lia. apply Hn. lia.
  - rewrite (proj2 (Z.ltb_ge best 0)) by lia. cbn [orb]. right.
    destruct (best <? price) eqn:E.
    + apply Z.ltb_lt in E.
      split; [exact Hp |]. split; [reflexivity |]. split.
      * rewrite bitmap_test_set_aux, Z.eqb_refl. reflexivity.
      * intros j Hj. rewrite bitmap_test_set_aux.
        rewrite (proj2 (Z.eqb_neq j price)) by lia. apply Hn. lia.
    + apply Z.ltb_ge in E.
      split; [exact Hb |]. split; [reflexivity |]. split.
      * rewrite bitmap_test_set_aux, Ht. apply orb_true_r.
      * intros j Hj. rewrite bitmap_test_set_aux.
        rewrite (proj2 (Z.eqb_neq j price)) by lia. apply Hn. lia.
Qed.

Lemma ask_side_add bitmap best word price :
  0 <= price < MAX_PRICE_LEVELS ->
  ask_side_coherent bitmap best word ->
  ask_side_coherent (bitmap_set bitmap price)
    (if (best =? INT64_MAX) || (price <? best) then price else best)
    (if (best =? INT64_MAX) || (price <? best) then price / 64 else word).
Proof.
  intros Hp [(-> & -> & Hn) | (Hb & -> & Ht & Hlo & Hhi)].
  - rewrite Z.eqb_refl. cbn [orb]. right.
    split; [exact Hp |]. split; [reflexivity |]. split.
    + rewrite bitmap_test_set_aux, Z.eqb_refl. reflexivity.
    + split; intros j Hj; rewrite bitmap_test_set_aux;
        rewrite (proj2 (Z.eqb_neq j price)) by lia; apply Hn;
        unfold MAX_PRICE_LEVELS in *; lia.
  - rewrite (proj2 (Z.eqb_neq best INT64_MAX))
      by (unfold INT64_MAX, MAX_PRICE_LEVELS in *; lia).
    cbn [orb]. right.
    destruct (price <? best) eqn:E.
    + apply Z.ltb_lt in E.
      split; [exact Hp |]. split; [reflexivity |]. split.
      * rewrite bitmap_test_set_aux, Z.eqb_refl. reflexivity.
      * split; intros j Hj; rewrite bitmap_test_set_aux;
          rewrite (proj2 (Z.eqb_neq j price)) by lia;
          [apply Hlo | apply Hhi]; lia.
    + apply Z.ltb_ge in E.
      split; [exact Hb |]. split; [reflexivity |]. split.
      * rewrite bitmap_test_set_aux, Ht. apply orb_true_r.
      * split; intros j Hj; rewrite bitmap_test_set_aux;
          rewrite (proj2 (Z.eqb_neq j price)) by lia;
          [apply Hlo | apply Hhi]; lia.
Qed.

Lemma word_bounds b :
  64 * (b / 64) <= b < 64 * (b / 64 + 1).
Proof.
  pose proof (Z.div_mod b 64 ltac:(lia)).
  pose proof (Z.mod_pos_bound b 64 ltac:(lia)). lia.
Qed.

Lemma bid_side_remove bitmap best word p (clear : bool) :
  bitmap_words_ok bitmap ->
  0 <= p < MAX_PRICE_LEVELS ->
  bid_side_coherent bitmap best word ->
  let bitmap1 := if clear then bitmap_clear bitmap p else bitmap in
  let new_best := bitmap_find_highest bitmap1 BITMAP_WORDS word in
  bitmap_words_ok bitmap1 /\
  bid_side_coherent bitmap1
    (if p =? best
     then if 0 <=? new_best then index_to_price new_best else -1
     else best)
    (if p =? best
     then if 0 <=? new_best then new_best / 64 else -1
     else word).
Proof.
  intros Hok Hp Hc bitmap1 new_best.
  assert (Hok1 : bitmap_words_ok bitmap1)
    by (subst bitmap1; destruct clear;
        [apply bitmap_words_ok_clear |]; exact Hok).
  assert (Hkeep : forall j, bitmap_test bitmap j = false ->
                            bitmap_test bitmap1 j = false).
  { intros j Hj. subst bitmap1. destruct clear; [| exact Hj].
    rewrite bitmap_test_clear_aux, Hj. apply andb_false_r. }
  split; [exact Hok1 |].
  destruct (p =? best) eqn:Ep.
  - apply Z.eqb_eq in Ep. subst best.
    destruct Hc as [(E & _) | (Hb & -> & Ht & Hn)]; [lia |].
    pose proof (word_bounds p) as Hw.
    assert (Hw0 : 0 <= p / 64) by (apply Z.div_pos; lia).
    destruct (bitmap_find_highest_spec bitmap1 BITMAP_WORDS (p / 64) Hok1
                ltac:(lia)) as [[Hr Hnone] | (Hr & Hset & Hnone)];
      fold new_best in Hr, Hnone.
    + rewrite Hr. cbn [Z.leb Z.compare]. left.
      split; [reflexivity |]. split; [reflexivity |].
      intros j Hj. destruct (Z_lt_le_dec j (64 * (p / 64 + 1))).
      * apply Hnone. lia.
      * apply Hkeep, Hn. lia.
    + fold new_best in Hset.
      rewrite (proj2 (Z.leb_le 0 new_best)) by lia. right.
      assert (Hle : new_best <= p).
      { destruct (Z_le_gt_dec new_best p) as [H | H]; [exact H |].
        rewrite (Hkeep new_best) in Hset by (apply Hn; lia). discriminate. }
      rewrite index_to_price_small
        by (unfold INT64_MAX, MAX_PRICE_LEVELS in *; lia).
      split; [lia |]. split; [reflexivity |]. split; [exact Hset |].
      intros j Hj. destruct (Z_lt_le_dec j (64 * (p / 64 + 1))).
      * apply Hnone. lia.
      * apply Hkeep, Hn. lia.
  - apply Z.eqb_neq in Ep.
    destruct Hc as [(-> & -> & Hn) | (Hb & -> & Ht & Hn)].
    + left. split; [reflexivity |]. split; [reflexivity |].
      intros j Hj. apply Hkeep, Hn. exact Hj.
    + right. split; [exact Hb |]. split; [reflexivity |]. split.
      * subst bitmap1. destruct clear; [| exact Ht].
        rewrite bitmap_test_clear_aux, Ht.
        rewrite (proj2 (Z.eqb_neq best p)) by lia. reflexivity.
      * intros j Hj. apply Hkeep, Hn. exact Hj.
Qed.

Lemma ask_side_remove bitmap best word p (clear : bool) :
  bitmap_words_ok bitmap ->
  0 <= p < MAX_PRICE_LEVELS ->
  ask_side_coherent bitmap best word ->
  let bitmap1 := if clear then bitmap_clear bitmap p else bitmap in
  let new_best := bitmap_find_lowest bitmap1 BITMAP_WORDS word in
  bitmap_words_ok bitmap1 /\
  ask_side_coherent bitmap1
    (if p =? best
     then if 0 <=? new_best then index_to_price new_best else INT64_MAX
     else best)
    (if p =? best
     then if 0 <=? new_best then new_best / 64 else 0
     else word).
Proof.
  intros Hok Hp Hc bitmap1 new_best.
  assert (Hok1 : bitmap_words_ok bitmap1)
    by (subst bitmap1; destruct clear;
        [apply bitmap_words_ok_clear |]; exact Hok).
  assert (Hkeep : forall j, bitmap_test bitmap j = false ->
                            bitmap_test bitmap1 j = false).
  { intros j Hj. subst bitmap1. destruct clear; [| exact Hj].
    rewrite bitmap_test_clear_aux, Hj. apply andb_false_r. }
  split; [exact Hok1 |].
  assert (HM : 64 * BITMAP_WORDS = MAX_PRICE_LEVELS) by reflexivity.
  destruct (p =? best) eqn:Ep.
  - apply Z.eqb_eq in Ep. subst best.
    destruct Hc as [(E & _) | (Hb & -> & Ht & Hlo & Hhi)];
      [unfold INT64_MAX, MAX_PRICE_LEVELS in *; lia |].
    pose proof (word_bounds p) as Hw.
    assert (Hw0 : 0 <= p / 64) by (apply Z.div_pos; lia).
    assert (Hw1 : p / 64 <= BITMAP_WORDS).
    { unfold BITMAP_WORDS. apply Z.div_le_mono; lia. }
    destruct (bitmap_find_lowest_spec bitmap1 BITMAP_WORDS (p / 64) Hok1
                ltac:(lia) ltac:(reflexivity))
      as [[Hr Hnone] | (Hr & Hset & Hnone)];
      fold new_best in Hr, Hnone.
    + rewrite Hr. cbn [Z.leb Z.compare]. left.
      split; [reflexivity |]. split; [reflexivity |].
      intros j Hj. destruct (Z_lt_le_dec j (64 * (p / 64))).
      * apply Hkeep, Hlo. lia.
      * destruct (Z_lt_le_dec j MAX_PRICE_LEVELS).
        -- apply Hnone. lia.
        -- apply Hkeep, Hhi. lia.
    + fold new_best in Hset.
      rewrite (proj2 (Z.leb_le 0 new_best)) by lia. right.
      assert (Hge : p <= new_best).
      { destruct (Z_le_gt_dec p new_best) as [H | H]; [exact H |].
        rewrite (Hkeep new_best) in Hset by (apply Hlo; lia). discriminate. }
      rewrite index_to_price_small
        by (unfold INT64_MAX, MAX_PRICE_LEVELS in *; lia).
      split; [lia |]. split; [reflexivity |]. split; [exact Hset |].
      split.
      * intros j Hj. destruct (Z_lt_le_dec j (64 * (p / 64))).
        -- apply Hkeep, Hlo. lia.
        -- apply Hnone. lia.
      * intros j Hj. apply Hkeep, Hhi. exact Hj.
  - apply Z.eqb_neq in Ep.
    destruct Hc as [(-> & -> & Hn) | (Hb & -> & Ht & Hlo & Hhi)].
    + left. split; [reflexivity |]. split; [reflexivity |].
      intros j Hj. apply Hkeep, Hn. exact Hj.
    + right. split; [exact Hb |]. split; [reflexivity |]. split.
      * subst bitmap1. destruct clear; [| exact Ht].
        rewrite bitmap_test_clear_aux, Ht.
        rewrite (proj2 (Z.eqb_neq best p)) by lia. reflexivity.
      * split; intros j Hj; apply Hkeep; [apply Hlo | apply Hhi]; exact Hj.
Qed.

(** projections of updated books *)
Ltac book_fields :=
  cbn [bid_levels_ ask_levels_ bid_bitmap_ ask_bitmap_ best_bid_ best_ask_
       best_bid_word_ best_ask_word_ bid_level_count_ ask_level_count_
       order_pool_ order_index_ active_order_count_ max_order_id_
       output_buffer_ use_ring_buffer_ emit_accepts_ emit_cancels_
       batch_buffer_ current_timestamp_ messages_processed_ trades_executed_
       messages_dropped_ cerr_
       set_bid_levels_ set_ask_levels_ set_bid_bitmap_ set_ask_bitmap_
       set_best_bid_ set_best_ask_ set_best_bid_word_ set_best_ask_word_
       set_bid_level_count_ set_ask_level_count_ set_order_pool_
       set_order_index_ set_active_order_count_ set_max_order_id_
       set_output_buffer_ set_use_ring_buffer_ set_emit_accepts_
       set_emit_cancels_ set_batch_buffer_ set_current_timestamp_
       set_messages_processed_ set_trades_executed_ set_messages_dropped_
       set_cerr_] in *.

Lemma in_range_price price :
  0 <= price < MAX_PRICE_LEVELS -> price_to_index price = price.
Proof.
  intros H. apply price_to_index_nonneg. unfold MAX_PRICE_LEVELS in H. lia.
Qed.

Lemma coherent_update_best_bid_after_add price s :
  0 <= price < MAX_PRICE_LEVELS ->
  best_prices_coherent s ->
  best_prices_coherent (update_best_bid_after_add price s).
Proof.
  intros Hp (Wb & Wa & Cb & Ca).
  pose proof (bid_side_add _ _ _ price Hp Cb) as H.
  unfold update_best_bid_after_add. rewrite in_range_price by exact Hp.
  cbv zeta. book_fields.
  destruct ((best_bid_ s <? 0) || (best_bid_ s <? price));
    unfold best_prices_coherent; book_fields;
    (split; [apply bitmap_words_ok_set; exact Wb |]);
    (split; [exact Wa |]); (split; [exact H | exact Ca]).
Qed.

Lemma coherent_update_best_ask_after_add price s :
  0 <= price < MAX_PRICE_LEVELS ->
  best_prices_coherent s ->
  best_prices_coherent (update_best_ask_after_add price s).
Proof.
  intros Hp (Wb & Wa & Cb & Ca).
  pose proof (ask_side_add _ _ _ price Hp Ca) as H.
  unfold update_best_ask_after_add. rewrite in_range_price by exact Hp.
  cbv zeta. book_fields.
  destruct ((best_ask_ s =? INT64_MAX) || (price <? best_ask_ s));
    unfold best_prices_coherent; book_fields;
    (split; [exact Wb |]);
    (split; [apply bitmap_words_ok_set; exact Wa |]);
    (split; [exact Cb | exact H]).
Qed.

Lemma coherent_update_best_bid_after_remove price s :
  0 <= price < MAX_PRICE_LEVELS ->
  best_prices_coherent s ->
  best_prices_coherent (update_best_bid_after_remove price s).
Proof.
  intros Hp (Wb & Wa & Cb & Ca).
  unfold update_best_bid_after_remove. rewrite in_range_price by exact Hp.
  cbv zeta.
  destruct (bid_side_remove _ _ _ price
              (PriceLevel.empty (get_level true price s)) Wb Hp Cb)
    as [W1 H].
  cbv zeta in H.
  destruct (PriceLevel.empty (get_level true price s)); book_fields;
    destruct (price =? best_bid_ s);
    try (destruct (0 <=? _));
    unfold best_prices_coherent; book_fields;
    (split; [exact W1 |]); (split; [exact Wa |]); (split; [exact H | exact Ca]).
Qed.

Lemma coherent_update_best_ask_after_remove price s :
  0 <= price < MAX_PRICE_LEVELS ->
  best_prices_coherent s ->
  best_prices_coherent (update_best_ask_after_remove price s).
Proof.
  intros Hp (Wb & Wa & Cb & Ca).
  unfold update_best_ask_after_remove. rewrite in_range_price by exact Hp.
  cbv zeta.
  destruct (ask_side_remove _ _ _ price
              (PriceLevel.empty (get_level false price s)) Wa Hp Ca)
    as [W1 H].
  cbv zeta in H.
  destruct (PriceLevel.empty (get_level false price s)); book_fields;
    destruct (price =? best_ask_ s);
    try (destruct (0 <=? _));
    unfold best_prices_coherent; book_fields;
    (split; [exact Wb |]); (split; [exact W1 |]); (split; [exact Cb | exact H]).
Qed.

Lemma coherent_level_opened is_buy price s :
  0 <= price < MAX_PRICE_LEVELS ->
  best_prices_coherent s ->
  best_prices_coherent (level_opened is_buy price s).
Proof.
  intros Hp Hc. unfold level_opened. destruct is_buy.
  - apply coherent_update_best_bid_after_add; [exact Hp |].
    exact (best_prices_coherent_view s _ eq_refl Hc).
  - apply coherent_update_best_ask_after_add; [exact Hp |].
    exact (best_prices_coherent_view s _ eq_refl Hc).
Qed.

Lemma coherent_level_closed is_buy price s :
  0 <= price < MAX_PRICE_LEVELS ->
  best_prices_coherent s ->
  best_prices_coherent (level_closed is_buy price s).
Proof.
  intros Hp Hc. unfold level_closed. destruct is_buy.
  - apply coherent_update_best_bid_after_remove; [exact Hp |].
    exact (best_prices_coherent_view s _ eq_refl Hc).
  - apply coherent_update_best_ask_after_remove; [exact Hp |].
    exact (best_prices_coherent_view s _ eq_refl Hc).
Qed.

(** ** Invariants of the book across all operations *)

(** the prices kept in [order_index_] are [int64_t] values *)
Definition prices_typed (s : Book) : Prop :=
  forall id, int64_range (OrderLocation.price (location s id)).

(** the prices that a request carries are [int64_t] values *)
Definition typed_request (r : Request) : Prop :=
  match r with
  | Add _ _ price _ _ => int64_range price
  | AddIceberg _ _ price _ _ _ => int64_range price
  | AddAon _ _ price _ _ => int64_range price
  | Cancel _ => True
  | Modify _ new_price _ => int64_range new_price
  | Match _ _ price _ _ => int64_range price
  | Reset => True
  end.

Lemma in_range_typed price :
  int64_range price ->
  (MAX_PRICE_LEVELS <=? price_to_index price) = false ->
  0 <= price < MAX_PRICE_LEVELS.
Proof.
  intros Ht E. apply Z.leb_gt in E.
  apply price_to_index_in_range; assumption.
Qed.

Section Preservation.
Variable Inv : Book -> Prop.
Hypothesis Inv_framed : forall s s', framed s s' -> Inv s -> Inv s'.
Hypothesis Inv_typed :
  forall s, Inv s ->
    prices_typed s /\ int64_range (best_bid_ s) /\ int64_range (best_ask_ s).
Hypothesis Inv_level_opened :
  forall is_buy price s,
    0 <= price < MAX_PRICE_LEVELS -> Inv s -> Inv (level_opened is_buy price s).
Hypothesis Inv_level_closed :
  forall is_buy price s,
    0 <= price < MAX_PRICE_LEVELS -> Inv s -> Inv (level_closed is_buy price s).
Hypothesis Inv_bid_remove :
  forall price s,
    0 <= price < MAX_PRICE_LEVELS -> Inv s ->
    Inv (update_best_bid_after_remove price s).
Hypothesis Inv_ask_remove :
  forall price s,
    0 <= price < MAX_PRICE_LEVELS -> Inv s ->
    Inv (update_best_ask_after_remove price s).
Hypothesis Inv_index_entry :
  forall order_id is_buy price idx s s',
    int64_range price -> Inv s ->
    index_entry order_id is_buy price idx s = Ok s' -> Inv s'.
Hypothesis Inv_emit_trade :
  forall b sl p q s, Inv s -> Inv (emit_trade b sl p q s).
Hypothesis Inv_emit_order_accepted :
  forall id sd p q s, Inv s -> Inv (emit_order_accepted id sd p q s).
Hypothesis Inv_emit_order_cancelled :
  forall id q s, Inv s -> Inv (emit_order_cancelled id q s).
Hypothesis Inv_reset : forall s, Inv s -> Inv (reset_internal s).

(** the tail shared by the three resting functions *)
Lemma rest_tail_preserves order order_id is_buy price idx pool
    (was_empty : bool) s sa sb sc sd :
  int64_range price ->
  0 <= price < MAX_PRICE_LEVELS ->
  Inv s ->
  pool_store idx order (set_order_pool_ pool s) = Ok sa ->
  list_push_back is_buy (price_to_index price) idx sa = Ok sb ->
  add_to_level_volume is_buy (price_to_index price) idx sb = Ok sc ->
  index_entry order_id is_buy price idx
    (if was_empty then level_opened is_buy price sc else sc) = Ok sd ->
  Inv sd.
Proof.
  intros Ht Hp J Ha Hb Hc Hd.
  apply framed_pool_store in Ha. apply framed_list_push_back in Hb.
  apply framed_add_to_level_volume in Hc.
  assert (Jc : Inv sc).
  { apply (Inv_framed s); [| exact J].
    eapply framed_trans; [apply framed_set_order_pool |].
    eapply framed_trans; [exact Ha |].
    eapply framed_trans; [exact Hb | exact Hc]. }
  apply (Inv_index_entry _ _ _ _ _ _ Ht) with (2 := Hd).
  destruct was_empty; [apply Inv_level_opened; assumption | exact Jc].
Qed.

Lemma add_order_internal_preserves order_id is_buy price quantity user_id
    s s' :
  int64_range price ->
  Inv s ->
  add_order_internal order_id is_buy price quantity user_id s = Ok s' ->
  Inv s'.
Proof.
  intros Ht J H. unfold add_order_internal in H.
  destruct (MAX_PRICE_LEVELS <=? price_to_index price) eqn:E0;
    [inv_Ok H; exact J |].
  pose proof (in_range_typed _ Ht E0) as Hp.
  inv_bind_z H. destruct a as [idx pool]. inv_bind_z H.
  inv_bind_z H. inv_bind_z H. inv_bind_z H. inv_bind_z H. inv_Ok H.
  apply (Inv_framed _ _ (framed_cross_check _)).
  apply Inv_emit_order_accepted.
  exact (rest_tail_preserves _ _ _ _ _ _ _ _ _ _ _ _ Ht Hp J E2 E3 E4 E5).
Qed.

Lemma add_aon_internal_preserves order_id is_buy price quantity user_id
    s s' :
  int64_range price ->
  Inv s ->
  add_aon_internal order_id is_buy price quantity user_id s = Ok s' ->
  Inv s'.
Proof.
  intros Ht J H. unfold add_aon_internal in H.
  destruct (MAX_PRICE_LEVELS <=? price_to_index price) eqn:E0;
    [inv_Ok H; exact J |].
  pose proof (in_range_typed _ Ht E0) as Hp.
  inv_bind_z H. destruct a as [idx pool]. inv_bind_z H.
  inv_bind_z H. inv_bind_z H. inv_bind_z H. inv_bind_z H. inv_Ok H.
  apply Inv_emit_order_accepted.
  exact (rest_tail_preserves _ _ _ _ _ _ _ _ _ _ _ _ Ht Hp J E2 E3 E4 E5).
Qed.

Lemma add_iceberg_internal_preserves order_id is_buy price total_quantity
    visible_quantity user_id s s' :
  int64_range price ->
  Inv s ->
  add_iceberg_internal order_id is_buy price total_quantity visible_quantity
    user_id s = Ok s' ->
  Inv s'.
Proof.
  intros Ht J H. unfold add_iceberg_internal in H.
  destruct (MAX_PRICE_LEVELS <=? price_to_index price) eqn:E0;
    [inv_Ok H; exact J |].
  pose proof (in_range_typed _ Ht E0) as Hp.
  inv_bind_z H. destruct a as [idx pool]. inv_bind_z H.
  inv_bind_z H. inv_bind_z H. inv_bind_z H. inv_bind_z H. inv_Ok H.
  apply Inv_emit_order_accepted.
  exact (rest_tail_preserves _ _ _ _ _ _ _ _ _ _ _ _ Ht Hp J E2 E3 E4 E5).
Qed.

Lemma cancel_order_internal_preserves order_id s s' :
  Inv s -> cancel_order_internal order_id s = Ok s' -> Inv s'.
Proof.
  intros J H. unfold cancel_order_internal in H.
  inv_bind_z H. destruct a; [inv_Ok H; exact J |].
  inv_bind_z H. apply vec_get_Ok in E0 as [_ ->].
  fold (location s order_id) in H.
  destruct (MAX_PRICE_LEVELS
            <=? price_to_index (OrderLocation.price (location s order_id)))
    eqn:E0; [inv_Ok H; exact J |].
  destruct (Inv_typed s J) as (Hty & _).
  pose proof (in_range_typed _ (Hty order_id) E0) as Hp.
  inv_bind_z H.
  inv_bind_z H. apply framed_remove_from_level_volume in E2.
  inv_bind_z H. apply framed_list_remove in E3.
  inv_bind_z H. inv_bind_z H. inv_bind_z H. inv_Ok H.
  apply Inv_emit_order_cancelled.
  match goal with
  | |- Inv (set_active_order_count_ ?v (set_order_index_ ?ix ?t)) =>
      assert (Jt : Inv t)
  end.
  { assert (J3 : Inv (set_order_pool_ a2 a1)).
    { apply (Inv_framed s); [| exact J].
      eapply framed_trans; [exact E2 |].
      eapply framed_trans; [exact E3 | apply framed_set_order_pool]. }
    destruct (PriceLevel.empty _);
      [apply Inv_level_closed; assumption | exact J3]. }
  match goal with
  | |- Inv (set_active_order_count_ ?v (set_order_index_ ?ix ?t)) =>
      apply (Inv_framed t); [| exact Jt]
  end.
  apply vec_get_Ok in E5 as [_ ->].
  unfold vec_set in E6.
  destruct (vec_in_range _ order_id); [| discriminate]. inv_Ok E6.
  split; [reflexivity |]. split; [reflexivity |].
  intros id.
  change (location (set_active_order_count_ ?v ?t) id) with (location t id).
  rewrite location_set_order_index.
  destruct (decide (id = order_id)) as [-> | _]; reflexivity.
Qed.

Lemma modify_order_internal_preserves order_id new_price new_quantity s s' :
  int64_range new_price ->
  Inv s ->
  modify_order_internal order_id new_price new_quantity s = Ok s' ->
  Inv s'.
Proof.
  intros Ht J H. unfold modify_order_internal in H.
  inv_bind_z H. destruct a; [inv_Ok H; exact J |].
  inv_bind_z H.
  destruct (MAX_PRICE_LEVELS <=? _); [inv_Ok H; exact J |].
  inv_bind_z H.
  destruct ((new_price =? _) && (new_quantity <=? _)).
  - inv_bind_z H. apply framed_pool_store in H.
    apply (Inv_framed s); [| exact J].
    eapply framed_trans; [apply framed_adjust_level_volume | exact H].
  - inv_bind_z H.
    apply (add_order_internal_preserves _ _ _ _ _ _ _ Ht) with (2 := H).
    exact (cancel_order_internal_preserves _ _ _ J E2).
Qed.

Lemma fill_preserves order_id is_buy lidx current_best curr remaining_qty
    s s' r' :
  Inv s ->
  fill order_id is_buy lidx current_best curr remaining_qty s = Ok (s', r') ->
  Inv s' /\ best_view s' = best_view s.
Proof.
  intros J H. unfold fill in H.
  inv_bind_z H. inv_bind_z H. inv_bind_z H. apply framed_pool_store in E1.
  inv_bind_z H. inv_bind_z H. inv_Ok H.
  match type of E1 with
  | framed (adjust_level_volume ?b ?l ?v ?h ?a ?t) _ =>
      pose proof (framed_adjust_level_volume b l v h a t) as F0;
      assert (Jt : Inv t) by (apply Inv_emit_trade; exact J);
      assert (Vt : best_view t = best_view s)
        by (apply view_best_view, view_emit_trade)
  end.
  pose proof (framed_trans _ _ _ F0 E1) as F1.
  assert (F2 : framed a1 s').
  { destruct (Order.quantity a2 =? 0).
    - destruct (0 <? Order.hidden_quantity a2).
      + exact (framed_refresh _ _ _ _ _ E3).
      + exact (framed_consume _ _ _ _ _ E3).
    - inv_Ok E3. apply framed_refl. }
  pose proof (framed_trans _ _ _ F1 F2) as F.
  split; [exact (Inv_framed _ _ F Jt) |].
  destruct F as [Fv _]. congruence.
Qed.

Lemma match_level_preserves fuel order_id is_buy lidx current_best :
  forall curr remaining_qty trade_count s s' r' t',
    Inv s ->
    match_level fuel order_id is_buy lidx current_best curr remaining_qty
      trade_count s = Ok (s', r', t') ->
    Inv s' /\ best_view s' = best_view s.
Proof.
  induction fuel as [| fuel IH];
    intros curr remaining_qty trade_count s s' r' t' J H;
    [discriminate |].
  cbn [match_level] in H.
  destruct (negb (curr =? NULL_INDEX) && (0 <? remaining_qty));
    [| inv_Ok H; auto].
  inv_bind_z H.
  match type of H with
  | (if ?c then _ else _) = _ => destruct c
  end.
  - exact (IH _ _ _ _ _ _ _ J H).
  - inv_bind_z H. destruct a0 as [s1 r1]. cbv beta iota in H.
    destruct (fill_preserves _ _ _ _ _ _ _ _ _ J E0) as [J1 V1].
    destruct (IH _ _ _ _ _ _ _ J1 H) as [J2 V2].
    split; [exact J2 | congruence].
Qed.

Lemma best_in_range best :
  int64_range best ->
  (MAX_PRICE_LEVELS <=? price_to_index best) = false ->
  0 <= best < MAX_PRICE_LEVELS.
Proof. apply in_range_typed. Qed.

Lemma match_loop_preserves n fuel order_id is_buy price :
  forall remaining_qty trade_count side_empty s s' r' t',
    Inv s ->
    match_loop n fuel order_id is_buy price remaining_qty trade_count
      side_empty s = Ok (s', r', t') ->
    Inv s'.
Proof.
  induction n as [| n IH];
    intros remaining_qty trade_count side_empty s s' r' t' J H;
    [discriminate |].
  cbn [match_loop] in H.
  destruct ((0 <? remaining_qty) && negb side_empty); [| inv_Ok H; exact J].
  destruct (is_buy && (price <? opposite_best is_buy s));
    [inv_Ok H; exact J |].
  destruct (negb is_buy && (opposite_best is_buy s <? price));
    [inv_Ok H; exact J |].
  destruct (MAX_PRICE_LEVELS <=? price_to_index (opposite_best is_buy s))
    eqn:E0; [inv_Ok H; exact J |].
  destruct (Inv_typed s J) as (_ & Tb & Ta).
  assert (Hp : 0 <= opposite_best is_buy s < MAX_PRICE_LEVELS).
  { apply best_in_range; [| exact E0].
    unfold opposite_best. destruct is_buy; assumption. }
  destruct (PriceLevel.empty _) eqn:Ee.
  - apply IH in H; [exact H |].
    destruct is_buy; [apply Inv_ask_remove | apply Inv_bid_remove];
      assumption.
  - inv_bind_z H. destruct a as [[s1 r1] t1]. cbv beta iota in H.
    destruct (match_level_preserves _ _ _ _ _ _ _ _ _ _ _ _ J E) as [J1 V1].
    apply IH in H; [exact H |].
    match goal with
    | |- Inv (if ?c then _ else _) => destruct c; [| exact J1]
    end.
    apply Inv_level_closed; assumption.
Qed.

Lemma rest_residual_preserves order_id is_buy price remaining_qty tif s s' :
  int64_range price ->
  Inv s ->
  rest_residual order_id is_buy price remaining_qty tif s = Ok s' ->
  Inv s'.
Proof.
  intros Ht J H. unfold rest_residual in H.
  destruct (0 <? remaining_qty); [| inv_Ok H; exact J].
  destruct tif; try (inv_Ok H; exact J).
  - exact (add_order_internal_preserves _ _ _ _ _ _ _ Ht J H).
  - exact (add_aon_internal_preserves _ _ _ _ _ _ _ Ht J H).
Qed.

Lemma match_walk_preserves fuel order_id is_buy price quantity tif s t s' :
  int64_range price ->
  Inv s ->
  match_walk fuel order_id is_buy price quantity tif s = Ok (t, s') ->
  Inv s'.
Proof.
  intros Ht J H. unfold match_walk in H.
  inv_bind_z H. destruct a as [[s1 r1] t1]. cbv beta iota in H.
  inv_bind_z H. injection H as _ <-.
  apply (rest_residual_preserves _ _ _ _ _ _ _ Ht) with (2 := E0).
  exact (match_loop_preserves _ _ _ _ _ _ _ _ _ _ _ _ J E).
Qed.

Lemma match_internal_preserves fuel order_id is_buy price quantity tif
    s t s' :
  int64_range price ->
  Inv s ->
  match_internal fuel order_id is_buy price quantity tif s = Ok (t, s') ->
  Inv s'.
Proof.
  intros Ht J H. unfold match_internal in H.
  destruct tif.
  - exact (match_walk_preserves _ _ _ _ _ _ _ _ _ Ht J H).
  - exact (match_walk_preserves _ _ _ _ _ _ _ _ _ Ht J H).
  - inv_bind_z H. destruct (a <? quantity).
    + injection H as _ <-. exact J.
    + exact (match_walk_preserves _ _ _ _ _ _ _ _ _ Ht J H).
  - inv_bind_z H. destruct (a <? quantity).
    + inv_bind_z H. injection H as _ <-.
      exact (add_aon_internal_preserves _ _ _ _ _ _ _ Ht J E0).
    + exact (match_walk_preserves _ _ _ _ _ _ _ _ _ Ht J H).
Qed.

Lemma execute_preserves fuel r s s' :
  typed_request r -> Inv s -> execute fuel r s = Ok s' -> Inv s'.
Proof.
  intros Ht J H. destruct r; cbn [execute typed_request] in *.
  - unfold add_order in H. destruct (is_aggressive _ _ _).
    + inv_bind_z H. destruct a as [t s1]. inv_Ok H.
      exact (match_internal_preserves _ _ _ _ _ _ _ _ _ Ht J E).
    + exact (add_order_internal_preserves _ _ _ _ _ _ _ Ht J H).
  - exact (add_iceberg_internal_preserves _ _ _ _ _ _ _ _ Ht J H).
  - exact (add_aon_internal_preserves _ _ _ _ _ _ _ Ht J H).
  - exact (cancel_order_internal_preserves _ _ _ J H).
  - exact (modify_order_internal_preserves _ _ _ _ _ Ht J H).
  - unfold match_order in H. inv_bind_z H. destruct a as [t s1]. inv_Ok H.
    exact (match_internal_preserves _ _ _ _ _ _ _ _ _ Ht J E).
  - inv_Ok H. apply Inv_reset. exact J.
Qed.

Lemma execute_all_preserves fuel rs :
  forall s s',
    Forall typed_request rs -> Inv s ->
    execute_all fuel rs s = Ok s' -> Inv s'.
Proof.
  induction rs as [| r rs IH]; intros s s' Ht J H.
  - inv_Ok H. exact J.
  - cbn [execute_all] in H. inv_bind_z H.
    apply Forall_cons in Ht as [Hr Hrs].
    apply (IH _ _ Hrs) with (2 := H).
    exact (execute_preserves _ _ _ _ Hr J E).
Qed.
End Preservation.

(** *** The best prices follow the bitmaps *)

Definition book_coherent (s : Book) : Prop :=
  best_prices_coherent s /\ prices_typed s.

Lemma prices_typed_same s s' :
  same_prices s s' -> prices_typed s -> prices_typed s'.
Proof. intros H T id. rewrite H. apply T. Qed.

Lemma book_coherent_framed s s' :
  framed s s' -> book_coherent s -> book_coherent s'.
Proof.
  intros (A & _ & C) [H1 H2].
  split; [exact (best_prices_coherent_view _ _ A H1) |].
  exact (prices_typed_same _ _ C H2).
Qed.

Lemma book_coherent_view s s' :
  view s' = view s -> book_coherent s -> book_coherent s'.
Proof.
  intros H [H1 H2]. destruct (view_best_view _ _ H) as [A C].
  split; [exact (best_prices_coherent_view _ _ A H1) |].
  exact (prices_typed_same _ _ C H2).
Qed.

Lemma book_coherent_typed s :
  book_coherent s ->
  prices_typed s /\ int64_range (best_bid_ s) /\ int64_range (best_ask_ s).
Proof.
  intros [(_ & _ & Cb & Ca) T]. split; [exact T |].
  split.
  - destruct Cb as [(-> & _) | (H & _)];
      unfold int64_range, INT64_MAX, MAX_PRICE_LEVELS in *; lia.
  - destruct Ca as [(-> & _) | (H & _)];
      unfold int64_range, INT64_MAX, MAX_PRICE_LEVELS in *; lia.
Qed.

Lemma book_coherent_index_entry order_id is_buy price idx s s' :
  int64_range price -> book_coherent s ->
  index_entry order_id is_buy price idx s = Ok s' -> book_coherent s'.
Proof.
  intros Ht [H1 H2] H. apply index_entry_frame in H as (A & _ & C).
  split; [exact (best_prices_coherent_view _ _ A H1) |].
  intros id. rewrite C. destruct (decide (id = order_id)); [exact Ht | apply H2].
Qed.

Lemma bitmap_test_empty j : bitmap_test ∅ j = false.
Proof.
  rewrite bitmap_test_testbit. unfold bitmap_word.
  rewrite lookup_empty. apply Z.bits_0.
Qed.

Lemma location_reset_internal s id :
  OrderLocation.price (location (reset_internal s) id)
  = OrderLocation.price (location s id).
Proof.
  unfold reset_internal, location. book_fields. cbn [vec_data].
  rewrite map_lookup_imap.
  destruct (vec_data (order_index_ s) !! id) as [loc |]; [| reflexivity].
  cbn. destruct ((id <=? max_order_id_ s) && (id <? vec_size (order_index_ s)));
    reflexivity.
Qed.

Lemma best_prices_coherent_fresh s :
  bid_bitmap_ s = ∅ -> ask_bitmap_ s = ∅ ->
  best_bid_ s = -1 -> best_ask_ s = INT64_MAX ->
  best_bid_word_ s = -1 -> best_ask_word_ s = 0 ->
  best_prices_coherent s.
Proof.
  intros H H0 H1 H2 H3 H4. unfold best_prices_coherent.
  rewrite H, H0, H1, H2, H3, H4.
  split; [apply bitmap_words_ok_empty |].
  split; [apply bitmap_words_ok_empty |].
  split; left; repeat split; intros; apply bitmap_test_empty.
Qed.

Lemma book_coherent_reset s : book_coherent s -> book_coherent (reset_internal s).
Proof.
  intros [_ T]. split.
  - apply best_prices_coherent_fresh; reflexivity.
  - intros id. rewrite location_reset_internal. apply T.
Qed.

Lemma book_coherent_new capacity : book_coherent (new_book capacity).
Proof.
  split.
  - apply best_prices_coherent_fresh; reflexivity.
  - intros id. unfold location. cbn. rewrite lookup_empty. cbn.
    unfold int64_range, INT64_MAX. lia.
Qed.

Lemma book_coherent_execute_all fuel rs s s' :
  Forall typed_request rs -> book_coherent s ->
  execute_all fuel rs s = Ok s' -> book_coherent s'.
Proof.
  apply (execute_all_preserves book_coherent).
  - exact book_coherent_framed.
  - exact book_coherent_typed.
  - intros is_buy price t Hp [H1 H2]. split.
    + apply coherent_level_opened; assumption.
    + exact (prices_typed_same _ _
               (proj2 (output_view_level_opened is_buy price t)) H2).
  - intros is_buy price t Hp [H1 H2]. split.
    + apply coherent_level_closed; assumption.
    + exact (prices_typed_same _ _
               (proj2 (output_view_level_closed is_buy price t)) H2).
  - intros price t Hp [H1 H2]. split.
    + apply coherent_update_best_bid_after_remove; assumption.
    + exact (prices_typed_same _ _
               (proj2 (output_view_update_best_bid_after_remove price t)) H2).
  - intros price t Hp [H1 H2]. split.
    + apply coherent_update_best_ask_after_remove; assumption.
    + exact (prices_typed_same _ _
               (proj2 (output_view_update_best_ask_after_remove price t)) H2).
  - exact book_coherent_index_entry.
  - intros b sl p q t. apply book_coherent_view, view_emit_trade.
  - intros id sd p q t. apply book_coherent_view, view_emit_order_accepted.
  - intros id q t. apply book_coherent_view, view_emit_order_cancelled.
  - exact book_coherent_reset.
Qed.

(** X11. The cached best prices follow the price bitmaps.  Take a book in
    which [best_bid_] is the highest index that tests as set in the bid
    bitmap ([-1] when none does), [best_ask_] the lowest set index of the
    ask bitmap ([INT64_MAX] when none does; none is set from
    [MAX_PRICE_LEVELS] on), the cached words are the words of these
    indices, the bitmap words are [uint64_t] values and the prices kept in
    the order index are [int64_t] values.  Every sequence of requests whose
    prices are [int64_t] values, if it returns, leaves a book of which the
    same holds. *)
Theorem best_prices_follow_the_bitmaps :
  forall fuel rs s s',
    Forall typed_request rs ->
    best_prices_coherent s ->
    prices_typed s ->
    execute_all fuel rs s = Ok s' ->
    best_prices_coherent s' /\ prices_typed s'.
Proof.
  intros fuel rs s s' Ht H1 H2 H.
  exact (book_coherent_execute_all fuel rs s s' Ht (conj H1 H2) H).
Qed.

Lemma best_prices_follow_the_bitmaps_witness :
  best_prices_coherent book_spread /\ prices_typed book_spread.
Proof.
  assert (Ht : Forall typed_request
                 [Add 1 false 100 10 0; Add 2 true 90 5 0])
    by (repeat constructor; unfold int64_range, INT64_MAX; lia).
  assert (H : execute_all 16 [Add 1 false 100 10 0; Add 2 true 90 5 0]
                (new_book 8) = Ok book_spread) by (vm_compute; reflexivity).
  destruct (book_coherent_new 8) as [H1 H2].
  exact (best_prices_follow_the_bitmaps 16 _ (new_book 8) book_spread
           Ht H1 H2 H).
Defined.

(** *** The staging array and the ring *)

(** [batch_count_ < BATCH_SIZE], and the ring within its capacity *)
Definition staging_ok (s : Book) : Prop :=
  Z.of_nat (length (batch_buffer_ s)) < BATCH_SIZE /\
  ring_ok (output_buffer_ s).

Lemma flush_batch_spec s :
  ring_ok (output_buffer_ s) ->
  let len := Z.of_nat (length (batch_buffer_ s)) in
  let n :=
    Z.min len
      (RingBuffer.capacity - RingBuffer.size_approx (output_buffer_ s)) in
  batch_buffer_ (flush_batch s) = [] /\
  ring_ok (output_buffer_ (flush_batch s)) /\
  ring_contents (output_buffer_ (flush_batch s))
  = ring_contents (output_buffer_ s)
    ++ map Some (take (Z.to_nat n) (batch_buffer_ s)) /\
  messages_dropped_ (flush_batch s)
  = (if n <? len then wrap_u64 (messages_dropped_ s + (len - n))
     else messages_dropped_ s) /\
  view (flush_batch s) = view s /\
  trades_executed_ (flush_batch s) = trades_executed_ s.
Proof.
  intros Hok len n. unfold flush_batch. fold len.
  destruct (0 <? len) eqn:E0.
  - apply Z.ltb_lt in E0.
    destruct (push_batch_spec (batch_buffer_ s) len (output_buffer_ s) Hok
                ltac:(subst len; lia)) as (Hn & Hok' & Hc).
    fold n in Hn.
    destruct (RingBuffer.push_batch (batch_buffer_ s) len (output_buffer_ s))
      as [pushed ring] eqn:Ep.
    cbn [fst snd] in *. subst pushed.
    destruct (n <? len); book_fields;
      (split; [reflexivity |]); (split; [exact Hok' |]);
      (split; [exact Hc |]); repeat split.
  - apply Z.ltb_ge in E0.
    assert (Hl : batch_buffer_ s = [])
      by (destruct (batch_buffer_ s); [reflexivity | subst len; simpl in E0; lia]).
    assert (Hn : n = 0).
    { subst n len. rewrite Hl. simpl.
      destruct Hok as (_ & _ & Hu).
      unfold RingBuffer.capacity, RingBuffer.size_approx,
        RingBuffer.mask in *. lia. }
    rewrite Hn. assert (Hlen : len = 0) by (subst len; rewrite Hl; reflexivity).
    rewrite Hlen. cbn [Z.ltb Z.compare].
    split; [exact Hl |]. split; [exact Hok |].
    split; [rewrite Hl; simpl; rewrite app_nil_r; reflexivity |].
    repeat split.
Qed.

(** X12. [flush_batch()] with the ring within its capacity: the staging
    array is empty afterwards; of the staged records the first
    [min(batch_count_, capacity() - size_approx())] are appended, in order,
    to the unread records of the ring and the others are lost, their
    number being added to [messages_dropped_]; the book itself and
    [trades_executed_] do not change. *)
Theorem flush_batch_moves_the_staged_records :
  forall s,
    ring_ok (output_buffer_ s) ->
    batch_buffer_ (flush_batch s) = [] /\
    ring_ok (output_buffer_ (flush_batch s)) /\
    ring_contents (output_buffer_ (flush_batch s))
    = ring_contents (output_buffer_ s)
      ++ map Some
           (take
              (Z.to_nat
                 (Z.min (Z.of_nat (length (batch_buffer_ s)))
                    (RingBuffer.capacity
                     - RingBuffer.size_approx (output_buffer_ s))))
              (batch_buffer_ s)) /\
    messages_dropped_ (flush_batch s)
    = (if Z.min (Z.of_nat (length (batch_buffer_ s)))
            (RingBuffer.capacity - RingBuffer.size_approx (output_buffer_ s))
          <? Z.of_nat (length (batch_buffer_ s))
       then wrap_u64
              (messages_dropped_ s
               + (Z.of_nat (length (batch_buffer_ s))
                  - Z.min (Z.of_nat (length (batch_buffer_ s)))
                      (RingBuffer.capacity
                       - RingBuffer.size_approx (output_buffer_ s))))
       else messages_dropped_ s) /\
    view (flush_batch s) = view s /\
    trades_executed_ (flush_batch s) = trades_executed_ s.
Proof. intros s Hok. exact (flush_batch_spec s Hok). Qed.

Lemma flush_batch_moves_the_staged_records_witness :
  batch_buffer_ (flush_batch book_spread) = [] /\
  ring_ok (output_buffer_ (flush_batch book_spread)) /\
  ring_contents (output_buffer_ (flush_batch book_spread))
  = ring_contents (output_buffer_ book_spread)
    ++ map Some
         (take
            (Z.to_nat
               (Z.min (Z.of_nat (length (batch_buffer_ book_spread)))
                  (RingBuffer.capacity
                   - RingBuffer.size_approx (output_buffer_ book_spread))))
            (batch_buffer_ book_spread)) /\
  messages_dropped_ (flush_batch book_spread)
  = (if Z.min (Z.of_nat (length (batch_buffer_ book_spread)))
          (RingBuffer.capacity
           - RingBuffer.size_approx (output_buffer_ book_spread))
        <? Z.of_nat (length (batch_buffer_ book_spread))
     then wrap_u64
            (messages_dropped_ book_spread
             + (Z.of_nat (length (batch_buffer_ book_spread))
                - Z.min (Z.of_nat (length (batch_buffer_ book_spread)))
                    (RingBuffer.capacity
                     - RingBuffer.size_approx (output_buffer_ book_spread))))
     else messages_dropped_ book_spread) /\
  view (flush_batch book_spread) = view book_spread /\
  trades_executed_ (flush_batch book_spread) = trades_executed_ book_spread.
Proof.
  apply flush_batch_moves_the_staged_records.
  unfold ring_ok. vm_compute. repeat split; discriminate.
Defined.

Lemma staging_ok_output_view s s' :
  output_view s' = output_view s -> staging_ok s -> staging_ok s'.
Proof.
  unfold output_view, staging_ok. intros H [A B].
  assert (Hb : batch_buffer_ s' = batch_buffer_ s) by congruence.
  assert (Ho : output_buffer_ s' = output_buffer_ s) by congruence.
  rewrite Hb, Ho. split; assumption.
Qed.

Lemma staging_ok_stage m s : staging_ok s -> staging_ok (stage m s).
Proof.
  intros [Hlen Hok]. unfold stage. cbv zeta. book_fields.
  destruct (BATCH_SIZE <=? Z.of_nat (length (batch_buffer_ s ++ [m]))) eqn:E.
  - destruct (flush_batch_spec
                (set_batch_buffer_ (batch_buffer_ s ++ [m]) s) Hok)
      as (Hb & Hr & _).
    split; [rewrite Hb; reflexivity | exact Hr].
  - apply Z.leb_gt in E. split; [exact E | exact Hok].
Qed.

Lemma staging_ok_emit_trade b sl p q s :
  staging_ok s -> staging_ok (emit_trade b sl p q s).
Proof.
  intros H. unfold emit_trade. cbv zeta. book_fields.
  destruct (use_ring_buffer_ s).
  - apply staging_ok_stage. exact H.
  - exact H.
Qed.

Lemma staging_ok_emit_order_accepted id sd p q s :
  staging_ok s -> staging_ok (emit_order_accepted id sd p q s).
Proof.
  intros H. unfold emit_order_accepted.
  destruct (negb (emit_accepts_ s)); [exact H |].
  destruct (use_ring_buffer_ s); [apply staging_ok_stage |]; exact H.
Qed.

Lemma staging_ok_emit_order_cancelled id q s :
  staging_ok s -> staging_ok (emit_order_cancelled id q s).
Proof.
  intros H. unfold emit_order_cancelled.
  destruct (negb (emit_cancels_ s)); [exact H |].
  destruct (use_ring_buffer_ s); [apply staging_ok_stage |]; exact H.
Qed.

Lemma staging_ok_execute_all fuel rs s s' :
  Forall typed_request rs ->
  staging_ok s /\ book_coherent s ->
  execute_all fuel rs s = Ok s' ->
  staging_ok s' /\ book_coherent s'.
Proof.
  apply (execute_all_preserves (fun t => staging_ok t /\ book_coherent t)).
  - intros t t' F [H1 H2]. split.
    + destruct F as (_ & B & _). exact (staging_ok_output_view _ _ B H1).
    + exact (book_coherent_framed _ _ F H2).
  - intros t [_ H]. exact (book_coherent_typed t H).
  - intros is_buy price t Hp [H1 [H2 H3]]. split.
    + exact (staging_ok_output_view _ _
               (proj1 (output_view_level_opened is_buy price t)) H1).
    + split; [apply coherent_level_opened; assumption |].
      exact (prices_typed_same _ _
               (proj2 (output_view_level_opened is_buy price t)) H3).
  - intros is_buy price t Hp [H1 [H2 H3]]. split.
    + exact (staging_ok_output_view _ _
               (proj1 (output_view_level_closed is_buy price t)) H1).
    + split; [apply coherent_level_closed; assumption |].
      exact (prices_typed_same _ _
               (proj2 (output_view_level_closed is_buy price t)) H3).
  - intros price t Hp [H1 [H2 H3]]. split.
    + exact (staging_ok_output_view _ _
               (proj1 (output_view_update_best_bid_after_remove price t)) H1).
    + split; [apply coherent_update_best_bid_after_remove; assumption |].
      exact (prices_typed_same _ _
               (proj2 (output_view_update_best_bid_after_remove price t)) H3).
  - intros price t Hp [H1 [H2 H3]]. split.
    + exact (staging_ok_output_view _ _
               (proj1 (output_view_update_best_ask_after_remove price t)) H1).
    + split; [apply coherent_update_best_ask_after_remove; assumption |].
      exact (prices_typed_same _ _
               (proj2 (output_view_update_best_ask_after_remove price t)) H3).
  - intros order_id is_buy price idx t t' Ht [H1 H2] H. split.
    + pose proof (index_entry_frame _ _ _ _ _ _ H) as (_ & B & _).
      exact (staging_ok_output_view _ _ B H1).
    + exact (book_coherent_index_entry _ _ _ _ _ _ Ht H2 H).
  - intros b sl p q t [H1 H2]. split.
    + apply staging_ok_emit_trade. exact H1.
    + exact (book_coherent_view _ _ (view_emit_trade _ _ _ _ _) H2).
  - intros id sd p q t [H1 H2]. split.
    + apply staging_ok_emit_order_accepted. exact H1.
    + exact (book_coherent_view _ _ (view_emit_order_accepted _ _ _ _ _) H2).
  - intros id q t [H1 H2]. split.
    + apply staging_ok_emit_order_cancelled. exact H1.
    + exact (book_coherent_view _ _ (view_emit_order_cancelled _ _ _) H2).
  - intros t [H1 H2]. split.
    + exact (staging_ok_output_view _ _ eq_refl H1).
    + exact (book_coherent_reset _ H2).
Qed.

(** X13. The staging array never overflows.  In a book whose best prices
    follow the bitmaps, with fewer than [BATCH_SIZE] staged records and the
    ring within its capacity, every sequence of requests with [int64_t]
    prices, if it returns, leaves fewer than [BATCH_SIZE] staged records
    and the ring within its capacity: each write
    [batch_buffer_[batch_count_++]] stays inside the array, and
    [push_batch] never overwrites an unread record. *)
Theorem staging_array_never_overflows :
  forall fuel rs s s',
    Forall typed_request rs ->
    staging_ok s ->
    best_prices_coherent s ->
    prices_typed s ->
    execute_all fuel rs s = Ok s' ->
    staging_ok s'.
Proof.
  intros fuel rs s s' Ht H1 H2 H3 H.
  exact (proj1 (staging_ok_execute_all fuel rs s s' Ht
                  (conj H1 (conj H2 H3)) H)).
Qed.

Lemma staging_ok_new capacity : staging_ok (new_book capacity).
Proof. split; [reflexivity | exact ring_ok_new]. Qed.

Lemma staging_array_never_overflows_witness : staging_ok book_spread.
Proof.
  assert (Ht : Forall typed_request
                 [Add 1 false 100 10 0; Add 2 true 90 5 0])
    by (repeat constructor; unfold int64_range, INT64_MAX; lia).
  assert (H : execute_all 16 [Add 1 false 100 10 0; Add 2 true 90 5 0]
                (new_book 8) = Ok book_spread) by (vm_compute; reflexivity).
  destruct (book_coherent_new 8) as [H1 H2].
  exact (staging_array_never_overflows 16 _ (new_book 8) book_spread
           Ht (staging_ok_new 8) H1 H2 H).
Defined.

(** *** The trade counter *)

Lemma trades_executed_output_view s s' :
  output_view s' = output_view s -> trades_executed_ s' = trades_executed_ s.
Proof. unfold output_view. intros H. congruence. Qed.

Lemma trades_executed_framed s s' :
  framed s s' -> trades_executed_ s' = trades_executed_ s.
Proof. intros (_ & B & _). exact (trades_executed_output_view _ _ B). Qed.

Lemma trades_executed_stage m s :
  trades_executed_ (stage m s) = trades_executed_ s.
Proof.
  unfold stage, flush_batch. cbv zeta. book_fields.
  case_ifs; reflexivity.
Qed.

Lemma trades_executed_emit_trade b sl p q s :
  trades_executed_ (emit_trade b sl p q s)
  = wrap_u64 (trades_executed_ s + 1).
Proof.
  unfold emit_trade. cbv zeta. book_fields.
  destruct (use_ring_buffer_ s); [rewrite trades_executed_stage |];
    reflexivity.
Qed.

Lemma trades_executed_emit_order_accepted id sd p q s :
  trades_executed_ (emit_order_accepted id sd p q s) = trades_executed_ s.
Proof.
  unfold emit_order_accepted.
  case_ifs; rewrite ?trades_executed_stage; reflexivity.
Qed.

Lemma trades_executed_emit_order_cancelled id q s :
  trades_executed_ (emit_order_cancelled id q s) = trades_executed_ s.
Proof.
  unfold emit_order_cancelled.
  case_ifs; rewrite ?trades_executed_stage; reflexivity.
Qed.

Lemma fill_trades order_id is_buy lidx current_best curr remaining_qty
    s s' r' :
  fill order_id is_buy lidx current_best curr remaining_qty s = Ok (s', r') ->
  trades_executed_ s' = wrap_u64 (trades_executed_ s + 1).
Proof.
  intros H. unfold fill in H.
  inv_bind_z H. inv_bind_z H. inv_bind_z H. apply framed_pool_store in E1.
  inv_bind_z H. inv_bind_z H. inv_Ok H.
  assert (F2 : framed a1 s').
  { destruct (Order.quantity a2 =? 0).
    - destruct (0 <? Order.hidden_quantity a2).
      + exact (framed_refresh _ _ _ _ _ E3).
      + exact (framed_consume _ _ _ _ _ E3).
    - inv_Ok E3. apply framed_refl. }
  rewrite (trades_executed_framed _ _ F2), (trades_executed_framed _ _ E1).
  rewrite (trades_executed_framed _ _ (framed_adjust_level_volume _ _ _ _ _ _)).
  apply trades_executed_emit_trade.
Qed.

Lemma wrap_u64_counter_step a b :
  wrap_u64 (wrap_u64 (a + 1) - wrap_u64 (b + 1)) = wrap_u64 (a - b).
Proof.
  unfold wrap_u64. rewrite <- Zminus_mod. f_equal. lia.
Qed.

Lemma match_level_trades fuel order_id is_buy lidx current_best :
  forall curr remaining_qty trade_count s s' r' t',
    match_level fuel order_id is_buy lidx current_best curr remaining_qty
      trade_count s = Ok (s', r', t') ->
    wrap_u64 (trades_executed_ s' - t')
    = wrap_u64 (trades_executed_ s - trade_count).
Proof.
  induction fuel as [| fuel IH];
    intros curr remaining_qty trade_count s s' r' t' H;
    [discriminate |].
  cbn [match_level] in H.
  destruct (negb (curr =? NULL_INDEX) && (0 <? remaining_qty));
    [| inv_Ok H; reflexivity].
  inv_bind_z H.
  match type of H with
  | (if ?c then _ else _) = _ => destruct c
  end.
  - exact (IH _ _ _ _ _ _ _ H).
  - inv_bind_z H. destruct a0 as [s1 r1]. cbv beta iota in H.
    rewrite (IH _ _ _ _ _ _ _ H), (fill_trades _ _ _ _ _ _ _ _ _ E0).
    apply wrap_u64_counter_step.
Qed.

Lemma match_loop_trades n fuel order_id is_buy price :
  forall remaining_qty trade_count side_empty s s' r' t',
    match_loop n fuel order_id is_buy price remaining_qty trade_count
      side_empty s = Ok (s', r', t') ->
    wrap_u64 (trades_executed_ s' - t')
    = wrap_u64 (trades_executed_ s - trade_count).
Proof.
  induction n as [| n IH];
    intros remaining_qty trade_count side_empty s s' r' t' H;
    [discriminate |].
  cbn [match_loop] in H.
  destruct ((0 <? remaining_qty) && negb side_empty);
    [| inv_Ok H; reflexivity].
  destruct (is_buy && (price <? opposite_best is_buy s));
    [inv_Ok H; reflexivity |].
  destruct (negb is_buy && (opposite_best is_buy s <? price));
    [inv_Ok H; reflexivity |].
  destruct (MAX_PRICE_LEVELS <=? price_to_index (opposite_best is_buy s));
    [inv_Ok H; reflexivity |].
  destruct (PriceLevel.empty _).
  - rewrite (IH _ _ _ _ _ _ _ H). destruct is_buy.
    + rewrite (trades_executed_output_view _ _
                 (proj1 (output_view_update_best_ask_after_remove _ _))).
      reflexivity.
    + rewrite (trades_executed_output_view _ _
                 (proj1 (output_view_update_best_bid_after_remove _ _))).
      reflexivity.
  - inv_bind_z H. destruct a as [[s1 r1] t1]. cbv beta iota in H.
    rewrite (IH _ _ _ _ _ _ _ H).
    rewrite <- (match_level_trades _ _ _ _ _ _ _ _ _ _ _ _ E).
    match goal with
    | |- context [if ?c then _ else _] => destruct c; [| reflexivity]
    end.
    rewrite (trades_executed_output_view _ _
               (proj1 (output_view_level_closed _ _ _))).
    reflexivity.
Qed.

Lemma rest_tail_trades order order_id is_buy price idx pool
    (was_empty : bool) s sa sb sc sd :
  pool_store idx order (set_order_pool_ pool s) = Ok sa ->
  list_push_back is_buy (price_to_index price) idx sa = Ok sb ->
  add_to_level_volume is_buy (price_to_index price) idx sb = Ok sc ->
  index_entry order_id is_buy price idx
    (if was_empty then level_opened is_buy price sc else sc) = Ok sd ->
  trades_executed_ sd = trades_executed_ s.
Proof.
  intros Ha Hb Hc Hd.
  apply framed_pool_store in Ha. apply framed_list_push_back in Hb.
  apply framed_add_to_level_volume in Hc.
  apply index_entry_frame in Hd as (_ & B & _).
  rewrite (trades_executed_output_view _ _ B).
  transitivity (trades_executed_ sc).
  - destruct was_empty; [| reflexivity].
    exact (trades_executed_output_view _ _
             (proj1 (output_view_level_opened _ _ _))).
  - rewrite (trades_executed_framed _ _ Hc), (trades_executed_framed _ _ Hb),
      (trades_executed_framed _ _ Ha).
    reflexivity.
Qed.

Lemma add_order_internal_trades order_id is_buy price quantity user_id s s' :
  add_order_internal order_id is_buy price quantity user_id s = Ok s' ->
  trades_executed_ s' = trades_executed_ s.
Proof.
  intros H. unfold add_order_internal in H.
  destruct (MAX_PRICE_LEVELS <=? price_to_index price);
    [inv_Ok H; reflexivity |].
  inv_bind_z H. destruct a as [idx pool]. inv_bind_z H.
  inv_bind_z H. inv_bind_z H. inv_bind_z H. inv_bind_z H. inv_Ok H.
  rewrite (trades_executed_framed _ _ (framed_cross_check _)).
  rewrite trades_executed_emit_order_accepted.
  exact (rest_tail_trades _ _ _ _ _ _ _ _ _ _ _ _ E1 E2 E3 E4).
Qed.

Lemma add_aon_internal_trades order_id is_buy price quantity user_id s s' :
  add_aon_internal order_id is_buy price quantity user_id s = Ok s' ->
  trades_executed_ s' = trades_executed_ s.
Proof.
  intros H. unfold add_aon_internal in H.
  destruct (MAX_PRICE_LEVELS <=? price_to_index price);
    [inv_Ok H; reflexivity |].
  inv_bind_z H. destruct a as [idx pool]. inv_bind_z H.
  inv_bind_z H. inv_bind_z H. inv_bind_z H. inv_bind_z H. inv_Ok H.
  rewrite trades_executed_emit_order_accepted.
  exact (rest_tail_trades _ _ _ _ _ _ _ _ _ _ _ _ E1 E2 E3 E4).
Qed.

Lemma match_walk_trades fuel order_id is_buy price quantity tif s t s' :
  match_walk fuel order_id is_buy price quantity tif s = Ok (t, s') ->
  wrap_u64 (trades_executed_ s') = wrap_u64 (trades_executed_ s + t).
Proof.
  intros H. unfold match_walk in H.
  inv_bind_z H. destruct a as [[s1 r1] t1]. cbv beta iota in H.
  inv_bind_z H. injection H as <- <-.
  apply match_loop_trades in E. rewrite Z.sub_0_r in E.
  assert (Hr : trades_executed_ a = trades_executed_ s1).
  { unfold rest_residual in E0.
    destruct (0 <? r1); [| inv_Ok E0; reflexivity].
    destruct tif; try (inv_Ok E0; reflexivity).
    - exact (add_order_internal_trades _ _ _ _ _ _ _ E0).
    - exact (add_aon_internal_trades _ _ _ _ _ _ _ E0). }
  rewrite Hr. unfold wrap_u64 in *.
  rewrite <- (Zplus_mod_idemp_l (trades_executed_ s)), <- E.
  rewrite Zplus_mod_idemp_l. f_equal. lia.
Qed.

(** X14. The number that [match_internal] returns is the number by which
    it raised [trades_executed_], modulo 2^64: every trade it counts went
    through [emit_trade], and resting the residual or rejecting the order
    counts none. *)
Theorem match_internal_counts_its_trades :
  forall fuel order_id is_buy price quantity tif s trade_count s',
    match_internal fuel order_id is_buy price quantity tif s
    = Ok (trade_count, s') ->
    wrap_u64 (trades_executed_ s')
    = wrap_u64 (trades_executed_ s + trade_count).
Proof.
  intros fuel order_id is_buy price quantity tif s t s' H.
  unfold match_internal in H. destruct tif.
  - exact (match_walk_trades _ _ _ _ _ _ _ _ _ H).
  - exact (match_walk_trades _ _ _ _ _ _ _ _ _ H).
  - inv_bind_z H. destruct (a <? quantity).
    + injection H as <- <-. rewrite Z.add_0_r. reflexivity.
    + exact (match_walk_trades _ _ _ _ _ _ _ _ _ H).
  - inv_bind_z H. destruct (a <? quantity).
    + inv_bind_z H. injection H as <- <-. rewrite Z.add_0_r.
      rewrite (add_aon_internal_trades _ _ _ _ _ _ _ E0). reflexivity.
    + exact (match_walk_trades _ _ _ _ _ _ _ _ _ H).
Qed.

Lemma match_internal_counts_its_trades_witness :
  wrap_u64
    (trades_executed_
       (book_of [Add 1 false 100 10 0; Add 2 true 90 5 0;
                 Match 3 true 100 4 IOC]))
  = wrap_u64 (trades_executed_ book_spread + 1).
Proof.
  apply (match_internal_counts_its_trades 16 3 true 100 4 IOC).
  vm_compute. reflexivity.
Defined.

(** ** Cancel *)

Lemma is_active_set_active_false loc :
  OrderLocation.is_active (OrderLocation.set_active false loc) = false.
Proof.
  unfold OrderLocation.is_active, OrderLocation.set_active. cbn.
  rewrite <- Z.land_assoc. change (Z.land 253 2) with 0.
  rewrite Z.land_0_r. reflexivity.
Qed.

Lemma cancel_order_internal_index order_id s s' :
  0 <= order_id < vec_size (order_index_ s) ->
  OrderLocation.is_active (location s order_id) = true ->
  price_to_index (OrderLocation.price (location s order_id))
    < MAX_PRICE_LEVELS ->
  cancel_order_internal order_id s = Ok s' ->
  (forall id,
     location s' id
     = if decide (id = order_id)
       then OrderLocation.set_active false (location s order_id)
       else location s id) /\
  vec_size (order_index_ s') = vec_size (order_index_ s) /\
  ObjectPool.free (OrderLocation.pool_idx (location s order_id))
    (removed_pool (OrderLocation.pool_idx (location s order_id))
       (order_pool_ s))
  = Ok (order_pool_ s').
Proof.
  intros Hid Hact Hrange H. unfold cancel_order_internal in H.
  assert (Hskip : unknown_or_inactive order_id s = Ok false).
  { unfold unknown_or_inactive.
    destruct (vec_size (order_index_ s) <=? order_id) eqn:E;
      [apply Z.leb_le in E; lia |].
    rewrite vec_get_in_range by exact Hid. cbn [bind].
    fold (location s order_id). rewrite Hact. reflexivity. }
  rewrite Hskip in H. cbn [bind] in H.
  rewrite vec_get_in_range in H by exact Hid. cbn [bind] in H.
  fold (location s order_id) in H.
  set (loc := location s order_id) in *.
  destruct (MAX_PRICE_LEVELS <=? price_to_index (OrderLocation.price loc))
    eqn:E; [apply Z.leb_le in E; lia |].
  clear E Hskip.
  inv_bind_z H. apply pool_at_Ok in E as [_ ->].
  inv_bind_z H. apply remove_from_level_volume_Ok in E as [_ ->].
  inv_bind_z H. apply list_remove_Ok in E as (_ & _ & _ & ->).
  inv_bind_z H. rename a into pool. rename E into Efree.
  unfold removed in Efree. autorewrite with book in Efree.
  match type of H with
  | context [vec_get _ (order_index_ ?t) _] =>
      assert (Hix : order_index_ t = order_index_ s)
  end.
  { match goal with
    | |- context [if ?c then _ else _] => destruct c
    end.
    - match goal with
      | |- context [level_closed ?b ?p ?t] =>
          destruct (level_closed_frame b p t)
            as (_ & _ & _ & _ & _ & _ & _ & ->)
      end.
      unfold removed. destruct (OrderLocation.is_buy loc); reflexivity.
    - unfold removed. destruct (OrderLocation.is_buy loc); reflexivity. }
  match type of H with
  | context [emit_order_cancelled _ _
               (set_active_order_count_ _ (set_order_index_ _ ?t))] =>
      assert (Hpool : order_pool_ t = pool)
  end.
  { match goal with
    | |- context [if ?c then _ else _] => destruct c
    end; autorewrite with book; reflexivity. }
  rewrite Hix in H.
  rewrite vec_get_in_range in H by exact Hid. cbn [bind] in H.
  rewrite vec_set_in_range in H by exact Hid. cbn [bind] in H.
  fold (location s order_id) in H. fold loc in H.
  inv_Ok H.
  split.
  - intros id. rewrite (view_location _ _ (view_emit_order_cancelled _ _ _)).
    change (location (set_active_order_count_ ?v ?t) id) with (location t id).
    rewrite location_set_order_index.
    destruct (decide (id = order_id)); reflexivity.
  - split.
    + rewrite (view_order_index _ _ (view_emit_order_cancelled _ _ _)).
      reflexivity.
    + rewrite Efree. f_equal.
      rewrite (view_order_pool _ _ (view_emit_order_cancelled _ _ _)).
      book_fields. symmetry. exact Hpool.
Qed.

(** X15. [cancel_order_internal] of an active order whose price is in
    range: the index entry keeps its price, side and slot and loses the
    active flag, no other entry changes, the slot of the order is
    value-initialised and becomes the back of the pool's free list, and
    cancelling the same id again changes nothing. *)
Theorem cancel_deactivates_and_frees_the_slot :
  forall order_id s s',
    0 <= order_id < vec_size (order_index_ s) ->
    OrderLocation.is_active (location s order_id) = true ->
    price_to_index (OrderLocation.price (location s order_id))
      < MAX_PRICE_LEVELS ->
    cancel_order_internal order_id s = Ok s' ->
    location s' order_id
    = OrderLocation.set_active false (location s order_id) /\
    OrderLocation.is_active (location s' order_id) = false /\
    (forall id, id <> order_id -> location s' id = location s id) /\
    slot (order_pool_ s') (OrderLocation.pool_idx (location s order_id))
    = Order.zero /\
    ObjectPool.free_indices_ (order_pool_ s')
    = OrderLocation.pool_idx (location s order_id)
      :: ObjectPool.free_indices_ (order_pool_ s) /\
    cancel_order_internal order_id s' = Ok s'.
Proof.
  intros order_id s s' Hid Hact Hrange H.
  destruct (cancel_order_internal_index _ _ _ Hid Hact Hrange H)
    as (Hloc & Hsz & Hfree).
  pose proof (Hloc order_id) as Hl. rewrite decide_True in Hl by reflexivity.
  assert (Hin : OrderLocation.is_active (location s' order_id) = false)
    by (rewrite Hl; apply is_active_set_active_false).
  split; [exact Hl |]. split; [exact Hin |].
  split; [intros id Hne; rewrite Hloc, decide_False by exact Hne; reflexivity |].
  destruct (links_only_removed_pool
              (OrderLocation.pool_idx (location s order_id))
              (order_pool_ s)) as (_ & Hfl & _).
  remember (removed_pool (OrderLocation.pool_idx (location s order_id))
              (order_pool_ s)) as rp eqn:Hrp.
  unfold ObjectPool.free in Hfree.
  apply bind_Ok in Hfree as (v & Ev & Hfree). injection Hfree as Hfree.
  unfold vec_set in Ev.
  destruct (vec_in_range (ObjectPool.pool_ rp) _); [| discriminate].
  injection Ev as <-.
  split.
  { rewrite <- Hfree. unfold slot. cbn. rewrite lookup_insert_eq.
    reflexivity. }
  split.
  { rewrite <- Hfree. cbn [ObjectPool.free_indices_]. rewrite Hfl.
    reflexivity. }
  unfold cancel_order_internal.
  assert (Hskip : unknown_or_inactive order_id s' = Ok true).
  { unfold unknown_or_inactive. rewrite Hsz.
    destruct (vec_size (order_index_ s) <=? order_id) eqn:E;
      [reflexivity |].
    rewrite vec_get_in_range by (rewrite Hsz; exact Hid). cbn [bind].
    fold (location s' order_id). rewrite Hin. reflexivity. }
  rewrite Hskip. reflexivity.
Qed.

Lemma cancel_deactivates_and_frees_the_slot_witness :
  location (book_of [Add 1 false 100 10 0; Add 2 true 90 5 0; Cancel 2]) 2
  = OrderLocation.set_active false (location book_spread 2) /\
  OrderLocation.is_active
    (location (book_of [Add 1 false 100 10 0; Add 2 true 90 5 0; Cancel 2]) 2)
  = false /\
  (forall id, id <> 2 ->
     location (book_of [Add 1 false 100 10 0; Add 2 true 90 5 0; Cancel 2]) id
     = location book_spread id) /\
  slot (order_pool_
          (book_of [Add 1 false 100 10 0; Add 2 true 90 5 0; Cancel 2]))
    (OrderLocation.pool_idx (location book_spread 2))
  = Order.zero /\
  ObjectPool.free_indices_
    (order_pool_
       (book_of [Add 1 false 100 10 0; Add 2 true 90 5 0; Cancel 2]))
  = OrderLocation.pool_idx (location book_spread 2)
    :: ObjectPool.free_indices_ (order_pool_ book_spread) /\
  cancel_order_internal 2
    (book_of [Add 1 false 100 10 0; Add 2 true 90 5 0; Cancel 2])
  = Ok (book_of [Add 1 false 100 10 0; Add 2 true 90 5 0; Cancel 2]).
Proof.
  apply cancel_deactivates_and_frees_the_slot.
  - vm_compute. split; [discriminate | reflexivity].
  - vm_compute. reflexivity.
  - vm_compute. reflexivity.
  - vm_compute. reflexivity.
Defined.

(** ** Modify in place *)

Lemma modify_in_place_Ok order_id new_price new_quantity s s' :
  0 <= order_id < vec_size (order_index_ s) ->
  OrderLocation.is_active (location s order_id) = true ->
  price_to_index (OrderLocation.price (location s order_id))
    < MAX_PRICE_LEVELS ->
  new_price = OrderLocation.price (location s order_id) ->
  new_quantity
    <= Order.quantity
         (slot (order_pool_ s) (OrderLocation.pool_idx (location s order_id))) ->
  modify_order_internal order_id new_price new_quantity s = Ok s' ->
  let loc := location s order_id in
  let idx := OrderLocation.pool_idx loc in
  let o := slot (order_pool_ s) idx in
  0 <= idx < pool_size (order_pool_ s) /\
  s' = set_order_pool_
         (pool_write idx (Order.with_quantity new_quantity o) (order_pool_ s))
         (adjust_level_volume (OrderLocation.is_buy loc)
            (price_to_index (OrderLocation.price loc))
            (wrap_i64 (new_quantity - Order.quantity o)) 0 (Order.is_aon o) s).
Proof.
  intros Hid Hact Hrange Hp Hq H. unfold modify_order_internal in H.
  assert (Hskip : unknown_or_inactive order_id s = Ok false).
  { unfold unknown_or_inactive.
    destruct (vec_size (order_index_ s) <=? order_id) eqn:E;
      [apply Z.leb_le in E; lia |].
    rewrite vec_get_in_range by exact Hid. cbn [bind].
    fold (location s order_id). rewrite Hact. reflexivity. }
  rewrite Hskip in H. cbn [bind] in H.
  rewrite vec_get_in_range in H by exact Hid. cbn [bind] in H.
  fold (location s order_id) in H.
  set (loc := location s order_id) in *.
  destruct (MAX_PRICE_LEVELS <=? price_to_index (OrderLocation.price loc))
    eqn:E; [apply Z.leb_le in E; lia |].
  clear E Hskip.
  inv_bind_z H. apply pool_at_Ok in E as [Hidx ->].
  rewrite (proj2 (Z.eqb_eq new_price (OrderLocation.price loc)) Hp) in H.
  rewrite (proj2 (Z.leb_le _ _) Hq) in H. cbn [andb] in H.
  inv_bind_z H. apply pool_at_Ok in E as [_ ->].
  apply pool_store_Ok in H as [_ ->].
  rewrite order_pool_adjust_level_volume.
  split; [exact Hidx | reflexivity].
Qed.

(** X16. [modify_order_internal] with the price of the order unchanged and
    a quantity that is not larger: the order is modified in place.  Its
    record keeps its links, so its place in the FIFO of its level, and
    every field but [quantity]; no other record, no index entry, no bitmap
    or best price changes; head, tail and count of the level stay and its
    volume sums move by the (negative) difference; nothing is emitted. *)
Theorem modify_in_place_keeps_the_queue_position :
  forall order_id new_price new_quantity s s',
    0 <= order_id < vec_size (order_index_ s) ->
    OrderLocation.is_active (location s order_id) = true ->
    price_to_index (OrderLocation.price (location s order_id))
      < MAX_PRICE_LEVELS ->
    new_price = OrderLocation.price (location s order_id) ->
    new_quantity
      <= Order.quantity
           (slot (order_pool_ s)
              (OrderLocation.pool_idx (location s order_id))) ->
    modify_order_internal order_id new_price new_quantity s = Ok s' ->
    let loc := location s order_id in
    let idx := OrderLocation.pool_idx loc in
    let o := slot (order_pool_ s) idx in
    let bid := OrderLocation.is_buy loc in
    let lidx := price_to_index (OrderLocation.price loc) in
    let delta := wrap_i64 (wrap_i64 (new_quantity - Order.quantity o) + 0) in
    slot (order_pool_ s') idx = Order.with_quantity new_quantity o /\
    (forall j, j <> idx -> slot (order_pool_ s') j = slot (order_pool_ s) j) /\
    ObjectPool.free_indices_ (order_pool_ s')
    = ObjectPool.free_indices_ (order_pool_ s) /\
    (forall id, location s' id = location s id) /\
    PriceLevel.head (get_level bid lidx s')
    = PriceLevel.head (get_level bid lidx s) /\
    PriceLevel.tail (get_level bid lidx s')
    = PriceLevel.tail (get_level bid lidx s) /\
    PriceLevel.count (get_level bid lidx s')
    = PriceLevel.count (get_level bid lidx s) /\
    PriceLevel.total_volume (get_level bid lidx s')
    = wrap_i64 (PriceLevel.total_volume (get_level bid lidx s) + delta) /\
    PriceLevel.total_visible_volume (get_level bid lidx s')
    = wrap_i64 (PriceLevel.total_visible_volume (get_level bid lidx s)
                + wrap_i64 (new_quantity - Order.quantity o)) /\
    (forall b l, (b, l) <> (bid, lidx) ->
                 get_level b l s' = get_level b l s) /\
    best_view s' = best_view s /\
    output_view s' = output_view s /\
    active_order_count_ s' = active_order_count_ s.
Proof.
  intros order_id new_price new_quantity s s' Hid Hact Hrange Hp Hq H.
  destruct (modify_in_place_Ok _ _ _ _ _ Hid Hact Hrange Hp Hq H)
    as [Hidx Hs].
  cbv zeta in Hs. cbv zeta. subst s'.
  set (loc := location s order_id) in *.
  set (idx := OrderLocation.pool_idx loc) in *.
  set (o := slot (order_pool_ s) idx) in *.
  set (bid := OrderLocation.is_buy loc) in *.
  set (lidx := price_to_index (OrderLocation.price loc)) in *.
  set (d := wrap_i64 (new_quantity - Order.quantity o)) in *.
  rewrite order_pool_set_order_pool.
  split; [apply slot_pool_write_eq |].
  split; [intros j Hj; apply slot_pool_write_ne; exact Hj |].
  split; [reflexivity |].
  split.
  { intros id. unfold adjust_level_volume, put_level, location.
    destruct bid; reflexivity. }
  rewrite !get_level_set_order_pool, get_level_adjust_level_volume.
  split; [reflexivity |]. split; [reflexivity |]. split; [reflexivity |].
  split; [reflexivity |]. split; [reflexivity |].
  split.
  { intros b l Hne. rewrite get_level_set_order_pool.
    unfold adjust_level_volume.
    apply get_level_put_level_ne. exact Hne. }
  unfold adjust_level_volume, put_level.
  destruct bid; repeat split; reflexivity.
Qed.

Lemma modify_in_place_keeps_the_queue_position_witness :
  slot (order_pool_ (book_of [Add 1 false 100 10 0; Add 2 true 90 5 0;
                              Modify 1 100 4]))
    (OrderLocation.pool_idx (location book_spread 1))
  = Order.with_quantity 4
      (slot (order_pool_ book_spread)
         (OrderLocation.pool_idx (location book_spread 1))) /\
  PriceLevel.total_volume
    (get_level false 100
       (book_of [Add 1 false 100 10 0; Add 2 true 90 5 0; Modify 1 100 4]))
  = 4.
Proof.
  assert (H1 : 0 <= 1 < vec_size (order_index_ book_spread))
    by (vm_compute; split; [discriminate | reflexivity]).
  assert (H2 : OrderLocation.is_active (location book_spread 1) = true)
    by (vm_compute; reflexivity).
  assert (H3 : price_to_index (OrderLocation.price (location book_spread 1))
               < MAX_PRICE_LEVELS) by (vm_compute; reflexivity).
  assert (H4 : 100 = OrderLocation.price (location book_spread 1))
    by (vm_compute; reflexivity).
  assert (H5 : 4 <= Order.quantity
                      (slot (order_pool_ book_spread)
                         (OrderLocation.pool_idx (location book_spread 1))))
    by (vm_compute; discriminate).
  assert (H6 : modify_order_internal 1 100 4 book_spread
               = Ok (book_of [Add 1 false 100 10 0; Add 2 true 90 5 0;
                              Modify 1 100 4]))
    by (vm_compute; reflexivity).
  pose proof (modify_in_place_keeps_the_queue_position 1 100 4 book_spread _
                H1 H2 H3 H4 H5 H6) as H.
  cbv zeta in H. destruct H as (Hs & _).
  split; [exact Hs | vm_compute; reflexivity].
Defined.

(** ** Time priority of resting orders *)

Lemma allocate_slot p idx p' :
  ObjectPool.allocate p = Ok (idx, p') -> forall j, slot p' j = slot p j.
Proof.
  unfold ObjectPool.allocate. intros H j.
  destruct (ObjectPool.free_indices_ p) as [| i rest] eqn:Ef.
  - destruct (ObjectPool.free_indices_ (ObjectPool.grow p)); [discriminate |].
    injection H as _ <-. reflexivity.
  - rewrite Ef in H. injection H as _ <-. reflexivity.
Qed.

(** X17. [add_order_internal] at a price in range puts the order at the
    back of the FIFO of its level: the level's tail becomes the slot that
    the pool hands out, its head stays unless the level was empty, its
    count grows by one; the new record is the plain order with [prev] the
    old tail and no [next], the old tail's [next] becomes the new slot,
    and no other record changes. *)
Theorem add_order_internal_joins_the_back_of_the_queue :
  forall order_id is_buy price quantity user_id s s',
    price_to_index price < MAX_PRICE_LEVELS ->
    add_order_internal order_id is_buy price quantity user_id s = Ok s' ->
    let old := get_level is_buy (price_to_index price) s in
    let new := get_level is_buy (price_to_index price) s' in
    exists idx pool,
      ObjectPool.allocate (order_pool_ s) = Ok (idx, pool) /\
      location s' order_id = new_location is_buy price idx /\
      PriceLevel.tail new = idx /\
      PriceLevel.head new
      = (if PriceLevel.tail old =? NULL_INDEX then idx
         else PriceLevel.head old) /\
      PriceLevel.count new = wrap_u32 (PriceLevel.count old + 1) /\
      (idx <> PriceLevel.tail old ->
       slot (order_pool_ s') idx
       = Order.with_prev (PriceLevel.tail old)
           (plain_order order_id is_buy price quantity user_id) /\
       (PriceLevel.tail old <> NULL_INDEX ->
        slot (order_pool_ s') (PriceLevel.tail old)
        = Order.with_next idx
            (slot (order_pool_ s) (PriceLevel.tail old)))) /\
      (forall j, j <> idx -> j <> PriceLevel.tail old ->
                 slot (order_pool_ s') j = slot (order_pool_ s) j).
Proof.
  intros order_id is_buy price quantity user_id s s' Hr H.
  apply add_order_internal_Ok in H; [| exact Hr].
  destruct H as (idx & pool & Hal & _ & _ & _ & Hview).
  cbv zeta. exists idx, pool.
  rewrite (view_location _ _ Hview), (view_order_pool _ _ Hview),
    (view_get_level _ _ Hview).
  rewrite rested_location, rested_level, rested_order_pool.
  set (old := get_level is_buy (price_to_index price) s).
  split; [exact Hal |]. split; [reflexivity |].
  split; [reflexivity |].
  split.
  { unfold volume_added, pushed_level.
    destruct (PriceLevel.tail old =? NULL_INDEX); reflexivity. }
  split.
  { unfold volume_added, pushed_level.
    destruct (PriceLevel.tail old =? NULL_INDEX); reflexivity. }
  split.
  - intros Hne. split.
    + rewrite slot_pushed_pool_new by exact Hne.
      rewrite slot_pool_write_eq. destruct is_buy; reflexivity.
    + intros Hn. rewrite slot_pushed_pool_tail by assumption.
      rewrite slot_pool_write_ne
        by (intros E; apply Hne; symmetry; exact E).
      rewrite (allocate_slot _ _ _ Hal). reflexivity.
  - intros j Hj Ht. rewrite slot_pushed_pool_other by assumption.
    rewrite slot_pool_write_ne by exact Hj.
    apply (allocate_slot _ _ _ Hal).
Qed.

Lemma add_order_internal_joins_the_back_of_the_queue_witness :
  exists idx pool,
    ObjectPool.allocate (order_pool_ book_spread) = Ok (idx, pool) /\
    PriceLevel.tail
      (get_level false (price_to_index 100)
         (book_of [Add 1 false 100 10 0; Add 2 true 90 5 0;
                   Add 3 false 100 7 0])) = idx /\
    PriceLevel.head
      (get_level false (price_to_index 100)
         (book_of [Add 1 false 100 10 0; Add 2 true 90 5 0;
                   Add 3 false 100 7 0]))
    = PriceLevel.head (get_level false (price_to_index 100) book_spread).
Proof.
  assert (H1 : price_to_index 100 < MAX_PRICE_LEVELS)
    by (vm_compute; reflexivity).
  assert (H2 : add_order_internal 3 false 100 7 0 book_spread
               = Ok (book_of [Add 1 false 100 10 0; Add 2 true 90 5 0;
                              Add 3 false 100 7 0]))
    by (vm_compute; reflexivity).
  destruct (add_order_internal_joins_the_back_of_the_queue
              3 false 100 7 0 book_spread _ H1 H2)
    as (idx & pool & Hal & _ & Ht & Hh & _).
  exists idx, pool. split; [exact Hal |]. split; [exact Ht |].
  rewrite Hh. vm_compute. reflexivity.
Defined.

(** ** The events that resting and cancelling report *)

(** the records on their way to the reader: the unread records of the
    ring, then the staged ones *)
Definition pending (s : Book) : list (option OutputMsg) :=
  ring_contents (output_buffer_ s) ++ map Some (batch_buffer_ s).

(** the ring can take a full staging array *)
Definition room_for_a_batch (s : Book) : Prop :=
  RingBuffer.size_approx (output_buffer_ s) + BATCH_SIZE
  <= RingBuffer.capacity.

Lemma output_view_fields s s' :
  output_view s' = output_view s ->
  output_buffer_ s' = output_buffer_ s /\
  batch_buffer_ s' = batch_buffer_ s /\
  messages_dropped_ s' = messages_dropped_ s /\
  trades_executed_ s' = trades_executed_ s /\
  use_ring_buffer_ s' = use_ring_buffer_ s /\
  emit_accepts_ s' = emit_accepts_ s /\
  emit_cancels_ s' = emit_cancels_ s /\
  current_timestamp_ s' = current_timestamp_ s.
Proof.
  unfold output_view. intros H. injection H. intros.
  repeat split; assumption.
Qed.

Lemma pending_stage m s :
  staging_ok s -> room_for_a_batch s ->
  pending (stage m s) = pending s ++ [Some m] /\
  messages_dropped_ (stage m s) = messages_dropped_ s /\
  trades_executed_ (stage m s) = trades_executed_ s.
Proof.
  intros [Hlen Hok] Hroom. unfold room_for_a_batch in Hroom.
  unfold stage. cbv zeta. book_fields.
  destruct (BATCH_SIZE <=? Z.of_nat (length (batch_buffer_ s ++ [m]))) eqn:E.
  - destruct (flush_batch_spec
                (set_batch_buffer_ (batch_buffer_ s ++ [m]) s) Hok)
      as (Hb & _ & Hc & Hd & _ & Ht).
    cbv zeta in Hc, Hd. book_fields.
    apply Z.leb_le in E. rewrite length_app in E, Hc, Hd.
    cbn [length] in E, Hc, Hd.
    assert (Hn : Z.min (Z.of_nat (length (batch_buffer_ s) + 1))
                   (RingBuffer.capacity
                    - RingBuffer.size_approx (output_buffer_ s))
                 = Z.of_nat (length (batch_buffer_ s) + 1)) by lia.
    rewrite Hn in Hc, Hd. rewrite Z.ltb_irrefl in Hd.
    rewrite Nat2Z.id in Hc.
    rewrite take_ge in Hc by (rewrite length_app; cbn [length]; lia).
    unfold pending. rewrite Hb, Hc, map_app. cbn [map].
    rewrite app_nil_r, app_assoc.
    split; [reflexivity |]. split; [exact Hd | exact Ht].
  - unfold pending. book_fields. rewrite map_app, app_assoc.
    repeat split.
Qed.

Lemma cancel_order_internal_emits order_id s s' :
  0 <= order_id < vec_size (order_index_ s) ->
  OrderLocation.is_active (location s order_id) = true ->
  price_to_index (OrderLocation.price (location s order_id))
    < MAX_PRICE_LEVELS ->
  cancel_order_internal order_id s = Ok s' ->
  let o := slot (order_pool_ s)
             (OrderLocation.pool_idx (location s order_id)) in
  exists mid,
    output_view mid = output_view s /\
    s' = emit_order_cancelled order_id
           (wrap_i64 (Order.quantity o + Order.hidden_quantity o)) mid.
Proof.
  intros Hid Hact Hrange H. unfold cancel_order_internal in H.
  assert (Hskip : unknown_or_inactive order_id s = Ok false).
  { unfold unknown_or_inactive.
    destruct (vec_size (order_index_ s) <=? order_id) eqn:E;
      [apply Z.leb_le in E; lia |].
    rewrite vec_get_in_range by exact Hid. cbn [bind].
    fold (location s order_id). rewrite Hact. reflexivity. }
  rewrite Hskip in H. cbn [bind] in H.
  rewrite vec_get_in_range in H by exact Hid. cbn [bind] in H.
  fold (location s order_id) in H.
  set (loc := location s order_id) in *.
  destruct (MAX_PRICE_LEVELS <=? price_to_index (OrderLocation.price loc))
    eqn:E; [apply Z.leb_le in E; lia |].
  clear E Hskip.
  inv_bind_z H. apply pool_at_Ok in E as [_ ->].
  inv_bind_z H. apply framed_remove_from_level_volume in E as (_ & O1 & _).
  inv_bind_z H. apply framed_list_remove in E as (_ & O2 & _).
  inv_bind_z H. inv_bind_z H. inv_bind_z H.
  cbv zeta. eexists. split; [| injection H as <-; reflexivity].
  change (output_view (set_active_order_count_ ?v ?t)) with (output_view t).
  change (output_view (set_order_index_ ?v ?t)) with (output_view t).
  match goal with
  | |- output_view (if ?c then _ else _) = _ => destruct c
  end.
  - rewrite (proj1 (output_view_level_closed _ _ _)).
    change (output_view (set_order_pool_ ?v ?t)) with (output_view t).
    congruence.
  - change (output_view (set_order_pool_ ?v ?t)) with (output_view t).
    congruence.
Qed.

(** X18. [cancel_order_internal] of an active order, with the staging
    array below [BATCH_SIZE] and room in the ring for a batch: when
    cancels are reported and the ring output is on, exactly one record
    follows the pending ones, the cancel of this id with the whole
    remaining quantity of the order, hidden part included, stamped with
    [current_timestamp_]; otherwise the pending records do not change.  No
    record is dropped and no trade is counted. *)
Theorem cancel_reports_the_whole_remaining_quantity :
  forall order_id s s',
    0 <= order_id < vec_size (order_index_ s) ->
    OrderLocation.is_active (location s order_id) = true ->
    price_to_index (OrderLocation.price (location s order_id))
      < MAX_PRICE_LEVELS ->
    staging_ok s ->
    room_for_a_batch s ->
    cancel_order_internal order_id s = Ok s' ->
    let o := slot (order_pool_ s)
               (OrderLocation.pool_idx (location s order_id)) in
    pending s'
    = (if emit_cancels_ s && use_ring_buffer_ s
       then pending s
            ++ [Some (make_cancelled (current_timestamp_ s) order_id
                        (wrap_i64 (Order.quantity o
                                   + Order.hidden_quantity o)))]
       else pending s) /\
    messages_dropped_ s' = messages_dropped_ s /\
    trades_executed_ s' = trades_executed_ s.
Proof.
  intros order_id s s' Hid Hact Hrange Hst Hroom H.
  destruct (cancel_order_internal_emits _ _ _ Hid Hact Hrange H)
    as (mid & Hov & ->).
  cbv zeta.
  pose proof (staging_ok_output_view _ _ Hov Hst) as Hst'.
  destruct (output_view_fields _ _ Hov)
    as (Hob & Hbb & Hmd & Hte & Hur & _ & Hec & Hts).
  assert (Hroom' : room_for_a_batch mid)
    by (unfold room_for_a_batch; rewrite Hob; exact Hroom).
  assert (Hp : pending mid = pending s)
    by (unfold pending; rewrite Hob, Hbb; reflexivity).
  unfold emit_order_cancelled. rewrite Hec, Hur.
  destruct (emit_cancels_ s); cbn [negb andb];
    [destruct (use_ring_buffer_ s) |].
  - destruct (pending_stage
                (make_cancelled (current_timestamp_ mid) order_id
                   (wrap_i64
                      (Order.quantity
                         (slot (order_pool_ s)
                            (OrderLocation.pool_idx (location s order_id)))
                       + Order.hidden_quantity
                           (slot (order_pool_ s)
                              (OrderLocation.pool_idx
                                 (location s order_id))))))
                mid Hst' Hroom') as (P1 & P2 & P3).
    rewrite P1, P2, P3, Hp, Hts, Hmd, Hte. repeat split.
  - rewrite Hp, Hmd, Hte. repeat split.
  - rewrite Hp, Hmd, Hte. repeat split.
Qed.

Lemma cancel_reports_the_whole_remaining_quantity_witness :
  pending (book_of [AddIceberg 1 true 100 50 10 7; Cancel 1])
  = pending book_iceberg ++ [Some (make_cancelled 0 1 50)].
Proof.
  assert (H1 : 0 <= 1 < vec_size (order_index_ book_iceberg))
    by (vm_compute; split; [discriminate | reflexivity]).
  assert (H2 : OrderLocation.is_active (location book_iceberg 1) = true)
    by (vm_compute; reflexivity).
  assert (H3 : price_to_index (OrderLocation.price (location book_iceberg 1))
               < MAX_PRICE_LEVELS) by (vm_compute; reflexivity).
  assert (H4 : staging_ok book_iceberg).
  { split; [vm_compute; reflexivity |].
    unfold ring_ok. vm_compute. repeat split; discriminate. }
  assert (H5 : room_for_a_batch book_iceberg)
    by (unfold room_for_a_batch; vm_compute; discriminate).
  assert (H6 : cancel_order_internal 1 book_iceberg
               = Ok (book_of [AddIceberg 1 true 100 50 10 7; Cancel 1]))
    by (vm_compute; reflexivity).
  destruct (cancel_reports_the_whole_remaining_quantity 1 book_iceberg _
              H1 H2 H3 H4 H5 H6) as (Hp & _).
  rewrite Hp. vm_compute. reflexivity.
Defined.

(** ** The limit price *)

(** a trade record at a price that a taker with limit [price] accepts;
    every other record passes *)
Definition trade_within (is_buy : bool) (price : Z)
    (m : option OutputMsg) : Prop :=
  match m with
  | Some (make_trade _ _ _ p _) => if is_buy then p <= price else price <= p
  | _ => True
  end.

(** the staging invariant, and every pending trade within the limit *)
Definition trades_within (is_buy : bool) (price : Z) (s : Book) : Prop :=
  staging_ok s /\ Forall (trade_within is_buy price) (pending s).

Lemma Forall_map_take {A B} (P : B -> Prop) (f : A -> B) n (l : list A) :
  Forall P (map f l) -> Forall P (map f (take n l)).
Proof.
  revert n. induction l as [| x l IH]; intros n H.
  - destruct n; exact H.
  - destruct n; [constructor |].
    cbn [take map] in *. inversion H; subst.
    constructor; [assumption | apply IH; assumption].
Qed.

Lemma trades_within_output_view is_buy price s s' :
  output_view s' = output_view s ->
  trades_within is_buy price s -> trades_within is_buy price s'.
Proof.
  intros Hov [Hst Hall].
  destruct (output_view_fields _ _ Hov) as (Hob & Hbb & _).
  split; [exact (staging_ok_output_view _ _ Hov Hst) |].
  unfold pending. rewrite Hob, Hbb. exact Hall.
Qed.

Lemma trades_within_framed is_buy price s s' :
  framed s s' -> trades_within is_buy price s -> trades_within is_buy price s'.
Proof. intros (_ & B & _). exact (trades_within_output_view _ _ _ _ B). Qed.

Lemma trades_within_stage is_buy price m s :
  trade_within is_buy price (Some m) ->
  trades_within is_buy price s -> trades_within is_buy price (stage m s).
Proof.
  intros Hm [Hst Hall].
  split; [exact (staging_ok_stage m s Hst) |].
  destruct Hst as [Hlen Hok].
  unfold pending in Hall. apply Forall_app in Hall as [H1 H2].
  assert (H3 : Forall (trade_within is_buy price)
                 (map Some (batch_buffer_ s ++ [m]))).
  { rewrite map_app. apply Forall_app. split; [exact H2 |].
    constructor; [exact Hm | constructor]. }
  unfold stage. cbv zeta. book_fields.
  destruct (BATCH_SIZE <=? Z.of_nat (length (batch_buffer_ s ++ [m]))).
  - destruct (flush_batch_spec
                (set_batch_buffer_ (batch_buffer_ s ++ [m]) s) Hok)
      as (Hb & _ & Hc & _).
    cbv zeta in Hc. book_fields.
    unfold pending. rewrite Hb, Hc. cbn [map]. rewrite app_nil_r.
    apply Forall_app. split; [exact H1 |].
    apply Forall_map_take. exact H3.
  - unfold pending. book_fields.
    apply Forall_app. split; assumption.
Qed.

Lemma trades_within_emit_trade (is_buy : bool) price b sl p q s :
  (if is_buy then p <= price else price <= p) ->
  trades_within is_buy price s ->
  trades_within is_buy price (emit_trade b sl p q s).
Proof.
  intros Hp H. unfold emit_trade. cbv zeta. book_fields.
  assert (H' : trades_within is_buy price
                 (set_trades_executed_ (wrap_u64 (trades_executed_ s + 1)) s))
    by exact H.
  destruct (use_ring_buffer_ s); [| exact H'].
  apply trades_within_stage; [exact Hp | exact H'].
Qed.

Lemma trades_within_emit_order_accepted is_buy price id sd p q s :
  trades_within is_buy price s ->
  trades_within is_buy price (emit_order_accepted id sd p q s).
Proof.
  intros H. unfold emit_order_accepted.
  destruct (negb (emit_accepts_ s)); [exact H |].
  destruct (use_ring_buffer_ s); [| exact H].
  apply trades_within_stage; [exact I | exact H].
Qed.

Lemma fill_within (is_buy : bool) price order_id lidx current_best curr
    remaining_qty s s' r' :
  (if is_buy then current_best <= price else price <= current_best) ->
  trades_within is_buy price s ->
  fill order_id is_buy lidx current_best curr remaining_qty s = Ok (s', r') ->
  trades_within is_buy price s'.
Proof.
  intros Hp J H. unfold fill in H.
  inv_bind_z H. inv_bind_z H. inv_bind_z H. apply framed_pool_store in E1.
  inv_bind_z H. inv_bind_z H. inv_Ok H.
  assert (F2 : framed a1 s').
  { destruct (Order.quantity a2 =? 0).
    - destruct (0 <? Order.hidden_quantity a2).
      + exact (framed_refresh _ _ _ _ _ E3).
      + exact (framed_consume _ _ _ _ _ E3).
    - inv_Ok E3. apply framed_refl. }
  apply (trades_within_framed _ _ _ _ F2).
  apply (trades_within_framed _ _ _ _ E1).
  apply (trades_within_framed _ _ _ _ (framed_adjust_level_volume _ _ _ _ _ _)).
  apply trades_within_emit_trade; assumption.
Qed.

Lemma match_level_within fuel (is_buy : bool) price order_id lidx
    current_best :
  (if is_buy then current_best <= price else price <= current_best) ->
  forall curr remaining_qty trade_count s s' r' t',
    trades_within is_buy price s ->
    match_level fuel order_id is_buy lidx current_best curr remaining_qty
      trade_count s = Ok (s', r', t') ->
    trades_within is_buy price s'.
Proof.
  intros Hp.
  induction fuel as [| fuel IH];
    intros curr remaining_qty trade_count s s' r' t' J H;
    [discriminate |].
  cbn [match_level] in H.
  destruct (negb (curr =? NULL_INDEX) && (0 <? remaining_qty));
    [| inv_Ok H; exact J].
  inv_bind_z H.
  match type of H with
  | (if ?c then _ else _) = _ => destruct c
  end.
  - exact (IH _ _ _ _ _ _ _ J H).
  - inv_bind_z H. destruct a0 as [s1 r1]. cbv beta iota in H.
    apply (IH _ _ _ _ _ _ _ (fill_within _ _ _ _ _ _ _ _ _ _ Hp J E0) H).
Qed.

Lemma match_loop_within n fuel order_id is_buy price :
  forall remaining_qty trade_count side_empty s s' r' t',
    trades_within is_buy price s ->
    match_loop n fuel order_id is_buy price remaining_qty trade_count
      side_empty s = Ok (s', r', t') ->
    trades_within is_buy price s'.
Proof.
  induction n as [| n IH];
    intros remaining_qty trade_count side_empty s s' r' t' J H;
    [discriminate |].
  cbn [match_loop] in H.
  destruct ((0 <? remaining_qty) && negb side_empty);
    [| inv_Ok H; exact J].
  destruct (is_buy && (price <? opposite_best is_buy s)) eqn:C1;
    [inv_Ok H; exact J |].
  destruct (negb is_buy && (opposite_best is_buy s <? price)) eqn:C2;
    [inv_Ok H; exact J |].
  assert (Hp : if is_buy then opposite_best is_buy s <= price
               else price <= opposite_best is_buy s).
  { destruct is_buy; cbn [negb andb] in C1, C2.
    - apply Z.ltb_ge in C1. exact C1.
    - apply Z.ltb_ge in C2. exact C2. }
  destruct (MAX_PRICE_LEVELS <=? price_to_index (opposite_best is_buy s));
    [inv_Ok H; exact J |].
  destruct (PriceLevel.empty _).
  - apply (fun K => IH _ _ _ _ _ _ _ K H). destruct is_buy.
    + exact (trades_within_output_view _ _ _ _
               (proj1 (output_view_update_best_ask_after_remove _ _)) J).
    + exact (trades_within_output_view _ _ _ _
               (proj1 (output_view_update_best_bid_after_remove _ _)) J).
  - inv_bind_z H. destruct a as [[s1 r1] t1]. cbv beta iota in H.
    pose proof (match_level_within _ _ _ _ _ _ Hp _ _ _ _ _ _ _ J E) as J1.
    apply (fun K => IH _ _ _ _ _ _ _ K H).
    match goal with
    | |- trades_within _ _ (if ?c then _ else _) => destruct c; [| exact J1]
    end.
    exact (trades_within_output_view _ _ _ _
             (proj1 (output_view_level_closed _ _ _)) J1).
Qed.

Lemma rest_tail_within b p order order_id is_buy price idx pool
    (was_empty : bool) s sa sb sc sd :
  trades_within b p s ->
  pool_store idx order (set_order_pool_ pool s) = Ok sa ->
  list_push_back is_buy (price_to_index price) idx sa = Ok sb ->
  add_to_level_volume is_buy (price_to_index price) idx sb = Ok sc ->
  index_entry order_id is_buy price idx
    (if was_empty then level_opened is_buy price sc else sc) = Ok sd ->
  trades_within b p sd.
Proof.
  intros J Ha Hb Hc Hd.
  apply framed_pool_store in Ha. apply framed_list_push_back in Hb.
  apply framed_add_to_level_volume in Hc.
  apply index_entry_frame in Hd as (_ & B & _).
  apply (trades_within_output_view _ _ _ _ B).
  assert (Jc : trades_within b p sc).
  { apply (trades_within_framed _ _ _ _ Hc).
    apply (trades_within_framed _ _ _ _ Hb).
    apply (trades_within_framed _ _ _ _ Ha). exact J. }
  destruct was_empty; [| exact Jc].
  exact (trades_within_output_view _ _ _ _
           (proj1 (output_view_level_opened _ _ _)) Jc).
Qed.

Lemma add_order_internal_within b p order_id is_buy price quantity user_id
    s s' :
  trades_within b p s ->
  add_order_internal order_id is_buy price quantity user_id s = Ok s' ->
  trades_within b p s'.
Proof.
  intros J H. unfold add_order_internal in H.
  destruct (MAX_PRICE_LEVELS <=? price_to_index price);
    [inv_Ok H; exact J |].
  inv_bind_z H. destruct a as [idx pool]. inv_bind_z H.
  inv_bind_z H. inv_bind_z H. inv_bind_z H. inv_bind_z H. inv_Ok H.
  apply (trades_within_framed _ _ _ _ (framed_cross_check _)).
  apply trades_within_emit_order_accepted.
  exact (rest_tail_within _ _ _ _ _ _ _ _ _ _ _ _ _ _ J E1 E2 E3 E4).
Qed.

Lemma add_aon_internal_within b p order_id is_buy price quantity user_id
    s s' :
  trades_within b p s ->
  add_aon_internal order_id is_buy price quantity user_id s = Ok s' ->
  trades_within b p s'.
Proof.
  intros J H. unfold add_aon_internal in H.
  destruct (MAX_PRICE_LEVELS <=? price_to_index price);
    [inv_Ok H; exact J |].
  inv_bind_z H. destruct a as [idx pool]. inv_bind_z H.
  inv_bind_z H. inv_bind_z H. inv_bind_z H. inv_bind_z H. inv_Ok H.
  apply trades_within_emit_order_accepted.
  exact (rest_tail_within _ _ _ _ _ _ _ _ _ _ _ _ _ _ J E1 E2 E3 E4).
Qed.

Lemma match_walk_within fuel order_id is_buy price quantity tif s t s' :
  trades_within is_buy price s ->
  match_walk fuel order_id is_buy price quantity tif s = Ok (t, s') ->
  trades_within is_buy price s'.
Proof.
  intros J H. unfold match_walk in H.
  inv_bind_z H. destruct a as [[s1 r1] t1]. cbv beta iota in H.
  inv_bind_z H. injection H as _ <-.
  pose proof (match_loop_within _ _ _ _ _ _ _ _ _ _ _ _ J E) as J1.
  unfold rest_residual in E0.
  destruct (0 <? r1); [| inv_Ok E0; exact J1].
  destruct tif; try (inv_Ok E0; exact J1).
  - exact (add_order_internal_within _ _ _ _ _ _ _ _ _ J1 E0).
  - exact (add_aon_internal_within _ _ _ _ _ _ _ _ _ J1 E0).
Qed.

(** X19. [match_internal] never trades through the limit price: with the
    staging array below [BATCH_SIZE] and the ring within its capacity, if
    every pending trade record has a price that a taker on side [is_buy]
    with limit [price] accepts (at most [price] for a buy, at least
    [price] for a sell), the same holds after the call, for every
    time-in-force; so each trade that the call reports is within the
    limit. *)
Theorem match_internal_never_trades_through_the_limit :
  forall fuel order_id is_buy price quantity tif s trade_count s',
    staging_ok s ->
    Forall (trade_within is_buy price) (pending s) ->
    match_internal fuel order_id is_buy price quantity tif s
    = Ok (trade_count, s') ->
    staging_ok s' /\ Forall (trade_within is_buy price) (pending s').
Proof.
  intros fuel order_id is_buy price quantity tif s t s' Hst Hall H.
  assert (J : trades_within is_buy price s) by (split; assumption).
  change (trades_within is_buy price s').
  unfold match_internal in H. destruct tif.
  - exact (match_walk_within _ _ _ _ _ _ _ _ _ J H).
  - exact (match_walk_within _ _ _ _ _ _ _ _ _ J H).
  - inv_bind_z H. destruct (a <? quantity).
    + injection H as _ <-. exact J.
    + exact (match_walk_within _ _ _ _ _ _ _ _ _ J H).
  - inv_bind_z H. destruct (a <? quantity).
    + inv_bind_z H. injection H as _ <-.
      exact (add_aon_internal_within _ _ _ _ _ _ _ _ _ J E0).
    + exact (match_walk_within _ _ _ _ _ _ _ _ _ J H).
Qed.

Lemma match_internal_never_trades_through_the_limit_witness :
  Forall (trade_within true 105)
    (pending (book_of [Add 1 false 100 10 0; Add 2 true 90 5 0;
                       Match 3 true 105 4 IOC])) /\
  In (Some (make_trade 0 3 1 100 4))
    (pending (book_of [Add 1 false 100 10 0; Add 2 true 90 5 0;
                       Match 3 true 105 4 IOC])).
Proof.
  assert (H1 : staging_ok book_spread).
  { split; [vm_compute; reflexivity |].
    unfold ring_ok. vm_compute. repeat split; discriminate. }
  assert (H2 : Forall (trade_within true 105) (pending book_spread))
    by (vm_compute; repeat constructor).
  assert (H3 : match_internal 16 3 true 105 4 IOC book_spread
               = Ok (1, book_of [Add 1 false 100 10 0; Add 2 true 90 5 0;
                                 Match 3 true 105 4 IOC]))
    by (vm_compute; reflexivity).
  split.
  - exact (proj2 (match_internal_never_trades_through_the_limit
                    16 3 true 105 4 IOC book_spread 1 _ H1 H2 H3)).
  - vm_compute. right. right. left. reflexivity.
Defined.

(** ** Orders that cannot trade *)

Lemma match_walk_nothing_to_do fuel order_id is_buy price quantity tif s :
  quantity <= 0 ->
  match_walk (S fuel) order_id is_buy price quantity tif s = Ok (0, s).
Proof.
  intros Hq. apply Z.ltb_ge in Hq.
  unfold match_walk. cbn [match_loop]. rewrite Hq. cbn [andb bind].
  unfold rest_residual. rewrite Hq. reflexivity.
Qed.

Lemma calculate_available_quantity_nothing_asked fuel s is_buy price
    quantity :
  quantity <= 0 ->
  calculate_available_quantity (S fuel) s is_buy price quantity = Ok 0.
Proof.
  intros Hq. apply Z.ltb_ge in Hq.
  unfold calculate_available_quantity.
  destruct is_buy; cbn [andb negb].
  - destruct (best_ask_ s =? INT64_MAX); [reflexivity |].
    cbn [available_buy_loop]. rewrite Hq, andb_false_r. reflexivity.
  - destruct (best_bid_ s <? 0); [reflexivity |].
    cbn [available_sell_loop]. rewrite Hq, andb_false_r. reflexivity.
Qed.

(** X20. An order with a quantity that is not positive does nothing in
    [match_internal], whatever its time-in-force: no trade, no resting
    order, no record, the book is returned as it was.  So [match_order],
    and [add_order] of such an order at a crossing price, are no-ops. *)
Theorem match_internal_ignores_a_quantity_that_is_not_positive :
  forall fuel order_id is_buy price quantity user_id tif s,
    quantity <= 0 ->
    match_internal (S fuel) order_id is_buy price quantity tif s = Ok (0, s) /\
    match_order (S fuel) order_id is_buy price quantity tif s = Ok s /\
    (is_aggressive is_buy price s = true ->
     add_order (S fuel) order_id is_buy price quantity user_id s = Ok s).
Proof.
  intros fuel order_id is_buy price quantity user_id tif s Hq.
  assert (H : forall t,
             match_internal (S fuel) order_id is_buy price quantity t s
             = Ok (0, s)).
  { intros t. unfold match_internal.
    rewrite (calculate_available_quantity_nothing_asked _ _ _ _ _ Hq).
    cbn [bind]. rewrite (proj2 (Z.ltb_ge 0 quantity) Hq).
    rewrite (match_walk_nothing_to_do _ _ _ _ _ _ _ Hq).
    destruct t; reflexivity. }
  split; [apply H |].
  split.
  - unfold match_order. rewrite H. reflexivity.
  - intros Ha. unfold add_order. rewrite Ha, H. reflexivity.
Qed.

Lemma match_internal_ignores_a_quantity_that_is_not_positive_witness :
  match_internal 1 3 true 100 0 GTC book_spread = Ok (0, book_spread) /\
  add_order 1 3 true 100 0 7 book_spread = Ok book_spread.
Proof.
  destruct (match_internal_ignores_a_quantity_that_is_not_positive
              0 3 true 100 0 7 GTC book_spread ltac:(lia))
    as (H1 & _ & H3).
  split; [exact H1 |]. apply H3. vm_compute. reflexivity.
Defined.

Lemma match_walk_without_a_cross fuel order_id is_buy price quantity tif s :
  is_aggressive is_buy price s = false ->
  0 < quantity ->
  match_walk (S fuel) order_id is_buy price quantity tif s
  = let* s' := rest_residual order_id is_buy price quantity tif s in
    Ok (0, s').
Proof.
  intros Ha Hq. apply Z.ltb_lt in Hq.
  unfold match_walk. cbn [match_loop]. rewrite Hq. cbn [andb].
  unfold is_aggressive in Ha. unfold opposite_side_empty, opposite_best.
  destruct is_buy; cbn [negb andb].
  - destruct (best_ask_ s =? INT64_MAX); cbn [negb andb] in *;
      [reflexivity |].
    apply Z.leb_gt in Ha. rewrite (proj2 (Z.ltb_lt _ _) Ha). reflexivity.
  - destruct (best_bid_ s <? 0) eqn:E; cbn [negb]; [reflexivity |].
    apply Z.ltb_ge in E. rewrite (proj2 (Z.leb_le _ _) E) in Ha.
    cbn [andb] in Ha. apply Z.leb_gt in Ha.
    rewrite (proj2 (Z.ltb_lt _ _) Ha). reflexivity.
Qed.

Lemma calculate_available_quantity_without_a_cross fuel s is_buy price
    quantity :
  is_aggressive is_buy price s = false ->
  calculate_available_quantity (S fuel) s is_buy price quantity = Ok 0.
Proof.
  intros Ha. unfold is_aggressive in Ha.
  unfold calculate_available_quantity.
  destruct is_buy; cbn [andb negb].
  - destruct (best_ask_ s =? INT64_MAX); cbn [negb andb] in *;
      [reflexivity |].
    cbn [available_buy_loop]. rewrite Ha. reflexivity.
  - destruct (best_bid_ s <? 0) eqn:E; [reflexivity |].
    apply Z.ltb_ge in E. rewrite (proj2 (Z.leb_le _ _) E) in Ha.
    cbn [andb] in Ha.
    cbn [available_sell_loop]. rewrite Ha. reflexivity.
Qed.

(** X21. [match_internal] of a positive quantity at a price that does not
    cross the opposite side (that side is empty, or its best price is
    beyond the limit): no trade.  An [IOC] or [FOK] order is dropped with
    no record; a [GTC] order is rested by [add_order_internal] and an
    [AON] order by [add_aon_internal], both with user id [0]. *)
Theorem match_internal_without_a_cross :
  forall fuel order_id is_buy price quantity s,
    is_aggressive is_buy price s = false ->
    0 < quantity ->
    match_internal (S fuel) order_id is_buy price quantity IOC s = Ok (0, s) /\
    match_internal (S fuel) order_id is_buy price quantity FOK s = Ok (0, s) /\
    match_internal (S fuel) order_id is_buy price quantity GTC s
    = (let* s' := add_order_internal order_id is_buy price quantity 0 s in
       Ok (0, s')) /\
    match_internal (S fuel) order_id is_buy price quantity AON s
    = (let* s' := add_aon_internal order_id is_buy price quantity 0 s in
       Ok (0, s')).
Proof.
  intros fuel order_id is_buy price quantity s Ha Hq.
  pose proof (fun t => match_walk_without_a_cross fuel order_id is_buy price
                         quantity t s Ha Hq) as Hw.
  pose proof (calculate_available_quantity_without_a_cross fuel s is_buy
                price quantity Ha) as Hc.
  unfold match_internal. rewrite Hc. cbn [bind].
  rewrite (proj2 (Z.ltb_lt 0 quantity) Hq).
  rewrite !Hw. unfold rest_residual.
  rewrite (proj2 (Z.ltb_lt 0 quantity) Hq).
  repeat split.
Qed.

Lemma match_internal_without_a_cross_witness :
  match_internal 1 3 true 95 4 IOC book_spread = Ok (0, book_spread) /\
  match_internal 1 3 true 95 4 FOK book_spread = Ok (0, book_spread).
Proof.
  destruct (match_internal_without_a_cross 0 3 true 95 4 book_spread
              ltac:(vm_compute; reflexivity) ltac:(lia))
    as (H1 & H2 & _).
  split; assumption.
Defined.

(** ** Snapshots *)

Lemma index_to_price_in_range i :
  0 <= i < MAX_PRICE_LEVELS -> index_to_price i = i.
Proof.
  intros H. unfold index_to_price, PRICE_OFFSET. rewrite Z.add_0_r.
  rewrite wrap_i64_idem. apply wrap_i64_small.
  unfold MAX_PRICE_LEVELS in H. unfold INT64_MAX. lia.
Qed.

Lemma snapshot_loop_lookup n bid s :
  forall i result p,
    0 <= i -> i + Z.of_nat n <= MAX_PRICE_LEVELS ->
    snapshot_loop n bid s i result !! p
    = if (i <=? p) && (p <? i + Z.of_nat n)
         && (0 <? PriceLevel.total_visible_volume (get_level bid p s))
      then Some (PriceLevel.total_visible_volume (get_level bid p s))
      else result !! p.
Proof.
  induction n as [| n IH]; intros i result p Hi Hn.
  - cbn [snapshot_loop].
    destruct (i <=? p) eqn:E1, (p <? i + Z.of_nat 0) eqn:E2;
      cbn [andb]; try reflexivity.
    apply Z.leb_le in E1. apply Z.ltb_lt in E2. lia.
  - cbn [snapshot_loop]. rewrite IH by lia.
    rewrite index_to_price_in_range by lia.
    destruct (decide (p = i)) as [-> | Hne].
    + rewrite (proj2 (Z.leb_gt (i + 1) i)) by lia. cbn [andb].
      rewrite Z.leb_refl, (proj2 (Z.ltb_lt i (i + Z.of_nat (S n)))) by lia.
      cbn [andb].
      destruct (0 <? PriceLevel.total_visible_volume (get_level bid i s)).
      * apply lookup_insert_eq.
      * reflexivity.
    + assert (Hb : (i + 1 <=? p) && (p <? i + 1 + Z.of_nat n)
                   = (i <=? p) && (p <? i + Z.of_nat (S n))).
      { destruct (Z.leb_spec (i + 1) p), (Z.ltb_spec p (i + 1 + Z.of_nat n)),
          (Z.leb_spec i p), (Z.ltb_spec p (i + Z.of_nat (S n)));
          try reflexivity; lia. }
      rewrite Hb.
      destruct ((i <=? p) && (p <? i + Z.of_nat (S n))
                && (0 <? PriceLevel.total_visible_volume (get_level bid p s)));
        [reflexivity |].
      destruct (0 <? PriceLevel.total_visible_volume (get_level bid i s));
        [| reflexivity].
      apply lookup_insert_ne. congruence.
Qed.

(** X22. [get_bids_snapshot] and [get_asks_snapshot] hold exactly the
    prices [0 <= p < MAX_PRICE_LEVELS] whose level on that side has a
    positive visible volume, each with that volume; hidden quantity and
    levels whose visible volume is not positive do not show. *)
Theorem snapshots_show_the_positive_visible_volumes :
  forall s p,
    get_bids_snapshot s !! p
    = (if (0 <=? p) && (p <? MAX_PRICE_LEVELS)
          && (0 <? PriceLevel.total_visible_volume (get_level true p s))
       then Some (PriceLevel.total_visible_volume (get_level true p s))
       else None) /\
    get_asks_snapshot s !! p
    = (if (0 <=? p) && (p <? MAX_PRICE_LEVELS)
          && (0 <? PriceLevel.total_visible_volume (get_level false p s))
       then Some (PriceLevel.total_visible_volume (get_level false p s))
       else None).
Proof.
  intros s p. unfold get_bids_snapshot, get_asks_snapshot.
  assert (Hn : Z.of_nat (Z.to_nat MAX_PRICE_LEVELS) = MAX_PRICE_LEVELS)
    by (apply Z2Nat.id; unfold MAX_PRICE_LEVELS; lia).
  rewrite !snapshot_loop_lookup by (rewrite ?Hn; lia).
  rewrite Hn, Z.add_0_l, !lookup_empty. split; reflexivity.
Qed.

(** ** Reset *)

Lemma get_level_reset_internal bid l s :
  get_level bid l (reset_internal s) = PriceLevel.fresh.
Proof.
  unfold get_level, levels_of, level_at, reset_internal.
  destruct bid; book_fields; rewrite lookup_empty; reflexivity.
Qed.

Lemma snapshot_loop_no_volume bid s :
  (forall l, get_level bid l s = PriceLevel.fresh) ->
  snapshot_loop (Z.to_nat MAX_PRICE_LEVELS) bid s 0 ∅ = ∅.
Proof.
  intros Hl. apply map_eq. intros p.
  assert (Hn : Z.of_nat (Z.to_nat MAX_PRICE_LEVELS) = MAX_PRICE_LEVELS)
    by (apply Z2Nat.id; unfold MAX_PRICE_LEVELS; lia).
  rewrite snapshot_loop_lookup by (rewrite ?Hn; lia).
  rewrite Hl. cbn [PriceLevel.total_visible_volume PriceLevel.fresh].
  rewrite Z.ltb_irrefl, andb_false_r. reflexivity.
Qed.

Lemma is_active_reset_internal s id :
  id <= max_order_id_ s -> id < vec_size (order_index_ s) ->
  OrderLocation.is_active (location (reset_internal s) id) = false.
Proof.
  intros Hm Hs. unfold reset_internal, location. book_fields.
  cbn [vec_data]. rewrite map_lookup_imap.
  destruct (vec_data (order_index_ s) !! id) as [loc |]; [| reflexivity].
  cbn [option_bind mbind default].
  rewrite (proj2 (Z.leb_le _ _) Hm), (proj2 (Z.ltb_lt _ _) Hs).
  cbn [andb]. apply is_active_set_active_false.
Qed.

Lemma unknown_or_inactive_reset_internal s id :
  0 <= id <= max_order_id_ s ->
  unknown_or_inactive id (reset_internal s) = Ok true.
Proof.
  intros Hid. apply unknown_or_inactive_true. split; [lia |].
  assert (Hsz : vec_size (order_index_ (reset_internal s))
                = vec_size (order_index_ s)) by reflexivity.
  rewrite Hsz.
  destruct (Z.le_gt_cases (vec_size (order_index_ s)) id) as [H | H].
  - left. exact H.
  - right. apply is_active_reset_internal; lia.
Qed.

(** X23. After [reset_internal] the book is empty for every observer:
    every level of both sides is a fresh one, the best bid reads [0] and
    the best ask [INT64_MAX] with volume [0], the snapshots are empty and
    the three counters are [0].  Every id up to [max_order_id_] is
    inactive, so cancelling or modifying it does nothing.  The pool
    records, [max_order_id_] and the whole output side (ring, staged
    records, counters, switches) are left as they were. *)
Theorem reset_internal_empties_the_book :
  forall s,
    (forall bid l, get_level bid l (reset_internal s) = PriceLevel.fresh) /\
    get_best_bid (reset_internal s) = 0 /\
    get_best_ask (reset_internal s) = INT64_MAX /\
    get_best_bid_volume (reset_internal s) = 0 /\
    get_best_ask_volume (reset_internal s) = 0 /\
    get_bids_snapshot (reset_internal s) = ∅ /\
    get_asks_snapshot (reset_internal s) = ∅ /\
    order_count (reset_internal s) = 0 /\
    bid_levels (reset_internal s) = 0 /\
    ask_levels (reset_internal s) = 0 /\
    (forall id new_price new_quantity,
       0 <= id <= max_order_id_ s ->
       cancel_order_internal id (reset_internal s) = Ok (reset_internal s) /\
       modify_order_internal id new_price new_quantity (reset_internal s)
       = Ok (reset_internal s)) /\
    (forall j,
       slot (order_pool_ (reset_internal s)) j = slot (order_pool_ s) j) /\
    max_order_id_ (reset_internal s) = max_order_id_ s /\
    output_view (reset_internal s) = output_view s.
Proof.
  intros s.
  split; [intros bid l; apply get_level_reset_internal |].
  split; [reflexivity |]. split; [reflexivity |].
  split; [reflexivity |]. split; [reflexivity |].
  split.
  { unfold get_bids_snapshot. apply snapshot_loop_no_volume. intros l.
    apply get_level_reset_internal. }
  split.
  { unfold get_asks_snapshot. apply snapshot_loop_no_volume. intros l.
    apply get_level_reset_internal. }
  split; [reflexivity |]. split; [reflexivity |]. split; [reflexivity |].
  split.
  { intros id new_price new_quantity Hid.
    unfold cancel_order_internal, modify_order_internal.
    rewrite (unknown_or_inactive_reset_internal _ _ Hid).
    split; reflexivity. }
  split; [intros j; reflexivity |].
  split; reflexivity.
Qed.

(** ** The dispatch of the gateway *)

(** X24. Through [TcpGateway::process_message] an [ADD_ICEBERG] and an
    [ADD_AON] message are handled as a plain [ADD_ORDER] of the same id,
    side, price and user, the iceberg with its visible quantity: at a
    price in range that does not cross, the order that rests has that
    quantity, no hidden quantity, no peak size and no all-or-none flag;
    [total_quantity] is not read, and nothing is reported as unknown. *)
Theorem gateway_rests_iceberg_and_aon_as_plain_orders :
  forall fuel order_id user_id side price total_quantity visible_quantity
         s s' errs,
    is_aggressive (side_to_bool side) price s = false ->
    price_to_index price < MAX_PRICE_LEVELS ->
    process_message fuel
      (MsgAddIceberg order_id user_id side price total_quantity
         visible_quantity) s = Ok (s', errs) ->
    let o' :=
      slot (order_pool_ s') (OrderLocation.pool_idx (location s' order_id)) in
    errs = [] /\
    OrderLocation.is_active (location s' order_id) = true /\
    OrderLocation.is_buy (location s' order_id) = side_to_bool side /\
    Order.quantity o' = visible_quantity /\
    Order.hidden_quantity o' = 0 /\
    Order.peak_size o' = 0 /\
    Order.is_iceberg o' = false /\
    Order.is_aon o' = false /\
    Order.user_id_low o' = wrap_u32 user_id /\
    process_message fuel
      (MsgAddAON order_id user_id side price visible_quantity) s
    = Ok (s', errs) /\
    process_message fuel
      (MsgAddOrder order_id user_id side price visible_quantity) s
    = Ok (s', errs).
Proof.
  intros fuel order_id user_id side price total_quantity visible_quantity
    s s' errs Ha Hr H.
  cbn [process_message] in *. unfold add_order in *. rewrite Ha in *.
  inv_bind_z H. injection H as <- <-.
  rewrite E. cbn [bind].
  apply add_order_internal_Ok in E; [| exact Hr].
  destruct E as (idx & pool & _ & _ & _ & _ & Hview).
  cbv zeta.
  rewrite (view_location _ _ Hview), (view_order_pool _ _ Hview).
  rewrite rested_location.
  destruct (new_location_fields (side_to_bool side) price idx)
    as (L1 & L2 & L3 & L4).
  rewrite L1, L2, L4.
  pose proof (rested_slot_payload
                (plain_order order_id (side_to_bool side) price
                   visible_quantity (wrap_u32 user_id))
                order_id (side_to_bool side) price idx pool s) as Hp.
  apply payload_fields in Hp as (Hoid & Hpr & Hq & Hh & Hpk & Hu & Hf).
  unfold Order.is_iceberg, Order.is_aon.
  rewrite Hf, Hu, Hpk, Hh, Hq.
  destruct (side_to_bool side); repeat split; reflexivity.
Qed.

Lemma gateway_rests_iceberg_and_aon_as_plain_orders_witness :
  exists s',
    process_message 1 (MsgAddIceberg 3 7 66 95 50 10) book_spread
    = Ok (s', []) /\
    Order.quantity
      (slot (order_pool_ s') (OrderLocation.pool_idx (location s' 3))) = 10 /\
    Order.hidden_quantity
      (slot (order_pool_ s') (OrderLocation.pool_idx (location s' 3))) = 0.
Proof.
  destruct (process_message 1 (MsgAddIceberg 3 7 66 95 50 10) book_spread)
    as [[s' errs] | |] eqn:E; [| vm_compute in E; discriminate ..].
  destruct (gateway_rests_iceberg_and_aon_as_plain_orders
              1 3 7 66 95 50 10 book_spread s' errs
              ltac:(vm_compute; reflexivity) ltac:(vm_compute; reflexivity) E)
    as (He & _ & _ & Hq & Hh & _).
  exists s'. rewrite He. repeat split; assumption.
Defined.

(** X25. Through [TcpGateway::process_message] a [MODIFY_ORDER] message
    only cancels: for an active order at a price in range the result is
    that of [cancel_order_internal], whatever the new price and quantity;
    the order is inactive afterwards, the count of active orders drops by
    one, no other index entry changes and nothing is re-added. *)
Theorem gateway_modify_only_cancels :
  forall fuel order_id new_price new_quantity s s' errs,
    0 <= order_id < vec_size (order_index_ s) ->
    OrderLocation.is_active (location s order_id) = true ->
    price_to_index (OrderLocation.price (location s order_id))
      < MAX_PRICE_LEVELS ->
    process_message fuel (MsgModify order_id new_price new_quantity) s
    = Ok (s', errs) ->
    errs = [] /\
    cancel_order_internal order_id s = Ok s' /\
    OrderLocation.is_active (location s' order_id) = false /\
    (forall id, id <> order_id -> location s' id = location s id) /\
    active_order_count_ s' = wrap_u64 (active_order_count_ s - 1).
Proof.
  intros fuel order_id new_price new_quantity s s' errs Hid Hact Hrange H.
  cbn [process_message] in H. unfold cancel_order in H.
  inv_bind_z H. injection H as <- <-.
  destruct (cancel_order_internal_index _ _ _ Hid Hact Hrange E)
    as (Hloc & _ & _).
  destruct (cancel_order_internal_effect _ _ _ Hid Hact Hrange E)
    as (_ & _ & _ & _ & _ & _ & Hcount).
  split; [reflexivity |]. split; [exact E |].
  split.
  { rewrite Hloc. destruct (decide (order_id = order_id)); [| congruence].
    apply is_active_set_active_false. }
  split; [| exact Hcount].
  intros id Hne. rewrite Hloc.
  destruct (decide (id = order_id)); [congruence | reflexivity].
Qed.

Lemma gateway_modify_only_cancels_witness :
  exists s',
    process_message 1 (MsgModify 2 95 3) book_spread = Ok (s', []) /\
    OrderLocation.is_active (location s' 2) = false.
Proof.
  destruct (process_message 1 (MsgModify 2 95 3) book_spread)
    as [[s' errs] | |] eqn:E; [| vm_compute in E; discriminate ..].
  destruct (gateway_modify_only_cancels 1 2 95 3 book_spread s' errs
              ltac:(vm_compute; split; [discriminate | reflexivity])
              ltac:(vm_compute; reflexivity)
              ltac:(vm_compute; reflexivity) E)
    as (He & _ & Hi & _).
  exists s'. rewrite He. split; [reflexivity | exact Hi].
Defined.

(** ** The observers of the ring *)

(** X26. On a ring whose consumer is at most [capacity_value - 1] records
    behind, [size_approx()] is the number of unread records and lies
    between 0 and [capacity()]; [empty()] holds exactly when it is 0 and
    [full()] exactly when it is [capacity()]. *)
Theorem ring_observers_count_the_unread_records :
  forall r,
    ring_ok r ->
    RingBuffer.size_approx r = Z.of_nat (length (ring_contents r)) /\
    0 <= RingBuffer.size_approx r <= RingBuffer.capacity /\
    RingBuffer.empty r = (RingBuffer.size_approx r =? 0) /\
    RingBuffer.full r = (RingBuffer.size_approx r =? RingBuffer.capacity).
Proof.
  intros r Hok. pose proof Hok as (Ht & Hh & Hu).
  pose proof (wrap_u64_nonneg (RingBuffer.head_ r - RingBuffer.tail_ r))
    as Hu0.
  split.
  { unfold ring_contents, RingBuffer.size_approx.
    rewrite window_length, Z2Nat.id by lia. reflexivity. }
  split.
  { unfold RingBuffer.size_approx, RingBuffer.capacity, RingBuffer.mask in *.
    lia. }
  split.
  { unfold RingBuffer.empty, RingBuffer.size_approx.
    destruct (Z.eqb_spec (RingBuffer.head_ r) (RingBuffer.tail_ r)) as [E | E].
    - rewrite E, Z.sub_diag. reflexivity.
    - symmetry. apply Z.eqb_neq. intros E0. apply E.
      unfold wrap_u64 in E0.
      destruct (Z_le_gt_dec (RingBuffer.tail_ r) (RingBuffer.head_ r)).
      + rewrite Z.mod_small in E0 by lia. lia.
      + assert (E1 : (RingBuffer.head_ r - RingBuffer.tail_ r)
                     mod 18446744073709551616
                     = RingBuffer.head_ r - RingBuffer.tail_ r
                       + 18446744073709551616).
        { symmetry. apply (Z.mod_unique _ _ (-1)); lia. }
        lia. }
  destruct (try_push_spec (make_cancelled 0 0 0) r Hok) as (Hp & _).
  unfold RingBuffer.try_push in Hp. unfold RingBuffer.full.
  destruct (Z.land (wrap_u64 (RingBuffer.head_ r + 1)) RingBuffer.mask
            =? Z.land (RingBuffer.tail_ r) RingBuffer.mask);
    cbn [fst] in Hp;
    destruct (RingBuffer.size_approx r =? RingBuffer.capacity);
    cbn [negb] in Hp; congruence.
Qed.

Lemma ring_observers_count_the_unread_records_witness :
  RingBuffer.size_approx (output_buffer_ (flush_batch book_spread))
  = Z.of_nat (length (ring_contents (output_buffer_ (flush_batch book_spread))))
  /\ RingBuffer.empty (output_buffer_ (flush_batch book_spread)) = false.
Proof.
  destruct (ring_observers_count_the_unread_records
              (output_buffer_ (flush_batch book_spread)))
    as (H1 & _ & H3 & _).
  - unfold ring_ok. vm_compute. repeat split; discriminate.
  - split; [exact H1 |]. rewrite H3. vm_compute. reflexivity.
Defined.

(** ** The feasibility probe *)

(** no resting record and no level of the book has a negative total *)
Definition volumes_not_negative (s : Book) : Prop :=
  map_Forall
    (fun _ o =>
       0 <= Order.quantity o + Order.hidden_quantity o <= INT64_MAX)
    (vec_data (ObjectPool.pool_ (order_pool_ s))) /\
  map_Forall (fun _ l => 0 <= PriceLevel.total_volume l) (bid_levels_ s) /\
  map_Forall (fun _ l => 0 <= PriceLevel.total_volume l) (ask_levels_ s).

Lemma volumes_not_negative_slot s j :
  volumes_not_negative s ->
  0 <= Order.quantity (slot (order_pool_ s) j)
       + Order.hidden_quantity (slot (order_pool_ s) j) <= INT64_MAX.
Proof.
  intros (H & _). unfold slot.
  destruct (vec_data (ObjectPool.pool_ (order_pool_ s)) !! j) as [o |] eqn:E.
  - exact (H _ _ E).
  - cbn. unfold INT64_MAX. lia.
Qed.

Lemma volumes_not_negative_level s bid l :
  volumes_not_negative s -> 0 <= PriceLevel.total_volume (get_level bid l s).
Proof.
  intros (_ & Hb & Ha). unfold get_level, level_at, levels_of.
  destruct bid.
  - destruct (bid_levels_ s !! l) as [x |] eqn:E; [exact (Hb _ _ E) |].
    cbn. lia.
  - destruct (ask_levels_ s !! l) as [x |] eqn:E; [exact (Ha _ _ E) |].
    cbn. lia.
Qed.

Lemma available_in_fifo_bound fuel s :
  volumes_not_negative s ->
  forall curr available remaining a' r',
    0 <= available -> 0 <= remaining -> available + remaining <= INT64_MAX ->
    available_in_fifo fuel s curr available remaining = Ok (a', r') ->
    0 <= a' /\ 0 <= r' /\ a' + r' = available + remaining.
Proof.
  intros Hv. induction fuel as [| fuel IH];
    intros curr available remaining a' r' Ha Hr Hs H; [discriminate |].
  cbn [available_in_fifo] in H.
  destruct (negb (curr =? NULL_INDEX) && (0 <? remaining));
    [| injection H as <- <-; lia].
  inv_bind_z H. apply pool_at_Ok in E as [_ ->].
  pose proof (volumes_not_negative_slot s curr Hv) as Ho.
  set (o := slot (order_pool_ s) curr) in *.
  rewrite (wrap_i64_small (Order.quantity o + Order.hidden_quantity o)) in H
    by (unfold INT64_MAX in *; lia).
  destruct (Order.is_aon o).
  - destruct (Order.quantity o + Order.hidden_quantity o <=? remaining) eqn:E.
    + apply Z.leb_le in E.
      rewrite !wrap_i64_small in H by (unfold INT64_MAX in *; lia).
      apply IH in H; lia.
    + apply IH in H; lia.
  - rewrite !wrap_i64_small in H by (unfold INT64_MAX in *; lia).
    apply IH in H; lia.
Qed.

Lemma available_at_level_bound fuel s bid idx available remaining a' r' :
  volumes_not_negative s ->
  0 <= available -> 0 <= remaining -> available + remaining <= INT64_MAX ->
  available_at_level fuel s bid idx available remaining = Ok (a', r') ->
  0 <= a' /\ 0 <= r' /\ a' + r' = available + remaining.
Proof.
  intros Hv Ha Hr Hs H. unfold available_at_level in H.
  pose proof (volumes_not_negative_level s bid idx Hv) as Hl.
  destruct (PriceLevel.empty (get_level bid idx s));
    [injection H as <- <-; lia |].
  destruct (PriceLevel.total_aon_volume (get_level bid idx s) =? 0).
  - rewrite !wrap_i64_small in H by (unfold INT64_MAX in *; lia).
    injection H as <- <-. lia.
  - exact (available_in_fifo_bound _ _ Hv _ _ _ _ _ Ha Hr Hs H).
Qed.

Lemma available_buy_loop_bound n fuel s limit_price :
  volumes_not_negative s ->
  forall p available remaining res,
    0 <= available -> 0 <= remaining -> available + remaining <= INT64_MAX ->
    available_buy_loop n fuel s p limit_price available remaining = Ok res ->
    0 <= res <= available + remaining.
Proof.
  intros Hv. induction n as [| n IH];
    intros p available remaining res Ha Hr Hs H; [discriminate |].
  cbn [available_buy_loop] in H.
  destruct ((p <=? limit_price) && (0 <? remaining));
    [| injection H as <-; lia].
  destruct (MAX_PRICE_LEVELS <=? price_to_index p);
    [injection H as <-; lia |].
  inv_bind_z H. destruct a as [a1 r1]. cbv beta iota in H.
  apply available_at_level_bound in E; try assumption.
  apply IH in H; lia.
Qed.

Lemma available_sell_loop_bound n fuel s limit_price :
  volumes_not_negative s ->
  forall p available remaining res,
    0 <= available -> 0 <= remaining -> available + remaining <= INT64_MAX ->
    available_sell_loop n fuel s p limit_price available remaining = Ok res ->
    0 <= res <= available + remaining.
Proof.
  intros Hv. induction n as [| n IH];
    intros p available remaining res Ha Hr Hs H; [discriminate |].
  cbn [available_sell_loop] in H.
  destruct ((limit_price <=? p) && (0 <? remaining));
    [| injection H as <-; lia].
  destruct (MAX_PRICE_LEVELS <=? price_to_index p).
  - apply IH in H; lia.
  - inv_bind_z H. destruct a as [a1 r1]. cbv beta iota in H.
    apply available_at_level_bound in E; try assumption.
    apply IH in H; lia.
Qed.

(** X27. On a book in which no record and no level has a negative total,
    the quantity that [calculate_available_quantity] reports for an
    incoming quantity between 0 and [INT64_MAX] is never negative and
    never more than the incoming quantity; so the test
    [available < quantity] of a FOK or AON order fails only when the probe
    found the whole quantity. *)
Theorem calculate_available_quantity_is_at_most_the_incoming :
  forall fuel s is_buy limit_price incoming_qty available,
    volumes_not_negative s ->
    0 <= incoming_qty <= INT64_MAX ->
    calculate_available_quantity fuel s is_buy limit_price incoming_qty
    = Ok available ->
    0 <= available <= incoming_qty /\
    ((available <? incoming_qty) = false -> available = incoming_qty).
Proof.
  intros fuel s is_buy limit_price incoming_qty available Hv Hq H.
  assert (Hb : 0 <= available <= incoming_qty).
  { unfold calculate_available_quantity in H. cbv zeta in H.
    destruct is_buy; cbn [andb negb] in H.
    - destruct (best_ask_ s =? INT64_MAX); [injection H as <-; lia |].
      apply available_buy_loop_bound in H; try assumption; lia.
    - destruct (best_bid_ s <? 0); [injection H as <-; lia |].
      apply available_sell_loop_bound in H; try assumption; lia. }
  split; [exact Hb |].
  intros E. apply Z.ltb_ge in E. lia.
Qed.

Lemma calculate_available_quantity_is_at_most_the_incoming_witness :
  exists available,
    calculate_available_quantity 16 book_spread true 100 25 = Ok available /\
    0 <= available <= 25.
Proof.
  assert (Hv : volumes_not_negative book_spread).
  { unfold volumes_not_negative.
    split; [| split]; apply (bool_decide_unpack _); vm_compute; exact I. }
  destruct (calculate_available_quantity 16 book_spread true 100 25)
    as [a | |] eqn:E; [| vm_compute in E; discriminate ..].
  exists a. split; [reflexivity |].
  exact (proj1 (calculate_available_quantity_is_at_most_the_incoming
                  16 book_spread true 100 25 a Hv
                  ltac:(unfold INT64_MAX; lia) E)).
Defined.

(** ** Accesses inside the arrays *)

Lemma allocate_returns p :
  pool_well_formed p ->
  0 < pool_size p <= 2147483648 ->
  exists idx p',
    ObjectPool.allocate p = Ok (idx, p') /\
    0 <= idx < pool_size p' /\
    pool_size p <= pool_size p'.
Proof.
  intros (H0 & _ & Hin) Hsz. unfold ObjectPool.allocate.
  destruct (ObjectPool.free_indices_ p) as [| j rest] eqn:Ef.
  - unfold ObjectPool.grow. cbn [ObjectPool.free_indices_ ObjectPool.pool_].
    fold (pool_size p). rewrite Ef.
    rewrite (wrap_u64_small (pool_size p * 2)) by lia.
    replace (pool_size p * 2 - pool_size p) with (pool_size p) by lia.
    destruct (ObjectPool.push_range (Z.to_nat (pool_size p))
                (pool_size p * 2) []) as [| idx rest] eqn:Ep.
    + pose proof (push_range_length (Z.to_nat (pool_size p))
                    (pool_size p * 2) []) as Hl.
      rewrite Ep in Hl. cbn [length] in Hl. lia.
    + exists idx. eexists. split; [reflexivity |].
      assert (Hi : idx ∈ ObjectPool.push_range (Z.to_nat (pool_size p))
                     (pool_size p * 2) [])
        by (rewrite Ep; apply elem_of_cons; left; reflexivity).
      apply push_range_elem in Hi; [| lia | lia].
      destruct Hi as [Hi | Hi]; [inversion Hi |].
      rewrite Z2Nat.id in Hi by lia.
      unfold pool_size in *. cbn [ObjectPool.pool_ vec_grow vec_size]. lia.
  - exists j. eexists. rewrite Ef. split; [reflexivity |].
    assert (Hj : 0 <= j < pool_size p)
      by (apply Hin; apply elem_of_cons; left; reflexivity).
    unfold pool_size in *. cbn [ObjectPool.pool_]. lia.
Qed.

Lemma index_entry_returns order_id is_buy price idx s :
  0 <= order_id < 18446744073709551615 ->
  exists s', index_entry order_id is_buy price idx s = Ok s'.
Proof.
  intros Hid. unfold index_entry. cbv zeta.
  assert (Hr : 0 <= order_id
               < vec_size (order_index_ (ensure_capacity order_id s))).
  { split; [lia |]. unfold ensure_capacity. cbv zeta.
    destruct (vec_size (order_index_ s) <=? order_id) eqn:E.
    - assert (Hs : order_id
                   < vec_size
                       (vec_grow (order_index_ s)
                          (Z.max (wrap_u64 (order_id + 1))
                             (wrap_u64 (vec_size (order_index_ s) * 2))))).
      { cbn [vec_grow vec_size].
        rewrite (wrap_u64_small (order_id + 1)) by lia. lia. }
      case_ifs; exact Hs.
    - apply Z.leb_gt in E. case_ifs; exact E. }
  rewrite vec_get_in_range by exact Hr. cbn [bind].
  rewrite vec_set_in_range by exact Hr. cbn [bind].
  eexists. reflexivity.
Qed.

(** X28. [add_order_internal] stays inside its arrays.  With a price in
    range, a pool whose free list names slots of the slab only (at most
    2^31 of them, at least one), the tail of the level null or a slot of
    the slab, and an id below [UINT64_MAX], every access of the call to
    the pool and to the order index is in bounds and the call returns
    (a [resize] of the slab or of the index is taken to succeed: the
    vectors of the model have no limit of memory). *)
Theorem add_order_internal_stays_in_bounds :
  forall order_id is_buy price quantity user_id s,
    price_to_index price < MAX_PRICE_LEVELS ->
    pool_well_formed (order_pool_ s) ->
    0 < pool_size (order_pool_ s) <= 2147483648 ->
    valid_link (order_pool_ s)
      (PriceLevel.tail (get_level is_buy (price_to_index price) s)) ->
    0 <= order_id < 18446744073709551615 ->
    exists s',
      add_order_internal order_id is_buy price quantity user_id s = Ok s'.
Proof.
  intros order_id is_buy price quantity user_id s Hr Hwf Hsz Ht Hid.
  unfold add_order_internal. cbv zeta.
  rewrite (proj2 (Z.leb_gt _ _) Hr).
  destruct (allocate_returns _ Hwf Hsz) as (idx & pool & Hal & Hidx & Hle).
  rewrite Hal. cbn [bind].
  rewrite pool_at_in_range
    by (rewrite order_pool_set_order_pool; exact Hidx).
  cbn [bind].
  rewrite pool_store_in_range
    by (rewrite order_pool_set_order_pool; exact Hidx).
  cbn [bind]. rewrite order_pool_set_order_pool, set_order_pool_twice.
  rewrite list_push_back_run.
  2: { rewrite order_pool_set_order_pool, pool_size_pool_write. exact Hidx. }
  2: { rewrite order_pool_set_order_pool, get_level_set_order_pool.
       destruct Ht as [Ht | Ht]; [left; exact Ht | right].
       rewrite pool_size_pool_write. lia. }
  cbn [bind]. unfold add_to_level_volume.
  rewrite pool_at_in_range.
  2: { unfold pushed_back. rewrite order_pool_put_level.
       rewrite !order_pool_set_order_pool.
       rewrite (links_only_size _ _ (links_only_pushed_pool _ _ _)).
       rewrite pool_size_pool_write. exact Hidx. }
  cbn [bind].
  match goal with
  | |- context [index_entry ?a ?b ?c ?d ?t] =>
      destruct (index_entry_returns a b c d t Hid) as [s4 H4]; rewrite H4
  end.
  cbn [bind]. eexists. reflexivity.
Qed.

Lemma add_order_internal_stays_in_bounds_witness :
  exists s', add_order_internal 3 true 95 4 7 book_spread = Ok s'.
Proof.
  apply add_order_internal_stays_in_bounds.
  - vm_compute. reflexivity.
  - split; [vm_compute; discriminate |]. split.
    + apply (bool_decide_unpack _). vm_compute. exact I.
    + apply Forall_forall. apply (bool_decide_unpack _). vm_compute. exact I.
  - vm_compute. split; [reflexivity | discriminate].
  - left. vm_compute. reflexivity.
  - lia.
Defined.

(** X29. [cancel_order_internal] stays inside its arrays.  For an active
    id of the index whose slot lies in the slab and whose record has
    [prev] and [next] null or slots of the slab, every access of the call
    to the pool and to the order index is in bounds and the call
    returns. *)
Theorem cancel_order_internal_stays_in_bounds :
  forall order_id s,
    0 <= order_id < vec_size (order_index_ s) ->
    OrderLocation.is_active (location s order_id) = true ->
    0 <= OrderLocation.pool_idx (location s order_id)
      < pool_size (order_pool_ s) ->
    valid_link (order_pool_ s)
      (Order.prev
         (slot (order_pool_ s)
            (OrderLocation.pool_idx (location s order_id)))) ->
    valid_link (order_pool_ s)
      (Order.next
         (slot (order_pool_ s)
            (OrderLocation.pool_idx (location s order_id)))) ->
    exists s', cancel_order_internal order_id s = Ok s'.
Proof.
  intros order_id s Hid Hact Hidx Hp Hn.
  exact (cancel_order_internal_returns order_id s Hid Hact Hidx Hp Hn).
Qed.

Lemma cancel_order_internal_stays_in_bounds_witness :
  exists s', cancel_order_internal 2 book_spread = Ok s'.
Proof.
  apply cancel_order_internal_stays_in_bounds.
  - vm_compute. split; [discriminate | reflexivity].
  - vm_compute. reflexivity.
  - vm_compute. split; [discriminate | reflexivity].
  - left. vm_compute. reflexivity.
  - left. vm_compute. reflexivity.
Defined.

(** ** The record of an accepted order *)

Lemma rest_tail_output_view order order_id is_buy price idx pool
    (was_empty : bool) s sa sb sc sd :
  pool_store idx order (set_order_pool_ pool s) = Ok sa ->
  list_push_back is_buy (price_to_index price) idx sa = Ok sb ->
  add_to_level_volume is_buy (price_to_index price) idx sb = Ok sc ->
  index_entry order_id is_buy price idx
    (if was_empty then level_opened is_buy price sc else sc) = Ok sd ->
  output_view sd = output_view s.
Proof.
  intros Ha Hb Hc Hd.
  apply framed_pool_store in Ha as (_ & Oa & _).
  apply framed_list_push_back in Hb as (_ & Ob & _).
  apply framed_add_to_level_volume in Hc as (_ & Oc & _).
  apply index_entry_frame in Hd as (_ & Od & _).
  rewrite Od.
  transitivity (output_view sc).
  - destruct was_empty; [| reflexivity].
    exact (proj1 (output_view_level_opened _ _ _)).
  - rewrite Oc, Ob, Oa. reflexivity.
Qed.

Lemma pending_emit_order_accepted id sd p q mid s :
  output_view mid = output_view s ->
  staging_ok s -> room_for_a_batch s ->
  pending (emit_order_accepted id sd p q mid)
  = (if emit_accepts_ s && use_ring_buffer_ s
     then pending s ++ [Some (make_accepted (current_timestamp_ s) id sd p q)]
     else pending s).
Proof.
  intros Hov Hst Hroom.
  pose proof (staging_ok_output_view _ _ Hov Hst) as Hst'.
  destruct (output_view_fields _ _ Hov)
    as (Hob & Hbb & _ & _ & Hur & Hea & _ & Hts).
  assert (Hroom' : room_for_a_batch mid)
    by (unfold room_for_a_batch; rewrite Hob; exact Hroom).
  assert (Hp : pending mid = pending s)
    by (unfold pending; rewrite Hob, Hbb; reflexivity).
  unfold emit_order_accepted. rewrite Hea, Hur.
  destruct (emit_accepts_ s); cbn [negb andb]; [| exact Hp].
  destruct (use_ring_buffer_ s); [| exact Hp].
  destruct (pending_stage (make_accepted (current_timestamp_ mid) id sd p q)
              mid Hst' Hroom') as (P1 & _).
  rewrite P1, Hp, Hts. reflexivity.
Qed.

Lemma pending_output_view s s' :
  output_view s' = output_view s -> pending s' = pending s.
Proof.
  intros H. destruct (output_view_fields _ _ H) as (Hob & Hbb & _).
  unfold pending. rewrite Hob, Hbb. reflexivity.
Qed.

(** X30. What the three resting functions report.  At a price in range,
    with the staging array below [BATCH_SIZE] and room in the ring for a
    batch: when accepts are reported and the ring output is on, exactly
    one record follows the pending ones, the accept of the id with its
    side and price and the visible quantity of the resting record, which
    for an iceberg is [min(visible_quantity, total_quantity)]; otherwise
    the pending records do not change. *)
Theorem resting_reports_the_visible_quantity :
  forall order_id is_buy price quantity visible_quantity user_id s,
    price_to_index price < MAX_PRICE_LEVELS ->
    staging_ok s ->
    room_for_a_batch s ->
    let accepted q :=
      if emit_accepts_ s && use_ring_buffer_ s
      then pending s
           ++ [Some (make_accepted (current_timestamp_ s) order_id
                       (bool_to_side is_buy) price q)]
      else pending s in
    (forall s',
       add_order_internal order_id is_buy price quantity user_id s = Ok s' ->
       pending s' = accepted quantity) /\
    (forall s',
       add_aon_internal order_id is_buy price quantity user_id s = Ok s' ->
       pending s' = accepted quantity) /\
    (forall s',
       add_iceberg_internal order_id is_buy price quantity visible_quantity
         user_id s = Ok s' ->
       pending s' = accepted (Z.min visible_quantity quantity)).
Proof.
  intros order_id is_buy price quantity visible_quantity user_id s
    Hr Hst Hroom.
  cbv zeta. apply Z.leb_gt in Hr.
  split; [| split]; intros s' H.
  - unfold add_order_internal in H. rewrite Hr in H.
    inv_bind_z H. destruct a as [idx pool]. inv_bind_z H.
    inv_bind_z H. inv_bind_z H. inv_bind_z H. inv_bind_z H. inv_Ok H.
    destruct (framed_cross_check
                (emit_order_accepted order_id (bool_to_side is_buy) price
                   quantity a3)) as (_ & Oc & _).
    rewrite (pending_output_view _ _ Oc).
    apply pending_emit_order_accepted; try assumption.
    exact (rest_tail_output_view _ _ _ _ _ _ _ _ _ _ _ _ E1 E2 E3 E4).
  - unfold add_aon_internal in H. rewrite Hr in H.
    inv_bind_z H. destruct a as [idx pool]. inv_bind_z H.
    inv_bind_z H. inv_bind_z H. inv_bind_z H. inv_bind_z H. inv_Ok H.
    apply pending_emit_order_accepted; try assumption.
    exact (rest_tail_output_view _ _ _ _ _ _ _ _ _ _ _ _ E1 E2 E3 E4).
  - unfold add_iceberg_internal in H. rewrite Hr in H.
    inv_bind_z H. destruct a as [idx pool]. inv_bind_z H.
    inv_bind_z H. inv_bind_z H. inv_bind_z H. inv_bind_z H. inv_Ok H.
    apply pending_emit_order_accepted; try assumption.
    exact (rest_tail_output_view _ _ _ _ _ _ _ _ _ _ _ _ E1 E2 E3 E4).
Qed.

Lemma resting_reports_the_visible_quantity_witness :
  pending (book_of [Add 1 false 100 10 0; Add 2 true 90 5 0;
                    AddIceberg 3 true 95 50 10 7])
  = pending book_spread ++ [Some (make_accepted 0 3 BUY 95 10)].
Proof.
  assert (H1 : price_to_index 95 < MAX_PRICE_LEVELS)
    by (vm_compute; reflexivity).
  assert (H2 : staging_ok book_spread).
  { split; [vm_compute; reflexivity |].
    unfold ring_ok. vm_compute. repeat split; discriminate. }
  assert (H3 : room_for_a_batch book_spread)
    by (unfold room_for_a_batch; vm_compute; discriminate).
  destruct (resting_reports_the_visible_quantity 3 true 95 50 10 7
              book_spread H1 H2 H3) as (_ & _ & H).
  rewrite (H (book_of [Add 1 false 100 10 0; Add 2 true 90 5 0;
                       AddIceberg 3 true 95 50 10 7]))
    by (vm_compute; reflexivity).
  vm_compute. reflexivity.
Defined.

(** * The structure of the book *)

(** The FIFO of a level is a doubly linked list threaded through the pool.
    The invariant below says where every linked record sits: [home x] is
    the level in whose FIFO slot [x] is linked, and [rank] grows along
    [next], so that a FIFO has no cycle. *)

Definition prev_of (p : ObjectPool.t) (x : Z) : Z := Order.prev (slot p x).
Definition next_of (p : ObjectPool.t) (x : Z) : Z := Order.next (slot p x).

Definition node_linked (home : Z -> option (bool * Z)) (rank : Z -> Z)
    (p : ObjectPool.t) (lv : bool -> Z -> PriceLevel.t)
    (x : Z) (b : bool) (l : Z) : Prop :=
  0 <= x < pool_size p /\
  x < NULL_INDEX /\
  (x ∉ ObjectPool.free_indices_ p) /\
  0 <= l < MAX_PRICE_LEVELS /\
  (prev_of p x = NULL_INDEX -> PriceLevel.head (lv b l) = x) /\
  (prev_of p x <> NULL_INDEX ->
   home (prev_of p x) = Some (b, l) /\ next_of p (prev_of p x) = x) /\
  (next_of p x = NULL_INDEX -> PriceLevel.tail (lv b l) = x) /\
  (next_of p x <> NULL_INDEX ->
   home (next_of p x) = Some (b, l) /\ prev_of p (next_of p x) = x /\
   rank x < rank (next_of p x)).

Definition level_linked (home : Z -> option (bool * Z))
    (p : ObjectPool.t) (lv : bool -> Z -> PriceLevel.t)
    (b : bool) (l : Z) : Prop :=
  (PriceLevel.head (lv b l) = NULL_INDEX
   <-> PriceLevel.tail (lv b l) = NULL_INDEX) /\
  (PriceLevel.head (lv b l) <> NULL_INDEX ->
   home (PriceLevel.head (lv b l)) = Some (b, l) /\
   prev_of p (PriceLevel.head (lv b l)) = NULL_INDEX) /\
  (PriceLevel.tail (lv b l) <> NULL_INDEX ->
   home (PriceLevel.tail (lv b l)) = Some (b, l) /\
   next_of p (PriceLevel.tail (lv b l)) = NULL_INDEX).

Definition links (home : Z -> option (bool * Z)) (rank : Z -> Z)
    (p : ObjectPool.t) (lv : bool -> Z -> PriceLevel.t) : Prop :=
  pool_well_formed p /\
  (forall x b l, home x = Some (b, l) -> node_linked home rank p lv x b l) /\
  (forall b l, level_linked home p lv b l).

Definition set_home (home : Z -> option (bool * Z)) (x : Z)
    (v : option (bool * Z)) : Z -> option (bool * Z) :=
  fun y => if decide (y = x) then v else home y.

Definition set_rank (rank : Z -> Z) (x v : Z) : Z -> Z :=
  fun y => if decide (y = x) then v else rank y.

Lemma set_home_eq home x v : set_home home x v x = v.
Proof. unfold set_home. destruct (decide (x = x)); congruence. Qed.

Lemma set_home_ne home x v y : y <> x -> set_home home x v y = home y.
Proof. intros H. unfold set_home. destruct (decide (y = x)); congruence. Qed.

Lemma set_rank_eq rank x v : set_rank rank x v x = v.
Proof. unfold set_rank. destruct (decide (x = x)); congruence. Qed.

Lemma set_rank_ne rank x v y : y <> x -> set_rank rank x v y = rank y.
Proof. intros H. unfold set_rank. destruct (decide (y = x)); congruence. Qed.

Lemma homed_not_null home rank p lv x b l :
  links home rank p lv -> home x = Some (b, l) -> x <> NULL_INDEX /\ 0 <= x.
Proof.
  intros (_ & N & _) H. destruct (N _ _ _ H) as (H1 & H2 & _). lia.
Qed.

(** the links of the homed records and the ends of the levels are all
    that the invariant reads *)
Lemma links_ext home rank p lv p' lv' :
  links home rank p lv ->
  pool_well_formed p' ->
  pool_size p <= pool_size p' ->
  (forall x, x ∈ ObjectPool.free_indices_ p' -> home x = None) ->
  (forall x b l, home x = Some (b, l) ->
     prev_of p' x = prev_of p x /\ next_of p' x = next_of p x) ->
  (forall b l,
     PriceLevel.head (lv' b l) = PriceLevel.head (lv b l) /\
     PriceLevel.tail (lv' b l) = PriceLevel.tail (lv b l)) ->
  links home rank p' lv'.
Proof.
  intros (W & N & L) W' Hsz Hfree Hlk Hlv.
  split; [exact W' |]. split.
  - intros x b l Hx.
    destruct (N _ _ _ Hx) as (A1 & A2 & A3 & A4 & A5 & A6 & A7 & A8).
    destruct (Hlk _ _ _ Hx) as [Ep En].
    destruct (Hlv b l) as [Eh Et].
    unfold node_linked. rewrite Ep, En, Eh, Et.
    split; [lia |]. split; [exact A2 |].
    split; [intros Hin; apply Hfree in Hin; congruence |].
    split; [exact A4 |]. split; [exact A5 |].
    split.
    { intros Hn. destruct (A6 Hn) as [B1 B2]. split; [exact B1 |].
      rewrite (proj2 (Hlk _ _ _ B1)). exact B2. }
    split; [exact A7 |].
    intros Hn. destruct (A8 Hn) as (B1 & B2 & B3). split; [exact B1 |].
    rewrite (proj1 (Hlk _ _ _ B1)). split; assumption.
  - intros b l. destruct (L b l) as (A1 & A2 & A3).
    destruct (Hlv b l) as [Eh Et].
    unfold level_linked. rewrite Eh, Et.
    split; [exact A1 |]. split.
    + intros Hn. destruct (A2 Hn) as [B1 B2]. split; [exact B1 |].
      rewrite (proj1 (Hlk _ _ _ B1)). exact B2.
    + intros Hn. destruct (A3 Hn) as [B1 B2]. split; [exact B1 |].
      rewrite (proj2 (Hlk _ _ _ B1)). exact B2.
Qed.

Lemma pool_well_formed_links_only p p' :
  links_only p p' -> pool_well_formed p -> pool_well_formed p'.
Proof.
  intros (Hs & Hf & _) (A & B & C). unfold pool_well_formed.
  rewrite Hs, Hf. split; [exact A |]. split; [exact B | exact C].
Qed.
